(* ===== verification/_CoqProject ===== *)
-Q . S2P
Prelude.v
PyValue.v
Json.v
Lines.v
Digest.v
Instances.v
Contract.v
DateTime.v
SortBy.v
TaskLifecycle.v
RetryIdentity.v
BoundedReconciliation.v
RetryService.v
WriterGeneration.v
EffectJournal.v
ModelCallResolution.v
BoundedDecision.v
WorkflowCheckpoint.v
HandoffLineage.v
CheckpointStore.v
EffectAuthorization.v
DeveloperFeedback.v
Placement.v
ExecutionPorts.v
EffectGate.v
ModelCallGate.v
Coordinator.v
CoordinatorProofs.v
Continuity.v
AttemptEvent.v
AttemptLog.v
EventBus.v
AttemptProjection.v
ContextBudget.v
ClaimBoundary.v
Replan.v
ReceiptBase.v
ReceiptAttach.v
ReplanGate.v
ContextStore.v
