(* ===== verification/Prelude.v ===== *)
(** * nexus-runtime: a verification library

    nexus-runtime drives a task of a software-engineering loop through attempts of a
    provider-backed worker.  Its core decides what may happen next -- may a repair
    round follow, may a task be retried, is a model call needed at all, may this effect
    start, may this session resume, on which host -- and keeps durable records that
    make each decision reproducible: content-hashed documents, an effect journal,
    checkpoints, chained logs.  This library models that core from the sources under
    [src/src/nexus_runtime/] and proves it.

    ** Parts and files

    - Prelude (this file): exceptions, the state-and-exception monad [prog], list lemmas.
    - PyValue, Json, Lines, Digest: Python values and builtins, the [json] module in both
      directions, lines of text files, SHA-256.  Instances: concrete instances for evaluation.
    - Contract: the validators the contract modules share.  DateTime: [datetime] as an
      interface.  SortBy: [sorted(items, key=...)].
    - TaskLifecycle ([task_lifecycle.py]), RetryIdentity ([task_retry/attempt_budget.py],
      [retry_identity.py]), BoundedReconciliation ([task_retry/bounded_reconciliation.py]),
      RetryService ([task_retry/retry_service.py], [ports.py]): after a verifier rejected an
      attempt, at most one repair round; a retry is a fresh attempt under a new identity.
    - ModelCallResolution, BoundedDecision
      ([execution_coordination/model_call_resolution.py], [bounded_decision.py]): can the
      structured state answer without a model, and if not, is the question a finite choice.
    - EffectAuthorization ([execution_coordination/effect_authorization.py]): the ceiling of
      effects granted from outside and its projection for one provider.
    - WriterGeneration, EffectJournal ([kernel/events/writer_generation.py],
      [effect_journal.py]): the current writer of a store, its lock, and the journal that
      makes an effect start at most once.
    - WorkflowCheckpoint, CheckpointStore ([workflow_checkpoint.py]) and HandoffLineage
      ([handoff_lineage.py]): the state of an attempt, its files, and the handoff to a
      successor attempt.
    - DeveloperFeedback ([kernel/feedback/contracts.py], the class
      [DeveloperFeedbackDecisionStore] of [kernel/events/log_store.py]): a hash-chained log.
    - Placement ([placement.py]): the choice of a host and the lease on it.
    - ExecutionPorts, EffectGate, ModelCallGate, Coordinator
      ([execution_coordination/coordinator.py], [ports.py]): an attempt from launch to
      finalization over host ports -- the escalation policy and the ports, the gates before
      a worker, the model-call gate, the loop.  CoordinatorProofs: their theorems.
    - AttemptEvent, AttemptLog, EventBus ([kernel/events/contracts.py], the class
      [JsonlEventLogStore] of [log_store.py], [NexusEventBus] of [transport.py]): the
      transitions of an attempt, the log that chains them, the bus that numbers them and
      calls observers.  AttemptProjection: from that log to Continuity.
    - Continuity ([task_context/continuity.py]): what an attempt has learnt, projected from
      its hash-chained events, resumed from a snapshot and joined with the task state.
    - ContextBudget ([task_context/budget.py]): which context sources fit a token budget.
    - ClaimBoundary ([planning/evidence/claim_boundary.py]): what a run may claim.
    - ReceiptBase, ReceiptAttach ([planning/evidence/receipt_base.py]): the hash graph of
      receipts and its validator; the base a finished run attaches to its receipt.
    - Replan, ReplanGate ([kernel/replan.py], [UnifiedRuntime.run_replan] of
      [kernel/unified_runtime.py]): the replan a failed verifier asks for, and the gate a
      second attempt must pass.
    - ContextStore ([context_store/]): items and checkpoints of sessions in a database, and
      the service that reads, searches and resumes them.

    The journal stands on the manifest and the lock; the checkpoint store on checkpoints
    and handoffs; a bounded decision on the verdict of the model-call seam; the retry
    service on the status sets and the attempt budget; the replan gate on receipt bases and
    the journal; receipt bases on claim boundaries.  Everything hashed goes through
    Json and Digest, and everything read back through Json's parser.

    ** Conventions

    An operation has the name of its function in the source.  Code that may raise returns
    [exn + A]; code with state is a [prog S A]: the state survives the exception, as it
    does in Python.  Host code behind a port is a parameter.  Times and floats are
    interfaces with the laws the code relies on ([DateTimes], [LeaseTimes], [FloatText]),
    and so is the hash ([Digest]).  No theorem assumes the hash injective: one that
    compares hashes concludes equality of the documents or exhibits the two texts that
    collide.  Exceptions are compared by class and, where the code fixes it, message.

    ** What is proved

    - Effects: started at most once and never before the PENDING and DISPATCHED records are
      on disk ([effect_started_at_most_once], [effect_recorded_before_start]); completed
      records are final; what [execute] does with a new and a known effect.
    - Resuming: a successor continues its predecessor's effects ([bind_continues_predecessor],
      [effects_recorded_once]); an interrupted bind completes when run again
      ([interrupted_bind_completes]), all three for ids and texts the readers take back as
      written (the example [padded_binding_is_lost] shows what padding does); when a
      read-back or a handoff is SAFE ([readback_safe_iff], [handoff_safe_iff],
      [resume_disposition_table]); the walk along the chain of handoffs ends
      ([chain_found_or_refused]).
    - Attempts, whatever the host does: no worker runs without the authority, nor with more
      than it grants ([worker_needs_authority], [durable_authorization_kept]); receipts stay
      within the budgets ([receipts_within_budget]); the loop ends ([attempt_terminates]);
      what replaces a model, when a provider is escalated to, how a failure is finalized
      (unless terminating its processes fails) and that a launch starts one owner.
    - Events: the log implements the histories it acknowledges ([append_implements]); a
      record is on disk before an observer is called ([publish_before_observers]); the number
      the bus offers is accepted ([next_sequence_accepted]), unless another process wrote
      ([stale_numbers_refused]); a write one byte short poisons the log
      ([unterminated_record_poisons]); what an attempt logged projects
      ([logged_attempt_projects]).
    - Continuity: resuming a snapshot with a tail is projecting the whole stream
      ([resume_is_projection]); the root hash determines the stream
      ([root_determines_stream]); a rejected strategy is never forgotten
      ([rejected_strategy_never_forgotten]); when a session is rehydrated
      ([rehydration_iff]).
    - Receipts: the hash of a strictly valid receipt binds the run when its children are
      listed ([receipt_hash_binds]); otherwise the only stage of a receipt can be swapped
      under the same hash ([single_stage_unbound]), and so can its attempt by an empty one
      (example [emptied_attempt_valid]); what a run attaches is valid
      ([attached_receipt_valid]).
    - Replanning: a request follows the verifier ([replan_request_decided]) and its id binds
      the evidence ([request_id_binds]); a second attempt runs only when trusted evidence
      warrants it and, in the journal given, every effect of the first is settled
      ([replan_warranted]).
    - Claims and context: no producer unlocks a claim ([producer_cannot_unlock]), a claim
      needs an execution ([attested_eligible_iff]); what a context budget keeps and drops
      ([budget_receipt_decided], [validator_agrees_with_receipt]).
    - Context store: sound after any operations ([store_stays_sound]), bounded
      ([store_bounded]); an ingest happens once ([ingest_exactly_once]) and is read back
      ([item_reads_back]), in its scope only ([read_isolated]); pages are complete
      ([pages_complete]); resuming gives the latest checkpoint ([resume_latest]).
    - Authority: a projection never widens its authorization, nor is made of an edited one
      ([projection_never_widens]); the hash of a packet identifies it
      ([packet_hash_identifies]) and a response cannot leave its packet; a fault of the
      resolver leaves the model path; no feedback claims authority.
    - Retries: one repair round; a submission only for an authorised state, with a fresh
      identity; which exceptions escape.
    - Placement: the best eligible host, whatever the order of the inventory; when a lease
      is current.
    - Writers: generations strictly advance, compare-and-swap; mutual exclusion of the store
      lock, for threads that nest blocks and fork inside them ([lock_mutual_exclusion]).
    - Records: round trips through their files and tamper evidence; histories with the same
      tail are the same history; a torn append is detected.

    ** Bounds and fuel

    The JSON parser runs with fuel one more than the length of its text, which its
    round-trip theorems show is enough; [issubclass] with 5, one more than the longest path
    of the hierarchy; the walk of the handoff chain with one more than the number of files,
    which [chain_found_or_refused] shows is enough; the loop of an attempt with two turns per
    provider call its contract allows and two more, which [attempt_terminates] shows is
    enough when failing workers report their calls (the example [uncharged_receipts_run_on]
    is a host that does not, whose loop never ends).  SHA-256 works on 32-bit words as [Z]
    with the wrap-around written out.  The size limits of the code ([MAX_RECORDS],
    [MAX_BYTES], ...) are its own constants.

    ** Not modelled

    Within the modelled files: characters beyond U+00FF and bytes that are not UTF-8; I/O
    errors, lock time-outs, directories, lock and temporary files; the exact messages of
    the [json] module; the limits of the interpreter on digits and recursion; object
    identity of deep copies; of an attempt, the heartbeat thread, the process-group callback
    and the aliasing of the list of receipts the host is given.  The manifest lists the other parts of the repository with
    the reason each is left out: the planner's text matching, the stages that call
    providers, memory and context adapters, probes of the operating system.

    ** Plan

    Next, in this order: the child receipts of [receipt_base.py], the sources and the
    assembly of task contexts, workforce admission, the execution state store, evidence
    bundles. *)
From Stdlib Require Export ZArith Lia.
From stdpp Require Export base tactics sorting gmap strings option list_monad list.

#[global] Open Scope stdpp_scope.
#[global] Arguments Nat.ltb : simpl never.
#[export] Set Warnings "-clear-no-such-hyp,-register-all".

(** ** Exceptions

    One constructor per exception class the modelled modules raise, catch or let
    through; [OtherException name] is an [Exception] subclass raised by host code
    behind a port and [OtherBaseException name] a [BaseException] that is not an
    [Exception] ([KeyboardInterrupt], [SystemExit]). *)
Inductive exn_class : Set :=
| ExceptionC | ValueError | TypeError | ArithmeticError | OverflowError
| LookupError | KeyError | IndexError | AttributeError | RuntimeError | OSError
| BoundedReconciliationError | BoundedDecisionError | EffectAuthorizationError
| ModelCallResolutionError | CheckpointError | CheckpointConflict | HandoffLineageError
| EffectJournalError | EffectIdentityMismatch | GenerationError | GenerationConflict
| MissingRetryBindingError | MissingExecutionBindingError
| PlacementError | InvalidHostSnapshot | NoEligibleHost | InvalidPlacementLease
| UnicodeDecodeError | PermissionError | IntegrityError | IdempotencyConflict | QuotaExceeded
| OtherException (name : string) | OtherBaseException (name : string).

#[export] Instance exn_class_eq_dec : EqDecision exn_class.
Proof. solve_decision. Defined.

(** The direct base class, [None] for a root of the hierarchy. *)
Definition exn_parent (c : exn_class) : option exn_class :=
  match c with
  | ExceptionC | OtherBaseException _ => None
  | OverflowError => Some ArithmeticError
  | KeyError | IndexError => Some LookupError
  | BoundedReconciliationError | BoundedDecisionError | EffectAuthorizationError
  | ModelCallResolutionError | CheckpointError | PlacementError | UnicodeDecodeError
  | IntegrityError | IdempotencyConflict | QuotaExceeded => Some ValueError
  | PermissionError => Some OSError
  | InvalidHostSnapshot | NoEligibleHost | InvalidPlacementLease => Some PlacementError
  | CheckpointConflict | HandoffLineageError => Some CheckpointError
  | EffectJournalError | GenerationError | MissingRetryBindingError
  | MissingExecutionBindingError => Some RuntimeError
  | EffectIdentityMismatch => Some EffectJournalError
  | GenerationConflict => Some GenerationError
  | _ => Some ExceptionC
  end.

(** [issubclass(c, d)]; no modelled class is more than four steps from its root. *)
Fixpoint exn_sub_fuel (fuel : nat) (c d : exn_class) : bool :=
  bool_decide (c = d) ||
  match fuel with
  | O => false
  | S fuel => match exn_parent c with Some p => exn_sub_fuel fuel p d | None => false end
  end.
Definition exn_sub : exn_class → exn_class → bool := exn_sub_fuel 5.

(** [type(exc).__name__]. *)
Definition exn_class_name (c : exn_class) : string :=
  match c with
  | ExceptionC => "Exception" | ValueError => "ValueError" | TypeError => "TypeError"
  | ArithmeticError => "ArithmeticError" | OverflowError => "OverflowError"
  | LookupError => "LookupError" | KeyError => "KeyError"
  | IndexError => "IndexError"
  | AttributeError => "AttributeError" | RuntimeError => "RuntimeError"
  | OSError => "OSError"
  | BoundedReconciliationError => "BoundedReconciliationError"
  | BoundedDecisionError => "BoundedDecisionError"
  | EffectAuthorizationError => "EffectAuthorizationError"
  | ModelCallResolutionError => "ModelCallResolutionError"
  | CheckpointError => "CheckpointError" | CheckpointConflict => "CheckpointConflict"
  | HandoffLineageError => "HandoffLineageError"
  | EffectJournalError => "EffectJournalError"
  | EffectIdentityMismatch => "EffectIdentityMismatch"
  | GenerationError => "GenerationError" | GenerationConflict => "GenerationConflict"
  | MissingRetryBindingError => "MissingRetryBindingError"
  | MissingExecutionBindingError => "MissingExecutionBindingError"
  | PlacementError => "PlacementError" | InvalidHostSnapshot => "InvalidHostSnapshot"
  | NoEligibleHost => "NoEligibleHost" | InvalidPlacementLease => "InvalidPlacementLease"
  | UnicodeDecodeError => "UnicodeDecodeError" | PermissionError => "PermissionError"
  | IntegrityError => "IntegrityError" | IdempotencyConflict => "IdempotencyConflict"
  | QuotaExceeded => "QuotaExceeded"
  | OtherException n | OtherBaseException n => n
  end.

Record exn : Set := Exn { exn_type : exn_class; exn_msg : string }.

#[export] Instance exn_eq_dec : EqDecision exn.
Proof. solve_decision. Defined.

(** [isinstance(e, c)]. *)
Definition exn_is (c : exn_class) (e : exn) : bool := exn_sub (exn_type e) c.

#[global] Arguments exn_is : simpl never.

(** ** Results: a value or a raised exception *)
Inductive result (A : Type) : Type := Ok (a : A) | Err (e : exn).
Arguments Ok {A} a.
Arguments Err {A} e.

#[export] Instance result_eq_dec {A} `{EqDecision A} : EqDecision (result A).
Proof. solve_decision. Defined.

#[export] Instance result_ret : MRet result := λ A a, Ok a.
#[export] Instance result_bind : MBind result := λ A B f m,
  match m with Ok a => f a | Err e => Err e end.
#[export] Instance result_fmap : FMap result := λ A B f m,
  match m with Ok a => Ok (f a) | Err e => Err e end.

Definition is_ok {A} (m : result A) : bool :=
  match m with Ok _ => true | Err _ => false end.

(** [raise c(msg)]. *)
Definition raise {A} (c : exn_class) (msg : string) : result A := Err (Exn c msg).

(** [if b: raise c(msg)]. *)
Definition raise_if (b : bool) (c : exn_class) (msg : string) : result unit :=
  if b then raise c msg else Ok ().

(** [try: m except c as e: h e]. *)
Definition catch {A} (m : result A) (c : exn_class) (h : exn → result A) : result A :=
  match m with
  | Ok a => Ok a
  | Err e => if exn_is c e then h e else Err e
  end.

(** [tuple(f(x) for x in l)]: the first exception stops the iteration. *)
Fixpoint mapM_result {A B} (f : A → result B) (l : list A) : result (list B) :=
  match l with
  | [] => Ok []
  | x :: l => y ← f x; ys ← mapM_result f l; Ok (y :: ys)
  end.

(** ** Stateful programs: a state threaded through operations that may raise

    An exception keeps the state reached when it was raised: a file written before
    the [raise] stays written. *)
Definition prog (S A : Type) : Type := S → result A * S.
#[export] Instance prog_ret {S} : MRet (prog S) := λ A a s, (Ok a, s).
#[export] Instance prog_bind {S} : MBind (prog S) := λ A B f m s,
  match m s with
  | (Ok a, s') => f a s'
  | (Err e, s') => (Err e, s')
  end.
(** [try: m except c as e: h e], for a stateful [m]; the state reached is kept. *)
Definition catch_prog {S A} (c : exn_class) (m : prog S A) (h : exn → prog S A) : prog S A := λ s,
  match m s with
  | (Ok a, s') => (Ok a, s')
  | (Err e, s') => if exn_is c e then h e s' else (Err e, s')
  end.
(** [try: m except BaseException as e: ...], as the outcome of [m]. *)
Definition attempt {S A} (m : prog S A) : prog S (result A) := λ s, let '(r, s') := m s in (Ok r, s').
Definition lift {S A} (m : result A) : prog S A := λ s, (m, s).
Definition get_state {S} : prog S S := λ s, (Ok s, s).
Definition put_state {S} (s : S) : prog S unit := λ _, (Ok (), s).
Definition modify_state {S} (f : S → S) : prog S unit := λ s, (Ok (), f s).

(** ** Lemmas on results *)
Lemma bind_Ok_inv {A B} (m : result A) (f : A → result B) b : (m ≫= f) = Ok b → ∃ a, m = Ok a ∧ f a = Ok b.
Proof. destruct m; cbn; [eauto|done]. Qed.

Lemma bind_Err_inv {A B} (m : result A) (f : A → result B) e :
  (m ≫= f) = Err e → m = Err e ∨ ∃ a, m = Ok a ∧ f a = Err e.
Proof. destruct m; cbn; [eauto|]. intros [= ->]. by left. Qed.

Lemma raise_if_Ok_inv b c msg u : raise_if b c msg = Ok u → b = false.
Proof. by destruct b. Qed.

Lemma raise_if_err b c msg e : raise_if b c msg = Err e → exn_type e = c.
Proof. by destruct b; cbn; [intros [= <-]|]. Qed.

Lemma raise_if_false b c msg : b = false → raise_if b c msg = Ok ().
Proof. by intros ->. Qed.

Lemma catch_Ok_inv {A} (m : result A) c h a :
  catch m c h = Ok a → m = Ok a ∨ ∃ e, m = Err e ∧ exn_is c e = true ∧ h e = Ok a.
Proof. destruct m as [|e]; cbn; [by left|]. case_match; [|done]. eauto. Qed.

Lemma mapM_result_Ok_inv {A B} (f : A → result B) l k :
  mapM_result f l = Ok k → Forall2 (λ x y, f x = Ok y) l k.
Proof.
  revert k. induction l as [|x l IH]; intros k; cbn.
  - intros [= <-]. constructor.
  - intros (y & Hy & (ys & Hys & [= <-])%bind_Ok_inv)%bind_Ok_inv. constructor; auto.
Qed.

Lemma mapM_result_Forall2 {A B} (f : A → result B) l k :
  Forall2 (λ x y, f x = Ok y) l k → mapM_result f l = Ok k.
Proof. induction 1 as [|x y l k Hx _ IH]; cbn; [done|]. by rewrite Hx; cbn; rewrite IH. Qed.

(** The first failing item is the failure. *)
Lemma mapM_result_err {A B} (f : A → result B) (P : exn → Prop) l e :
  (∀ x e, f x = Err e → P e) → mapM_result f l = Err e → P e.
Proof.
  intros Hf. induction l as [|x l IH]; cbn; [done|].
  intros [?|(? & _ & [?|(? & _ & ?)]%bind_Err_inv)]%bind_Err_inv; eauto; done.
Qed.

Lemma mapM_result_length {A B} (f : A → result B) l k :
  mapM_result f l = Ok k → length k = length l.
Proof. intros ?%mapM_result_Ok_inv%Forall2_length. done. Qed.

Lemma mapM_result_id {A} (f : A → result A) l :
  Forall (λ x, f x = Ok x) l → mapM_result f l = Ok l.
Proof. induction 1 as [|x l Hx _ IH]; cbn; [done|]. by rewrite Hx; cbn; rewrite IH. Qed.

(** ** Lists *)
Lemma filter_nil {A} (p : A → bool) l : List.filter p l = [] ↔ ∀ x, x ∈ l → p x = false.
Proof.
  split.
  - intros E x Hx%list_elem_of_In. destruct (p x) eqn:Hp; [|done].
    assert (In x (List.filter p l)) as Hin by by apply filter_In. by rewrite E in Hin.
  - intros Hl. induction l as [|x l IH]; [done|]. cbn. rewrite Hl by by left. apply IH. intros. apply Hl. by right.
Qed.
Lemma filter_perm {A} (p : A → bool) l k : l ≡ₚ k → List.filter p l ≡ₚ List.filter p k.
Proof.
  induction 1 as [|x l k _ IH|x y l|l k m _ IH1 _ IH2]; cbn; [done|by case_match; [constructor|]| |by etrans].
  repeat case_match; try done. constructor.
Qed.
Lemma NoDup_map_filter {A} (key : A → string) (p : A → bool) l :
  NoDup (map key l) → NoDup (map key (List.filter p l)).
Proof.
  induction l as [|x l IH]; cbn; [done|]. intros [Hx Hl]%NoDup_cons. case_match; [|auto]. cbn.
  apply NoDup_cons. split; [|auto]. contradict Hx. apply list_elem_of_In, in_map_iff in Hx as (y & <- & Hy).
  apply filter_In in Hy as [Hy _]. by apply list_elem_of_In, in_map.
Qed.
Lemma mapM_result_total {A B} (f : A → result B) l : (∀ x, x ∈ l → ∃ y, f x = Ok y) →
  ∃ k, mapM_result f l = Ok k ∧ length k = length l.
Proof.
  intros Hf. induction l as [|x l IH]; [by exists []|]. destruct (Hf x) as [y Hy]; [by left|].
  destruct IH as (k & Hk & Hl); [intros; apply Hf; by right|]. exists (y :: k). cbn. rewrite Hy. cbn. rewrite Hk. cbn. auto.
Qed.
Lemma mapM_result_perm {A B} (f : A → result B) l l' k :
  l ≡ₚ l' → mapM_result f l = Ok k → ∃ k', mapM_result f l' = Ok k' ∧ k ≡ₚ k'.
Proof.
  intros Hp. revert k. induction Hp as [|x l l' _ IH|x y l|l l' l'' _ IH1 _ IH2]; intros k.
  - intros Hk. exists k. done.
  - cbn. intros (a & -> & (b & Hb & [= <-])%bind_Ok_inv)%bind_Ok_inv.
    destruct (IH _ Hb) as (k' & -> & ?). exists (a :: k'). split; [done|by constructor].
  - cbn. intros (a & -> & (b & (c & -> & (e & -> & [= <-])%bind_Ok_inv)%bind_Ok_inv & [= <-])%bind_Ok_inv)%bind_Ok_inv.
    exists (c :: a :: e). split; [done|constructor].
  - intros (k1 & Hk1 & ?)%IH1. destruct (IH2 _ Hk1) as (k2 & Hk2 & ?).
    exists k2. split; [done|]. by etrans.
Qed.
Lemma mapM_result_permutes {A B} (f : A → result B) l l' : l ≡ₚ l' → Forall (λ x, is_ok (f x) = true) l →
  ∃ k k', mapM_result f l = Ok k ∧ mapM_result f l' = Ok k' ∧ k ≡ₚ k'.
Proof.
  intros Hp Ha. destruct (mapM_result_total f l) as (k & Hk & _).
  { intros x Hx. rewrite Forall_forall in Ha. specialize (Ha x Hx). destruct (f x); [eauto|done]. }
  destruct (mapM_result_perm f _ _ _ Hp Hk) as (k' & ? & ?). eauto.
Qed.
(** [find] in a list extended by a match. *)
Lemma find_app_none {A} (p : A → bool) l x : List.find p l = None → p x = true → List.find p (l ++ [x]) = Some x.
Proof. induction l as [|y l IH]; cbn; intros Hl Hx; [by rewrite Hx|]. destruct (p y); [done|auto]. Qed.


(** ** Tactics

    [run_ok H] takes apart a computation known to have returned; [steps] reduces a
    bind whose computation is rewritten by a hypothesis. *)
Ltac run_ok_step H :=
  match type of H with
  | (_ ≫= _) = Ok _ =>
      let a := fresh "a" in let Ha := fresh "Hok" in
      apply bind_Ok_inv in H as (a & Ha & H); cbn beta iota zeta in H; try run_ok_step Ha
  | raise_if _ _ _ = Ok _ => apply raise_if_Ok_inv in H
  | Ok _ = Ok _ => injection H as H
  | Err _ = Ok _ => discriminate H
  | raise _ _ = Ok _ => discriminate H
  end.
Ltac run_ok H := repeat run_ok_step H.
(** Run the steps of a program. *)
Ltac run_prog :=
  cbv delta [get_state put_state modify_state lift mret prog_ret mbind prog_bind] beta iota zeta.

(** Split the match or conditional the goal (or hypothesis) is stuck on. *)
Ltac case_all :=
  repeat match goal with
    | |- context [match ?x with _ => _ end] =>
        lazymatch x with context [match _ with _ => _ end] => fail | _ => destruct x eqn:? end
    end.

Create HintDb nexus discriminated.
#[export] Hint Resolve mapM_result_Forall2 mapM_result_id : nexus.
