(* ===== verification/PyValue.v ===== *)
(** * Python values and the builtins the runtime applies to them

    The dynamically typed values that cross the module boundaries of the runtime
    (decoded JSON documents, mappings handed over by callers, payloads about to be
    hashed), with the builtins the sources use on them: [str.strip], [upper],
    [lower], [startswith], slicing, [sorted], [set], [dict.fromkeys], truth values,
    [==], [str()], [repr()] and [int()].

    A string is a sequence of code points below 256.  All operations are exact on
    that range except that [upper] leaves U+00B5 and U+00FF alone (their upper case
    lies outside the range).  Mappings have string keys and keep insertion order,
    as JSON objects do; [PObj] is any other object, known by its type name and its
    [str()]. *)
From Stdlib Require Import Ascii String SpecFloat DecimalString DecimalZ.
From Stdlib Require DecimalFacts.
From S2P Require Import Prelude.

(** ** Strings *)
Definition code (c : ascii) : N := N_of_ascii c.

(** [str.isspace] on one code point below 256. *)
Definition is_space (c : ascii) : bool :=
  let n := code c in
  ((9 <=? n) && (n <=? 13) || (28 <=? n) && (n <=? 32) || (n =? 133) || (n =? 160))%N.

Fixpoint lstrip (s : string) : string :=
  match s with
  | EmptyString => EmptyString
  | String c s' => if is_space c then lstrip s' else s
  end.
Fixpoint rstrip (s : string) : string :=
  match s with
  | EmptyString => EmptyString
  | String c s' =>
      let r := rstrip s' in
      if is_space c && String.eqb r EmptyString then EmptyString else String c r
  end.
(** [s.strip()]. *)
Definition strip (s : string) : string := rstrip (lstrip s).
(** [not s.strip()]. *)
Definition blank (s : string) : bool := String.eqb (strip s) EmptyString.

Definition lower_char (c : ascii) : ascii :=
  let n := code c in
  if ((65 <=? n) && (n <=? 90) || (192 <=? n) && (n <=? 222) && negb (n =? 215))%N
  then ascii_of_N (n + 32) else c.
Definition upper_char (c : ascii) : string :=
  let n := code c in
  if (n =? 223)%N then "SS"
  else if ((97 <=? n) && (n <=? 122) || (224 <=? n) && (n <=? 254) && negb (n =? 247))%N
  then String (ascii_of_N (n - 32)) EmptyString
  else String c EmptyString.
Fixpoint lower (s : string) : string :=
  match s with EmptyString => EmptyString | String c s => String (lower_char c) (lower s) end.
Fixpoint upper (s : string) : string :=
  match s with EmptyString => EmptyString | String c s => upper_char c +:+ upper s end.

(** [s.startswith(p)]. *)
Fixpoint starts_with (p s : string) : bool :=
  match p, s with
  | EmptyString, _ => true
  | String a p, String b s => Ascii.eqb a b && starts_with p s
  | _, _ => false
  end.
(** [s[n:]]. *)
Fixpoint str_drop (n : nat) (s : string) : string :=
  match n, s with S n, String _ s => str_drop n s | _, _ => s end.
(** [s[:n]]. *)
Fixpoint str_take (n : nat) (s : string) : string :=
  match n, s with
  | S n, String c s => String c (str_take n s)
  | _, _ => EmptyString
  end.
(** [p in s]. *)
Fixpoint str_contains (p s : string) : bool :=
  starts_with p s ||
  match s with EmptyString => false | String _ s => str_contains p s end.
(** [s.split(sep, 1)[0]]. *)
Fixpoint before_first (sep s : string) : string :=
  if starts_with sep s then EmptyString
  else match s with EmptyString => EmptyString | String c s => String c (before_first sep s) end.
Fixpoint str_forallb (p : ascii → bool) (s : string) : bool :=
  match s with EmptyString => true | String c s => p c && str_forallb p s end.
(** [sep.join(l)]. *)
Fixpoint str_join (sep : string) (l : list string) : string :=
  match l with
  | [] => EmptyString
  | [s] => s
  | s :: l => s +:+ sep +:+ str_join sep l
  end.

(** [sorted(l)] and [sorted(set(l))] on strings: code point order. *)
Definition sort_strings (l : list string) : list string := merge_sort String.le l.
Definition sort_unique (l : list string) : list string := sort_strings (remove_dups l).
(** [len(set(l)) != len(l)]. *)
Definition has_dups (l : list string) : bool := bool_decide (¬ NoDup l).
(** [tuple(dict.fromkeys(l))]: first occurrences, in order. *)
Fixpoint from_keys_acc (seen l : list string) : list string :=
  match l with
  | [] => []
  | x :: l =>
      if bool_decide (x ∈ seen) then from_keys_acc seen l
      else x :: from_keys_acc (x :: seen) l
  end.
Definition from_keys : list string → list string := from_keys_acc [].
(** [set(a) == set(b)]. *)
Definition same_set (a b : list string) : bool :=
  bool_decide (Forall (.∈ b) a) && bool_decide (Forall (.∈ a) b).

(** ** Dictionaries with string keys, in insertion order *)
Section dict.
Context {A : Type}.
Implicit Types (d : list (string * A)).

Definition keys d : list string := map fst d.
Fixpoint dict_get (k : string) d : option A :=
  match d with
  | [] => None
  | (k', v) :: d => if String.eqb k k' then Some v else dict_get k d
  end.
(** [d[k] = v]: in place when the key is present, at the end otherwise. *)
Fixpoint dict_set (k : string) (v : A) d : list (string * A) :=
  match d with
  | [] => [(k, v)]
  | (k', v') :: d =>
      if String.eqb k k' then (k', v) :: d else (k', v') :: dict_set k v d
  end.
(** [d.pop(k, None)]. *)
Fixpoint dict_del (k : string) d : list (string * A) :=
  match d with
  | [] => []
  | (k', v') :: d => if String.eqb k k' then d else (k', v') :: dict_del k d
  end.
Definition has_key (k : string) d : bool :=
  match dict_get k d with Some _ => true | None => false end.
(** [dict(pairs)]: a later pair overwrites an earlier one. *)
Definition dict_of (l : list (string * A)) : list (string * A) :=
  foldl (λ d kv, dict_set kv.1 kv.2 d) [] l.
(** [{**a, **b}]. *)
Definition dict_merge (a b : list (string * A)) : list (string * A) :=
  foldl (λ d kv, dict_set kv.1 kv.2 d) a b.
(** [set(d) == ks]. *)
Definition keys_are (ks : list string) d : bool := same_set (keys d) ks.
End dict.

(** ** Values *)
Inductive pyval : Type :=
| PNone
| PBool (b : bool)
| PInt (n : Z)
| PFloat (f : spec_float)
| PStr (s : string)
| PList (l : list pyval)
| PTuple (l : list pyval)
| PDict (d : list (string * pyval))
| PObj (type_name text : string).

(** A [dict] of values. *)
Abbreviation dict := (list (string * pyval)).

Section pyval_induction.
Context (P : pyval → Prop)
  (HNone : P PNone) (HBool : ∀ b, P (PBool b)) (HInt : ∀ n, P (PInt n))
  (HFloat : ∀ f, P (PFloat f)) (HStr : ∀ s, P (PStr s))
  (HList : ∀ l, Forall P l → P (PList l)) (HTuple : ∀ l, Forall P l → P (PTuple l))
  (HDict : ∀ d, Forall (λ kv, P kv.2) d → P (PDict d))
  (HObj : ∀ t s, P (PObj t s)).
Fixpoint pyval_ind' (v : pyval) : P v :=
  let list_case := fix go (l : list pyval) : Forall P l :=
    match l with
    | [] => List.Forall_nil _
    | x :: l => List.Forall_cons _ _ _ (pyval_ind' x) (go l)
    end in
  match v with
  | PNone => HNone | PBool b => HBool b | PInt n => HInt n
  | PFloat f => HFloat f | PStr s => HStr s
  | PList l => HList l (list_case l)
  | PTuple l => HTuple l (list_case l)
  | PDict d => HDict d ((fix go (d : list (string * pyval)) : Forall (λ kv, P kv.2) d :=
      match d with
      | [] => List.Forall_nil _
      | kv :: d => List.Forall_cons _ _ _ (pyval_ind' kv.2) (go d)
      end) d)
  | PObj t s => HObj t s
  end.
End pyval_induction.

(** [isinstance(v, Mapping)], [isinstance(v, str)], [isinstance(v, int) and not bool],
    [isinstance(v, Sequence) and not isinstance(v, (str, bytes, bytearray))]. *)
Definition is_mapping (v : pyval) : bool := match v with PDict _ => true | _ => false end.
Definition is_str (v : pyval) : bool := match v with PStr _ => true | _ => false end.
Definition is_none (v : pyval) : bool := match v with PNone => true | _ => false end.
Definition as_array (v : pyval) : option (list pyval) :=
  match v with PList l | PTuple l => Some l | _ => None end.

(** [d.get(k)]. *)
Definition py_get (d : list (string * pyval)) (k : string) : pyval :=
  default PNone (dict_get k d).

(** [l[-limit:]]. *)
Definition last_items {A} (limit : Z) (l : list A) : list A :=
  let start := (- limit)%Z in
  let start := if (start <? 0)%Z then Z.max 0 (start + Z.of_nat (length l)) else start in
  drop (Z.to_nat start) l.

(** [list(l)] for strings; [s | None]; [n | None]. *)
Definition str_list (l : list string) : pyval := PList (map PStr l).
Definition opt_str (o : option string) : pyval := match o with Some s => PStr s | None => PNone end.
Definition opt_int (o : option Z) : pyval := match o with Some n => PInt n | None => PNone end.

(** [bool(v)]. *)
Definition truthy (v : pyval) : bool :=
  match v with
  | PNone => false
  | PBool b => b
  | PInt n => negb (n =? 0)%Z
  | PFloat (S754_zero _) => false
  | PFloat _ => true
  | PStr s => negb (String.eqb s EmptyString)
  | PList l | PTuple l => match l with [] => false | _ => true end
  | PDict d => match d with [] => false | _ => true end
  | PObj _ _ => true
  end.

(** [type(v).__name__]. *)
Definition type_name_of (v : pyval) : string :=
  match v with
  | PNone => "NoneType" | PBool _ => "bool" | PInt _ => "int" | PFloat _ => "float"
  | PStr _ => "str" | PList _ => "list" | PTuple _ => "tuple" | PDict _ => "dict"
  | PObj t _ => t
  end.
(** [v.get(...)], [v.items()], ... on a value that should be a mapping. *)
Definition as_mapping (v : pyval) (attr : string) : result (list (string * pyval)) :=
  match v with
  | PDict d => Ok d
  | _ => raise AttributeError ("'" +:+ type_name_of v +:+ "' object has no attribute '" +:+ attr +:+ "'")
  end.
(** [len(v)]. *)
Definition py_len (v : pyval) : result nat :=
  match v with
  | PStr s => Ok (String.length s)
  | PList l | PTuple l => Ok (length l)
  | PDict d => Ok (length d)
  | _ => raise TypeError ("object of type '" +:+ type_name_of v +:+ "' has no len()")
  end.

(** [a or b]. *)
Definition py_or (a b : pyval) : pyval := if truthy a then a else b.

(** ** Equality *)
(** The integer a float equals, if any. *)
Definition float_int (f : spec_float) : option Z :=
  match f with
  | S754_zero _ => Some 0%Z
  | S754_finite s m e =>
      let m := if s then Z.neg m else Z.pos m in
      if (0 <=? e)%Z then Some (m * 2 ^ e)%Z
      else if (m mod 2 ^ (- e) =? 0)%Z then Some (m / 2 ^ (- e))%Z else None
  | _ => None
  end.
Definition b2z (b : bool) : Z := if b then 1%Z else 0%Z.
Definition int_float_eq (n : Z) (f : spec_float) : bool :=
  bool_decide (float_int f = Some n).

(** [a == b]. *)
Fixpoint py_eq (v w : pyval) {struct v} : bool :=
  let list_eq := fix go (l l' : list pyval) {struct l} : bool :=
    match l, l' with
    | [], [] => true
    | x :: l, y :: l' => py_eq x y && go l l'
    | _, _ => false
    end in
  match v, w with
  | PNone, PNone => true
  | PBool a, PBool b => Bool.eqb a b
  | PBool a, PInt n | PInt n, PBool a => (b2z a =? n)%Z
  | PInt a, PInt b => (a =? b)%Z
  | PBool a, PFloat f | PFloat f, PBool a => int_float_eq (b2z a) f
  | PInt n, PFloat f | PFloat f, PInt n => int_float_eq n f
  | PFloat f, PFloat g => SFeqb f g
  | PStr a, PStr b => String.eqb a b
  | PList a, PList b | PTuple a, PTuple b => list_eq a b
  | PDict a, PDict b =>
      Nat.eqb (length a) (length b) &&
      (fix go (a : list (string * pyval)) : bool :=
         match a with
         | [] => true
         | (k, x) :: a =>
             match dict_get k b with Some y => py_eq x y | None => false end && go a
         end) a
  | PObj t s, PObj t' s' => String.eqb t t' && String.eqb s s'
  | _, _ => false
  end.

(** ** Iteration *)
(** The characters of a string. *)
Fixpoint str_chars (s : string) : list pyval :=
  match s with EmptyString => [] | String c s => PStr (String c EmptyString) :: str_chars s end.
(** [tuple(v)]. *)
Definition py_tuple (v : pyval) : result (list pyval) :=
  match v with
  | PStr s => Ok (str_chars s)
  | PList l | PTuple l => Ok l
  | PDict d => Ok (map (λ kv, PStr kv.1) d)
  | _ => raise TypeError ("'" +:+ type_name_of v +:+ "' object is not iterable")
  end.
(** [hash(v)] succeeds. *)
Fixpoint hashable (v : pyval) : bool :=
  match v with PList _ | PDict _ => false | PTuple l => forallb hashable l | _ => true end.
(** One element of the sequence given to [dict]. *)
Definition dict_pair (v : pyval) : result (pyval * pyval) :=
  match py_tuple v with
  | Ok [k; x] => if hashable k then Ok (k, x) else raise TypeError "unhashable type"
  | Ok _ => raise ValueError "dictionary update sequence element has the wrong length; 2 is required"
  | Err _ => raise TypeError "cannot convert dictionary update sequence element to a sequence"
  end.
Fixpoint assoc_set (k x : pyval) (d : list (pyval * pyval)) : list (pyval * pyval) :=
  match d with
  | [] => [(k, x)]
  | (k', x') :: d => if py_eq k' k then (k', x) :: d else (k', x') :: assoc_set k x d
  end.
(** [dict(v).items()]. *)
Definition py_dict_items (v : pyval) : result (list (pyval * pyval)) :=
  match v with
  | PDict d => Ok (map (λ kv, (PStr kv.1, kv.2)) d)
  | _ => l ← py_tuple v; ps ← mapM_result dict_pair l;
         Ok (foldl (λ d kv, assoc_set kv.1 kv.2 d) [] ps)
  end.

(** [v == s] for a string constant. *)
Definition is_text (v : pyval) (s : string) : bool := py_eq v (PStr s).
(** [v in {...}] for a set of string constants. *)
Definition text_in (s : string) (l : list string) : bool := bool_decide (s ∈ l).
(** [v in frozenset(names)]: an unhashable value raises. *)
Definition in_text_set (v : pyval) (names : list string) : result bool :=
  match v with
  | PStr s => Ok (text_in s names)
  | PList _ | PDict _ => raise TypeError ("unhashable type: '" +:+ type_name_of v +:+ "'")
  | _ => Ok false
  end.
(** The text of a string value. *)
Definition text_of (v : pyval) : string := match v with PStr s => s | _ => EmptyString end.

(** [dict(v)], the keys being strings. *)
Definition py_dict (v : pyval) : result dict :=
  match v with
  | PDict d => Ok d
  | _ => items ← py_dict_items v; Ok (dict_of (map (λ kv, (text_of kv.1, kv.2)) items))
  end.

(** ** Numbers as text *)
Definition is_digit (c : ascii) : bool := let n := code c in ((48 <=? n) && (n <=? 57))%N.
(** The longest prefix of characters satisfying [p], and the rest. *)
Fixpoint str_span (p : ascii → bool) (s : string) : string * string :=
  match s with
  | EmptyString => (EmptyString, EmptyString)
  | String c r =>
      if p c then let '(d, t) := str_span p r in (String c d, t) else (EmptyString, s)
  end.
Definition span_digits : string → string * string := str_span is_digit.

(** [str(n)]; the decimal text of an integer. *)
Definition int_text (n : Z) : string := NilZero.string_of_int (Z.to_int n).
Definition int_of_digits (s : string) : option Z :=
  Z.of_int <$> NilZero.int_of_string s.

(** A JSON number with a fraction or an exponent: an optional minus sign, an integer
    part without leading zeros, then a fraction, an exponent, or both.  The first
    two conjuncts follow from the third; the lexer uses them on their own. *)
Definition num_char (c : ascii) : bool :=
  let n := code c in
  is_digit c || ((n =? 43) || (n =? 45) || (n =? 46) || (n =? 69) || (n =? 101))%N.
Definition starts_number (s : string) : bool :=
  match s with
  | String c r =>
      is_digit c ||
      (code c =? 45)%N && match r with String d _ => is_digit d | EmptyString => false end
  | EmptyString => false
  end.
Definition exponent_ok (r : string) : bool :=
  let r := match r with String "+" r | String "-" r => r | _ => r end in
  let '(d, r) := span_digits r in
  negb (String.eqb d EmptyString) && String.eqb r EmptyString.
Definition float_grammar (s : string) : bool :=
  let s := match s with String "-" r => r | _ => s end in
  let '(ip, r) := span_digits s in
  let ip_ok := match ip with
    | EmptyString => false
    | String "0" EmptyString => true
    | String "0" _ => false
    | _ => true
    end in
  let '(frac_ok, has_frac, r) := match r with
    | String "." r => let '(d, r) := span_digits r in (negb (String.eqb d EmptyString), true, r)
    | _ => (true, false, r)
    end in
  ip_ok && frac_ok && match r with
    | String "e" r | String "E" r => exponent_ok r
    | _ => String.eqb r EmptyString && has_frac
    end.
Definition is_float_literal (s : string) : bool :=
  str_forallb num_char s && starts_number s && float_grammar s.

Definition float_prec : Z := 53.
Definition float_emax : Z := 1024.
Definition float_valid (f : spec_float) : bool := valid_binary float_prec float_emax f.
Definition float_finite (f : spec_float) : bool :=
  match f with S754_zero _ | S754_finite _ _ _ => true | _ => false end.

(** The interpreter's conversions between binary64 values and text.  The laws are
    the documented ones: [repr] of a finite float is a literal with a fraction or an
    exponent, and reading it back gives the same float; reading gives a binary64 value.  [float_sum] is the builtin
    [sum] on floats, whose rounding depends on the interpreter version. *)
Class FloatText : Type := {
  float_repr : spec_float → string;
  float_of_text : string → option spec_float;
  float_sum : list spec_float → spec_float;
  float_repr_literal f :
    float_finite f = true → float_valid f = true → is_float_literal (float_repr f) = true;
  float_of_repr f :
    float_finite f = true → float_valid f = true → float_of_text (float_repr f) = Some f;
  float_of_text_valid s f : float_of_text s = Some f → float_valid f = true
}.

Definition hex_digit (n : N) : ascii :=
  if (n <? 10)%N then ascii_of_N (48 + n) else ascii_of_N (87 + n).
Definition hex2 (n : N) : string :=
  String (hex_digit (N.div n 16)) (String (hex_digit (N.modulo n 16)) EmptyString).

(** One character inside [repr(s)], for the chosen quote. *)
Definition repr_char (quote c : ascii) : string :=
  let n := code c in
  if ((n =? 92) || (n =? code quote))%N then String "\" (String c EmptyString)
  else if (n =? 10)%N then "\n" else if (n =? 13)%N then "\r" else if (n =? 9)%N then "\t"
  else if ((n <? 32) || (127 <=? n) && (n <=? 160) || (n =? 173))%N then "\x" +:+ hex2 n
  else String c EmptyString.
Definition single_quote : ascii := "039"%char.
Definition double_quote : ascii := "034"%char.
Definition repr_str (s : string) : string :=
  let q := if str_contains (String single_quote EmptyString) s
              && negb (str_contains (String double_quote EmptyString) s)
           then double_quote else single_quote in
  let fix go s := match s with
    | EmptyString => String q EmptyString
    | String c s => repr_char q c +:+ go s end in
  String q (go s).

(** [int(s)] for a string: surrounding blanks, a sign, digits with single
    underscores between them, at most 4300 digits. *)
Fixpoint underscored_digits (prev_digit : bool) (s : string) : option string :=
  match s with
  | EmptyString => if prev_digit then Some EmptyString else None
  | String c r =>
      if is_digit c then String c <$> underscored_digits true r
      else if (code c =? 95)%N && prev_digit then underscored_digits false r
      else None
  end.
Definition int_of_text (s : string) : option Z :=
  let s := strip s in
  let '(neg, r) := match s with
    | String "+" r => (false, r) | String "-" r => (true, r) | _ => (false, s) end in
  d ← underscored_digits false r;
  if Nat.leb (String.length d) 4300 then
    n ← int_of_digits d; Some (if neg : bool then Z.opp n else n)
  else None.

(** Truncation of a finite float toward zero. *)
Definition float_trunc (f : spec_float) : Z :=
  match f with
  | S754_finite s m e =>
      let a := if (0 <=? e)%Z then (Z.pos m * 2 ^ e)%Z else (Z.pos m / 2 ^ (- e))%Z in
      if s then Z.opp a else a
  | _ => 0%Z
  end.
(** [float(n)] for an integer: round half to even, [inf] on overflow. *)
Definition float_of_int (n : Z) : spec_float :=
  binary_normalize float_prec float_emax n 0 false.

Section numeric_text.
Context `{FloatText}.

Definition float_text (f : spec_float) : string :=
  match f with
  | S754_nan => "nan"
  | S754_infinity false => "inf"
  | S754_infinity true => "-inf"
  | _ => float_repr f
  end.

(** [repr(v)]. *)
Fixpoint py_repr (v : pyval) : string :=
  match v with
  | PNone => "None"
  | PBool true => "True"
  | PBool false => "False"
  | PInt n => int_text n
  | PFloat f => float_text f
  | PStr s => repr_str s
  | PList l => "[" +:+ str_join ", " (map py_repr l) +:+ "]"
  | PTuple [x] => "(" +:+ py_repr x +:+ ",)"
  | PTuple l => "(" +:+ str_join ", " (map py_repr l) +:+ ")"
  | PDict d =>
      "{" +:+ str_join ", " (map (λ kv, repr_str kv.1 +:+ ": " +:+ py_repr kv.2) d) +:+ "}"
  | PObj _ s => s
  end.
(** [str(v)]. *)
Definition py_str (v : pyval) : string :=
  match v with PStr s => s | _ => py_repr v end.
(** [str(v or d)]. *)
Definition str_or (v : pyval) (d : string) : string := py_str (py_or v (PStr d)).

(** [int(v)]. *)
Definition py_int (v : pyval) : result Z :=
  match v with
  | PInt n => Ok n
  | PBool b => Ok (b2z b)
  | PFloat (S754_infinity _) => raise OverflowError "cannot convert float infinity to integer"
  | PFloat S754_nan => raise ValueError "cannot convert float NaN to integer"
  | PFloat f => Ok (float_trunc f)
  | PStr s =>
      match int_of_text s with
      | Some n => Ok n
      | None => raise ValueError ("invalid literal for int() with base 10: " +:+ repr_str s)
      end
  | _ => raise TypeError "int() argument must be a string, a bytes-like object or a real number"
  end.
End numeric_text.

#[global] Arguments starts_with : simpl never.
#[global] Arguments str_contains : simpl never.
#[global] Arguments is_text : simpl never.
#[global] Arguments text_in : simpl never.
#[global] Arguments str_list : simpl never.

(** * Lemmas *)

(** ** Blanks *)
Lemma lstrip_idem s : lstrip (lstrip s) = lstrip s.
Proof. induction s as [|c s IH]; cbn; [done|]. destruct (is_space c) eqn:E; cbn; [done|]. by rewrite E. Qed.

Lemma rstrip_idem s : rstrip (rstrip s) = rstrip s.
Proof.
  induction s as [|c s IH]; cbn; [done|].
  destruct (is_space c && _) eqn:E; cbn; [done|]. by rewrite IH, E.
Qed.

Lemma rstrip_cons_ne c s : is_space c = false → rstrip (String c s) = String c (rstrip s).
Proof. cbn. by intros ->. Qed.

Lemma lstrip_head s c r : lstrip s = String c r → is_space c = false.
Proof. induction s as [|x s IH]; cbn; [done|]. destruct (is_space x) eqn:E; [done|]. by intros [= <- <-]. Qed.

Lemma lstrip_rstrip s : lstrip s = s → lstrip (rstrip s) = rstrip s.
Proof.
  destruct s as [|c s]; cbn; [done|]. destruct (is_space c) eqn:E.
  - intros H. apply lstrip_head in H. congruence.
  - intros _. cbn. by rewrite E.
Qed.

Lemma strip_idem s : strip (strip s) = strip s.
Proof. unfold strip. by rewrite (lstrip_rstrip (lstrip s) (lstrip_idem s)), rstrip_idem. Qed.

Lemma blank_strip s : blank (strip s) = blank s.
Proof. unfold blank. by rewrite strip_idem. Qed.

Lemma blank_false s : blank s = false ↔ strip s ≠ EmptyString.
Proof. unfold blank. by rewrite String.eqb_neq. Qed.

Lemma blank_nonempty s : blank s = false → s ≠ EmptyString.
Proof. by intros H ->. Qed.

(** ** Concatenation *)
Lemma str_app_cons c s t : String c s +:+ t = String c (s +:+ t).
Proof. done. Qed.
Lemma str_app_nil s : EmptyString +:+ s = s.
Proof. done. Qed.
Lemma str_app_nil_r s : s +:+ EmptyString = s.
Proof. induction s as [|c s IH]; [done|]. by rewrite str_app_cons, IH. Qed.
Lemma str_app_assoc s t u : (s +:+ t) +:+ u = s +:+ (t +:+ u).
Proof. induction s as [|c s IH]; [done|]. by rewrite !str_app_cons, IH. Qed.
Lemma str_app_length s t : String.length (s +:+ t) = String.length s + String.length t.
Proof. induction s as [|c s IH]; [done|]. rewrite str_app_cons. cbn. by rewrite IH. Qed.
Lemma starts_with_spec p s : starts_with p s = true ↔ s = p +:+ str_drop (String.length p) s.
Proof.
  revert s. induction p as [|c p IH]; intros s; [done|]. destruct s as [|d s]; [done|].
  rewrite str_app_cons. unfold starts_with; fold starts_with. cbn.
  rewrite andb_true_iff, IH, Ascii.eqb_eq. split; [|by intros [= -> ?]].
  by intros [-> <-].
Qed.
Ltac str_simpl := rewrite ?str_app_cons, ?str_app_nil.
Lemma str_take_length n s : String.length (str_take n s) = Nat.min n (String.length s).
Proof. revert s. induction n as [|n IH]; intros [|c s]; cbn; auto. Qed.
Lemma str_forallb_app p s t : str_forallb p (s +:+ t) = str_forallb p s && str_forallb p t.
Proof.
  induction s as [|c s IH]; [done|]. rewrite str_app_cons. cbn. by rewrite IH, andb_assoc.
Qed.

Lemma str_forallb_impl (p q : ascii → bool) s :
  (∀ c, p c = true → q c = true) → str_forallb p s = true → str_forallb q s = true.
Proof.
  intros Hpq. induction s as [|c s IH]; cbn; [done|].
  rewrite !andb_true_iff. intros [??]; auto.
Qed.

Lemma str_contains_char a s :
  str_forallb (λ c, negb (Ascii.eqb a c)) s = true → str_contains (String a EmptyString) s = false.
Proof.
  unfold str_contains. induction s as [|c s IH]; cbn; [done|]. rewrite andb_true_iff, negb_true_iff.
  intros [Hc Hs]. unfold starts_with. rewrite Hc. cbn. by apply IH.
Qed.
Lemma str_app_inj_l s t u : s +:+ t = s +:+ u → t = u.
Proof. induction s as [|c s IH]; [done|]. rewrite !str_app_cons. intros [= E]. auto. Qed.
(** The first character of [s], if any, fails [p]. *)
Definition stops (p : ascii → bool) (s : string) : bool :=
  match s with EmptyString => true | String c _ => negb (p c) end.
Lemma str_span_app p s t :
  str_forallb p s = true → stops p t = true → str_span p (s +:+ t) = (s, t).
Proof.
  induction s as [|c s IH]; cbn.
  - intros _. rewrite str_app_nil. destruct t as [|c t]; cbn; [done|]. by destruct (p c).
  - rewrite andb_true_iff. intros [Hc Hs] Ht. rewrite str_app_cons. cbn. by rewrite Hc, IH.
Qed.
Lemma str_span_spec p s d r : str_span p s = (d, r) → s = d +:+ r ∧ str_forallb p d = true.
Proof.
  revert d r. induction s as [|c s IH]; intros d r; cbn; [by intros [= <- <-]|].
  destruct (p c) eqn:E; [|by intros [= <- <-]].
  destruct (str_span p s) as [d' t]. intros [= <- <-]. destruct (IH d' t) as [-> ?]; [done|].
  rewrite str_app_cons. cbn. by rewrite E.
Qed.

(** ** Case *)
Lemma upper_char_cases c :
  (upper_char c = "SS" ∧ is_space c = false) ∨
  ∃ d, upper_char c = String d EmptyString ∧ is_space d = is_space c ∧ upper_char d = String d EmptyString.
Proof.
  destruct c as [[] [] [] [] [] [] [] []];
    first [ left; split; reflexivity
          | right; eexists; split; [reflexivity | split; reflexivity] ].
Qed.

Lemma upper_idem s : upper (upper s) = upper s.
Proof.
  induction s as [|c s IH]; cbn; [done|].
  destruct (upper_char_cases c) as [[-> _]|(d & -> & _ & Hd)]; str_simpl; cbn.
  - by rewrite IH.
  - by rewrite Hd, IH.
Qed.

Lemma lstrip_upper s : lstrip s = s → lstrip (upper s) = upper s.
Proof.
  destruct s as [|c s]; cbn; [done|]. destruct (is_space c) eqn:E.
  { intros H. apply lstrip_head in H. congruence. }
  intros _. destruct (upper_char_cases c) as [[-> _]|(d & -> & Hd & _)]; str_simpl; cbn; [done|].
  by rewrite Hd, E.
Qed.

Lemma upper_eq_empty s : upper s = EmptyString → s = EmptyString.
Proof. destruct s as [|c s]; cbn; [done|]. by destruct (upper_char_cases c) as [[-> _]|(d & -> & _)]. Qed.

Lemma rstrip_upper s : rstrip s = s → rstrip (upper s) = upper s.
Proof.
  induction s as [|c s IH]; [done|]. cbn [rstrip upper].
  destruct (is_space c && _) eqn:E; [done|]. intros [= Hs]. rewrite Hs in E.
  specialize (IH Hs).
  destruct (upper_char_cases c) as [[-> _]|(d & -> & Hd & _)]; str_simpl; cbn.
  - by rewrite IH.
  - rewrite IH, Hd. destruct (is_space c); cbn in *; [|done].
    destruct (String.eqb_spec (upper s) EmptyString) as [H0|]; [|done].
    apply upper_eq_empty in H0 as ->. done.
Qed.

Lemma strip_upper s : strip s = s → strip (upper s) = upper s.
Proof.
  intros H. assert (lstrip s = s) as Hl.
  { rewrite <- H at 2. unfold strip in *. rewrite <- H at 1. by rewrite lstrip_rstrip by apply lstrip_idem. }
  unfold strip in *. rewrite Hl in H. by rewrite lstrip_upper, rstrip_upper.
Qed.

Lemma blank_upper s : strip s = s → blank s = false → blank (upper s) = false.
Proof.
  intros Hs. rewrite !blank_false, strip_upper by done. intros H H'%upper_eq_empty.
  apply H. by rewrite Hs.
Qed.

(** ** Sorting and sets of strings *)
#[export] Instance string_le_trans : Transitive String.le.
Proof. apply String.le_po. Qed.
#[export] Instance string_le_antisym : AntiSymm (=) String.le.
Proof. apply String.le_po. Qed.

Lemma sort_strings_perm l : sort_strings l ≡ₚ l.
Proof. apply merge_sort_Permutation. Qed.
Lemma sort_strings_sorted l : StronglySorted String.le (sort_strings l).
Proof. apply StronglySorted_merge_sort; apply _. Qed.
Lemma sort_strings_unique l k : l ≡ₚ k → sort_strings l = sort_strings k.
Proof.
  intros Hp. apply (StronglySorted_unique String.le); try apply sort_strings_sorted.
  by rewrite !sort_strings_perm.
Qed.
Lemma sort_strings_id l : StronglySorted String.le l → sort_strings l = l.
Proof. intros H. apply (StronglySorted_unique String.le); [apply sort_strings_sorted|done|apply sort_strings_perm]. Qed.
Lemma sort_strings_idem l : sort_strings (sort_strings l) = sort_strings l.
Proof. apply sort_strings_unique, sort_strings_perm. Qed.

Lemma elem_of_sort_unique x l : x ∈ sort_unique l ↔ x ∈ l.
Proof. unfold sort_unique. by rewrite sort_strings_perm, elem_of_remove_dups. Qed.
Lemma NoDup_sort_unique l : NoDup (sort_unique l).
Proof. unfold sort_unique. rewrite sort_strings_perm. apply NoDup_remove_dups. Qed.
Lemma remove_dups_id (l : list string) : NoDup l → remove_dups l = l.
Proof.
  induction 1 as [|x l Hx _ IH]; cbn; [done|]. case_decide; [done|]. by rewrite IH.
Qed.
Lemma sort_unique_idem l : sort_unique (sort_unique l) = sort_unique l.
Proof.
  unfold sort_unique at 1. rewrite remove_dups_id by apply NoDup_sort_unique.
  apply sort_strings_idem.
Qed.
Lemma sort_unique_ext l k : (∀ x, x ∈ l ↔ x ∈ k) → sort_unique l = sort_unique k.
Proof.
  intros H. apply sort_strings_unique, NoDup_Permutation; [apply NoDup_remove_dups..|].
  intros x. by rewrite !elem_of_remove_dups.
Qed.
Lemma sort_unique_nil l : sort_unique l = [] ↔ l = [].
Proof.
  split; [|by intros ->]. intros H. destruct l as [|x l]; [done|].
  assert (x ∈ sort_unique (x :: l)) as Hx by (apply elem_of_sort_unique; left).
  rewrite H in Hx. by apply elem_of_nil in Hx.
Qed.

Lemma same_set_spec a b : same_set a b = true ↔ ∀ x, x ∈ a ↔ x ∈ b.
Proof.
  unfold same_set. rewrite andb_true_iff, !bool_decide_eq_true, !Forall_forall.
  split; [intros [H1 H2] x; split; auto | intros H; split; intros x; apply H].
Qed.
Lemma has_dups_false l : has_dups l = false ↔ NoDup l.
Proof. unfold has_dups. rewrite bool_decide_eq_false. split; [apply dec_stable|tauto]. Qed.

Lemma from_keys_acc_spec seen l x :
  x ∈ from_keys_acc seen l ↔ x ∈ l ∧ x ∉ seen.
Proof.
  revert seen. induction l as [|y l IH]; intros seen; cbn; [set_solver|].
  case_bool_decide as Hy; [rewrite IH; set_solver|].
  rewrite !elem_of_cons, IH, not_elem_of_cons.
  destruct (decide (x = y)) as [->|]; tauto.
Qed.
Lemma elem_of_from_keys x l : x ∈ from_keys l ↔ x ∈ l.
Proof. unfold from_keys. rewrite from_keys_acc_spec. set_solver. Qed.
Lemma NoDup_from_keys_acc seen l : NoDup (from_keys_acc seen l).
Proof.
  revert seen. induction l as [|y l IH]; intros seen; cbn; [constructor|].
  case_bool_decide; [apply IH|]. constructor; [|apply IH].
  rewrite from_keys_acc_spec. set_solver.
Qed.
Lemma from_keys_acc_id seen l : NoDup l → (∀ x, x ∈ l → x ∉ seen) → from_keys_acc seen l = l.
Proof.
  intros Hl. revert seen. induction Hl as [|x l Hx _ IH]; intros seen H; cbn; [done|].
  rewrite bool_decide_false by (apply H; left). f_equal. apply IH. set_solver.
Qed.
Lemma NoDup_from_keys l : NoDup (from_keys l).
Proof. apply NoDup_from_keys_acc. Qed.
Lemma from_keys_id l : NoDup l → from_keys l = l.
Proof. intros. apply from_keys_acc_id; set_solver. Qed.
Lemma from_keys_idem l : from_keys (from_keys l) = from_keys l.
Proof. apply from_keys_id, NoDup_from_keys. Qed.

(** ** Dictionaries *)
Section dict_lemmas.
Context {A : Type}.
Implicit Types (d : list (string * A)).

Lemma dict_get_set_eq k v d : dict_get k (dict_set k v d) = Some v.
Proof.
  induction d as [|[k' v'] d IH]; cbn; [by rewrite String.eqb_refl|].
  destruct (String.eqb k k') eqn:E; cbn; by rewrite E.
Qed.
Lemma dict_get_set_ne k k' v d : k ≠ k' → dict_get k (dict_set k' v d) = dict_get k d.
Proof.
  intros Hne. induction d as [|[k'' v'] d IH]; cbn.
  - by destruct (String.eqb_spec k k').
  - destruct (String.eqb_spec k' k'') as [->|]; cbn; [|by rewrite IH].
    by destruct (String.eqb_spec k k'').
Qed.
Lemma dict_get_set k k' v d :
  dict_get k (dict_set k' v d) = if String.eqb k k' then Some v else dict_get k d.
Proof.
  destruct (String.eqb_spec k k') as [->|]; [apply dict_get_set_eq | by apply dict_get_set_ne].
Qed.
Lemma dict_get_None k d : dict_get k d = None ↔ k ∉ keys d.
Proof.
  induction d as [|[k' v'] d IH]; cbn; [set_solver|].
  rewrite not_elem_of_cons, <- IH.
  destruct (String.eqb_spec k k') as [->|]; split; naive_solver.
Qed.
Lemma dict_get_Some_key k v d : dict_get k d = Some v → k ∈ keys d.
Proof. intros H. destruct (decide (k ∈ keys d)) as [|Hn]; [done|]. apply dict_get_None in Hn. congruence. Qed.
Lemma dict_get_In k v d : dict_get k d = Some v → (k, v) ∈ d.
Proof.
  induction d as [|[k' v'] d IH]; cbn; [done|].
  destruct (String.eqb_spec k k') as [->|]; [intros [= ->]; left | right; auto].
Qed.
Lemma dict_get_NoDup k v d : NoDup (keys d) → (k, v) ∈ d → dict_get k d = Some v.
Proof.
  induction d as [|[k' v'] d IH]; cbn; [set_solver|]. rewrite NoDup_cons.
  intros [Hk Hd] [[= -> ->]|Hin]%elem_of_cons; [by rewrite String.eqb_refl|].
  destruct (String.eqb_spec k k') as [->|]; [|by apply IH].
  destruct Hk. apply (list_elem_of_fmap_2 fst d (k', v) Hin).
Qed.
Lemma elem_of_keys_set k k' v d : k ∈ keys (dict_set k' v d) ↔ k = k' ∨ k ∈ keys d.
Proof.
  induction d as [|[k'' v'] d IH]; cbn; [set_solver|].
  destruct (String.eqb_spec k' k'') as [->|]; cbn; set_solver.
Qed.
Lemma NoDup_dict_set k v d : NoDup (keys d) → NoDup (keys (dict_set k v d)).
Proof.
  induction d as [|[k' v'] d IH]; cbn; [intros; constructor; [set_solver|constructor]|].
  rewrite NoDup_cons. intros [Hk Hd]. destruct (String.eqb_spec k k') as [->|]; cbn.
  - by constructor.
  - constructor; [|auto]. pose proof (elem_of_keys_set k' k v d). set_solver.
Qed.
Lemma dict_set_fresh k v d : k ∉ keys d → dict_set k v d = d ++ [(k, v)].
Proof.
  induction d as [|[k' v'] d IH]; cbn; [done|]. rewrite not_elem_of_cons.
  intros [Hne Hd]. destruct (String.eqb_spec k k'); [done|]. by rewrite IH.
Qed.
Lemma dict_set_set k v v' d : dict_set k v (dict_set k v' d) = dict_set k v d.
Proof.
  induction d as [|[k' w] d IH]; cbn; [by rewrite String.eqb_refl|].
  destruct (String.eqb k k') eqn:E; cbn; rewrite E; [done|]. by rewrite IH.
Qed.
Lemma dict_set_Forall (P : string * A → Prop) k v d :
  (∀ k', P (k', v)) → Forall P d → Forall P (dict_set k v d).
Proof.
  intros Hv. induction 1 as [|[k' w] d Hw Hd IH]; cbn; [auto|].
  destruct (String.eqb k k'); auto.
Qed.
Lemma NoDup_dict_merge (a b : list (string * A)) : NoDup (keys a) → NoDup (keys (dict_merge a b)).
Proof.
  unfold dict_merge. revert a. induction b as [|[k v] b IH]; intros a Ha; cbn; [done|].
  apply IH. by apply NoDup_dict_set.
Qed.
Lemma NoDup_dict_of (l : list (string * A)) : NoDup (keys (dict_of l)).
Proof. apply (NoDup_dict_merge []). constructor. Qed.
Lemma dict_merge_fresh (a b : list (string * A)) :
  NoDup (keys b) → (∀ k, k ∈ keys b → k ∉ keys a) → dict_merge a b = a ++ b.
Proof.
  unfold dict_merge. revert a. induction b as [|[k v] b IH]; intros a; cbn.
  { by rewrite app_nil_r. }
  rewrite NoDup_cons. intros [Hk Hb] Hdis. rewrite dict_set_fresh by (apply Hdis; left).
  rewrite IH, <- app_assoc; [done|done|]. intros k' Hk'. unfold keys. rewrite map_app. cbn.
  rewrite elem_of_app, list_elem_of_singleton. intros [?| ->]; [|done].
  by apply (Hdis k'); [right|].
Qed.
Lemma dict_of_id (l : list (string * A)) : NoDup (keys l) → dict_of l = l.
Proof. intros. apply (dict_merge_fresh []); [done|set_solver]. Qed.
Lemma keys_perm d d' : d ≡ₚ d' → keys d ≡ₚ keys d'.
Proof. apply Permutation_map. Qed.
Lemma dict_get_perm k d d' : NoDup (keys d) → d ≡ₚ d' → dict_get k d = dict_get k d'.
Proof.
  intros Hd Hp. assert (NoDup (keys d')) as Hd' by by rewrite <- (keys_perm d).
  destruct (dict_get k d') as [v|] eqn:E.
  - apply dict_get_NoDup; [done|]. rewrite Hp. by apply dict_get_In.
  - apply dict_get_None. apply dict_get_None in E. by rewrite (keys_perm d d').
Qed.
Lemma dict_get_del k k' d : NoDup (keys d) →
  dict_get k (dict_del k' d) = if String.eqb k k' then None else dict_get k d.
Proof.
  induction d as [|[q v] d IH]; cbn; [by destruct (k =? k')%string|].
  intros [Hq Hd]%NoDup_cons. destruct (String.eqb_spec k' q) as [->|Hne]; cbn.
  - destruct (String.eqb_spec k q) as [->|]; [by apply dict_get_None|done].
  - destruct (String.eqb_spec k q) as [->|]; [|by apply IH].
    destruct (String.eqb_spec q k'); [congruence|done].
Qed.
Lemma keys_dict_del k d : keys (dict_del k d) ⊆+ keys d.
Proof.
  induction d as [|[q v] d IH]; cbn; [done|].
  destruct (String.eqb k q); [by apply submseteq_cons|by apply submseteq_skip].
Qed.
Lemma NoDup_dict_del k d : NoDup (keys d) → NoDup (keys (dict_del k d)).
Proof.
  intros Hd. destruct (submseteq_Permutation _ _ (keys_dict_del k d)) as [r Hr].
  rewrite Hr in Hd. by apply NoDup_app in Hd as [? _].
Qed.
Lemma dict_del_subset k d x : x ∈ dict_del k d → x ∈ d.
Proof.
  induction d as [|[q v] d IH]; cbn; [done|]. destruct (String.eqb k q); [by right|].
  rewrite !elem_of_cons. intros [->|?]; [by left|right; auto].
Qed.
Lemma dict_get_del_ne k k' d : k ≠ k' → dict_get k (dict_del k' d) = dict_get k d.
Proof.
  intros Hne. induction d as [|[k'' v] d IH]; cbn; [done|].
  destruct (String.eqb_spec k' k'') as [->|]; cbn.
  - by destruct (String.eqb_spec k k'').
  - by rewrite IH.
Qed.
Lemma dict_get_merge k (a b : list (string * A)) :
  dict_get k (dict_merge a b) =
    match dict_get k (dict_of b) with Some v => Some v | None => dict_get k a end.
Proof.
  unfold dict_of, dict_merge.
  induction b as [|[k' v] b IH] using rev_ind; [done|]. rewrite !foldl_app. cbn.
  rewrite !dict_get_set. by destruct (String.eqb k k').
Qed.
End dict_lemmas.

Lemma dict_of_Forall {A} (P : string * A → Prop) d : Forall P d → Forall P (dict_of d).
Proof.
  unfold dict_of. assert (Forall P []) as H0 by constructor. revert H0. generalize (@nil (string * A)).
  intros acc Hacc Hd. revert acc Hacc. induction Hd as [|[k v] d Hv _ IH]; intros acc Hacc; cbn; [done|].
  apply IH. clear -Hv Hacc. induction Hacc as [|[k' w] acc Hw Hacc IH]; cbn; [by repeat constructor|].
  destruct (String.eqb_spec k k') as [->|]; by constructor.
Qed.
Lemma py_get_set k v d : py_get (dict_set k v d) k = v.
Proof. unfold py_get. by rewrite dict_get_set_eq. Qed.
Lemma py_get_set_ne k k' v d : k ≠ k' → py_get (dict_set k' v d) k = py_get d k.
Proof. intros. unfold py_get. by rewrite dict_get_set_ne. Qed.

(** ** Equality with text *)
Lemma is_text_spec v s : is_text v s = true ↔ v = PStr s.
Proof.
  unfold is_text. split; [|intros ->; apply String.eqb_refl].
  destruct v; cbn; try done. by intros ->%String.eqb_eq.
Qed.
Lemma text_in_spec s l : text_in s l = true ↔ s ∈ l.
Proof. apply bool_decide_eq_true. Qed.
Lemma text_in_false s l : text_in s l = false ↔ s ∉ l.
Proof. apply bool_decide_eq_false. Qed.

Section int_lemmas.
Context `{FloatText}.

Lemma str_or_text s : str_or (PStr s) EmptyString = s.
Proof. by destruct s. Qed.
(** Every way [int()] fails. *)
Lemma py_int_err v e : py_int v = Err e →
  exn_type e = TypeError ∨ exn_type e = ValueError ∨
  exn_type e = OverflowError ∧ ∃ s, v = PFloat (S754_infinity s).
Proof.
  destruct v as [| | |[| | |]|s| | | |]; cbn; unfold raise; try (destruct (int_of_text s));
    try done; intros [= <-]; cbn; eauto 6.
Qed.
End int_lemmas.

#[export] Hint Resolve strip_idem upper_idem NoDup_sort_unique sort_unique_idem
  NoDup_from_keys from_keys_idem NoDup_dict_set NoDup_dict_of : nexus.
