(* ===== verification/Json.v ===== *)
(** * JSON text

    The two directions of Python's [json] module that the runtime relies on:
    [json.dumps] with sorted keys and compact separators (with either setting of
    [ensure_ascii] and [allow_nan]) and [json.loads].  [jnorm] is the document a
    value is written as: keys sorted, tuples turned into lists.

    The lemmas at the end show that reading back what was written gives that
    document, and hence that two values with the same text are the same document:
    the fact every content hash of the runtime rests on. *)
From Stdlib Require Import Ascii String SpecFloat DecimalString DecimalZ.
From S2P Require Import Prelude PyValue.

(** ** Normal form *)
Definition key_le {A} (x y : string * A) : Prop := String.le x.1 y.1.
#[export] Instance key_le_dec {A} : RelDecision (@key_le A).
Proof. intros x y. unfold key_le. apply _. Defined.
#[export] Instance key_le_trans {A} : Transitive (@key_le A).
Proof. intros x y z. unfold key_le. apply string_le_trans. Qed.
#[export] Instance key_le_total {A} : Total (@key_le A).
Proof. intros x y. unfold key_le. apply String.le_total. Qed.

(** [sorted(d.items())]. *)
Definition sort_items {A} (d : list (string * A)) : list (string * A) := merge_sort key_le d.

Fixpoint jnorm (v : pyval) : pyval :=
  match v with
  | PList l | PTuple l => PList (map jnorm l)
  | PDict d => PDict (sort_items (map (λ kv, (kv.1, jnorm kv.2)) d))
  | _ => v
  end.

(** Mapping keys are unique and floats are binary64 values: true of every Python
    value. *)
Fixpoint py_wf (v : pyval) : bool :=
  match v with
  | PFloat f => float_valid f
  | PList l | PTuple l => forallb py_wf l
  | PDict d => bool_decide (NoDup (keys d)) && forallb (λ kv, py_wf kv.2) d
  | _ => true
  end.

(** ** Printing *)
Definition hex4 (n : N) : string := "00" +:+ hex2 n.

(** One character of a JSON string. *)
Definition json_char (ascii_only : bool) (c : ascii) : string :=
  let n := code c in
  if (n =? 34)%N then String "\" (String c EmptyString)
  else if (n =? 92)%N then String "\" (String c EmptyString)
  else if (n =? 10)%N then "\n" else if (n =? 13)%N then "\r" else if (n =? 9)%N then "\t"
  else if (n =? 8)%N then "\b" else if (n =? 12)%N then "\f"
  else if (n <? 32)%N || ascii_only && (126 <? n)%N then "\u" +:+ hex4 n
  else String c EmptyString.
Fixpoint json_chars (ascii_only : bool) (s : string) : string :=
  match s with
  | EmptyString => EmptyString
  | String c s => json_char ascii_only c +:+ json_chars ascii_only s
  end.
Definition json_string (ascii_only : bool) (s : string) : string :=
  String double_quote (json_chars ascii_only s +:+ String double_quote EmptyString).

Section json.
Context `{FloatText}.

Definition json_float (f : spec_float) : string :=
  match f with
  | S754_nan => "NaN"
  | S754_infinity false => "Infinity"
  | S754_infinity true => "-Infinity"
  | _ => float_repr f
  end.

(** [gap] follows every comma and colon. *)
Fixpoint json_write (gap : string) (a : bool) (v : pyval) : string :=
  match v with
  | PNone => "null"
  | PBool true => "true"
  | PBool false => "false"
  | PInt n => int_text n
  | PFloat f => json_float f
  | PStr s => json_string a s
  | PList l | PTuple l => "[" +:+ str_join ("," +:+ gap) (map (json_write gap a) l) +:+ "]"
  | PDict d =>
      "{" +:+ str_join ("," +:+ gap)
                (map (λ kv, json_string a kv.1 +:+ (":" +:+ gap) +:+ json_write gap a kv.2) d)
      +:+ "}"
  | PObj _ _ => EmptyString
  end.

(** The first value, in writing order, that the encoder refuses. *)
Fixpoint json_check (allow_nan : bool) (v : pyval) : result unit :=
  match v with
  | PObj t _ => raise TypeError ("Object of type " +:+ t +:+ " is not JSON serializable")
  | PFloat f =>
      raise_if (negb (float_finite f) && negb allow_nan) ValueError
        "Out of range float values are not JSON compliant"
  | PList l | PTuple l =>
      (fix go l := match l with [] => Ok () | x :: l => json_check allow_nan x ≫= λ _, go l end) l
  | PDict d =>
      (fix go (d : list (string * pyval)) :=
         match d with [] => Ok () | kv :: d => json_check allow_nan kv.2 ≫= λ _, go d end) d
  | _ => Ok ()
  end.

(** [json.dumps(v, sort_keys=True, separators=(",", ":"), ensure_ascii=a, allow_nan=n)]. *)
Definition json_dumps (a n : bool) (v : pyval) : result string :=
  json_check n (jnorm v) ≫= λ _, Ok (json_write EmptyString a (jnorm v)).

(** ** Reading *)
Definition is_ws (c : ascii) : bool :=
  let n := code c in ((n =? 32) || (n =? 9) || (n =? 10) || (n =? 13))%N.
Fixpoint skip_ws (s : string) : string :=
  match s with
  | EmptyString => EmptyString
  | String c r => if is_ws c then skip_ws r else s
  end.
Definition drop_prefix (p s : string) : option string :=
  if starts_with p s then Some (str_drop (String.length p) s) else None.

(** The rest of [s] after the character [c], if it comes first. *)
Definition eat (c : ascii) (s : string) : option string :=
  match s with
  | String c' r => if Ascii.eqb c' c then Some r else None
  | EmptyString => None
  end.

Definition hex_value (c : ascii) : option N :=
  let n := code c in
  if ((48 <=? n) && (n <=? 57))%N then Some (n - 48)%N
  else if ((97 <=? n) && (n <=? 102))%N then Some (n - 87)%N
  else if ((65 <=? n) && (n <=? 70))%N then Some (n - 55)%N
  else None.
(** The code point of four hexadecimal digits, [None] above 255. *)
Definition hex4_value (a b c d : ascii) : option ascii :=
  a ← hex_value a; b ← hex_value b; c ← hex_value c; d ← hex_value d;
  let n := (((a * 16 + b) * 16 + c) * 16 + d)%N in
  if (n <? 256)%N then Some (ascii_of_N n) else None.
Definition unescape (c : ascii) : option ascii :=
  match c with
  | "/"%char => Some c
  | "n"%char => Some "010"%char
  | "r"%char => Some "013"%char
  | "t"%char => Some "009"%char
  | "b"%char => Some "008"%char
  | "f"%char => Some "012"%char
  | _ => if ((code c =? 34) || (code c =? 92))%N then Some c else None
  end.
Definition with_char (c : ascii) (x : option (string * string)) : option (string * string) :=
  '(t, r) ← x; Some (String c t, r).
(** The characters of a string up to its closing quote. *)
Fixpoint parse_chars (s : string) : option (string * string) :=
  match s with
  | EmptyString => None
  | String c r =>
      if (code c =? 34)%N then Some (EmptyString, r)
      else if (code c =? 92)%N then
        match r with
        | String "u" (String h1 (String h2 (String h3 (String h4 r)))) =>
            x ← hex4_value h1 h2 h3 h4; with_char x (parse_chars r)
        | String e r => x ← unescape e; with_char x (parse_chars r)
        | EmptyString => None
        end
      else if (code c <? 32)%N then None
      else with_char c (parse_chars r)
  end.

Definition int_token (t : string) : option Z :=
  if String.eqb t "-0" then Some 0%Z
  else n ← int_of_digits t; if String.eqb (int_text n) t then Some n else None.
Definition parse_number (s : string) : option (pyval * string) :=
  let '(t, r) := str_span num_char s in
  if is_float_literal t then f ← float_of_text t; Some (PFloat f, r)
  else n ← int_token t; Some (PInt n, r).

Definition parse_constant (s : string) : option (pyval * string) :=
  match drop_prefix "null" s, drop_prefix "true" s, drop_prefix "false" s with
  | Some r, _, _ => Some (PNone, r)
  | _, Some r, _ => Some (PBool true, r)
  | _, _, Some r => Some (PBool false, r)
  | _, _, _ =>
      match drop_prefix "NaN" s, drop_prefix "Infinity" s, drop_prefix "-Infinity" s with
      | Some r, _, _ => Some (PFloat S754_nan, r)
      | _, Some r, _ => Some (PFloat (S754_infinity false), r)
      | _, _, Some r => Some (PFloat (S754_infinity true), r)
      | _, _, _ => None
      end
  end.

(** The mapping of an object's members: a repeated key keeps its first place and its last
    value ([json.loads]), or is refused ([unique], the [object_pairs_hook] of a caller that
    raises [ValueError] on a duplicate). *)
Section parser.
Variable unique : bool.
Definition members_dict (d : list (string * pyval)) : option (list (string * pyval)) :=
  if unique && has_dups (keys d) then None else Some (dict_of d).

Fixpoint parse_value (fuel : nat) (s : string) : option (pyval * string) :=
  match fuel, s with
  | S fuel, String c r =>
      if (code c =? 34)%N then '(t, r) ← parse_chars r; Some (PStr t, r)
      else if (code c =? 91)%N then
        match eat "]" (skip_ws r) with
        | Some r => Some (PList [], r)
        | None => '(l, r) ← parse_elems fuel (skip_ws r); Some (PList l, r)
        end
      else if (code c =? 123)%N then
        match eat "}" (skip_ws r) with
        | Some r => Some (PDict [], r)
        | None => '(d, r) ← parse_members fuel (skip_ws r); d ← members_dict d; Some (PDict d, r)
        end
      else match parse_constant s with
      | Some x => Some x
      | None => parse_number s
      end
  | _, _ => None
  end
with parse_elems (fuel : nat) (s : string) : option (list pyval * string) :=
  match fuel with
  | O => None
  | S fuel =>
      '(v, r) ← parse_value fuel s;
      match skip_ws r with
      | String "," r => '(l, r) ← parse_elems fuel (skip_ws r); Some (v :: l, r)
      | String "]" r => Some ([v], r)
      | _ => None
      end
  end
with parse_members (fuel : nat) (s : string) : option (list (string * pyval) * string) :=
  match fuel, s with
  | S fuel, String c r =>
      if (code c =? 34)%N then
        '(k, r) ← parse_chars r;
        match skip_ws r with
        | String ":" r =>
            '(v, r) ← parse_value fuel (skip_ws r);
            match skip_ws r with
            | String "," r => '(d, r) ← parse_members fuel (skip_ws r); Some ((k, v) :: d, r)
            | String "}" r => Some ([(k, v)], r)
            | _ => None
            end
        | _ => None
        end
      else None
  | _, _ => None
  end.

Definition loads_with (s : string) : result pyval :=
  match parse_value (S (String.length s)) (skip_ws s) with
  | Some (v, r) =>
      if String.eqb (skip_ws r) EmptyString then Ok v else raise ValueError "Extra data"
  | None => raise ValueError "Expecting value"
  end.
End parser.

(** [json.loads(s)], and with duplicate keys refused. *)
Definition json_loads : string → result pyval := loads_with false.
Definition json_loads_unique : string → result pyval := loads_with true.
End json.
(** The compact text. *)
Abbreviation json_print := (json_write EmptyString).

(** * Lemmas *)

(** ** Decimal text *)
Lemma uint_text_digits d : str_forallb is_digit (NilEmpty.string_of_uint d) = true.
Proof. induction d; cbn; auto. Qed.
Lemma uint_text_digits' d : str_forallb is_digit (NilZero.string_of_uint d) = true.
Proof. destruct d; [done|apply (uint_text_digits (_ d))..]. Qed.
Lemma int_text_shape n :
  ∃ d, str_forallb is_digit d = true ∧ d ≠ EmptyString ∧
       (int_text n = d ∨ int_text n = String "-" d).
Proof.
  unfold int_text, NilZero.string_of_int. destruct (Z.to_int n) as [u|u];
    exists (NilZero.string_of_uint u);
    (split; [apply uint_text_digits' | split; [by destruct u | auto]]).
Qed.
Lemma int_of_int_text n : int_of_digits (int_text n) = Some n.
Proof.
  unfold int_of_digits, int_text. rewrite NilZero.isi; cbn; [by rewrite DecimalZ.of_to| |].
  - by destruct n as [|p|p]; cbn; [|destruct (Pos.to_uint p) eqn:E; [by apply DecimalPos.Unsigned.to_uint_nonnil in E|..]|].
  - by destruct n as [|p|p]; cbn; [| |destruct (Pos.to_uint p) eqn:E; [by apply DecimalPos.Unsigned.to_uint_nonnil in E|..]].
Qed.
Lemma int_text_inj n m : int_text n = int_text m → n = m.
Proof. intros E. pose proof (int_of_int_text n) as H. rewrite E, int_of_int_text in H. congruence. Qed.
Lemma int_text_not_minus_zero n : int_text n ≠ "-0".
Proof.
  intros E. pose proof (int_of_int_text n) as H. rewrite E in H. cbn in H.
  injection H as <-. discriminate E.
Qed.
Lemma int_token_int_text n : int_token (int_text n) = Some n.
Proof.
  unfold int_token. destruct (String.eqb_spec (int_text n) "-0") as [E|].
  { by apply int_text_not_minus_zero in E. }
  rewrite int_of_int_text. cbn. by rewrite String.eqb_refl.
Qed.

Lemma digits_not_float d :
  str_forallb is_digit d = true → float_grammar d = false ∧ float_grammar (String "-" d) = false.
Proof.
  intros Hd. assert (span_digits d = (d, EmptyString)) as E.
  { rewrite <- (str_app_nil_r d) at 1. by apply str_span_app. }
  split.
  - unfold float_grammar. destruct d as [|c d]; [done|].
    assert (c ≠ "-"%char) as Hc by (intros ->; discriminate Hd).
    replace (match String c d with String "-" r => r | _ => String c d end) with (String c d)
      by (by destruct c as [[] [] [] [] [] [] [] []]).
    rewrite E. cbn. by rewrite !andb_false_r.
  - unfold float_grammar. rewrite E. cbn. by rewrite !andb_false_r.
Qed.
Lemma int_text_not_float n : is_float_literal (int_text n) = false.
Proof.
  unfold is_float_literal. apply andb_false_iff. right.
  destruct (int_text_shape n) as (d & Hd & _ & [->| ->]); by apply digits_not_float in Hd as [??].
Qed.

Lemma digit_num_char c : is_digit c = true → num_char c = true.
Proof. unfold num_char. by intros ->. Qed.
Lemma int_text_num n : str_forallb num_char (int_text n) = true.
Proof.
  destruct (int_text_shape n) as (d & Hd%(str_forallb_impl _ num_char _ digit_num_char) & _ & [->| ->]);
    [done|]. cbn. by rewrite Hd.
Qed.

Lemma int_text_starts n : starts_number (int_text n) = true.
Proof.
  destruct (int_text_shape n) as (d & Hd & Hne & [->| ->]); destruct d as [|c d]; try done;
    cbn in *; apply andb_true_iff in Hd as [-> _]; done.
Qed.

(** ** Tokens *)
(** What may follow a value: nothing, or a character no number contains. *)
Abbreviation stop := (stops num_char).

Lemma starts_number_head s :
  starts_number s = true → ∃ c r, s = String c r ∧ num_char c = true ∧
    (is_digit c = true ∨ c = "-"%char ∧ ∃ d r', r = String d r' ∧ is_digit d = true).
Proof.
  destruct s as [|c r]; [done|]. cbn. rewrite orb_true_iff, andb_true_iff.
  intros H. exists c, r. split; [done|]. destruct H as [Hd|[Hc Hr]].
  - split; [by apply digit_num_char|by left].
  - assert (c = "-"%char) as ->.
    { apply N.eqb_eq in Hc. rewrite <- (ascii_N_embedding c). unfold code in Hc. by rewrite Hc. }
    split; [done|]. right. split; [done|]. destruct r as [|d r]; [done|eauto].
Qed.

Lemma parse_constant_number s t : starts_number s = true → parse_constant (s +:+ t) = None.
Proof.
  intros (c & r & -> & _ & [Hd|[-> (d & r' & -> & Hd)]])%starts_number_head.
  - rewrite str_app_cons. destruct c as [[] [] [] [] [] [] [] []]; try discriminate Hd; reflexivity.
  - rewrite !str_app_cons. destruct d as [[] [] [] [] [] [] [] []]; try discriminate Hd; reflexivity.
Qed.

(** The tests by which the reader recognises strings, arrays and objects, and the
    characters that end an array or object or are blank, all fail on [c]. *)
Definition plain_head (c : ascii) : bool :=
  negb (is_ws c || (code c =? 34) || (code c =? 91) || (code c =? 123) || (code c =? 93)
        || (code c =? 125))%N.
Lemma num_char_plain c : num_char c = true → plain_head c = true.
Proof. destruct c as [[] [] [] [] [] [] [] []]; done. Qed.

(** ** Strings *)
Lemma parse_chars_char a c t : parse_chars (json_char a c +:+ t) = with_char c (parse_chars t).
Proof. destruct a, c as [[] [] [] [] [] [] [] []]; reflexivity. Qed.
Lemma parse_json_chars a s t :
  parse_chars (json_chars a s +:+ String double_quote t) = Some (s, t).
Proof.
  induction s as [|c s IH]; [done|]. cbn [json_chars].
  rewrite str_app_assoc, parse_chars_char, IH. done.
Qed.

(** ** Documents: the values a JSON text denotes *)
Fixpoint json_doc (v : pyval) : bool :=
  match v with
  | PTuple _ | PObj _ _ => false
  | PFloat f => float_valid f
  | PList l => forallb json_doc l
  | PDict d => bool_decide (NoDup (keys d)) && forallb (λ kv, json_doc kv.2) d
  | _ => true
  end.

(** The fuel the reader needs for a document. *)
Fixpoint doc_size (v : pyval) : nat :=
  match v with
  | PList l => S (sum_list (map (λ x, S (doc_size x)) l))
  | PDict d => S (sum_list (map (λ kv, S (doc_size kv.2)) d))
  | _ => 1
  end.

Section roundtrip.
Context `{FloatText} (u a : bool) (gap : string) (Hgap : str_forallb is_ws gap = true).

Lemma members_dict_id d : NoDup (keys d) → members_dict u d = Some d.
Proof.
  intros Hd. unfold members_dict. rewrite (proj2 (has_dups_false _) Hd), andb_false_r.
  by rewrite dict_of_id.
Qed.

Lemma json_float_special f :
  float_finite f = false →
  (f = S754_nan ∧ json_float f = "NaN") ∨ (f = S754_infinity false ∧ json_float f = "Infinity")
  ∨ (f = S754_infinity true ∧ json_float f = "-Infinity").
Proof. destruct f as [|[]| |]; cbn; auto; done. Qed.
Lemma json_float_finite f : float_finite f = true → json_float f = float_repr f.
Proof. by destruct f. Qed.
Lemma float_repr_tokens f : float_finite f = true → float_valid f = true →
  str_forallb num_char (float_repr f) = true ∧ starts_number (float_repr f) = true.
Proof.
  intros Hf Hv. pose proof (float_repr_literal f Hf Hv) as Hl.
  unfold is_float_literal in Hl. rewrite !andb_true_iff in Hl. tauto.
Qed.

(** Texts that the reader classifies by their first character. *)
Definition plain_start (s : string) : Prop :=
  ∃ c r, s = String c r ∧ is_ws c = false ∧ code c ≠ 93%N ∧ code c ≠ 125%N.

Lemma number_start s : starts_number s = true → plain_start s.
Proof.
  intros (c & r & -> & Hc%num_char_plain & _)%starts_number_head. exists c, r.
  unfold plain_head in Hc. rewrite negb_true_iff, !orb_false_iff, !N.eqb_neq in Hc. tauto.
Qed.

Lemma json_write_start v : json_doc v = true → plain_start (json_write gap a v).
Proof.
  destruct v as [|[]| |f| | | | |]; cbn; intros Hv; try done;
    try (eexists _, _; split; [reflexivity|done]).
  - apply number_start, int_text_starts.
  - destruct (float_finite f) eqn:Hf.
    + rewrite json_float_finite by done. apply number_start, float_repr_tokens; done.
    + by destruct (json_float_special f Hf) as [[-> ->]|[[-> ->]|[-> ->]]];
        (eexists _, _; split; [reflexivity|done]).
Qed.

Lemma skip_gap t : skip_ws (gap +:+ t) = skip_ws t.
Proof.
  clear -Hgap. induction gap as [|c s IH]; [done|]. cbn in Hgap. apply andb_true_iff in Hgap as [Hc Hs].
  rewrite str_app_cons. cbn. rewrite Hc. by apply IH.
Qed.
Lemma skip_ws_start s t : plain_start s → skip_ws (s +:+ t) = s +:+ t.
Proof. intros (c & r & -> & Hc & _). rewrite str_app_cons. cbn. by rewrite Hc. Qed.

Lemma parse_number_int n rest :
  stop rest = true → parse_number (int_text n +:+ rest) = Some (PInt n, rest).
Proof.
  intros Hs. unfold parse_number. rewrite str_span_app by (done || apply int_text_num).
  rewrite int_text_not_float, int_token_int_text. done.
Qed.
Lemma parse_number_float f rest :
  float_finite f = true → float_valid f = true → stop rest = true →
  parse_number (float_repr f +:+ rest) = Some (PFloat f, rest).
Proof.
  intros Hf Hv Hs. unfold parse_number.
  rewrite str_span_app; [|by apply float_repr_tokens|done].
  rewrite float_repr_literal, float_of_repr by done. done.
Qed.

(** A text starting with a number character is read as a number. *)
Lemma parse_value_number fuel s t x :
  starts_number s = true → parse_number (s +:+ t) = Some x →
  parse_value u (S fuel) (s +:+ t) = Some x.
Proof.
  intros Hs Hx. pose proof (parse_constant_number s t Hs) as Hc.
  apply starts_number_head in Hs as (c & r & -> & Hp%num_char_plain & _).
  unfold plain_head in Hp. rewrite negb_true_iff, !orb_false_iff in Hp.
  destruct Hp as [[[[[_ H34] H91] H123] _] _].
  rewrite str_app_cons in *. cbn [parse_value].
  rewrite H34, H91, H123, Hc. done.
Qed.

Definition reads_back (v : pyval) : Prop := ∀ fuel rest,
  json_doc v = true → doc_size v ≤ fuel → stop rest = true →
  parse_value u fuel (json_write gap a v +:+ rest) = Some (v, rest).

Lemma reads_back_scalar v :
  match v with PList _ | PDict _ => False | _ => True end → reads_back v.
Proof.
  intros Hv fuel rest Hd Hf Hs. destruct fuel as [|fuel]; [destruct v; cbn in Hf; lia|].
  destruct v as [|[]|n|f|s|l|l|d|t s]; try done; try reflexivity.
  - apply parse_value_number; [apply int_text_starts|by apply parse_number_int].
  - cbn [json_write]. destruct (float_finite f) eqn:Hfin.
    + rewrite json_float_finite by done.
      apply parse_value_number; [by apply float_repr_tokens|by apply parse_number_float].
    + by destruct (json_float_special f Hfin) as [[-> ->]|[[-> ->]|[-> ->]]].
  - cbn [json_write]. unfold json_string. rewrite str_app_cons, str_app_assoc, str_app_cons.
    cbn [parse_value]. replace (code double_quote =? 34)%N with true by done.
    by rewrite str_app_nil, parse_json_chars.
Qed.

Lemma str_join_cons2 sep x y l :
  str_join sep (x :: y :: l) = x +:+ sep +:+ str_join sep (y :: l).
Proof. done. Qed.

Lemma str_join_start s sep l : plain_start s → plain_start (str_join sep (s :: l)).
Proof.
  intros (c & r & -> & Hc). destruct l as [|x l]; [by exists c, r|].
  rewrite str_join_cons2, str_app_cons. by eexists _, _.
Qed.
Lemma elems_start v l :
  forallb json_doc (v :: l) = true → plain_start (str_join ("," +:+ gap) (map (json_write gap a) (v :: l))).
Proof. intros [Hv _]%andb_true_iff. by apply str_join_start, json_write_start. Qed.

(** The test for an empty array or object fails on the text of a value. *)
Lemma not_closing c s : plain_start s → code c = 93%N ∨ code c = 125%N → eat c s = None.
Proof.
  intros (c' & r & -> & _ & H93 & H125) Hc. cbn.
  destruct (Ascii.eqb_spec c' c) as [->|]; [|done]. by destruct Hc.
Qed.
Lemma plain_start_app s t : plain_start s → plain_start (s +:+ t).
Proof. intros (c & r & -> & Hc). rewrite str_app_cons. by eexists _, _. Qed.

Lemma parse_elems_back l fuel rest :
  l ≠ [] → Forall reads_back l → forallb json_doc l = true →
  sum_list (map (λ x, S (doc_size x)) l) ≤ fuel →
  parse_elems u fuel (str_join ("," +:+ gap) (map (json_write gap a) l) +:+ ("]" +:+ rest)) = Some (l, rest).
Proof.
  intros Hne Hl. revert fuel Hne. induction Hl as [|v l Hv Hl IH]; intros fuel Hne; [done|].
  cbn [forallb]. rewrite andb_true_iff. intros [Hd Hds] Hf. cbn in Hf.
  destruct fuel as [|fuel]; [lia|]. destruct l as [|w l].
  - cbn [map str_join parse_elems]. rewrite Hv by (done || lia). done.
  - cbn [map]. rewrite str_join_cons2, !str_app_assoc. cbn [parse_elems].
    change (json_write gap a w :: map (json_write gap a) l) with (map (json_write gap a) (w :: l)).
    rewrite Hv by (done || (cbn in *; lia)). cbn [mbind option_bind].
    rewrite str_app_cons, str_app_nil. cbn [skip_ws].
    replace (is_ws ",") with false by done.
    rewrite skip_gap, (skip_ws_start (str_join _ _)) by by apply elems_start.
    rewrite (IH fuel) by (done || (cbn in *; lia)). done.
Qed.

Lemma reads_back_list l : Forall reads_back l → reads_back (PList l).
Proof.
  intros Hl fuel rest Hd Hf Hs. cbn in Hd, Hf. destruct fuel as [|fuel]; [lia|].
  cbn [json_write]. rewrite !str_app_assoc, (str_app_cons "["), str_app_nil.
  cbn [parse_value]. replace (code "[" =? 34)%N with false by done.
  replace (code "[" =? 91)%N with true by done.
  destruct l as [|v l]; [done|].
  pose proof (elems_start v l Hd) as Hst. rewrite skip_ws_start by done.
  rewrite not_closing by (auto || by apply plain_start_app).
  rewrite parse_elems_back by (done || lia). done.
Qed.

Definition member (kv : string * pyval) : string :=
  json_string a kv.1 +:+ (":" +:+ gap) +:+ json_write gap a kv.2.

Lemma member_start kv : plain_start (member kv).
Proof. unfold member, json_string. rewrite str_app_cons. by eexists _, _. Qed.
Lemma members_start kv d : plain_start (str_join ("," +:+ gap) (map member (kv :: d))).
Proof. apply str_join_start, member_start. Qed.

(** One member, up to what follows its value. *)
Lemma parse_member fuel k v rest :
  reads_back v → json_doc v = true → doc_size v ≤ fuel → stop rest = true →
  parse_members u (S fuel) (member (k, v) +:+ rest) =
    match skip_ws rest with
    | String "," r => '(d, r) ← parse_members u fuel (skip_ws r); Some ((k, v) :: d, r)
    | String "}" r => Some ([(k, v)], r)
    | _ => None
    end.
Proof.
  intros Hv Hd Hf Hs. unfold member. cbn [fst snd]. unfold json_string.
  rewrite (str_app_cons _ (_ +:+ _)), !str_app_assoc, str_app_cons. cbn [parse_members].
  replace (code double_quote =? 34)%N with true by done.
  rewrite !str_app_assoc, (str_app_cons double_quote), str_app_nil, parse_json_chars.
  cbn [mbind option_bind].
  rewrite (str_app_cons ":"), str_app_nil. cbn [skip_ws]. replace (is_ws ":") with false by done.
  rewrite skip_gap, skip_ws_start by by apply json_write_start. by rewrite Hv.
Qed.

Lemma parse_members_back d fuel rest :
  d ≠ [] → Forall (λ kv, reads_back kv.2) d → forallb (λ kv, json_doc kv.2) d = true →
  sum_list (map (λ kv, S (doc_size kv.2)) d) ≤ fuel →
  parse_members u fuel (str_join ("," +:+ gap) (map member d) +:+ ("}" +:+ rest)) = Some (d, rest).
Proof.
  intros Hne Hl. revert fuel Hne. induction Hl as [|[k v] d Hv Hl IH]; intros fuel Hne; [done|].
  cbn [forallb]. rewrite andb_true_iff. intros [Hd Hds] Hf. cbn in Hf, Hv, Hd.
  destruct fuel as [|fuel]; [lia|]. destruct d as [|w d].
  - cbn [map str_join]. rewrite parse_member by (done || lia). done.
  - cbn [map]. rewrite str_join_cons2, !str_app_assoc.
    change (member w :: map member d) with (map member (w :: d)).
    rewrite parse_member by (done || (cbn in *; lia)).
    rewrite str_app_cons, str_app_nil. cbn [skip_ws].
    replace (is_ws ",") with false by done.
    rewrite skip_gap, (skip_ws_start (str_join _ _)) by apply members_start.
    rewrite (IH fuel) by (done || (cbn in *; lia)). done.
Qed.

Lemma reads_back_dict d : Forall (λ kv, reads_back kv.2) d → reads_back (PDict d).
Proof.
  intros Hl fuel rest Hd Hf Hs. cbn in Hd, Hf. destruct fuel as [|fuel]; [lia|].
  apply andb_true_iff in Hd as [Hn%bool_decide_eq_true Hd].
  change (json_write gap a (PDict d)) with ("{" +:+ str_join ("," +:+ gap) (map member d) +:+ "}"). rewrite !str_app_assoc, (str_app_cons "{"), str_app_nil.
  cbn [parse_value]. replace (code "{" =? 34)%N with false by done.
  replace (code "{" =? 91)%N with false by done. replace (code "{" =? 123)%N with true by done.
  destruct d as [|kv d]; [done|].
  rewrite skip_ws_start by apply members_start.
  rewrite not_closing by (auto || apply plain_start_app, members_start).
  rewrite parse_members_back by (done || lia). cbn [mbind option_bind].
  by rewrite members_dict_id.
Qed.

(** Reading the text of a document gives the document. *)
Lemma json_reads_back v : reads_back v.
Proof.
  induction v as [| | | | |l IH|l IH|d IH|] using pyval_ind';
    try by apply reads_back_scalar.
  - by apply reads_back_list.
  - by apply reads_back_dict.
Qed.

Lemma plain_start_length s : plain_start s → 1 ≤ String.length s.
Proof. intros (c & r & -> & _). cbn. lia. Qed.
Lemma str_join_length {B} (f : B → string) (g : B → nat) l :
  Forall (λ x, g x ≤ String.length (f x)) l →
  sum_list (map (λ x, S (g x)) l) ≤ S (String.length (str_join ("," +:+ gap) (map f l))).
Proof.
  induction 1 as [|x l Hx Hl IH]; [cbn; lia|]. destruct l as [|y l].
  - cbn. lia.
  - cbn [map]. rewrite str_join_cons2, !str_app_length.
    change (f y :: map f l) with (map f (y :: l)). cbn [sum_list foldr map fmap] in *.
    cbn in IH |- *. lia.
Qed.

Lemma doc_size_print v : json_doc v = true → doc_size v ≤ String.length (json_write gap a v).
Proof.
  induction v as [| | | | |l IH|l IH|d IH|] using pyval_ind'; intros Hd;
    try (apply plain_start_length, json_write_start, Hd); try done.
  - cbn [json_write doc_size]. rewrite !str_app_length. cbn in Hd.
    apply Is_true_true, forallb_True in Hd. cbn [String.length].
    assert (Forall (λ x, doc_size x ≤ String.length (json_write gap a x)) l) as Hall.
    { rewrite Forall_forall in *. intros x Hx. apply IH; [done|]. by apply Is_true_true, Hd. }
    pose proof (str_join_length (json_write gap a) doc_size l Hall). lia.
  - change (json_write gap a (PDict d)) with ("{" +:+ str_join ("," +:+ gap) (map member d) +:+ "}").
    cbn [doc_size]. rewrite !str_app_length. cbn in Hd. apply andb_true_iff in Hd as [_ Hd].
    apply Is_true_true, forallb_True in Hd. cbn [String.length].
    assert (Forall (λ kv, doc_size kv.2 ≤ String.length (member kv)) d) as Hall.
    { rewrite Forall_forall in *. intros x Hx. unfold member. rewrite !str_app_length.
      assert (doc_size x.2 ≤ String.length (json_write gap a x.2)); [|lia].
      apply IH; [done|]. by apply Is_true_true, (Hd x). }
    pose proof (str_join_length member (λ kv, doc_size kv.2) d Hall). lia.
Qed.

(** A written document, followed by blanks only, is read back. *)
Lemma json_loads_print v t :
  json_doc v = true → stop t = true → skip_ws t = EmptyString →
  loads_with u (json_write gap a v +:+ t) = Ok v.
Proof.
  intros Hd Hs Ht. unfold loads_with.
  rewrite skip_ws_start by by apply json_write_start.
  rewrite json_reads_back; [by rewrite Ht|done| |done].
  pose proof (doc_size_print v Hd). rewrite str_app_length. lia.
Qed.
End roundtrip.

(** ** The document a value is written as *)
Lemma sort_items_perm {A} (d : list (string * A)) : sort_items d ≡ₚ d.
Proof. apply merge_sort_Permutation. Qed.
Lemma sort_items_sorted {A} (d : list (string * A)) : StronglySorted key_le (sort_items d).
Proof. apply StronglySorted_merge_sort; apply _. Qed.
Lemma keys_sort_items {A} (d : list (string * A)) : keys (sort_items d) ≡ₚ keys d.
Proof. apply keys_perm, sort_items_perm. Qed.
Lemma keys_map {A B} (f : A → B) (d : list (string * A)) :
  keys (map (λ kv, (kv.1, f kv.2)) d) = keys d.
Proof. induction d as [|[k v] d IH]; [done|]. cbn. f_equal. exact IH. Qed.

Lemma sort_items_unique {A} (d d' : list (string * A)) :
  NoDup (keys d) → d ≡ₚ d' → sort_items d = sort_items d'.
Proof.
  intros Hn Hp. apply (StronglySorted_unique_strong key_le).
  - intros [k v] [k' w] H1 H2 Hle Hle'. assert (k = k') as <-.
    { apply (anti_symm String.le); [apply Hle|apply Hle']. }
    rewrite sort_items_perm in H1, H2. rewrite <- Hp in H2.
    apply (dict_get_NoDup _ _ _ Hn) in H1, H2. congruence.
  - apply sort_items_sorted.
  - apply sort_items_sorted.
  - by rewrite !sort_items_perm.
Qed.
Lemma sort_items_id {A} (d : list (string * A)) :
  NoDup (keys d) → StronglySorted key_le d → sort_items d = d.
Proof.
  intros Hn Hs. apply (StronglySorted_unique_strong key_le).
  - intros [k v] [k' w] H1 H2 Hle Hle'. assert (k = k') as <-.
    { apply (anti_symm String.le); [apply Hle|apply Hle']. }
    rewrite sort_items_perm in H1. apply (dict_get_NoDup _ _ _ Hn) in H1, H2. congruence.
  - apply sort_items_sorted.
  - done.
  - apply sort_items_perm.
Qed.

Lemma Forall_forallb {A} (p : A → bool) l : forallb p l = true ↔ Forall (λ x, p x = true) l.
Proof. rewrite List.forallb_forall, List.Forall_forall. done. Qed.
Lemma forallb_perm {A} (p : A → bool) l l' : l ≡ₚ l' → forallb p l = forallb p l'.
Proof.
  induction 1 as [|x l l' _ IH|x y l|l l' l'' _ IH _ IH']; cbn; [done|by rewrite IH| |congruence].
  by rewrite !andb_assoc, (andb_comm (p x)).
Qed.
Lemma forallb_map {A B} (f : A → B) p l : forallb p (map f l) = forallb (λ x, p (f x)) l.
Proof. induction l as [|x l IH]; cbn; [done|]. by rewrite IH. Qed.
Lemma forallb_ext_Forall {A} (p q : A → bool) l :
  Forall (λ x, p x = q x) l → forallb p l = forallb q l.
Proof. induction 1 as [|x l Hx _ IH]; cbn; [done|]. by rewrite Hx, IH. Qed.

Lemma forallb_and {A} (p q : A → bool) l :
  forallb (λ x, p x && q x) l = forallb p l && forallb q l.
Proof.
  induction l as [|x l IH]; cbn; [done|]. rewrite IH.
  by destruct (p x), (q x), (forallb p l).
Qed.

(** A value without opaque objects: everything [json.dumps] accepts. *)
Fixpoint json_plain (v : pyval) : bool :=
  match v with
  | PObj _ _ => false
  | PList l | PTuple l => forallb json_plain l
  | PDict d => forallb (λ kv, json_plain kv.2) d
  | _ => true
  end.

Lemma jnorm_doc v : json_doc (jnorm v) = py_wf v && json_plain v.
Proof.
  induction v as [| | | | |l IH|l IH|d IH|] using pyval_ind'; cbn; rewrite ?andb_true_r; try done.
  1,2: by rewrite forallb_map, <- forallb_and; apply forallb_ext_Forall.
  rewrite <- andb_assoc. f_equal.
  - apply bool_decide_ext. by rewrite keys_sort_items, keys_map.
  - rewrite (forallb_perm _ _ _ (sort_items_perm _)), forallb_map, <- forallb_and.
    by apply forallb_ext_Forall.
Qed.

(** Normal forms are normal. *)
Lemma sort_items_map {A B} (f : A → B) (d : list (string * A)) :
  NoDup (keys d) →
  sort_items (map (λ kv, (kv.1, f kv.2)) d) = map (λ kv, (kv.1, f kv.2)) (sort_items d).
Proof.
  intros Hn. symmetry.
  rewrite <- (sort_items_id (map _ (sort_items d))).
  - apply sort_items_unique; [by rewrite keys_map, keys_sort_items|].
    apply Permutation_map, sort_items_perm.
  - by rewrite keys_map, keys_sort_items.
  - pose proof (sort_items_sorted d) as Hs. induction Hs as [|x l Hs IH Hx]; cbn; constructor; [done|].
    rewrite Forall_map. eapply Forall_impl; [exact Hx|]. done.
Qed.
Lemma jnorm_idem v : py_wf v = true → jnorm (jnorm v) = jnorm v.
Proof.
  induction v as [| | | | |l IH|l IH|d IH|] using pyval_ind'; cbn; intros Hwf; try done.
  1,2: f_equal; rewrite map_map; apply map_ext_in; intros x Hx%list_elem_of_In;
    rewrite Forall_forall in IH; apply IH; [done|];
    apply Is_true_true, forallb_True in Hwf; rewrite Forall_forall in Hwf;
    by apply Is_true_true, Hwf.
  apply andb_true_iff in Hwf as [Hn%bool_decide_eq_true Hwf]. f_equal.
  rewrite sort_items_map by by rewrite keys_sort_items, keys_map.
  rewrite (sort_items_id (sort_items _)).
  2: by rewrite keys_sort_items, keys_map. 2: apply sort_items_sorted.
  rewrite <- (map_id (sort_items _)) at 2. apply map_ext_in.
  intros [k x] Hx%list_elem_of_In. rewrite sort_items_perm in Hx.
  apply list_elem_of_fmap in Hx as ([k' y] & [= -> ->] & Hy). cbn. f_equal.
  rewrite Forall_forall in IH. apply (IH (k', y)); [done|].
  apply Is_true_true, forallb_True in Hwf. rewrite Forall_forall in Hwf.
  by apply Is_true_true, (Hwf (k', y)).
Qed.

Lemma py_wf_jnorm v : py_wf (jnorm v) = py_wf v.
Proof.
  induction v as [| | | | |l IH|l IH|d IH|] using pyval_ind'; cbn; try done.
  1,2: rewrite forallb_map; by apply forallb_ext_Forall.
  rewrite (forallb_perm _ _ _ (sort_items_perm _)), forallb_map. f_equal.
  - apply bool_decide_ext. by rewrite keys_sort_items, keys_map.
  - by apply forallb_ext_Forall.
Qed.

Section dumps.
Context `{FloatText}.

Lemma json_check_plain n v : json_check n v = Ok () → json_plain v = true.
Proof.
  induction v as [| | | | |l IH|l IH|d IH|] using pyval_ind'; cbn; try done.
  1,2: induction IH as [|x l Hx _ IH]; cbn; [done|];
    intros (u & Hu & Hl)%bind_Ok_inv; destruct u; rewrite Hx by done; by apply IH.
  induction IH as [|x d Hx _ IH]; cbn; [done|].
  intros (u & Hu & Hd)%bind_Ok_inv. destruct u. rewrite Hx by done. by apply IH.
Qed.
Lemma json_plain_jnorm v : json_plain (jnorm v) = json_plain v.
Proof.
  induction v as [| | | | |l IH|l IH|d IH|] using pyval_ind'; cbn; try done.
  1,2: rewrite forallb_map; by apply forallb_ext_Forall.
  rewrite (forallb_perm _ _ _ (sort_items_perm _)), forallb_map. by apply forallb_ext_Forall.
Qed.

Lemma json_dumps_Ok a n v t : json_dumps a n v = Ok t →
  json_check n (jnorm v) = Ok () ∧ json_plain v = true ∧ t = json_print a (jnorm v).
Proof.
  unfold json_dumps. intros ([] & Hc & [= <-])%bind_Ok_inv.
  split; [done|]. split; [|done]. rewrite <- json_plain_jnorm. by eapply json_check_plain.
Qed.
Lemma json_dumps_doc a n v t :
  py_wf v = true → json_dumps a n v = Ok t → json_doc (jnorm v) = true.
Proof. intros Hwf (_ & Hp & _)%json_dumps_Ok. by rewrite jnorm_doc, Hwf, Hp. Qed.

(** [json.loads(json.dumps(v) + t)] for blank [t]. *)
Lemma loads_with_dumps u a n v s t :
  py_wf v = true → json_dumps a n v = Ok s → stops num_char t = true → skip_ws t = EmptyString →
  loads_with u (s +:+ t) = Ok (jnorm v).
Proof.
  intros Hwf Hs Ht Hw. pose proof (json_dumps_doc a n v s Hwf Hs) as Hd.
  apply json_dumps_Ok in Hs as (_ & _ & ->). by apply json_loads_print.
Qed.

Lemma json_loads_dumps a n v s t :
  py_wf v = true → json_dumps a n v = Ok s → stops num_char t = true → skip_ws t = EmptyString →
  json_loads (s +:+ t) = Ok (jnorm v).
Proof. apply loads_with_dumps. Qed.

(** Equal texts are texts of the same document. *)
Lemma json_dumps_inj a n v w s :
  py_wf v = true → py_wf w = true →
  json_dumps a n v = Ok s → json_dumps a n w = Ok s → jnorm v = jnorm w.
Proof.
  intros Hv Hw Hs Hs'.
  pose proof (json_loads_dumps a n v s EmptyString Hv Hs eq_refl eq_refl) as E.
  rewrite (json_loads_dumps a n w s EmptyString Hw Hs' eq_refl eq_refl) in E. congruence.
Qed.
(** The text depends on the document only. *)
Lemma json_dumps_jnorm a n v w : jnorm v = jnorm w → json_dumps a n v = json_dumps a n w.
Proof. unfold json_dumps. by intros ->. Qed.
End dumps.

(** Members of mappings written as the same document. *)
Lemma dict_get_map {A B} (f : A → B) k (d : list (string * A)) :
  dict_get k (map (λ kv, (kv.1, f kv.2)) d) = f <$> dict_get k d.
Proof. induction d as [|[k' v] d IH]; cbn; [done|]. by destruct (String.eqb k k'). Qed.
Lemma jnorm_get k (d : list (string * pyval)) : NoDup (keys d) →
  dict_get k (sort_items (map (λ kv, (kv.1, jnorm kv.2)) d)) = jnorm <$> dict_get k d.
Proof.
  intros Hd. rewrite <- dict_get_map. symmetry.
  apply dict_get_perm; [by rewrite keys_map|by rewrite sort_items_perm].
Qed.
Lemma keys_jnorm (d : list (string * pyval)) :
  keys (sort_items (map (λ kv, (kv.1, jnorm kv.2)) d)) ≡ₚ keys d.
Proof. by rewrite keys_sort_items, keys_map. Qed.
Lemma jnorm_dict_get d d' k :
  NoDup (keys d) → NoDup (keys d') → jnorm (PDict d) = jnorm (PDict d') →
  jnorm <$> dict_get k d = jnorm <$> dict_get k d'.
Proof.
  intros Hd Hd' [= E]. by rewrite <- !jnorm_get, E.
Qed.
(** Mappings with the same members are written as the same document. *)
Lemma dict_perm {A} (d d' : list (string * A)) :
  NoDup (keys d) → NoDup (keys d') → (∀ k, dict_get k d = dict_get k d') → d ≡ₚ d'.
Proof.
  intros Hd Hd' E. apply NoDup_Permutation.
  1,2: by eapply (NoDup_fmap_1 fst).
  intros [k v]. split; intros Hin%dict_get_NoDup; try done; apply dict_get_In; congruence.
Qed.
Lemma jnorm_dict_ext d d' :
  NoDup (keys d) → NoDup (keys d') → (∀ k, dict_get k d = dict_get k d') →
  jnorm (PDict d) = jnorm (PDict d').
Proof.
  intros Hd Hd' E. cbn. f_equal. apply sort_items_unique; [by rewrite keys_map|].
  apply Permutation_map. by apply dict_perm.
Qed.
Lemma dict_get_keys {A} (d : list (string * A)) :
  NoDup (keys d) → map (λ k, dict_get k d) (keys d) = map (λ kv, Some kv.2) d.
Proof.
  intros Hd. unfold keys. rewrite map_map. apply map_ext_in.
  intros [k v] Hin%list_elem_of_In. by apply dict_get_NoDup.
Qed.
(** Mappings with the same keys in the same order, written as the same document,
    agree member by member. *)
Lemma jnorm_members d d' :
  NoDup (keys d) → keys d = keys d' → jnorm (PDict d) = jnorm (PDict d') →
  map (λ kv, Some (jnorm kv.2)) d = map (λ kv, Some (jnorm kv.2)) d'.
Proof.
  intros Hd Hk E. assert (NoDup (keys d')) as Hd' by by rewrite <- Hk.
  assert (∀ d, NoDup (keys d) →
    map (λ kv, Some (jnorm kv.2)) d = map (λ k, jnorm <$> dict_get k d) (keys d)) as G.
  { clear. intros d Hd. rewrite <- (map_map (λ k, dict_get k d) (fmap jnorm)), dict_get_keys by done.
    by rewrite map_map. }
  rewrite !G by done. rewrite <- Hk. apply map_ext. intros k. by apply jnorm_dict_get.
Qed.
Lemma map_jnorm_str l l' : map jnorm (map PStr l) = map jnorm (map PStr l') → l = l'.
Proof.
  rewrite !map_map. intros E. revert l' E.
  induction l as [|x l IH]; intros [|y l'] [=]; [done|]. f_equal; [done|by apply IH].
Qed.
Lemma jnorm_str_list l l' : jnorm (str_list l) = jnorm (str_list l') → l = l'.
Proof. unfold str_list. cbn. intros [= E]. by apply map_jnorm_str. Qed.
Lemma str_list_inj l l' : str_list l = str_list l' → l = l'.
Proof. intros E. apply jnorm_str_list. by rewrite E. Qed.
Lemma jnorm_of_str_list l : jnorm (str_list l) = str_list l.
Proof. unfold str_list. cbn. f_equal. induction l as [|x l IH]; cbn; congruence. Qed.
Lemma opt_str_inj o o' : opt_str o = opt_str o' → o = o'.
Proof. destruct o, o'; cbn; congruence. Qed.
Lemma jnorm_opt_str o : jnorm (opt_str o) = opt_str o.
Proof. by destruct o. Qed.
Lemma jnorm_opt_int o : jnorm (opt_int o) = opt_int o.
Proof. by destruct o. Qed.
Lemma str_list_plain l : json_plain (str_list l) = true.
Proof. unfold str_list. cbn. by induction l. Qed.
Lemma str_list_wf l : py_wf (str_list l) = true.
Proof. unfold str_list. cbn. by induction l. Qed.

#[export] Hint Resolve json_dumps_jnorm jnorm_idem str_list_plain str_list_wf : nexus.

(** ** The text has no control character *)
Definition printable (c : ascii) : bool := (32 <=? code c)%N.
Lemma json_chars_printable a s : str_forallb printable (json_chars a s) = true.
Proof.
  induction s as [|c s IH]; [done|]. cbn [json_chars]. rewrite str_forallb_app, IH, andb_true_r.
  destruct a, c as [[] [] [] [] [] [] [] []]; reflexivity.
Qed.
Lemma json_string_printable a s : str_forallb printable (json_string a s) = true.
Proof. unfold json_string. cbn. by rewrite str_forallb_app, json_chars_printable. Qed.
Lemma str_join_forallb p sep l :
  str_forallb p sep = true → Forall (λ s, str_forallb p s = true) l → str_forallb p (str_join sep l) = true.
Proof.
  intros Hsep. induction 1 as [|s l Hs Hl IH]; [done|]. destruct l as [|s' l]; [done|].
  rewrite str_join_cons2, !str_forallb_app, Hs, Hsep, IH. done.
Qed.
Definition ascii_graphic (c : ascii) : bool := ((32 <=? code c) && (code c <=? 126))%N.
Lemma ascii_graphic_printable c : ascii_graphic c = true → printable c = true.
Proof. by intros [? _]%andb_true_iff. Qed.
Lemma json_chars_ascii s : str_forallb ascii_graphic (json_chars true s) = true.
Proof.
  induction s as [|c s IH]; [done|]. cbn [json_chars]. rewrite str_forallb_app, IH, andb_true_r.
  destruct c as [[] [] [] [] [] [] [] []]; reflexivity.
Qed.
Lemma json_string_ascii s : str_forallb ascii_graphic (json_string true s) = true.
Proof. unfold json_string. cbn. by rewrite str_forallb_app, json_chars_ascii. Qed.
Lemma num_char_ascii c : num_char c = true → ascii_graphic c = true.
Proof. destruct c as [[] [] [] [] [] [] [] []]; done. Qed.
(** Beyond its strings a document is written in ASCII. *)
Lemma json_write_forallb `{FloatText} p gap a v :
  (∀ c, ascii_graphic c = true → p c = true) → (∀ s, str_forallb p (json_string a s) = true) →
  str_forallb p gap = true → json_doc v = true → str_forallb p (json_write gap a v) = true.
Proof.
  intros Hp Hstr Hg.
  assert (∀ s, str_forallb ascii_graphic s = true → str_forallb p s = true) as Hs by (intro; by apply str_forallb_impl).
  assert (str_forallb p ("," +:+ gap) = true) as Hc by (by rewrite str_forallb_app, Hg, (Hs ",")).
  induction v as [|[]|n|f|s|l IH|l IH|d IH|t s] using pyval_ind'; intros Hv; try done; cbn [json_write];
    try (by apply Hs).
  - apply (str_forallb_impl num_char); [intros; by apply Hp, num_char_ascii|apply int_text_num].
  - destruct (float_finite f) eqn:Hf.
    + rewrite json_float_finite by done. apply (str_forallb_impl num_char); [intros; by apply Hp, num_char_ascii|].
      by apply float_repr_tokens.
    + by destruct (json_float_special f Hf) as [[-> ->]|[[-> ->]|[-> ->]]]; apply Hs.
  - apply Hstr.
  - rewrite !str_forallb_app, (Hs "["), (Hs "]"), andb_true_r by done. apply str_join_forallb; [done|].
    rewrite Forall_map. cbn in Hv. apply Forall_forallb in Hv. rewrite Forall_forall in *. auto.
  - rewrite !str_forallb_app, (Hs "{"), (Hs "}"), andb_true_r by done. apply str_join_forallb; [done|].
    rewrite Forall_map. cbn in Hv. apply andb_true_iff in Hv as [_ Hv].
    apply Forall_forallb in Hv. rewrite Forall_forall in *. intros kv Hkv.
    by rewrite !str_forallb_app, Hstr, Hg, (Hs ":"), IH by auto.
Qed.
Lemma json_write_printable `{FloatText} gap a v :
  str_forallb printable gap = true → json_doc v = true → str_forallb printable (json_write gap a v) = true.
Proof. apply json_write_forallb; [exact ascii_graphic_printable|apply json_string_printable]. Qed.
Lemma json_write_ascii `{FloatText} gap v :
  str_forallb ascii_graphic gap = true → json_doc v = true → str_forallb ascii_graphic (json_write gap true v) = true.
Proof. apply json_write_forallb; [done|apply json_string_ascii]. Qed.

(** ** What parsing returns *)
Section parsed.
Context `{FloatText}.

Lemma parse_number_doc s v r : parse_number s = Some (v, r) → json_doc v = true.
Proof.
  unfold parse_number. destruct (str_span num_char s) as [t u]. case_match.
  - intros (f & Hf & [= <- <-])%bind_Some. cbn. by eapply float_of_text_valid.
  - by intros (n & _ & [= <- <-])%bind_Some.
Qed.
Lemma parse_constant_doc s v r : parse_constant s = Some (v, r) → json_doc v = true.
Proof. unfold parse_constant. intros E. repeat case_match; by simplify_eq. Qed.
Lemma parse_doc uq fuel :
  (∀ s v r, parse_value uq fuel s = Some (v, r) → json_doc v = true) ∧
  (∀ s l r, parse_elems uq fuel s = Some (l, r) → Forall (λ v, json_doc v = true) l) ∧
  (∀ s d r, parse_members uq fuel s = Some (d, r) → Forall (λ kv, json_doc kv.2 = true) d).
Proof.
  induction fuel as [|fuel (IHv & IHe & IHm)]; [done|]. split_and!.
  - intros [|c s] v r; [done|]. cbn [parse_value].
    case_match; [by intros ([t u] & _ & [= <- <-])%bind_Some|].
    case_match; [case_match; [by intros [= <- <-]|]|].
    { intros ([l u] & Hl & [= <- <-])%bind_Some. cbn. apply IHe in Hl.
      by apply forallb_True, Is_true_true in Hl || (apply List.forallb_forall; by apply List.Forall_forall). }
    case_match; [case_match; [by intros [= <- <-]|]|].
    { intros ([d w] & Hd & (d' & Hd' & [= <- <-])%bind_Some)%bind_Some. cbn.
      unfold members_dict in Hd'. destruct (uq && _); [done|]. injection Hd' as <-.
      apply IHm, dict_of_Forall in Hd. rewrite bool_decide_true by apply NoDup_dict_of.
      apply List.forallb_forall. by apply List.Forall_forall. }
    case_match eqn:Ec; [|apply parse_number_doc]. intros [= ->]. by eapply parse_constant_doc.
  - intros s l r. cbn [parse_elems]. intros ([v u] & Hv & H1)%bind_Some. apply IHv in Hv.
    destruct (skip_ws u) as [|[[] [] [] [] [] [] [] []] u']; try done; cbn in H1.
    + injection H1 as <- <-. by repeat constructor.
    + apply bind_Some in H1 as ([l' u''] & Hl & [= <- <-]). apply IHe in Hl. by constructor.
  - intros [|c s] d r; [done|]. cbn [parse_members]. case_match; [|done].
    intros ([k u] & _ & H1)%bind_Some.
    destruct (skip_ws u) as [|[[] [] [] [] [] [] [] []] u']; try done; cbn in H1.
    apply bind_Some in H1 as ([v u''] & Hv & H1). apply IHv in Hv.
    destruct (skip_ws u'') as [|[[] [] [] [] [] [] [] []] w]; try done; cbn in H1.
    + injection H1 as <- <-. by repeat constructor.
    + apply bind_Some in H1 as ([d' w'] & Hd & [= <- <-]). apply IHm in Hd. by constructor.
Qed.
(** A document read from text is well formed. *)
Lemma loads_with_doc u s v : loads_with u s = Ok v → json_doc v = true.
Proof.
  unfold loads_with. destruct (parse_value _ _ _) as [[w r]|] eqn:E; [|done].
  case_match; [|done]. intros [= <-]. by eapply (proj1 (parse_doc _ _)).
Qed.
Lemma json_doc_wf v : json_doc v = true → py_wf v = true ∧ json_plain v = true.
Proof.
  induction v as [| | | | |l IH|l IH|d IH|] using pyval_ind'; cbn; try done.
  - induction IH as [|x l Hx _ IH]; cbn; [done|]. intros [[-> ->]%Hx [??]%IH]%andb_true_iff. done.
  - intros [-> Hd]%andb_true_iff. revert Hd. cbn.
    induction IH as [|x l Hx _ IH]; cbn; [done|]. intros [[-> ->]%Hx [??]%IH]%andb_true_iff. done.
Qed.
Lemma json_loads_doc s v : json_loads s = Ok v → json_doc v = true.
Proof. apply loads_with_doc. Qed.
Lemma json_loads_wf s v : json_loads s = Ok v → py_wf v = true.
Proof. intros Hs%json_loads_doc. by destruct (json_doc_wf _ Hs). Qed.

(** A value [json.dump] can write. *)
Definition doc_ok (v : pyval) : Prop := py_wf v = true ∧ json_plain v = true.
Lemma doc_ok_get d k v : doc_ok (PDict d) → dict_get k d = Some v → doc_ok v.
Proof.
  intros [Hw Hp] Hk%dict_get_In. cbn in Hw, Hp. apply andb_true_iff in Hw as [_ Hw].
  apply Forall_forallb in Hw, Hp. rewrite Forall_forall in Hw, Hp.
  by split; [apply (Hw (k, v))|apply (Hp (k, v))].
Qed.
Lemma doc_ok_py_get d k : doc_ok (PDict d) → doc_ok (py_get d k).
Proof. intros Hd. unfold py_get. destruct (dict_get k d) eqn:E; [by eapply doc_ok_get|done]. Qed.
Lemma json_loads_ok s v : json_loads s = Ok v → doc_ok v.
Proof. intros Hs%json_loads_doc. by destruct (json_doc_wf _ Hs). Qed.
Lemma json_check_ok v : json_plain v = true → json_check true v = Ok ().
Proof.
  induction v as [| | | | |l IH|l IH|d IH|] using pyval_ind'; cbn; try done.
  - by rewrite andb_false_r.
  - induction IH as [|x l Hx _ IH]; cbn; [done|]. intros [->%Hx ?]%andb_true_iff. by apply IH.
  - induction IH as [|x l Hx _ IH]; cbn; [done|]. intros [->%Hx ?]%andb_true_iff. by apply IH.
  - induction IH as [|x l Hx _ IH]; cbn; [done|]. intros [->%Hx ?]%andb_true_iff. by apply IH.
Qed.
End parsed.

(** Members of a written-and-read mapping. *)
Lemma py_get_jnorm d d' k :
  NoDup (keys d) → jnorm (PDict d) = PDict d' → py_get d' k = jnorm (py_get d k).
Proof.
  intros Hd [= <-]. unfold py_get. rewrite jnorm_get by done. by destruct (dict_get k d).
Qed.

(** Split an equality of documents of two literal mappings into its members. *)
Ltac doc_members E :=
  apply jnorm_members in E; [|by apply (bool_decide_eq_true_1 _)|done];
  cbn [map fst snd] in E; rewrite ?jnorm_opt_str, ?jnorm_opt_int in E;
  cbn [jnorm] in E; injection E; clear E; intros;
  repeat match goal with
    | H : map jnorm (map PStr _) = map jnorm (map PStr _) |- _ => apply map_jnorm_str in H
    | H : opt_str _ = opt_str _ |- _ => apply opt_str_inj in H
    end.

(** ** Values JSON does not know *)
(** What [json.dumps(..., default=str)] writes for a value: an object it does not know is
    written as its text. *)
Fixpoint stored (v : pyval) : pyval :=
  match v with
  | PObj _ s => PStr s
  | PList l | PTuple l => PList (map stored l)
  | PDict d => PDict (map (λ kv, (kv.1, stored kv.2)) d)
  | _ => v
  end.
Lemma stored_doc v : py_wf v = true → json_doc (stored v) = true.
Proof.
  induction v as [| | | | |l IH|l IH|d IH|] using pyval_ind'; cbn; intros Hw; try done.
  1,2: rewrite forallb_map; apply Forall_forallb in Hw; apply Forall_forallb;
    rewrite Forall_forall in *; auto.
  apply andb_true_iff in Hw as [Hn Hw]. rewrite keys_map, Hn, forallb_map. cbn.
  apply Forall_forallb in Hw; apply Forall_forallb; rewrite Forall_forall in *; auto.
Qed.
Lemma stored_id v : json_doc v = true → stored v = v.
Proof.
  induction v as [| | | | |l IH|l IH|d IH|] using pyval_ind'; cbn; intros Hw; try done; f_equal.
  - apply Forall_forallb in Hw. rewrite <- (map_id l) at 2. apply map_ext_Forall.
    rewrite Forall_forall in *. auto.
  - apply andb_true_iff in Hw as [_ Hw]. apply Forall_forallb in Hw.
    rewrite <- (map_id d) at 2. apply map_ext_Forall. rewrite Forall_forall in *.
    intros [k v] Hkv. cbn. f_equal. by apply (IH _ Hkv), (Hw _ Hkv).
Qed.
Lemma stored_idem v : py_wf v = true → stored (stored v) = stored v.
Proof. intros Hv. by apply stored_id, stored_doc. Qed.

(** The mapping read back for the mapping written. *)
Definition stored_dict (r : dict) : dict := map (λ kv, (kv.1, stored kv.2)) r.
Lemma stored_dict_get r k : py_get (stored_dict r) k = stored (py_get r k).
Proof. unfold py_get, stored_dict. rewrite dict_get_map. by destruct (dict_get k r). Qed.
Lemma stored_dict_del r k : dict_del k (stored_dict r) = stored_dict (dict_del k r).
Proof. induction r as [|[k' v] r IH]; cbn; [done|]. destruct (String.eqb k k'); [done|]. cbn. f_equal. exact IH. Qed.
Lemma stored_dict_set r k v : stored_dict (dict_set k v r) = dict_set k (stored v) (stored_dict r).
Proof. induction r as [|[k' w] r IH]; cbn; [done|]. destruct (String.eqb k k'); cbn; [done|]. f_equal. exact IH. Qed.
Lemma stored_dict_wf r : py_wf (PDict r) = true → json_doc (PDict (stored_dict r)) = true.
Proof. apply (stored_doc (PDict r)). Qed.
Lemma stored_plain v : json_plain (stored v) = true.
Proof.
  induction v as [| | | | |l IH|l IH|d IH|] using pyval_ind'; cbn; try done;
    rewrite forallb_map; apply Forall_forallb; done.
Qed.
