(* ===== verification/Lines.v ===== *)
(** * Lines of a text

    [splitlines] of [str] and of [bytes] and the text files built from whole lines.  The
    line boundaries are the line feed, the carriage return (with the line feed after it, if
    any) and the other characters a predicate names: none for [bytes], the vertical tab, the
    form feed, the separators U+001C to U+001E and U+0085 for [str]. *)
From Stdlib Require Import Ascii String.
From S2P Require Import Prelude PyValue Json.

Definition newline : string := String "010"%char EmptyString.
Fixpoint ends_with_newline (s : string) : bool :=
  match s with
  | EmptyString => false
  | String c EmptyString => (code c =? 10)%N
  | String _ r => ends_with_newline r
  end.
Definition no_boundary (c : ascii) : bool := false.
Definition str_boundary (c : ascii) : bool :=
  let n := code c in ((n =? 11) || (n =? 12) || ((28 <=? n) && (n <=? 30)) || (n =? 133))%N.
(** A character that stays inside its line. *)
Definition inner (other : ascii → bool) (c : ascii) : bool :=
  negb (code c =? 10)%N && negb (code c =? 13)%N && negb (other c).
Fixpoint split_lines (other : ascii → bool) (s : string) : list string :=
  match s with
  | EmptyString => []
  | String c r =>
      if (code c =? 13)%N then
        match r with
        | String d r' =>
            if (code d =? 10)%N then EmptyString :: split_lines other r' else EmptyString :: split_lines other r
        | EmptyString => [EmptyString]
        end
      else if inner other c then
        match split_lines other r with
        | [] => [String c EmptyString]
        | l :: ls => String c l :: ls
        end
      else EmptyString :: split_lines other r
  end.
(** [bytes.splitlines()] and [str.splitlines()]. *)
Abbreviation bytes_splitlines := (split_lines no_boundary).
Abbreviation str_splitlines := (split_lines str_boundary).

(** Text read with universal newlines: every line end becomes a line feed. *)
Fixpoint universal_newlines (s : string) : string :=
  match s with
  | EmptyString => EmptyString
  | String c r =>
      if (code c =? 13)%N then
        match r with
        | String d r' =>
            if (code d =? 10)%N then newline +:+ universal_newlines r' else newline +:+ universal_newlines r
        | EmptyString => newline
        end
      else String c (universal_newlines r)
  end.

(** A file of whole lines. *)
Definition whole (s : string) : Prop := s = EmptyString ∨ ends_with_newline s = true.

(** * Lemmas *)
Lemma ends_with_newline_app s t : t ≠ EmptyString → ends_with_newline (s +:+ t) = ends_with_newline t.
Proof.
  intros Ht. induction s as [|c s IH]; [done|]. rewrite str_app_cons, <- IH.
  destruct s as [|d s]; [|done]. destruct t; [done|]. reflexivity.
Qed.
Lemma whole_app s t : whole t → t ≠ EmptyString → whole (s +:+ t).
Proof. intros [->|Ht] Hne; [done|]. right. by rewrite ends_with_newline_app. Qed.
Lemma whole_line s t : whole (s +:+ (t +:+ newline)).
Proof. right. rewrite !ends_with_newline_app; by destruct t. Qed.

Section boundaries.
Context (other : ascii → bool).

Lemma split_lines_cons c r : split_lines other (String c r) =
  if (code c =? 13)%N then
    match r with
    | String d r' =>
        if (code d =? 10)%N then EmptyString :: split_lines other r' else EmptyString :: split_lines other r
    | EmptyString => [EmptyString]
    end
  else if inner other c then
    match split_lines other r with
    | [] => [String c EmptyString]
    | l :: ls => String c l :: ls
    end
  else EmptyString :: split_lines other r.
Proof. done. Qed.
Lemma split_lines_nil s : split_lines other s = [] → s = EmptyString.
Proof. destruct s; [done|]. rewrite split_lines_cons. repeat case_match; done. Qed.
Lemma inner_newline c : (code c =? 10)%N = true → inner other c = false.
Proof. unfold inner. by intros ->. Qed.
Lemma split_lines_app s t : whole s →
  split_lines other (s +:+ t) = split_lines other s ++ split_lines other t.
Proof.
  intros [->|Hs]; [done|]. revert Hs. remember (String.length s) as n eqn:Hn.
  revert s Hn. induction n as [n IH] using lt_wf_ind. intros [|c r] ->; [done|]. intros Hs.
  rewrite str_app_cons. destruct r as [|d r].
  - cbn in Hs. rewrite str_app_nil, !split_lines_cons, inner_newline by done.
    apply N.eqb_eq in Hs. by rewrite Hs.
  - assert (ends_with_newline (String d r) = true) as Hr by done.
    pose proof (IH (String.length (String d r)) ltac:(cbn; lia) _ eq_refl Hr) as E.
    rewrite !(split_lines_cons c), E. destruct (code c =? 13)%N.
    + rewrite str_app_cons. destruct (code d =? 10)%N; [|done]. cbn [app]. f_equal.
      destruct r as [|e r]; [done|].
      by apply (IH (String.length (String e r))); [cbn; lia|..].
    + destruct (inner other c); [|done].
      by destruct (split_lines other (String d r)) as [|l ls] eqn:El; [apply split_lines_nil in El|].
Qed.
Lemma split_lines_line t : str_forallb (inner other) t = true → split_lines other (t +:+ newline) = [t].
Proof.
  induction t as [|c t IH]; [done|]. cbn [str_forallb]. intros [Hc Ht]%andb_true_iff.
  rewrite str_app_cons. cbn [split_lines]. rewrite IH, Hc by done.
  unfold inner in Hc. by destruct (code c =? 13)%N; [rewrite andb_false_r in Hc|].
Qed.
End boundaries.

Lemma printable_inner c : printable c = true → inner no_boundary c = true.
Proof.
  unfold printable, inner. intros Hc%N.leb_le.
  rewrite (proj2 (N.eqb_neq (code c) 10)) by lia. by rewrite (proj2 (N.eqb_neq (code c) 13)) by lia.
Qed.
Lemma ends_printable s : str_forallb printable s = true → ends_with_newline s = false.
Proof.
  induction s as [|c s IH]; [done|]. cbn [str_forallb]. intros [Hc Hs]%andb_true_iff.
  destruct s as [|d s]; [|by apply IH]. cbn. unfold printable in Hc. apply N.leb_le in Hc.
  apply N.eqb_neq. lia.
Qed.
