(* ===== verification/Digest.v ===== *)
(** * Content hashes

    [Digest] is what the runtime needs of [hashlib.sha256]: a function from bytes to
    64 lower-case hexadecimal digits.  The components are developed against the
    interface; no theorem assumes the function injective, those that compare hashes
    exhibit the colliding inputs instead ([collision]).  SHA-256 itself (FIPS 180-4)
    is the instance used for evaluation. *)
From Stdlib Require Import Ascii String NArith SpecFloat.
From S2P Require Import Prelude PyValue Json.

(** ** Bytes of a text *)
Definition utf8_char (c : ascii) : string :=
  let n := code c in
  if (n <? 128)%N then String c EmptyString
  else String (ascii_of_N (192 + N.shiftr n 6))
         (String (ascii_of_N (128 + N.land n 63)) EmptyString).
(** [s.encode("utf-8")], a byte per character of the result. *)
Fixpoint utf8 (s : string) : string :=
  match s with EmptyString => EmptyString | String c s => utf8_char c +:+ utf8 s end.

Definition hex_char (c : ascii) : bool :=
  let n := code c in ((48 <=? n) && (n <=? 57) || (97 <=? n) && (n <=? 102))%N.
Definition is_hex64 (s : string) : bool :=
  Nat.eqb (String.length s) 64 && str_forallb hex_char s.

(** ** The interface *)
Class Digest : Type := {
  sha256_hex : string → string;
  sha256_hex_wf b : is_hex64 (sha256_hex b) = true
}.

(** Two different byte strings with the same digest. *)
Definition collision `{Digest} (x y : string) : Prop := x ≠ y ∧ sha256_hex x = sha256_hex y.

(** [hashlib.sha256(s.encode("utf-8")).hexdigest()]. *)
Definition text_sha256 `{Digest} (s : string) : string := sha256_hex (utf8 s).

(** ** SHA-256 *)
Module Sha256.
Open Scope N_scope.
Definition mask : N := 4294967295.
Definition add (x y : N) : N := N.land (x + y) mask.
Definition rotr (x n : N) : N :=
  N.lor (N.shiftr x n) (N.land (N.shiftl x (32 - n)) mask).
Definition ch (x y z : N) : N := N.lxor (N.land x y) (N.land (N.lxor x mask) z).
Definition maj (x y z : N) : N := N.lxor (N.lxor (N.land x y) (N.land x z)) (N.land y z).
Definition bsig0 (x : N) : N := N.lxor (N.lxor (rotr x 2) (rotr x 13)) (rotr x 22).
Definition bsig1 (x : N) : N := N.lxor (N.lxor (rotr x 6) (rotr x 11)) (rotr x 25).
Definition ssig0 (x : N) : N := N.lxor (N.lxor (rotr x 7) (rotr x 18)) (N.shiftr x 3).
Definition ssig1 (x : N) : N := N.lxor (N.lxor (rotr x 17) (rotr x 19)) (N.shiftr x 10).

Definition round_constants : list N := [
  1116352408; 1899447441; 3049323471; 3921009573; 961987163; 1508970993; 2453635748; 2870763221;
  3624381080; 310598401; 607225278; 1426881987; 1925078388; 2162078206; 2614888103; 3248222580;
  3835390401; 4022224774; 264347078; 604807628; 770255983; 1249150122; 1555081692; 1996064986;
  2554220882; 2821834349; 2952996808; 3210313671; 3336571891; 3584528711; 113926993; 338241895;
  666307205; 773529912; 1294757372; 1396182291; 1695183700; 1986661051; 2177026350; 2456956037;
  2730485921; 2820302411; 3259730800; 3345764771; 3516065817; 3600352804; 4094571909; 275423344;
  430227734; 506948616; 659060556; 883997877; 958139571; 1322822218; 1537002063; 1747873779;
  1955562222; 2024104815; 2227730452; 2361852424; 2428436474; 2756734187; 3204031479; 3329325298].

Record words : Set := Words { wa : N; wb : N; wc : N; wd : N; we : N; wf : N; wg : N; wh : N }.
Definition initial : words :=
  Words 1779033703 3144134277 1013904242 2773480762 1359893119 2600822924 528734635 1541459225.

Definition round (s : words) (kw : N * N) : words :=
  let '(Words a b c d e f g h) := s in
  let t1 := add (add (add h (bsig1 e)) (add (ch e f g) kw.1)) kw.2 in
  let t2 := add (bsig0 a) (maj a b c) in
  Words (add t1 t2) a b c (add d t1) e f g.

(** The message schedule, last word first. *)
Fixpoint extend (n : nat) (ws : list N) : list N :=
  match n with
  | O => ws
  | S n =>
      let w i := nth i ws 0 in
      extend n (add (add (ssig1 (w 1%nat)) (w 6%nat)) (add (ssig0 (w 14%nat)) (w 15%nat)) :: ws)
  end.
Definition compress (s : words) (block : list N) : words :=
  let ws := rev (extend 48 (rev block)) in
  let '(Words a b c d e f g h) := fold_left round (combine round_constants ws) s in
  Words (add a (wa s)) (add b (wb s)) (add c (wc s)) (add d (wd s))
        (add e (we s)) (add f (wf s)) (add g (wg s)) (add h (wh s)).

Fixpoint bytes_of (s : string) : list N :=
  match s with EmptyString => [] | String c s => code c :: bytes_of s end.
Definition be_bytes (n : N) : list N :=
  map (λ k, N.land (N.shiftr n k) 255) [56; 48; 40; 32; 24; 16; 8; 0].
Definition pad (m : list N) : list N :=
  let len := length m in
  m ++ [128] ++ repeat 0 ((119 - len mod 64) mod 64)%nat ++ be_bytes (8 * N.of_nat len).
(** Big-endian 32-bit words, in blocks of sixteen. *)
Fixpoint to_words (m : list N) : list N :=
  match m with
  | a :: b :: c :: d :: m => (((a * 256 + b) * 256 + c) * 256 + d) :: to_words m
  | _ => []
  end.
Fixpoint blocks (fuel : nat) (ws : list N) : list (list N) :=
  match fuel, ws with
  | S fuel, _ :: _ => firstn 16 ws :: blocks fuel (skipn 16 ws)
  | _, _ => []
  end.
Definition digest_words (b : string) : words :=
  let ws := to_words (pad (bytes_of b)) in
  fold_left compress (blocks (length ws) ws) initial.

Definition hex8 (w : N) : string :=
  fold_right (λ k s, String (hex_digit (N.land (N.shiftr w k) 15)) s) EmptyString
    [28; 24; 20; 16; 12; 8; 4; 0].
Definition hexdigest (b : string) : string :=
  let '(Words a b c d e f g h) := digest_words b in
  hex8 a +:+ hex8 b +:+ hex8 c +:+ hex8 d +:+ hex8 e +:+ hex8 f +:+ hex8 g +:+ hex8 h.

Lemma hex_digit_char n : hex_char (hex_digit (N.land n 15)) = true.
Proof.
  assert (N.land n 15 < 16) as Hn.
  { change 15 with (N.ones 4). rewrite N.land_ones. by apply N.mod_lt. }
  revert Hn. generalize (N.land n 15). intros m Hm.
  assert (In m (map N.of_nat (List.seq 0 16))) as Hin.
  { apply in_map_iff. exists (N.to_nat m). rewrite N2Nat.id. split; [done|].
    apply in_seq. lia. }
  cbn in Hin. repeat destruct Hin as [<-|Hin]; done.
Qed.
Lemma hex8_wf w : String.length (hex8 w) = 8%nat ∧ str_forallb hex_char (hex8 w) = true.
Proof.
  split; [done|]. unfold hex8. cbn [fold_right str_forallb]. by rewrite !hex_digit_char.
Qed.
Lemma hexdigest_wf b : is_hex64 (hexdigest b) = true.
Proof.
  unfold hexdigest, is_hex64. destruct (digest_words b) as [a b' c d e f g h].
  rewrite !str_app_length, !str_forallb_app.
  repeat match goal with |- context [hex8 ?w] =>
    let Hl := fresh in let Hf := fresh in
    destruct (hex8_wf w) as [Hl Hf]; rewrite Hl, Hf; clear Hl Hf; generalize (hex8 w) end.
  done.
Qed.
End Sha256.

Definition Sha256_Digest : Digest :=
  {| sha256_hex := Sha256.hexdigest; sha256_hex_wf := Sha256.hexdigest_wf |}.

Example sha256_empty : Sha256.hexdigest EmptyString =
  "e3b0c44298fc1c149afbf4c8996fb92427ae41e4649b934ca495991b7852b855".
Proof. vm_compute. reflexivity. Qed.
Example sha256_abc : Sha256.hexdigest "abc" =
  "ba7816bf8f01cfea414140de5dae2223b00361a396177a9cb410ff61f20015ad".
Proof. vm_compute. reflexivity. Qed.
Example sha256_two_blocks :
  Sha256.hexdigest "abcdbcdecdefdefgefghfghighijhijkijkljklmklmnlmnomnopnopq" =
  "248d6a61d20638b8e5c026930c3e6039a33ce45964ff2167f6ecedd419db06c1".
Proof. vm_compute. reflexivity. Qed.

(** * Lemmas *)
Fixpoint utf8_decode (s : string) : string :=
  match s with
  | EmptyString => EmptyString
  | String c r =>
      if (code c <? 128)%N then String c (utf8_decode r)
      else match r with
        | String d r => String (ascii_of_N (N.shiftl (code c - 192) 6 + (code d - 128))) (utf8_decode r)
        | EmptyString => EmptyString
        end
  end.
Lemma utf8_decode_char c s : utf8_decode (utf8_char c +:+ s) = String c (utf8_decode s).
Proof. destruct c as [[] [] [] [] [] [] [] []]; reflexivity. Qed.
Lemma utf8_decode_utf8 s : utf8_decode (utf8 s) = s.
Proof. induction s as [|c s IH]; [done|]. cbn [utf8]. by rewrite utf8_decode_char, IH. Qed.
Lemma utf8_app s t : utf8 (s +:+ t) = utf8 s +:+ utf8 t.
Proof. induction s as [|c s IH]; [done|]. rewrite str_app_cons. cbn [utf8]. by rewrite IH, str_app_assoc. Qed.
Lemma utf8_inj s t : utf8 s = utf8 t → s = t.
Proof. intros E. by rewrite <- (utf8_decode_utf8 s), E, utf8_decode_utf8. Qed.

Section digest.
Context `{Digest} `{FloatText}.

(** Equal hashes of texts: equal texts, or a collision. *)
Lemma text_sha256_inj s t : text_sha256 s = text_sha256 t → s = t ∨ collision (utf8 s) (utf8 t).
Proof.
  intros E. destruct (String.string_dec s t) as [->|Hne]; [by left|]. right.
  split; [|done]. intros E'. by apply Hne, utf8_inj.
Qed.

(** [sha256(json.dumps(v, ...))], the hash of a document. *)
Definition json_sha256 (a n : bool) (v : pyval) : result string :=
  t ← json_dumps a n v; Ok (text_sha256 t).

(** Two of the documents are written differently and have one digest. *)
Definition colliding (docs : list pyval) : Prop :=
  ∃ v w s t, v ∈ docs ∧ w ∈ docs ∧ json_dumps false false v = Ok s ∧ json_dumps false false w = Ok t ∧
    collision (utf8 s) (utf8 t).
Lemma colliding_mono l l' : l ⊆ l' → colliding l → colliding l'.
Proof. intros Hl (v & w & s & t & Hv & Hw & Hc). exists v, w, s, t. split; [by apply Hl|]. split; [by apply Hl|done]. Qed.
Lemma colliding_pair v w l l' : v ∈ l → w ∈ l' → colliding [v; w] → colliding (l ++ l').
Proof.
  intros Hv Hw. apply colliding_mono. intros x [->|[->|[]%elem_of_nil]%elem_of_cons]%elem_of_cons; apply elem_of_app; auto.
Qed.
Lemma json_sha256_inj a n v w h :
  py_wf v = true → py_wf w = true → json_sha256 a n v = Ok h → json_sha256 a n w = Ok h →
  jnorm v = jnorm w ∨
  ∃ s t, json_dumps a n v = Ok s ∧ json_dumps a n w = Ok t ∧ collision (utf8 s) (utf8 t).
Proof.
  unfold json_sha256. intros Hv Hw (s & Hs & [= <-])%bind_Ok_inv (t & Ht & [= Eh])%bind_Ok_inv.
  symmetry in Eh. apply text_sha256_inj in Eh as [<-|Hc]; [|eauto 10].
  left. by eapply json_dumps_inj.
Qed.
Lemma json_sha256_colliding v w h :
  py_wf v = true → py_wf w = true → json_sha256 false false v = Ok h → json_sha256 false false w = Ok h →
  jnorm v = jnorm w ∨ colliding [v; w].
Proof.
  intros Hv Hw Ev Ew. destruct (json_sha256_inj _ _ _ _ _ Hv Hw Ev Ew) as [E|(s & t & Hs & Ht & Hc)]; [by left|right].
  exists v, w, s, t. repeat split; try done; [by left|by right; left|apply Hc|apply Hc].
Qed.
Lemma json_sha256_jnorm a n v w : jnorm v = jnorm w → json_sha256 a n v = json_sha256 a n w.
Proof. intros E. unfold json_sha256. by rewrite (json_dumps_jnorm a n v w). Qed.
Lemma json_sha256_hex a n v h : json_sha256 a n v = Ok h → is_hex64 h = true.
Proof. intros (t & _ & [= <-])%bind_Ok_inv. apply sha256_hex_wf. Qed.
End digest.

Lemma hex_char_not_space c : hex_char c = true → is_space c = false.
Proof. destruct c as [[] [] [] [] [] [] [] []]; done. Qed.
Lemma rstrip_no_space s : str_forallb (λ c, negb (is_space c)) s = true → rstrip s = s.
Proof.
  induction s as [|c s IH]; cbn; [done|]. rewrite andb_true_iff, negb_true_iff.
  intros [-> Hs]. by rewrite IH.
Qed.
Lemma strip_no_space s : str_forallb (λ c, negb (is_space c)) s = true → strip s = s.
Proof.
  intros Hs. unfold strip. assert (lstrip s = s) as ->; [|by apply rstrip_no_space].
  destruct s as [|c s]; [done|]. cbn in *. apply andb_true_iff in Hs as [Hc _].
  apply negb_true_iff in Hc. by rewrite Hc.
Qed.
Lemma hex64_strip s : is_hex64 s = true → strip s = s.
Proof.
  unfold is_hex64. rewrite andb_true_iff. intros [_ Hs]. apply strip_no_space.
  apply (str_forallb_impl hex_char); [|done]. intros c Hc. by rewrite hex_char_not_space.
Qed.
Lemma hex64_nonempty s : is_hex64 s = true → s ≠ EmptyString.
Proof. by intros H ->. Qed.
#[export] Hint Resolve hex64_strip hex64_nonempty sha256_hex_wf json_sha256_hex : nexus.
