(* ===== verification/Instances.v ===== *)
(** * Concrete instances

    An instance of [FloatText] that satisfies its laws, so that the parametric
    development can be evaluated: the float [m * 2^e] is written [0.MeE] with the
    decimal digits of [m] and [e].  (The spelling differs from the interpreter's;
    only the laws matter.)  Together with [Sha256_Digest] it instantiates every
    theorem of the library. *)
From Stdlib Require Import Ascii String SpecFloat ZArith DecimalString.
From S2P Require Import Prelude PyValue Json Digest.

Definition dyadic_text (s : bool) (m e : Z) : string :=
  (if s then "-" else EmptyString) +:+ "0." +:+ int_text m +:+ "e" +:+ int_text e.
Definition dyadic_repr (f : spec_float) : string :=
  match f with
  | S754_finite s m e => dyadic_text s (Z.pos m) e
  | S754_zero s => dyadic_text s 0 0
  | _ => EmptyString
  end.
Definition dyadic_read (t : string) : option spec_float :=
  let '(s, r) := match t with String "-" r => (true, r) | _ => (false, t) end in
  r ← drop_prefix "0." r;
  let '(d, r) := span_digits r in
  e ← drop_prefix "e" r;
  m ← int_of_digits d; e ← int_of_digits e;
  let f := match m with
    | Zpos p => S754_finite s p e
    | _ => S754_zero s
    end in
  if float_valid f then Some f else None.
Definition float_fold_sum (l : list spec_float) : spec_float :=
  fold_left (SFadd float_prec float_emax) l (S754_zero false).

Lemma int_text_nonneg m : (0 ≤ m)%Z →
  str_forallb is_digit (int_text m) = true ∧ int_text m ≠ EmptyString.
Proof.
  intros Hm. unfold int_text, NilZero.string_of_int.
  destruct m as [|p|p]; cbn; [done| |lia].
  split; [apply uint_text_digits'|]. by destruct (Pos.to_uint p).
Qed.
Lemma span_mantissa m t : (0 ≤ m)%Z →
  str_span is_digit (int_text m +:+ String "e" t) = (int_text m, String "e" t).
Proof. intros Hm. apply str_span_app; [by apply int_text_nonneg|done]. Qed.

Lemma dyadic_read_text s m e : (0 ≤ m)%Z →
  dyadic_read (dyadic_text s m e) =
    let f := match m with Zpos p => S754_finite s p e | _ => S754_zero s end in
    if float_valid f then Some f else None.
Proof.
  intros Hm. unfold dyadic_read, dyadic_text.
  destruct s; rewrite !str_app_cons, !str_app_nil; cbn -[str_span]; unfold drop_prefix, starts_with, span_digits;
    cbn -[str_span]; rewrite span_mantissa by done; cbn; by rewrite !int_of_int_text.
Qed.
Lemma exponent_text e : exponent_ok (int_text e) = true.
Proof.
  unfold exponent_ok. destruct (int_text_shape e) as (d & Hd & Hne & He).
  assert (span_digits d = (d, EmptyString)) as Es.
  { rewrite <- (str_app_nil_r d) at 1. by apply str_span_app. }
  assert (negb (String.eqb d EmptyString) = true) as Hn.
  { apply negb_true_iff, String.eqb_neq, Hne. }
  destruct He as [->| ->]; [|by rewrite Es, Hn].
  destruct d as [|c d]; [done|]. cbn in Hd. apply andb_true_iff in Hd as [Hc _].
  assert (match String c d with String "+" r | String "-" r => r | _ => String c d end
          = String c d) as -> by (by destruct c as [[] [] [] [] [] [] [] []]).
  by rewrite Es, Hn.
Qed.
Lemma dyadic_text_literal s m e : (0 ≤ m)%Z → is_float_literal (dyadic_text s m e) = true.
Proof.
  intros Hm. destruct (int_text_nonneg m Hm) as [Hd%(str_forallb_impl _ num_char _ digit_num_char) Hne].
  assert (String.eqb (int_text m) EmptyString = false) as Hn by by apply String.eqb_neq.
  unfold is_float_literal, dyadic_text. rewrite !andb_true_iff. split; [split|].
  - rewrite !str_forallb_app, Hd, int_text_num. by destruct s.
  - by destruct s.
  - destruct s; rewrite !str_app_cons, !str_app_nil; unfold float_grammar, span_digits; cbn -[exponent_ok];
      rewrite span_mantissa by done;
      replace (is_digit "0") with true by done; replace (is_digit ".") with false by done;
      cbn -[exponent_ok]; rewrite span_mantissa by done; by rewrite Hn, exponent_text.
Qed.

Lemma dyadic_repr_literal f :
  float_finite f = true → float_valid f = true → is_float_literal (dyadic_repr f) = true.
Proof. destruct f as [s| | |s m e]; intros Hf _; try done; by apply dyadic_text_literal. Qed.
Lemma dyadic_read_repr f :
  float_finite f = true → float_valid f = true → dyadic_read (dyadic_repr f) = Some f.
Proof.
  destruct f as [s| | |s m e]; intros Hf Hv; try done; unfold dyadic_repr;
    rewrite dyadic_read_text by done; [done|]. cbv zeta. by rewrite Hv.
Qed.
Lemma dyadic_read_valid s f : dyadic_read s = Some f → float_valid f = true.
Proof.
  unfold dyadic_read. destruct (match s with String "-" r => (true, r) | _ => (false, s) end) as [b r].
  destruct (drop_prefix "0." r) as [r'|]; [|done]. cbn -[float_valid].
  destruct (span_digits r') as [d r'']. destruct (drop_prefix "e" r''); [|done]. cbn -[float_valid].
  destruct (int_of_digits d) as [m|]; [|done]. cbn -[float_valid].
  destruct (int_of_digits _) as [e|]; [|done]. cbn -[float_valid].
  destruct (float_valid _) eqn:E; [|done]. by intros [= <-].
Qed.

Definition Dyadic_FloatText : FloatText :=
  {| float_repr := dyadic_repr; float_of_text := dyadic_read; float_sum := float_fold_sum;
     float_repr_literal := dyadic_repr_literal; float_of_repr := dyadic_read_repr;
     float_of_text_valid := dyadic_read_valid |}.
