(* ===== verification/Contract.v ===== *)
(** * Validation shared by the contract modules

    [bounded_reconciliation], [bounded_decision], [effect_authorization],
    [model_call_resolution], [effect_journal] and [workflow_checkpoint] each carry a
    private copy of the same few validators ([_text], [_canonical_json],
    [_json_value], ...) that differ in the exception they raise.  They are defined
    here once, over the exception class; each component names its own instance. *)
From Stdlib Require Import Ascii String SpecFloat.
From S2P Require Import Prelude PyValue Json Digest.

(** [_text(value, name)]: a non-blank string, stripped. *)
Definition req_text (c : exn_class) (v : pyval) (name : string) : result string :=
  match v with
  | PStr s => if blank s then raise c (name +:+ " must be a non-empty string") else Ok (strip s)
  | _ => raise c (name +:+ " must be a non-empty string")
  end.

(** [x in seq] for each token of an authority vocabulary, on a lowered key. *)
Definition carries_token (tokens : list string) (key : string) : bool :=
  existsb (λ t, str_contains t (lower key)) tokens.
(** The first key of a mapping that carries a token. *)
Definition first_token_key (tokens : list string) (d : list (string * pyval)) : option string :=
  List.find (carries_token tokens) (keys d).

Section contract.
Context `{FloatText}.

(** [json.dumps(v, sort_keys=True, separators=(",", ":"), ensure_ascii=False,
    allow_nan=False)], with [TypeError] and [ValueError] turned into [c(msg)]. *)
Definition canonical_json (c : exn_class) (msg : string) (v : pyval) : result string :=
  match json_dumps false false v with
  | Ok t => Ok t
  | Err e => if exn_is TypeError e || exn_is ValueError e then raise c msg else Err e
  end.
Definition canonical_sha256 `{Digest} (c : exn_class) (msg : string) (v : pyval) : result string :=
  t ← canonical_json c msg v; Ok (text_sha256 t).

(** [_json_value(value, name)]: JSON data with non-blank stripped keys; tuples
    become lists, a key that collides after stripping overwrites the earlier one. *)
Fixpoint norm_json (c : exn_class) (msg : string) (v : pyval) (name : string) : result pyval :=
  match v with
  | PDict d =>
      kvs ← (fix go (d : list (string * pyval)) : result (list (string * pyval)) :=
        match d with
        | [] => Ok []
        | (k, x) :: d =>
            k' ← req_text c (PStr k) (name +:+ ".key");
            x' ← norm_json c msg x (name +:+ "." +:+ k);
            rest ← go d; Ok ((k', x') :: rest)
        end) d;
      Ok (PDict (dict_of kvs))
  | PList l | PTuple l =>
      l' ← (fix go (l : list pyval) : result (list pyval) :=
        match l with
        | [] => Ok []
        | x :: l => x' ← norm_json c msg x name; rest ← go l; Ok (x' :: rest)
        end) l;
      Ok (PList l')
  | PObj _ _ => raise c (name +:+ " contains unsupported JSON value")
  | _ => canonical_json c msg v ≫= λ _, Ok v
  end.
End contract.

(** A normalised JSON value: what [norm_json] returns. *)
Definition stripped_key (k : string) : bool := String.eqb (strip k) k && negb (blank k).
Fixpoint normal (v : pyval) : bool :=
  match v with
  | PTuple _ | PObj _ _ => false
  | PFloat f => float_finite f && float_valid f
  | PList l => forallb normal l
  | PDict d =>
      bool_decide (NoDup (keys d)) && forallb stripped_key (keys d) && forallb (λ kv, normal kv.2) d
  | _ => true
  end.

#[global] Arguments req_text : simpl never.
#[global] Arguments canonical_json : simpl never.

(** * Lemmas *)
Lemma req_text_Ok c v name s :
  req_text c v name = Ok s ↔ ∃ r, v = PStr r ∧ blank r = false ∧ s = strip r.
Proof.
  unfold req_text. split.
  - destruct v as [| | | |r| | | |]; try done. destruct (blank r) eqn:E; [done|]. intros [= <-]. eauto.
  - intros (r & -> & Hr & ->). by rewrite Hr.
Qed.
Lemma req_text_stripped c v name s : req_text c v name = Ok s → strip s = s ∧ blank s = false.
Proof. intros (r & _ & Hr & ->)%req_text_Ok. by rewrite strip_idem, blank_strip. Qed.
Lemma req_text_id c s name : strip s = s → blank s = false → req_text c (PStr s) name = Ok s.
Proof. intros Hs Hb. apply req_text_Ok. exists s. by rewrite Hs. Qed.
Lemma req_text_err c v name e : req_text c v name = Err e → exn_type e = c.
Proof. unfold req_text. destruct v; try (by intros [= <-]). case_match; [by intros [= <-]|done]. Qed.
Lemma stripped_key_spec k : stripped_key k = true ↔ strip k = k ∧ blank k = false.
Proof. unfold stripped_key. by rewrite andb_true_iff, String.eqb_eq, negb_true_iff. Qed.

(** ** Well-formed values *)
Lemma py_wf_get d k v : py_wf (PDict d) = true → dict_get k d = Some v → py_wf v = true.
Proof.
  cbn. intros [_ Hd]%andb_true_iff Hk%dict_get_In. apply Forall_forallb in Hd.
  rewrite Forall_forall in Hd. by apply (Hd (k, v)).
Qed.
Lemma py_wf_py_get d k : py_wf (PDict d) = true → py_wf (py_get d k) = true.
Proof. intros Hd. unfold py_get. destruct (dict_get k d) eqn:E; [by eapply py_wf_get|done]. Qed.
Lemma py_wf_nodup d : py_wf (PDict d) = true → NoDup (keys d).
Proof. cbn. by intros [?%bool_decide_eq_true _]%andb_true_iff. Qed.
Lemma py_wf_set d k v : py_wf (PDict d) = true → py_wf v = true → py_wf (PDict (dict_set k v d)) = true.
Proof.
  intros Hd Hv. cbn. rewrite bool_decide_true by by apply NoDup_dict_set, py_wf_nodup.
  apply Forall_forallb. cbn in Hd. apply andb_true_iff in Hd as [_ Hd]. apply Forall_forallb in Hd.
  by apply dict_set_Forall.
Qed.

Lemma py_wf_del d k : py_wf (PDict d) = true → py_wf (PDict (dict_del k d)) = true.
Proof.
  intros Hd. cbn. rewrite bool_decide_true by by apply NoDup_dict_del, py_wf_nodup.
  cbn in Hd. apply andb_true_iff in Hd as [_ Hd]. apply Forall_forallb. apply Forall_forallb in Hd.
  rewrite Forall_forall in *. intros x Hx%dict_del_subset. auto.
Qed.

(** Mappings whose members are written alike are written alike. *)
Lemma jnorm_members_ext d d' : py_wf (PDict d) = true → py_wf (PDict d') = true →
  (∀ k, jnorm <$> dict_get k d = jnorm <$> dict_get k d') → jnorm (PDict d) = jnorm (PDict d').
Proof.
  assert (∀ d, py_wf (PDict d) = true →
    jnorm (PDict (map (λ kv, (kv.1, jnorm kv.2)) d)) = jnorm (PDict d)) as G.
  { clear. intros d Hwf. cbn. f_equal. rewrite map_map. f_equal. apply map_ext_in.
    intros [q v] Hq%list_elem_of_In. cbn. f_equal. apply jnorm_idem. cbn in Hwf.
    apply andb_true_iff in Hwf as [_ Hwf]. apply Forall_forallb in Hwf. rewrite Forall_forall in Hwf.
    by apply (Hwf (q, v)). }
  intros Hd Hd' E. rewrite <- (G d Hd), <- (G d' Hd').
  apply jnorm_dict_ext; [rewrite keys_map; by apply py_wf_nodup..|]. intros k. by rewrite !dict_get_map.
Qed.

Lemma py_wf_array v l : py_wf v = true → as_array v = Some l → Forall (λ x, py_wf x = true) l.
Proof. destruct v; try done; cbn; intros Hv [= <-]; by apply Forall_forallb. Qed.

Section contract_lemmas.
Context `{FloatText} (c : exn_class) (msg : string).

Lemma canonical_json_Ok v t : canonical_json c msg v = Ok t ↔ json_dumps false false v = Ok t.
Proof. unfold canonical_json. destruct (json_dumps _ _ v); [done|]. by case_match. Qed.
Lemma json_check_err v n e :
  json_check n v = Err e → exn_type e = TypeError ∨ exn_type e = ValueError.
Proof.
  revert e. induction v as [|b|z|f|s|l IH|l IH|d IH|t s] using pyval_ind'; intros e; cbn; try done.
  - destruct (negb (float_finite f) && negb n); [|done]. intros [= <-]. by right.
  - induction IH as [|x l Hx _ IH]; [done|]. intros [He|([] & _ & He)]%bind_Err_inv; auto.
  - induction IH as [|x l Hx _ IH]; [done|]. intros [He|([] & _ & He)]%bind_Err_inv; auto.
  - induction IH as [|x l Hx _ IH]; [done|]. intros [He|([] & _ & He)]%bind_Err_inv; auto.
  - intros [= <-]. by left.
Qed.
(** Every failure of the encoder is reported as the module's own error. *)
Lemma canonical_json_err v e : canonical_json c msg v = Err e → e = Exn c msg.
Proof.
  unfold canonical_json, json_dumps. destruct (json_check false (jnorm v)) as [[]|e'] eqn:E; [done|].
  cbn. destruct (json_check_err _ _ _ E) as [Ht|Ht]; destruct e' as [t m]; cbn in Ht; subst t;
    by intros [= <-].
Qed.

Lemma norm_json_list_eq l name :
  norm_json c msg (PList l) name = (l' ← mapM_result (λ x, norm_json c msg x name) l; Ok (PList l')).
Proof. cbn. f_equal. induction l as [|x l IH]; cbn; [done|]. by rewrite IH. Qed.
Lemma norm_json_tuple_eq l name : norm_json c msg (PTuple l) name = norm_json c msg (PList l) name.
Proof. done. Qed.
Definition norm_member (name : string) (kv : string * pyval) : result (string * pyval) :=
  k' ← req_text c (PStr kv.1) (name +:+ ".key");
  x' ← norm_json c msg kv.2 (name +:+ "." +:+ kv.1); Ok (k', x').
Lemma norm_json_dict_eq d name :
  norm_json c msg (PDict d) name = (kvs ← mapM_result (norm_member name) d; Ok (PDict (dict_of kvs))).
Proof.
  cbn [norm_json]. f_equal. induction d as [|[k x] d IH]; [done|].
  cbn [mapM_result]. rewrite <- IH. unfold norm_member. cbn [fst snd].
  destruct (req_text _ _ _); cbn; [|done]. by destruct (norm_json _ _ _ _).
Qed.

Lemma norm_json_err v name e : norm_json c msg v name = Err e → exn_type e = c.
Proof.
  revert name e. induction v as [|b|z|f|s|l IH|l IH|d IH|t s] using pyval_ind'; intros name e.
  6: rewrite norm_json_list_eq. 7: rewrite norm_json_tuple_eq, norm_json_list_eq.
  8: rewrite norm_json_dict_eq.
  1-5: intros [->%canonical_json_err|(? & _ & ?)]%bind_Err_inv; done.
  4: by intros [= <-].
  1,2: intros [He|(? & _ & ?)]%bind_Err_inv; [|done]; revert He;
    induction IH as [|x l Hx _ IH]; cbn; [done|];
    intros [He|(? & _ & [He|(? & _ & ?)]%bind_Err_inv)]%bind_Err_inv; eauto; done.
  intros [He|(? & _ & ?)]%bind_Err_inv; [|done]. revert He.
  induction IH as [|x l Hx _ IH]; cbn [mapM_result]; [done|].
  intros [He|(? & _ & [He|(? & _ & ?)]%bind_Err_inv)]%bind_Err_inv; [|eauto|done].
  unfold norm_member in He. apply bind_Err_inv in He as [He%req_text_err|(? & _ & [He|(? & _ & ?)]%bind_Err_inv)]; eauto; done.
Qed.
End contract_lemmas.

(** The exception class and its message do not change the result. *)
Lemma norm_json_class `{FloatText} c c' msg msg' v name w :
  norm_json c msg v name = Ok w → norm_json c' msg' v name = Ok w.
Proof.
  revert name w. induction v as [|b|z|f|s|l IH|l IH|d IH|t s] using pyval_ind'; intros name w.
  6: rewrite !norm_json_list_eq. 7: rewrite !norm_json_tuple_eq, !norm_json_list_eq.
  8: rewrite !norm_json_dict_eq. 9: done.
  1-5: cbn; intros (t & Ht%canonical_json_Ok & [= <-])%bind_Ok_inv;
    by rewrite (proj2 (canonical_json_Ok c' msg' _ _) Ht).
  - intros (k & Hk%mapM_result_Ok_inv & [= <-])%bind_Ok_inv.
    rewrite (mapM_result_Forall2 _ _ k); [done|]. induction Hk; inversion IH; constructor; auto.
  - intros (k & Hk%mapM_result_Ok_inv & [= <-])%bind_Ok_inv.
    rewrite (mapM_result_Forall2 _ _ k); [done|]. induction Hk; inversion IH; constructor; auto.
  - intros (k & Hk%mapM_result_Ok_inv & [= <-])%bind_Ok_inv.
    rewrite (mapM_result_Forall2 _ _ k); [done|].
    induction Hk as [|[q x] y d k Hx _ IHk]; inversion IH as [|? ? Hq]; constructor; auto; subst.
    unfold norm_member in *. cbn [fst snd] in *.
    apply bind_Ok_inv in Hx as (q' & (r & [= ->] & Hr & ->)%req_text_Ok & (x' & Hx & [= <-])%bind_Ok_inv).
    assert (req_text c' (PStr r) (name +:+ ".key") = Ok (strip r)) as -> by (apply req_text_Ok; eauto).
    cbn. by rewrite (Hq _ _ Hx).
Qed.

Section normal_lemmas.
Context `{FloatText} (c : exn_class) (msg : string).

Lemma normal_dict d :
  normal (PDict d) = true ↔
  NoDup (keys d) ∧ Forall (λ kv, stripped_key kv.1 = true ∧ normal kv.2 = true) d.
Proof.
  cbn. rewrite !andb_true_iff, bool_decide_eq_true, !Forall_forallb. unfold keys.
  rewrite Forall_map, Forall_and. tauto.
Qed.

Lemma norm_json_normal v name w :
  py_wf v = true → norm_json c msg v name = Ok w → normal w = true.
Proof.
  revert name w. induction v as [|b|z|f|s|l IH|l IH|d IH|t s] using pyval_ind'; intros name w Hwf.
  6: rewrite norm_json_list_eq. 7: rewrite norm_json_tuple_eq, norm_json_list_eq.
  8: rewrite norm_json_dict_eq. 9: done.
  1,2,3,5: by intros (? & _ & [= <-])%bind_Ok_inv.
  - intros (t & Ht%canonical_json_Ok & [= <-])%bind_Ok_inv. cbn in Hwf |- *. rewrite Hwf.
    apply json_dumps_Ok in Ht as (Hc & _). cbn in Hc.
    by destruct (float_finite f).
  - intros (l' & Hl & [= <-])%bind_Ok_inv. cbn in Hwf |- *. apply mapM_result_Ok_inv in Hl.
    induction Hl as [|x y l l' Hx Hl IHl]; cbn in *; [done|].
    apply andb_true_iff in Hwf as [Hx' Hl']. inversion IH; subst.
    rewrite IHl by done. by erewrite H2.
  - intros (l' & Hl & [= <-])%bind_Ok_inv. cbn in Hwf |- *. apply mapM_result_Ok_inv in Hl.
    induction Hl as [|x y l l' Hx Hl IHl]; cbn in *; [done|].
    apply andb_true_iff in Hwf as [Hx' Hl']. inversion IH; subst.
    rewrite IHl by done. by erewrite H2.
  - intros (kvs & Hl & [= <-])%bind_Ok_inv. apply normal_dict.
    split; [apply NoDup_dict_of|]. apply dict_of_Forall. cbn in Hwf.
    apply andb_true_iff in Hwf as [_ Hwf]. apply mapM_result_Ok_inv in Hl.
    induction Hl as [|[k x] y l l' Hx Hl IHl]; cbn in *; [done|].
    apply andb_true_iff in Hwf as [Hx' Hl']. inversion IH; subst.
    constructor; [|by apply IHl]. unfold norm_member in Hx.
    apply bind_Ok_inv in Hx as (k' & Hk & (x' & Hn & [= <-])%bind_Ok_inv). cbn in *.
    apply req_text_stripped in Hk. rewrite stripped_key_spec. eauto.
Qed.

Lemma normal_facts v : normal v = true → py_wf v = true ∧ json_plain v = true ∧ json_check false v = Ok ().
Proof.
  induction v as [|b|z|f|s|l IH|l IH|d IH|t s] using pyval_ind'; try done.
  - cbn. by intros [-> ->]%andb_true_iff.
  - cbn. induction IH as [|x l Hx _ IH]; cbn; [done|].
    intros [(-> & -> & ->)%Hx (-> & -> & Hc)%IH]%andb_true_iff. by cbn.
  - rewrite normal_dict. intros [Hn Hd]. cbn. rewrite bool_decide_true by done. clear Hn.
    induction IH as [|[k x] d Hx _ IH]; cbn in *; [done|]. inversion Hd as [|? ? [_ Hx'] Hd']; subst.
    destruct (Hx Hx') as (-> & -> & ->). destruct (IH Hd') as (E & -> & Hc). cbn in *. by rewrite E.
Qed.

Lemma json_check_jnorm n v : json_check n v = Ok () → json_check n (jnorm v) = Ok ().
Proof.
  induction v as [|b|z|f|s|l IH|l IH|d IH|t s] using pyval_ind'; try done.
  1,2: cbn; induction IH as [|x l Hx _ IH]; cbn; [done|];
    intros ([] & Hc & Hl)%bind_Ok_inv; rewrite Hx by done; cbn; by apply IH.
  assert (∀ d, json_check n (PDict d) = Ok () ↔ Forall (λ kv, json_check n kv.2 = Ok ()) d) as E.
  { clear. intros d. cbn. induction d as [|kv d IH]; [done|]. rewrite Forall_cons, <- IH. split.
    - by intros ([] & ? & ?)%bind_Ok_inv.
    - by intros [-> ?]. }
  cbn [jnorm]. rewrite !E, sort_items_perm, Forall_map. cbn. intros Hd.
  rewrite Forall_forall in *. eauto.
Qed.

Lemma json_check_jnorm_inv n v : json_check n (jnorm v) = Ok () → json_check n v = Ok ().
Proof.
  induction v as [|b|z|f|s|l IH|l IH|d IH|t s] using pyval_ind'; try done.
  1,2: cbn; induction IH as [|x l Hx _ IH]; cbn; [done|];
    intros ([] & Hc & Hl)%bind_Ok_inv; rewrite Hx by done; cbn; by apply IH.
  assert (∀ d, json_check n (PDict d) = Ok () ↔ Forall (λ kv, json_check n kv.2 = Ok ()) d) as E.
  { clear. intros d. cbn. induction d as [|kv d IH]; [done|]. rewrite Forall_cons, <- IH. split.
    - by intros ([] & ? & ?)%bind_Ok_inv.
    - by intros [-> ?]. }
  cbn [jnorm]. rewrite !E, sort_items_perm, Forall_map. cbn. intros Hd.
  rewrite Forall_forall in *. eauto.
Qed.

(** A normalised value can be hashed. *)
Lemma normal_dumps v : normal v = true → json_dumps false false v = Ok (json_print false (jnorm v)).
Proof.
  intros (_ & _ & Hc)%normal_facts. unfold json_dumps. by rewrite (json_check_jnorm false v Hc).
Qed.
Lemma normal_canonical c' msg' v :
  normal v = true → canonical_json c' msg' v = Ok (json_print false (jnorm v)).
Proof. intros Hn. by apply canonical_json_Ok, normal_dumps. Qed.

(** Normalising a normalised value changes nothing. *)
Lemma norm_json_id v name : normal v = true → norm_json c msg v name = Ok v.
Proof.
  revert name. induction v as [|b|z|f|s|l IH|l IH|d IH|t s] using pyval_ind'; intros name Hn;
    try done; try (by cbn; rewrite normal_canonical).
  - rewrite norm_json_list_eq, mapM_result_id; [done|].
    cbn in Hn. apply Forall_forallb in Hn. rewrite Forall_forall in *. eauto.
  - rewrite norm_json_dict_eq. apply normal_dict in Hn as [Hnd Hd].
    rewrite mapM_result_id; [cbn; by rewrite dict_of_id|].
    rewrite Forall_forall in *. intros [k x] Hx. destruct (Hd _ Hx) as [Hk Hx'].
    unfold norm_member. cbn in *. apply stripped_key_spec in Hk as [??].
    rewrite req_text_id by done. cbn. by rewrite (IH (k, x)).
Qed.
End normal_lemmas.

(** * Sealed documents

    What a record that carries its own content hash promises: the mapping it hashes
    is well formed and determines the record up to the seal.  Two records with the
    same hash are then the same record, or their canonical texts collide. *)
Class Sealed (A : Type) : Type := {
  sealed_doc : A → pyval;
  sealed_ok : A → Prop;
  sealed_same : A → A → Prop;
  sealed_wf x : sealed_ok x → py_wf (sealed_doc x) = true;
  sealed_inj x y :
    sealed_ok x → sealed_ok y → jnorm (sealed_doc x) = jnorm (sealed_doc y) → sealed_same x y
}.

Lemma seal_binds `{FloatText} `{Digest} `{Sealed A} c msg (x y : A) h :
  sealed_ok x → sealed_ok y →
  canonical_sha256 c msg (sealed_doc x) = Ok h → canonical_sha256 c msg (sealed_doc y) = Ok h →
  sealed_same x y ∨
  ∃ s t, canonical_json c msg (sealed_doc x) = Ok s ∧ canonical_json c msg (sealed_doc y) = Ok t ∧
    collision (utf8 s) (utf8 t).
Proof.
  unfold canonical_sha256. intros Hx Hy (s & Hs & [= <-])%bind_Ok_inv (t & Ht & [= Eh])%bind_Ok_inv.
  symmetry in Eh. apply text_sha256_inj in Eh as [<-|Hc]; [|eauto 10]. left.
  apply canonical_json_Ok in Hs, Ht.
  apply sealed_inj; [done..|]. eapply json_dumps_inj; eauto using sealed_wf.
Qed.

(** ** Shapes shared by the sealed records *)

(** A sorted tuple of distinct stripped strings. *)
Definition string_set (l : list string) : bool :=
  bool_decide (sort_unique l = l) && forallb stripped_key l.

Lemma string_set_spec l :
  string_set l = true ↔ sort_unique l = l ∧ Forall (λ s, stripped_key s = true) l.
Proof. unfold string_set. by rewrite andb_true_iff, bool_decide_eq_true, Forall_forallb. Qed.
Lemma sort_unique_string_set l :
  Forall (λ s, stripped_key s = true) l → string_set (sort_unique l) = true.
Proof.
  rewrite Forall_forall. intros Hl. apply string_set_spec. split; [apply sort_unique_idem|].
  apply Forall_forall. intros x Hx. rewrite !elem_of_sort_unique in Hx. by apply Hl.
Qed.
Lemma req_text_key c v name s : req_text c v name = Ok s → stripped_key s = true.
Proof. intros H%req_text_stripped. by apply stripped_key_spec. Qed.
Lemma req_text_of_key c s name : stripped_key s = true → req_text c (PStr s) name = Ok s.
Proof. intros [??]%stripped_key_spec. by apply req_text_id. Qed.
Lemma mapM_req_text_keys c name l k :
  mapM_result (λ x, req_text c x name) l = Ok k → Forall (λ s, stripped_key s = true) k.
Proof.
  intros H%mapM_result_Ok_inv. induction H as [|x y l k Hx _ IH]; constructor; [|done].
  by eapply req_text_key.
Qed.
Lemma mapM_req_text_of_keys c name l :
  Forall (λ s, stripped_key s = true) l → mapM_result (λ x, req_text c x name) (map PStr l) = Ok l.
Proof. induction 1 as [|x l Hx _ IH]; cbn; [done|]. rewrite req_text_of_key by done. cbn. by rewrite IH. Qed.
Lemma stripped_key_upper s : stripped_key s = true → stripped_key (upper s) = true.
Proof. rewrite !stripped_key_spec. intros [??]. split; [by apply strip_upper|by apply blank_upper]. Qed.
Lemma hex64_key s : is_hex64 s = true → stripped_key s = true.
Proof.
  intros H. apply stripped_key_spec. rewrite blank_false, (hex64_strip s H).
  split; [done|by apply hex64_nonempty].
Qed.

(** ["sha256:"] and 64 digits. *)
Definition digest_ref (s : string) : bool := starts_with "sha256:" s && is_hex64 (str_drop 7 s).
Lemma digest_ref_app h : is_hex64 h = true → digest_ref ("sha256:" +:+ h) = true.
Proof. intros H. unfold digest_ref. by rewrite !str_app_cons, str_app_nil. Qed.
Lemma digest_ref_key s : digest_ref s = true → stripped_key s = true.
Proof.
  unfold digest_ref. rewrite andb_true_iff. intros [->%starts_with_spec H].
  assert (str_forallb (λ c, negb (is_space c)) (str_drop 7 s) = true) as Hs.
  { unfold is_hex64 in H. apply andb_true_iff in H as [_ H]. revert H. apply str_forallb_impl.
    intros c Hc. by rewrite hex_char_not_space. }
  apply stripped_key_spec. rewrite blank_false, strip_no_space; [done|].
  by rewrite str_forallb_app.
Qed.

#[export] Hint Resolve req_text_key req_text_of_key stripped_key_upper hex64_key digest_ref_app
  digest_ref_key mapM_req_text_keys mapM_req_text_of_keys sort_unique_string_set : nexus.
