(* ===== verification/DateTime.v ===== *)
(** * Times

    What the runtime uses of [datetime.datetime], as an interface: components are developed
    against it and evaluated with [Decimal_DateTimes]. *)
From Stdlib Require Import Ascii String.
From S2P Require Import Prelude PyValue Json.

(** [fromisoformat] reads a text or raises [ValueError]; [aware] tells whether [tzinfo] is
    set; [replace_utc] is [.replace(tzinfo=UTC)]; [utc_instant] is [.astimezone(UTC)] as a
    number (it may leave the range of years). *)
Class DateTimes := {
  datetime : Set;
  fromisoformat : string → result datetime;
  aware : datetime → bool;
  replace_utc : datetime → datetime;
  utc_instant : datetime → result Z
}.

(** ** Replacing in a text *)
(** [s.replace(p, q)] for a non-empty [p]; [skip] characters of a match are left to drop. *)
Fixpoint replace_from (p q : string) (skip : nat) (s : string) : string :=
  match s with
  | EmptyString => EmptyString
  | String c r =>
      match skip with
      | S k => replace_from p q k r
      | O =>
          if starts_with p s then q +:+ replace_from p q (String.length p - 1) r
          else String c (replace_from p q 0 r)
      end
  end.
Definition str_replace (p q s : string) : string := replace_from p q 0 s.
(** [.replace("Z", "+00:00")] and [.replace("+00:00", "Z")]. *)
Definition z_to_offset (s : string) : string := str_replace "Z" "+00:00" s.
Definition offset_to_z (s : string) : string := str_replace "+00:00" "Z" s.

(** ** Leases

    [instant] is the moment of an aware time in microseconds, which is what [<] and [>=]
    compare; [plus_seconds] is [+ timedelta(seconds=n)] ([OverflowError] outside the range of
    years); [iso_millis] is [isoformat(timespec="milliseconds")], which cuts off the
    microseconds and which [fromisoformat] reads back. *)
Class LeaseTimes `{DateTimes} := {
  instant : datetime → Z;
  plus_seconds : datetime → Z → result datetime;
  iso_millis : datetime → string;
  fromisoformat_err s e : fromisoformat s = Err e → exn_type e = ValueError;
  plus_seconds_aware d n d' : plus_seconds d n = Ok d' → aware d' = aware d;
  plus_seconds_instant d n d' : plus_seconds d n = Ok d' → instant d' = (instant d + n * 1000000)%Z;
  iso_millis_read d : ∃ d', fromisoformat (iso_millis d) = Ok d' ∧ aware d' = aware d ∧
    (0 ≤ instant d - instant d' < 1000)%Z;
  iso_millis_no_z d : str_forallb (λ c, negb (Ascii.eqb "Z" c)) (iso_millis d) = true;
  z_is_utc s d d' : fromisoformat s = Ok d → fromisoformat (z_to_offset s) = Ok d' →
    aware d = aware d' ∧ instant d = instant d'
}.

(** ** Lemmas *)
Lemma replace_none p q s : str_contains p s = false → replace_from p q 0 s = s.
Proof.
  unfold str_contains. induction s as [|c s IH]; [done|]. cbn [replace_from]. 
  intros [-> Hs]%orb_false_iff. f_equal. by apply IH.
Qed.
(** Writing [Z] for the offset of UTC is undone on a text that has no [Z]. *)
Lemma replace_skip p q k s : replace_from p q k s = replace_from p q 0 (str_drop k s).
Proof.
  revert s. induction k as [|k IH]; intros s; [by destruct s|]. destruct s as [|c s]; [done|].
  cbn [replace_from str_drop]. apply IH.
Qed.
Lemma str_drop_length n s : String.length (str_drop n s) = String.length s - n.
Proof. revert s. induction n as [|n IH]; intros [|c s]; cbn; auto. Qed.
Lemma str_forallb_drop p n s : str_forallb p s = true → str_forallb p (str_drop n s) = true.
Proof.
  revert s. induction n as [|n IH]; intros [|c s]; try done. cbn. intros [_ ?]%andb_true_iff. auto.
Qed.
Lemma replace_cons p q c s : replace_from p q 0 (String c s) =
  if starts_with p (String c s) then q +:+ replace_from p q 0 (str_drop (String.length p - 1) s)
  else String c (replace_from p q 0 s).
Proof. cbn [replace_from]. by rewrite replace_skip. Qed.
Lemma z_offset_round s : str_forallb (λ c, negb (Ascii.eqb "Z" c)) s = true →
  z_to_offset (offset_to_z s) = s.
Proof.
  unfold z_to_offset, offset_to_z, str_replace. remember (String.length s) as n eqn:Hn. revert s Hn.
  induction n as [n IH] using lt_wf_ind. intros [|c s] Hn Hz; [done|]. subst n.
  rewrite (replace_cons "+00:00"). destruct (starts_with "+00:00" (String c s)) eqn:E.
  - apply starts_with_spec in E. change (String.length "+00:00" - 1) with 5.
    assert (String.length (str_drop 5 s) < String.length (String c s)) as Hlt
      by (rewrite str_drop_length; cbn; lia).
    assert (str_forallb (λ c, negb (Ascii.eqb "Z" c)) (str_drop 5 s) = true) as Hd.
    { apply str_forallb_drop. cbn in Hz. by apply andb_true_iff in Hz as [_ Hz]. }
    change (str_drop (String.length "+00:00") (String c s)) with (str_drop 5 s) in E.
    revert Hlt Hd E. generalize (str_drop 5 s). intros r Hlt Hd ->.
    rewrite str_app_cons, str_app_nil, (replace_cons "Z").
    replace (starts_with "Z" _) with true by done. change (String.length "Z" - 1) with 0. cbn [str_drop].
    by rewrite (IH (String.length r)).
  - cbn [str_forallb] in Hz. apply andb_true_iff in Hz as [Hc%negb_true_iff Hz].
    rewrite (replace_cons "Z"). replace (starts_with "Z" _) with false by (unfold starts_with; by rewrite Hc).
    f_equal. by apply (IH (String.length s)); [cbn; lia|..].
Qed.

(** ** An instance

    A time is a number of milliseconds and whether it has an offset, written in decimal and
    followed by [+00:00] or [Z] when it has.  (The spelling is not ISO 8601; only the laws
    matter.) *)
Definition decimal_char (c : ascii) : bool := is_digit c || Ascii.eqb "-" c.
Definition decimal_read (s : string) : result (bool * Z) :=
  let '(t, r) := str_span decimal_char s in
  match int_of_digits t with
  | Some n =>
      if negb (String.eqb (int_text n) t) then raise ValueError "Invalid isoformat string"
      else if String.eqb r EmptyString then Ok (false, n)
      else if text_in r ["Z"; "+00:00"] then Ok (true, n)
      else raise ValueError "Invalid isoformat string"
  | None => raise ValueError "Invalid isoformat string"
  end.
Definition decimal_text (d : bool * Z) : string := int_text d.2 +:+ if d.1 then "+00:00" else EmptyString.
Definition Decimal_DateTimes : DateTimes :=
  {| datetime := bool * Z; fromisoformat := decimal_read; aware := fst; replace_utc d := (true, d.2);
     utc_instant d := Ok d.2 |}.

Lemma int_text_decimal n : str_forallb decimal_char (int_text n) = true.
Proof.
  destruct (int_text_shape n) as (d & Hd & _ & E).
  assert (str_forallb decimal_char d = true) as Hc.
  { apply (str_forallb_impl is_digit); [|done]. intros c Hc. unfold decimal_char. by rewrite Hc. }
  by destruct E as [-> | ->].
Qed.
Lemma decimal_not_z s : str_forallb decimal_char s = true → str_forallb (λ c, negb (Ascii.eqb "Z" c)) s = true.
Proof. apply str_forallb_impl. intros c. by destruct c as [[] [] [] [] [] [] [] []]. Qed.
Lemma z_to_offset_app t r : str_forallb (λ c, negb (Ascii.eqb "Z" c)) t = true →
  z_to_offset (t +:+ r) = t +:+ z_to_offset r.
Proof.
  unfold z_to_offset, str_replace. induction t as [|c t IH]; [done|]. cbn [str_forallb].
  intros [Hc%negb_true_iff Ht]%andb_true_iff. rewrite !str_app_cons, (replace_cons "Z").
  replace (starts_with "Z" _) with false by (unfold starts_with; by rewrite Hc). by rewrite IH.
Qed.
Lemma decimal_read_text d : decimal_read (decimal_text d) = Ok d.
Proof.
  destruct d as [b n]. unfold decimal_read, decimal_text. cbn [fst snd].
  rewrite str_span_app; [|apply int_text_decimal|by destruct b].
  rewrite int_of_int_text, String.eqb_refl. by destruct b.
Qed.
Lemma decimal_read_inv s d : decimal_read s = Ok d →
  ∃ r, s = int_text d.2 +:+ r ∧ ((r = EmptyString ∧ d.1 = false) ∨ ((r = "Z" ∨ r = "+00:00") ∧ d.1 = true)).
Proof.
  unfold decimal_read. destruct (str_span decimal_char s) as [t r] eqn:E.
  apply str_span_spec in E as [-> _]. destruct (int_of_digits t) as [n|]; [|done].
  destruct (String.eqb_spec (int_text n) t) as [<-|]; [|done]. cbn [negb].
  destruct (String.eqb_spec r EmptyString) as [->|]; [intros [= <-]; eauto 10|].
  destruct (text_in r _) eqn:Ht; [|done]. intros [= <-]. apply text_in_spec in Ht.
  exists r. split; [done|]. right. split; [|done]. set_solver.
Qed.
Definition Decimal_LeaseTimes : @LeaseTimes Decimal_DateTimes.
Proof.
  refine {| instant := (λ d : bool * Z, (d.2 * 1000)%Z) : @datetime Decimal_DateTimes → Z;
            plus_seconds := (λ (d : bool * Z) n, Ok (d.1, (d.2 + n * 1000)%Z));
            iso_millis := decimal_text |}.
  - intros s e. cbn. unfold decimal_read. repeat case_match; intros [= <-]; done.
  - by intros d n d' [= <-].
  - intros d n d' [= <-]. cbn. lia.
  - intros d. exists d. split; [apply decimal_read_text|]. split; [done|]. lia.
  - intros d. unfold decimal_text. rewrite str_forallb_app, (decimal_not_z _ (int_text_decimal _)).
    by destruct d.1.
  - intros s d d' (r & -> & Hr)%decimal_read_inv Hd. rewrite z_to_offset_app in Hd by apply decimal_not_z, int_text_decimal.
    assert (Ok d = Ok d') as [= ->]; [|done]. rewrite <- Hd. symmetry.
    destruct d as [b n], Hr as [[-> Hb]|[[-> | ->] Hb]]; cbn in Hb; subst b.
    + apply (decimal_read_text (false, n)).
    + apply (decimal_read_text (true, n)).
    + apply (decimal_read_text (true, n)).
Defined.
