(* ===== verification/SortBy.v ===== *)
(** * Sorting by a string key ([sorted(items, key=...)])

    Items with distinct keys have one sorted order, whatever order they came in. *)
From S2P Require Import Prelude.

Section sort_by.
Context {A : Type} (key : A → string).

Definition by_key (a b : A) : Prop := String.le (key a) (key b).
#[export] Instance by_key_dec a b : Decision (by_key a b).
Proof. unfold by_key. apply _. Defined.
#[export] Instance by_key_total : Total by_key.
Proof. intros a b. unfold by_key. apply total, _. Qed.
#[export] Instance by_key_trans : Transitive by_key.
Proof. intros a b c. unfold by_key. apply transitivity. Qed.

Definition sort_by : list A → list A := merge_sort by_key.

Lemma sort_by_perm l : sort_by l ≡ₚ l.
Proof. apply merge_sort_Permutation. Qed.
Lemma sort_by_sorted l : StronglySorted by_key (sort_by l).
Proof. apply StronglySorted_merge_sort; apply _. Qed.
Lemma NoDup_key_inj l a b : NoDup (map key l) → a ∈ l → b ∈ l → key a = key b → a = b.
Proof.
  intros Hn [i Hi]%list_elem_of_lookup [j Hj]%list_elem_of_lookup E.
  assert (i = j) as ->; [|congruence].
  apply (NoDup_lookup (map key l) i j (key a)); [done|..];
    rewrite list_lookup_fmap; [by rewrite Hi|rewrite Hj; cbn; congruence].
Qed.
Lemma sorted_perm_unique l k :
  NoDup (map key l) → StronglySorted by_key l → StronglySorted by_key k → l ≡ₚ k → l = k.
Proof.
  intros Hn Hl Hk Hp. apply (StronglySorted_unique_strong by_key); [|done..].
  intros a b Ha Hb H1 H2. rewrite <- Hp in Hb. apply (NoDup_key_inj l); [done..|].
  by apply (anti_symm String.le).
Qed.
Lemma sort_by_unique l k : NoDup (map key l) → l ≡ₚ k → sort_by l = sort_by k.
Proof.
  intros Hn Hp. apply sorted_perm_unique; [|apply sort_by_sorted..|].
  - by rewrite sort_by_perm.
  - by rewrite !sort_by_perm.
Qed.
Lemma sort_by_id l : NoDup (map key l) → StronglySorted by_key l → sort_by l = l.
Proof.
  intros Hn Hs. apply sorted_perm_unique; [|apply sort_by_sorted|done|apply sort_by_perm].
  by rewrite sort_by_perm.
Qed.
Lemma sort_by_idem l : NoDup (map key l) → sort_by (sort_by l) = sort_by l.
Proof. intros Hn. apply sort_by_id; [by rewrite sort_by_perm|apply sort_by_sorted]. Qed.
End sort_by.

(** ** The stable sort

    [sorted] keeps the order of items neither of which is below the other. *)
Section stable.
Context {A : Type} (le : A → A → bool).

Fixpoint insert_stable (x : A) (l : list A) : list A :=
  match l with
  | [] => [x]
  | y :: l => if le x y then x :: y :: l else y :: insert_stable x l
  end.
Definition stable_sort (l : list A) : list A := foldr insert_stable [] l.

Lemma insert_stable_perm x l : insert_stable x l ≡ₚ x :: l.
Proof.
  induction l as [|y l IH]; cbn; [done|]. destruct (le x y); [done|]. rewrite IH. apply Permutation_swap.
Qed.
Lemma stable_sort_perm l : stable_sort l ≡ₚ l.
Proof. induction l as [|x l IH]; cbn; [done|]. by rewrite insert_stable_perm, IH. Qed.

Context (Htrans : ∀ x y z, le x y = true → le y z = true → le x z = true)
  (Htotal : ∀ x y, le x y = true ∨ le y x = true).
Lemma insert_stable_sorted x l : StronglySorted (λ x y, le x y = true) l →
  StronglySorted (λ x y, le x y = true) (insert_stable x l).
Proof.
  induction 1 as [|y l Hs IH Hy]; cbn; [by repeat constructor|]. destruct (le x y) eqn:E.
  - repeat constructor; try done. eapply Forall_impl; [exact Hy|]. eauto.
  - constructor; [done|]. rewrite insert_stable_perm. constructor; [|done]. by destruct (Htotal x y); [congruence|].
Qed.
Lemma stable_sort_sorted l : StronglySorted (λ x y, le x y = true) (stable_sort l).
Proof. induction l as [|x l IH]; cbn; [constructor|]. by apply insert_stable_sorted. Qed.
End stable.
