(* ===== verification/TaskLifecycle.v ===== *)
(** * Task status vocabulary ([src/src/nexus_runtime/task_lifecycle.py])

    The status sets of the self-hosted task loop. *)
From Stdlib Require Import String.
From S2P Require Import Prelude PyValue.

Definition TERMINAL_STATUSES : list string :=
  ["FINAL_BLOCK"; "RETAINED_FOR_REVIEW"; "REJECTED"; "SUPERSEDED"; "INTEGRATED";
   "INTEGRATION_FAILED"; "CANCELLED"; "REHEARSAL_VERIFIED"; "DIRECT_COMPLETED";
   "DIRECT_RECONCILE_REQUIRED"; "INTEGRATED_AND_CLEANED"].
Definition PENDING_CANDIDATE_STATUSES : list string :=
  ["PENDING_HUMAN_APPROVAL"; "APPROVED"; "APPROVAL_INVALIDATED"; "INTEGRATING"].
Definition RESUMABLE_STATUSES : list string :=
  ["WORKER_COMPLETED"; "WORKER_ESCALATING"; "CANDIDATE_CAPTURED"; "VERIFIED"].
Definition ACTIVE_EXECUTION_STATUSES : list string :=
  ["ADOPTING"; "SUBMITTED"; "TARGET_LEASED"; "WORKER_RUNNING"; "CANDIDATE_COMMITTED";
   "CANDIDATE_REF_PROTECTED"; "TARGET_CLEANED"].
Definition INTEGRATION_INTERMEDIATE_STATUSES : list string :=
  ["INTEGRATION_FAILED_PRE_APPLY"; "INTEGRATION_VERIFY_FAILED_AFTER_APPLY";
   "INTEGRATED_TARGET_RETAINED"].
Definition DIRECT_EXECUTION_STATUSES : list string :=
  ["DIRECT_INTENT_RECORDED"; "DIRECT_STARTED"; "DIRECT_APPLIED"; "DIRECT_VERIFIED";
   "DIRECT_COMMITTED"].
Definition INVALID_STATE_STATUSES : list string := ["BLOCKED_INVALID_STATE"].
Definition DURABLE_SELF_HOSTED_STATUSES : list string :=
  TERMINAL_STATUSES ++ PENDING_CANDIDATE_STATUSES ++ RESUMABLE_STATUSES
  ++ ACTIVE_EXECUTION_STATUSES ++ INTEGRATION_INTERMEDIATE_STATUSES ++ DIRECT_EXECUTION_STATUSES.
Definition KNOWN_SELF_HOSTED_STATUSES : list string :=
  DURABLE_SELF_HOSTED_STATUSES ++ INVALID_STATE_STATUSES.
Definition RETRYABLE_TASK_STATUSES : list string := ["FINAL_BLOCK"; "CANCELLED"].
