(* ===== verification/RetryIdentity.v ===== *)
(** * Attempt budget and retry identity
    ([src/src/nexus_runtime/task_retry/attempt_budget.py], [retry_identity.py])

    The number of attempts a task may spend, and the identity of the next attempt:
    attempt id, action id and idempotency key minted from a caller's token. *)
From Stdlib Require Import Ascii String SpecFloat.
From S2P Require Import Prelude PyValue Instances.

Definition DEFAULT_MAXIMUM_ATTEMPTS_PER_TASK : Z := 5.
Definition _BUDGET_KEY : string := "maximum_attempts_per_task".

Section budget.
Context `{FloatText}.

Definition resolve_maximum_attempts (request : list (string * pyval)) (default : Z) : result Z :=
  match dict_get _BUDGET_KEY request with
  | None => Ok default
  | Some raw =>
      let invalid := raise ValueError ("ATTEMPT_BUDGET_INVALID:" +:+ py_repr raw) in
      value ← match raw with
              | PBool _ => invalid
              | _ => match py_int raw with
                  | Ok n => Ok n
                  | Err e => if exn_is TypeError e || exn_is ValueError e then invalid else Err e
                  end
              end;
      if (value <? 1)%Z then invalid else Ok value
  end.
End budget.

Definition _MAX_KEY_LENGTH : nat := 256.

Record RetryIdentity : Set := {
  task_id : string;
  attempt_id : string;
  action_id : string;
  idempotency_key : string
}.

(** [RetryIdentity.to_dict]. *)
Definition identity_to_dict (i : RetryIdentity) : list (string * pyval) :=
  [("task_id", PStr (task_id i)); ("attempt_id", PStr (attempt_id i));
   ("action_id", PStr (action_id i)); ("idempotency_key", PStr (idempotency_key i))].

(** The key part of the mint: [base_key[:max(1, 256 - len(suffix))] + suffix]. *)
Definition retry_key (previous_key token : string) : string :=
  let base_key := before_first ":retry-" previous_key in
  let suffix := ":retry-" +:+ token in
  str_take (Nat.max 1 (_MAX_KEY_LENGTH - String.length suffix)) base_key +:+ suffix.

Section mint.
Context `{FloatText}.

Definition mint_retry_identity (state request : list (string * pyval)) (token : pyval) :
    result RetryIdentity :=
  match token with
  | PStr token =>
      _ ← raise_if (String.eqb token EmptyString || str_contains ":" token) ValueError
            "RETRY_TOKEN_INVALID";
      let task_id := strip (str_or (py_or (py_get state "task_id") (py_get request "task_id"))
                              EmptyString) in
      _ ← raise_if (String.eqb task_id EmptyString) ValueError "RETRY_TASK_ID_MISSING";
      let previous_key :=
        str_or (py_or (py_get state "idempotency_key") (py_get request "idempotency_key")) task_id in
      Ok {| task_id := task_id; attempt_id := "attempt-" +:+ token;
            action_id := "action-" +:+ token; idempotency_key := retry_key previous_key token |}
  | _ => raise ValueError "RETRY_TOKEN_INVALID"
  end.
End mint.

(** * Lemmas *)
Definition no_colon (s : string) : Prop := str_contains ":" s = false.

Lemma str_contains_cons p c s :
  str_contains p (String c s) = starts_with p (String c s) || str_contains p s.
Proof. done. Qed.
Lemma no_colon_cons c s : no_colon (String c s) ↔ c ≠ ":"%char ∧ no_colon s.
Proof.
  unfold no_colon. rewrite str_contains_cons, orb_false_iff.
  unfold starts_with. rewrite andb_true_r, Ascii.eqb_neq. split; intros [??]; split; congruence.
Qed.
Lemma no_colon_token t : no_colon t → no_colon ("retry-" +:+ t).
Proof. intros Ht. rewrite !str_app_cons, str_app_nil. by rewrite !no_colon_cons. Qed.

(** The text after the last colon determines the token. *)
Lemma last_colon_inj b b' t t' :
  no_colon t → no_colon t' → b +:+ String ":" t = b' +:+ String ":" t' → b = b' ∧ t = t'.
Proof.
  intros Ht Ht'. revert b'. induction b as [|c b IH]; intros [|c' b'];
    rewrite ?str_app_nil, ?str_app_cons; intros [= ].
  - done.
  - subst. exfalso. assert (¬ no_colon (b' +:+ String ":" t')) as Hn; [|done].
    clear. induction b' as [|c b' IH]; rewrite ?str_app_nil, ?str_app_cons, no_colon_cons; tauto.
  - subst. exfalso. assert (¬ no_colon (b +:+ String ":" t)) as Hn; [|done].
    clear. induction b as [|c b IH]; rewrite ?str_app_nil, ?str_app_cons, no_colon_cons; tauto.
  - subst. by destruct (IH b') as [-> ->].
Qed.
Lemma retry_key_token p p' t t' :
  no_colon t → no_colon t' → retry_key p t = retry_key p' t' → t = t'.
Proof.
  unfold retry_key. intros Ht Ht' E.
  rewrite !(str_app_cons ":" "retry-") in E.
  apply last_colon_inj in E as [_ E]; [|by apply no_colon_token..].
  rewrite !str_app_cons, !str_app_nil in E. congruence.
Qed.

Lemma before_first_cons sep c s :
  before_first sep (String c s) =
    if starts_with sep (String c s) then EmptyString else String c (before_first sep s).
Proof. done. Qed.
Lemma starts_with_app_colon p b r :
  no_colon p → starts_with p (b +:+ String ":" r) = starts_with p b.
Proof.
  revert b. induction p as [|c p IH]; intros b Hp; [done|]. apply no_colon_cons in Hp as [Hc Hp].
  destruct b as [|d b]; rewrite ?str_app_nil, ?str_app_cons;
    unfold starts_with; fold starts_with.
  - apply andb_false_iff. left. by apply Ascii.eqb_neq.
  - by rewrite IH.
Qed.
Lemma starts_with_cons a p b s : starts_with (String a p) (String b s) = Ascii.eqb a b && starts_with p s.
Proof. done. Qed.
(** A key without the separator keeps its base when a suffix is appended. *)
Lemma before_first_suffix b t :
  before_first ":retry-" b = b → before_first ":retry-" (b +:+ ":retry-" +:+ t) = b.
Proof.
  induction b as [|c b IH]; [by intros _; rewrite str_app_nil|].
  rewrite (str_app_cons c), !before_first_cons, !starts_with_cons.
  rewrite (str_app_cons ":" "retry-"), starts_with_app_colon by done.
  destruct (_ && _); [done|]. intros [= Hb]. by rewrite <- (str_app_cons ":" "retry-"), IH.
Qed.
Lemma starts_with_app_l p s r : starts_with p s = true → starts_with p (s +:+ r) = true.
Proof.
  rewrite !starts_with_spec. intros E. rewrite E, str_app_assoc. f_equal.
  generalize (str_drop (String.length p) s). intros t. clear.
  induction p as [|c p IH]; [done|]. by rewrite !str_app_cons.
Qed.
Lemma str_take_split n s : ∃ r, s = str_take n s +:+ r.
Proof.
  revert s. induction n as [|n IH]; intros [|c s]; try by eexists.
  destruct (IH s) as [r E]. exists r. cbn. by rewrite str_app_cons, <- E.
Qed.
Lemma before_first_split sep s : ∃ r, s = before_first sep s +:+ r.
Proof.
  induction s as [|c s [r IH]].
  - exists EmptyString. cbn. by destruct (starts_with _ _).
  - rewrite before_first_cons. destruct (starts_with _ _); [by eexists|].
    exists r. by rewrite str_app_cons, <- IH.
Qed.
(** No truncation of the base contains the separator. *)
Lemma before_first_take sep s n :
  before_first sep (str_take n (before_first sep s)) = str_take n (before_first sep s).
Proof.
  assert (before_first sep EmptyString = EmptyString) as Hnil by (cbn; by destruct (starts_with _ _)).
  revert n. induction s as [|c s IH]; intros n; [by rewrite Hnil; destruct n|].
  rewrite before_first_cons. destruct (starts_with sep (String c s)) eqn:E; [by destruct n|].
  destruct n as [|n]; [done|]. cbn [str_take]. rewrite before_first_cons.
  destruct (starts_with sep (String c (str_take _ _))) eqn:E'; [|by rewrite IH].
  destruct (str_take_split n (before_first sep s)) as [r Hr], (before_first_split sep s) as [r' Hr'].
  apply (starts_with_app_l _ _ (r +:+ r')) in E'.
  rewrite str_app_cons, <- str_app_assoc, <- Hr, <- Hr' in E'. congruence.
Qed.
Lemma str_take_take n m s : n ≤ m → str_take n (str_take m s) = str_take n s.
Proof.
  revert m s. induction n as [|n IH]; intros [|m] [|c s] Hle; cbn; try done; try lia.
  by rewrite IH by lia.
Qed.

(** Minting again replaces the previous suffix. *)
Lemma retry_key_again p t t' :
  String.length t ≤ String.length t' → retry_key (retry_key p t) t' = retry_key p t'.
Proof.
  intros Hle. unfold retry_key at 1. unfold retry_key at 1.
  rewrite before_first_suffix by apply before_first_take.
  rewrite str_take_take; [done|]. rewrite !str_app_length. lia.
Qed.
Lemma retry_key_length p t :
  String.length (retry_key p t) ≤ Nat.max _MAX_KEY_LENGTH (String.length t + 8).
Proof.
  unfold retry_key. rewrite str_app_length, str_take_length, str_app_length. cbn [String.length]. lia.
Qed.

Section mint_lemmas.
Context `{FloatText}.

Lemma mint_Ok state request token i : mint_retry_identity state request token = Ok i →
  ∃ t previous, token = PStr t ∧ t ≠ EmptyString ∧ no_colon t ∧ task_id i ≠ EmptyString ∧
    attempt_id i = "attempt-" +:+ t ∧ action_id i = "action-" +:+ t ∧
    previous = str_or (py_or (py_get state "idempotency_key") (py_get request "idempotency_key"))
                 (task_id i) ∧
    idempotency_key i = retry_key previous t.
Proof.
  destruct token as [| | | |t| | | |]; try done. intros (u & Hu & H')%bind_Ok_inv.
  apply bind_Ok_inv in H' as (u' & Hu' & [= <-]).
  apply raise_if_Ok_inv, orb_false_iff in Hu as [Ht%String.eqb_neq Hc].
  apply raise_if_Ok_inv, String.eqb_neq in Hu'. eauto 12.
Qed.
End mint_lemmas.

(** * Properties *)
Section properties.
Context `{FloatText}.

(** The attempt budget is the default exactly when the request does not carry
    one, and otherwise the integer the carried value converts to, which is at least 1;
    booleans are refused.  Every failure is the documented [ValueError] naming the
    value, except that an infinite float escapes as [OverflowError]. *)
Theorem resolve_maximum_attempts_spec (request : list (string * pyval)) (default : Z) :
  match resolve_maximum_attempts request default with
  | Ok n =>
      dict_get _BUDGET_KEY request = None ∧ n = default ∨
      ∃ raw, dict_get _BUDGET_KEY request = Some raw ∧ (∀ b, raw ≠ PBool b) ∧
        py_int raw = Ok n ∧ (1 ≤ n)%Z
  | Err e =>
      ∃ raw, dict_get _BUDGET_KEY request = Some raw ∧
        (e = Exn ValueError ("ATTEMPT_BUDGET_INVALID:" +:+ py_repr raw) ∧
           ((∃ b, raw = PBool b) ∨ (∀ n, py_int raw = Ok n → (n < 1)%Z)) ∨
         exn_type e = OverflowError ∧ ∃ s, raw = PFloat (S754_infinity s))
  end.
Proof.
  unfold resolve_maximum_attempts. destruct (dict_get _BUDGET_KEY request) as [raw|]; [|by left].
  assert ((∃ b, raw = PBool b) ∨ ∀ b, raw ≠ PBool b) as [[b ->]|Hb]
    by (destruct raw; eauto; by right).
  { cbn. eauto 8. }
  destruct (py_int raw) as [n|e] eqn:En.
  - replace (match raw with PBool _ => _ | _ => _ end) with (Ok n)
      by (destruct raw; done || by destruct (Hb b)).
    cbn. destruct (Z.ltb_spec n 1); cbn; [|eauto 10].
    eexists. split; [done|]. left. split; [done|]. right. congruence.
  - destruct (py_int_err _ _ En) as [He|[He|[He [s ->]]]];
      [| |cbn in En; injection En as <-; cbn; eexists; split; [done|]; right; split; eauto];
      (replace (match raw with PBool _ => _ | _ => _ end)
        with (raise ValueError ("ATTEMPT_BUDGET_INVALID:" +:+ py_repr raw) : result Z);
      [cbn; eexists; split; [done|]; left; split; [done|]; right; congruence|]);
      destruct e as [c m]; cbn in He; subst c; destruct raw; done || by destruct (Hb b).
Qed.

(** Attempts minted with different tokens never share an attempt id, an action id
    or an idempotency key, whatever states and requests they were minted from. *)
Theorem mint_fresh (state state' request request' : list (string * pyval)) (t t' : string)
    (i i' : RetryIdentity) :
  mint_retry_identity state request (PStr t) = Ok i →
  mint_retry_identity state' request' (PStr t') = Ok i' → t ≠ t' →
  attempt_id i ≠ attempt_id i' ∧ action_id i ≠ action_id i' ∧
  idempotency_key i ≠ idempotency_key i'.
Proof.
  intros (? & ? & [= <-] & _ & Hc & _ & -> & -> & _ & ->)%mint_Ok.
  intros (? & ? & [= <-] & _ & Hc' & _ & -> & -> & _ & ->)%mint_Ok Hne.
  rewrite !str_app_cons, !str_app_nil.
  split; [congruence|]. split; [congruence|]. intros E. by apply retry_key_token in E.
Qed.

(** Retrying a retry replaces the suffix of the idempotency key and keeps its base:
    minting from a minted key gives the key minted from the original one (for a token
    at least as long), and no key exceeds 256 characters unless the token alone does. *)
Theorem mint_again (state request : list (string * pyval)) (t t' : string)
    (i i' j : RetryIdentity) :
  mint_retry_identity state request (PStr t) = Ok i →
  mint_retry_identity (dict_set "idempotency_key" (PStr (idempotency_key i)) state) request (PStr t')
    = Ok i' →
  mint_retry_identity state request (PStr t') = Ok j →
  String.length t ≤ String.length t' →
  idempotency_key i' = idempotency_key j ∧ task_id i' = task_id i ∧
  String.length (idempotency_key i') ≤ Nat.max _MAX_KEY_LENGTH (String.length t' + 8).
Proof.
  intros Hi Hi' Hj Hle.
  assert (task_id i' = task_id i ∧ task_id j = task_id i) as [Hti Htj].
  { cbn in Hi, Hi', Hj. run_ok Hi. run_ok Hi'. run_ok Hj. subst.
    cbn. unfold py_get. by rewrite dict_get_set_ne. }
  apply mint_Ok in Hi as (? & p & [= <-] & _ & _ & _ & _ & _ & Hp & Hk).
  apply mint_Ok in Hi' as (? & p' & [= <-] & _ & _ & _ & _ & _ & Hp' & Hk').
  apply mint_Ok in Hj as (? & q & [= <-] & _ & _ & _ & _ & _ & Hq & Hkj).
  rewrite Htj in Hq. rewrite py_get_set in Hp'.
  assert (p' = retry_key p t) as E.
  { rewrite Hp', Hk. unfold retry_key. rewrite (str_app_cons ":" "retry-").
    by destruct (str_take _ _). }
  rewrite Hk', Hkj, E, retry_key_again, Hq, <- Hp by done.
  split; [done|]. split; [done|]. apply retry_key_length.
Qed.
End properties.

(** * Witnesses *)
#[local] Existing Instance Dyadic_FloatText.
Definition sample_request : list (string * pyval) :=
  [("task_id", PStr "task-7"); ("idempotency_key", PStr "key-7:retry-old")].
Lemma mint_fresh_witness : ∃ i i',
  mint_retry_identity [] sample_request (PStr "aa") = Ok i ∧
  mint_retry_identity sample_request [] (PStr "bb") = Ok i' ∧
  attempt_id i ≠ attempt_id i' ∧ action_id i ≠ action_id i' ∧
  idempotency_key i ≠ idempotency_key i'.
Proof.
  eexists _, _. split; [reflexivity|]. split; [reflexivity|].
  apply (mint_fresh [] sample_request sample_request [] "aa" "bb"); [reflexivity..|discriminate].
Defined.
Lemma mint_again_witness : ∃ i i' j,
  mint_retry_identity [] sample_request (PStr "aa") = Ok i ∧
  mint_retry_identity [("idempotency_key", PStr (idempotency_key i))] sample_request (PStr "bb")
    = Ok i' ∧
  mint_retry_identity [] sample_request (PStr "bb") = Ok j ∧
  idempotency_key i' = idempotency_key j ∧ task_id i' = task_id i ∧
  String.length (idempotency_key i') ≤ Nat.max _MAX_KEY_LENGTH (String.length "bb" + 8).
Proof.
  eexists _, _, _. split; [reflexivity|]. split; [reflexivity|]. split; [reflexivity|].
  apply (mint_again [] sample_request "aa" "bb"); [reflexivity..|]. cbn. lia.
Defined.
