(* ===== verification/BoundedReconciliation.v ===== *)
(** * Bounded verifier-driven reconciliation
    ([src/src/nexus_runtime/task_retry/bounded_reconciliation.py])

    A verifier's semantic reject is carried by a [VerifierResidualPacket], bound to
    the attempt it rejects by content hash.  [evaluate_bounded_reconciliation]
    decides whether one repair attempt may follow; at most [MAX_REPAIR_ROUNDS_V1]
    repair rounds are ever granted. *)
From Stdlib Require Import Ascii String SpecFloat.
From S2P Require Import Prelude PyValue Json Digest Contract Instances.

Definition VERIFIER_RESIDUAL_PACKET_SCHEMA := "nexus.runtime.verifier_residual_packet.v1".
Definition BOUNDED_RECONCILIATION_DECISION_SCHEMA :=
  "nexus.runtime.bounded_reconciliation_decision.v1".
Definition BOUNDED_RECONCILIATION_REQUEST_SCHEMA :=
  "nexus.runtime.bounded_reconciliation_request.v1".
Definition CLEAN_SEMANTIC_REJECT := "CLEAN_SEMANTIC_REJECT".
Definition REPAIR_ELIGIBLE := "REPAIR_ELIGIBLE".
Definition REPAIR_INELIGIBLE := "REPAIR_INELIGIBLE".
Definition REPAIR_BUDGET_EXHAUSTED := "REPAIR_BUDGET_EXHAUSTED".
Definition REPLAN_REQUEST := "REPLAN_REQUEST".
Definition MAX_REPAIR_ROUNDS_V1 : Z := 1.

Definition _ALLOWED_REPAIR_TARGETS : list string :=
  ["IMPLEMENTATION"; "STATE_TRANSITION"; "EVIDENCE_BINDING"; "SCHEMA_CONTRACT";
   "ORDERING_CONCURRENCY"; "TEST_SEMANTICS"; "AUTHORITY_BOUNDARY"].

(** [_SHA256_RE.fullmatch(s)]. *)
Definition _SHA256_RE (s : string) : bool :=
  is_hex64 s || starts_with "sha256:" s && is_hex64 (str_drop 7 s).

Definition _text : pyval → string → result string := req_text BoundedReconciliationError.

Definition _string_tuple (v : pyval) (name : string) (minimum : nat) : result (list string) :=
  match as_array v with
  | None => raise BoundedReconciliationError (name +:+ " must be an array of strings")
  | Some l =>
      texts ← mapM_result (λ x, _text x name) l;
      let r := sort_unique texts in
      _ ← raise_if (Nat.ltb (length r) minimum) BoundedReconciliationError
            (name +:+ " requires at least " +:+ int_text (Z.of_nat minimum) +:+ " item(s)");
      Ok r
  end.

Definition _sha256 (v : pyval) (name : string) : result string :=
  text ← _text v name;
  _ ← raise_if (negb (_SHA256_RE text)) BoundedReconciliationError
        (name +:+ " must be a SHA-256 digest");
  Ok (if starts_with "sha256:" text then text else "sha256:" +:+ text).

Record VerifierResidualPacket : Set := {
  task_id : string;
  predecessor_attempt_id : string;
  candidate_id : string;
  candidate_sha256 : string;
  source_revision : string;
  verifier_id : string;
  verifier_version : string;
  verifier_receipt_ref : string;
  failure_class : string;
  residual_family : string;
  failed_invariants : list string;
  counterexample_refs : list string;
  repair_target : string;
  claim_ceiling : string;
  packet_sha256 : string
}.

Definition _content (p : VerifierResidualPacket) : list (string * pyval) := [
  ("schema", PStr VERIFIER_RESIDUAL_PACKET_SCHEMA);
  ("task_id", PStr (task_id p));
  ("predecessor_attempt_id", PStr (predecessor_attempt_id p));
  ("candidate_id", PStr (candidate_id p));
  ("candidate_sha256", PStr (candidate_sha256 p));
  ("source_revision", PStr (source_revision p));
  ("verifier_id", PStr (verifier_id p));
  ("verifier_version", PStr (verifier_version p));
  ("verifier_receipt_ref", PStr (verifier_receipt_ref p));
  ("failure_class", PStr (failure_class p));
  ("residual_family", PStr (residual_family p));
  ("failed_invariants", str_list (failed_invariants p));
  ("counterexample_refs", str_list (counterexample_refs p));
  ("repair_target", PStr (repair_target p));
  ("claim_ceiling", PStr (claim_ceiling p))].
(** [VerifierResidualPacket.to_dict]. *)
Definition packet_to_dict (p : VerifierResidualPacket) : list (string * pyval) :=
  dict_merge (_content p) [("packet_sha256", PStr (packet_sha256 p))].

Definition with_sha (p : VerifierResidualPacket) (h : string) : VerifierResidualPacket :=
  {| task_id := task_id p; predecessor_attempt_id := predecessor_attempt_id p;
     candidate_id := candidate_id p; candidate_sha256 := candidate_sha256 p;
     source_revision := source_revision p; verifier_id := verifier_id p;
     verifier_version := verifier_version p; verifier_receipt_ref := verifier_receipt_ref p;
     failure_class := failure_class p; residual_family := residual_family p;
     failed_invariants := failed_invariants p; counterexample_refs := counterexample_refs p;
     repair_target := repair_target p; claim_ceiling := claim_ceiling p; packet_sha256 := h |}.

(** The keyword arguments of [VerifierResidualPacket.build], by field name. *)
Definition packet_fields : list string :=
  ["task_id"; "predecessor_attempt_id"; "candidate_id"; "candidate_sha256"; "source_revision";
   "verifier_id"; "verifier_version"; "verifier_receipt_ref"; "failure_class";
   "residual_family"; "failed_invariants"; "counterexample_refs"; "repair_target";
   "claim_ceiling"].

Section packet.
Context `{FloatText} `{Digest}.

Definition _canonical_json (d : list (string * pyval)) : result string :=
  canonical_json BoundedReconciliationError
    "bounded reconciliation payload must be canonical JSON" (PDict d).
Definition _payload_sha256 (d : list (string * pyval)) : result string :=
  t ← _canonical_json d; Ok ("sha256:" +:+ text_sha256 t).

(** [VerifierResidualPacket.verify]. *)
Definition packet_verify (p : VerifierResidualPacket) : result unit :=
  expected ← _payload_sha256 (_content p);
  raise_if (negb (String.eqb (packet_sha256 p) expected)) BoundedReconciliationError
    "verifier residual packet hash mismatch".

(** [VerifierResidualPacket.build], its keyword arguments in a mapping; an argument left out is [None], which
    [_text] rejects, except [counterexample_refs], whose default the caller puts in. *)
Definition packet_build (args : list (string * pyval)) : result VerifierResidualPacket :=
  let arg := py_get args in
  target ← upper <$> _text (arg "repair_target") "repair_target";
  _ ← raise_if (negb (text_in target _ALLOWED_REPAIR_TARGETS)) BoundedReconciliationError
        "repair_target is not an admitted abstraction";
  f1 ← _text (arg "task_id") "task_id";
  f2 ← _text (arg "predecessor_attempt_id") "predecessor_attempt_id";
  f3 ← _text (arg "candidate_id") "candidate_id";
  f4 ← _sha256 (arg "candidate_sha256") "candidate_sha256";
  f5 ← _text (arg "source_revision") "source_revision";
  f6 ← _text (arg "verifier_id") "verifier_id";
  f7 ← _text (arg "verifier_version") "verifier_version";
  f8 ← _text (arg "verifier_receipt_ref") "verifier_receipt_ref";
  f9 ← upper <$> _text (arg "failure_class") "failure_class";
  f10 ← _text (arg "residual_family") "residual_family";
  f11 ← _string_tuple (arg "failed_invariants") "failed_invariants" 1;
  f12 ← _string_tuple (arg "counterexample_refs") "counterexample_refs" 0;
  f14 ← _text (arg "claim_ceiling") "claim_ceiling";
  let packet := {| task_id := f1; predecessor_attempt_id := f2; candidate_id := f3;
    candidate_sha256 := f4; source_revision := f5; verifier_id := f6; verifier_version := f7;
    verifier_receipt_ref := f8; failure_class := f9; residual_family := f10;
    failed_invariants := f11; counterexample_refs := f12; repair_target := target;
    claim_ceiling := f14; packet_sha256 := EmptyString |} in
  h ← _payload_sha256 (_content packet);
  Ok (with_sha packet h).

(** [VerifierResidualPacket.from_mapping]. *)
Definition packet_from_mapping (v : pyval) : result VerifierResidualPacket :=
  match v with
  | PDict d =>
      _ ← raise_if (negb (keys_are ("schema" :: packet_fields ++ ["packet_sha256"]) d))
            BoundedReconciliationError "verifier residual packet fields mismatch";
      _ ← raise_if (negb (is_text (py_get d "schema") VERIFIER_RESIDUAL_PACKET_SCHEMA))
            BoundedReconciliationError "verifier residual packet schema mismatch";
      built ← packet_build d;
      observed ← _sha256 (py_get d "packet_sha256") "packet_sha256";
      _ ← raise_if (negb (String.eqb observed (packet_sha256 built)))
            BoundedReconciliationError "verifier residual packet hash mismatch";
      Ok built
  | _ => raise BoundedReconciliationError "verifier residual packet must be a mapping"
  end.
End packet.

(** ** The decision *)
Record BoundedReconciliationDecision : Set := {
  disposition : string;
  reason : string;
  residual_packet_sha256 : option string;
  current_repair_round : Z;
  next_repair_round : option Z;
  required_next_gate : string;
  replan_requested : bool
}.

Definition eligible (d : BoundedReconciliationDecision) : bool :=
  String.eqb (disposition d) REPAIR_ELIGIBLE.

(** [BoundedReconciliationDecision.to_dict]. *)
Definition decision_to_dict (d : BoundedReconciliationDecision) : list (string * pyval) := [
  ("schema", PStr BOUNDED_RECONCILIATION_DECISION_SCHEMA);
  ("disposition", PStr (disposition d));
  ("reason", PStr (reason d));
  ("residual_packet_sha256", opt_str (residual_packet_sha256 d));
  ("current_repair_round", PInt (current_repair_round d));
  ("next_repair_round", opt_int (next_repair_round d));
  ("required_next_gate", PStr (required_next_gate d));
  ("replan_requested", PBool (replan_requested d));
  ("eligible", PBool (eligible d));
  ("runtime_is_planner_authority", PBool false);
  ("runtime_is_completion_authority", PBool false)].

Definition _ineligible (reason : string) (packet_sha : option string) (current_round : Z) :
    BoundedReconciliationDecision :=
  {| disposition := REPAIR_INELIGIBLE; reason := reason; residual_packet_sha256 := packet_sha;
     current_repair_round := current_round; next_repair_round := None;
     required_next_gate := "STOP_EXISTING_AUTHORITY_PATH"; replan_requested := false |}.

Definition budget_exhausted (current_round : Z) : BoundedReconciliationDecision :=
  {| disposition := REPAIR_BUDGET_EXHAUSTED; reason := "repair_round_budget_exhausted";
     residual_packet_sha256 := None; current_repair_round := current_round;
     next_repair_round := None; required_next_gate := REPLAN_REQUEST; replan_requested := true |}.

Definition grant_repair (sha : string) (current_round : Z) : BoundedReconciliationDecision :=
  {| disposition := REPAIR_ELIGIBLE; reason := "clean_semantic_reject_bound_and_budgeted";
     residual_packet_sha256 := Some sha; current_repair_round := current_round;
     next_repair_round := Some (current_round + 1)%Z;
     required_next_gate := "SUBMIT_FRESH_REPAIR_ATTEMPT"; replan_requested := false |}.

(** The first binding whose two sides differ. *)
Fixpoint first_mismatch (bs : list (string * pyval * string)) : option string :=
  match bs with
  | [] => None
  | (observed, expected, field) :: bs =>
      if negb (py_eq (PStr observed) expected) then Some field else first_mismatch bs
  end.

Section evaluate.
Context `{FloatText} `{Digest}.

Definition _current_repair_round (request : list (string * pyval)) : result Z :=
  match py_get request "bounded_reconciliation" with
  | PNone => Ok 0%Z
  | PDict previous =>
      let raw_round := default (PInt 0) (dict_get "repair_round" previous) in
      match raw_round with
      | PBool _ => raise BoundedReconciliationError "existing repair_round is malformed"
      | _ =>
          value ← match py_int raw_round with
                  | Ok n => Ok n
                  | Err e => if exn_is TypeError e || exn_is ValueError e
                      then raise BoundedReconciliationError "existing repair_round is malformed"
                      else Err e
                  end;
          _ ← raise_if (value <? 0)%Z BoundedReconciliationError
                "existing repair_round is negative";
          Ok value
      end
  | _ => raise BoundedReconciliationError
           "existing bounded_reconciliation metadata is malformed"
  end.

(** The checks on a parsed packet, in order. *)
Definition check_packet (state : list (string * pyval)) (packet : VerifierResidualPacket)
    (current_round : Z) : BoundedReconciliationDecision :=
  let no r := _ineligible r (Some (packet_sha256 packet)) current_round in
  if negb (String.eqb (str_or (py_get state "status") EmptyString) "FINAL_BLOCK") then
    no "predecessor_not_terminal_repairable_status"
  else if negb (String.eqb (str_or (py_get state "acceptance_decision") EmptyString) "REPAIRABLE")
  then no "acceptance_decision_not_repairable"
  else if negb (String.eqb (failure_class packet) CLEAN_SEMANTIC_REJECT) then
    no ("failure_class_not_semantic:" +:+ failure_class packet)
  else if negb match py_get state "has_unresolved_external_effect" with
               | PBool false => true | _ => false end
  then no "unresolved_external_effect_not_proven_false"
  else if negb match py_get state "active_effect_count" with
               | PInt n => (n =? 0)%Z | _ => false end
  then no "active_predecessor_effect_not_proven_zero"
  else match py_get state "candidate_identity", py_get state "verifier_identity" with
  | PDict identity, PDict verifier =>
      match _sha256 (py_get identity "candidate_sha256") "candidate_identity.candidate_sha256" with
      | Err _ => no "candidate_identity_sha256_invalid"
      | Ok candidate =>
          match first_mismatch [
            (task_id packet, py_get state "task_id", "task_id");
            (predecessor_attempt_id packet, py_get state "attempt_id", "predecessor_attempt_id");
            (candidate_id packet, py_get identity "candidate_id", "candidate_id");
            (candidate_sha256 packet, PStr candidate, "candidate_sha256");
            (source_revision packet, py_get identity "source_revision", "source_revision");
            (verifier_id packet, py_get verifier "verifier_id", "verifier_id");
            (verifier_version packet, py_get verifier "verifier_version", "verifier_version");
            (verifier_receipt_ref packet, py_get verifier "receipt_ref", "verifier_receipt_ref")]
          with
          | Some field => no ("residual_binding_mismatch:" +:+ field)
          | None => grant_repair (packet_sha256 packet) current_round
          end
      end
  | PDict _, _ => no "verifier_identity_missing"
  | _, _ => no "candidate_identity_missing"
  end.

Definition evaluate_bounded_reconciliation (state residual_value : pyval) :
    result BoundedReconciliationDecision :=
  match state with
  | PDict state =>
      match py_get state "request" with
      | PDict request =>
          match _current_repair_round request with
          | Err e => if exn_is BoundedReconciliationError e
              then Ok (_ineligible (exn_msg e) None 0) else Err e
          | Ok current_round =>
              if (MAX_REPAIR_ROUNDS_V1 <=? current_round)%Z then Ok (budget_exhausted current_round)
              else match packet_from_mapping residual_value with
              | Err e => if exn_is BoundedReconciliationError e
                  then Ok (_ineligible ("residual_packet_invalid:" +:+ exn_msg e) None current_round)
                  else Err e
              | Ok packet => Ok (check_packet state packet current_round)
              end
          end
      | _ => Ok (_ineligible "DURABLE_REQUEST_MISSING" None 0)
      end
  | _ => Ok (_ineligible "STATE_NOT_MAPPING" None 0)
  end.

Definition build_repair_request_metadata (d : BoundedReconciliationDecision)
    (predecessor_attempt_id successor_attempt_id : pyval) : result (list (string * pyval)) :=
  match eligible d, next_repair_round d with
  | true, Some next =>
      p ← _text predecessor_attempt_id "predecessor_attempt_id";
      s ← _text successor_attempt_id "successor_attempt_id";
      h ← _text (opt_str (residual_packet_sha256 d)) "residual_packet_sha256";
      Ok [("schema", PStr BOUNDED_RECONCILIATION_REQUEST_SCHEMA);
          ("predecessor_attempt_id", PStr p);
          ("successor_attempt_id", PStr s);
          ("residual_packet_sha256", PStr h);
          ("repair_round", PInt next);
          ("max_repair_rounds", PInt MAX_REPAIR_ROUNDS_V1);
          ("required_post_repair_gate", PStr "EXTERNAL_VERIFIER");
          ("replan_on_exhaustion", PStr "REQUEST_ONLY");
          ("runtime_is_planner_authority", PBool false);
          ("runtime_is_completion_authority", PBool false)]
  | _, _ => raise BoundedReconciliationError
              "repair request metadata requires an eligible reconciliation decision"
  end.
End evaluate.


(** * What [build] returns *)
Definition packet_texts (p : VerifierResidualPacket) : list string :=
  [task_id p; predecessor_attempt_id p; candidate_id p; source_revision p; verifier_id p;
   verifier_version p; verifier_receipt_ref p; failure_class p; residual_family p; claim_ceiling p].
Record packet_wf (p : VerifierResidualPacket) : Prop := {
  wf_texts : Forall (λ s, stripped_key s = true) (packet_texts p);
  wf_candidate : digest_ref (candidate_sha256 p) = true;
  wf_class : upper (failure_class p) = failure_class p;
  wf_target : repair_target p ∈ _ALLOWED_REPAIR_TARGETS;
  wf_failed : string_set (failed_invariants p) = true;
  wf_failed_ne : failed_invariants p ≠ [];
  wf_refs : string_set (counterexample_refs p) = true
}.

Lemma _sha256_ref v name h : _sha256 v name = Ok h → digest_ref h = true.
Proof.
  unfold _sha256. intros (t & _ & H)%bind_Ok_inv. run_ok H. apply negb_false_iff in Hok.
  unfold _SHA256_RE in Hok. subst h. destruct (starts_with "sha256:" t) eqn:E;
    cbn [andb] in *.
  - unfold digest_ref. rewrite E. apply orb_true_iff in Hok as [H|?]; [|done].
    apply starts_with_spec in E. rewrite E in H.
    unfold is_hex64 in H. rewrite str_forallb_app, andb_comm in H. done.
  - rewrite orb_false_r in Hok. by apply digest_ref_app.
Qed.
Lemma _sha256_id h name : digest_ref h = true → _sha256 (PStr h) name = Ok h.
Proof.
  intros Hh. unfold _sha256, _text. rewrite req_text_of_key by by apply digest_ref_key.
  cbn -[starts_with]. unfold _SHA256_RE. unfold digest_ref in Hh. rewrite Hh, orb_true_r.
  cbn -[starts_with]. apply andb_true_iff in Hh as [-> _]. done.
Qed.
Lemma _string_tuple_set v name n l :
  _string_tuple v name n = Ok l → string_set l = true ∧ n ≤ length l.
Proof.
  unfold _string_tuple. destruct (as_array v) as [xs|]; [|done].
  intros (texts & Ht & H)%bind_Ok_inv. run_ok H. subst l. apply Nat.ltb_ge in Hok.
  split; [|done]. eauto with nexus.
Qed.
Lemma _string_tuple_id l name n :
  string_set l = true → n ≤ length l → _string_tuple (str_list l) name n = Ok l.
Proof.
  intros [Hs Hk]%string_set_spec Hn. unfold _string_tuple, str_list. cbn.
  unfold _text. rewrite mapM_req_text_of_keys by done. cbn -[Nat.ltb].
  rewrite Hs. apply Nat.ltb_ge in Hn. by rewrite Hn.
Qed.

Lemma with_sha_back p h : with_sha (with_sha p h) (packet_sha256 p) = p.
Proof. by destruct p. Qed.

Section packet_lemmas.
Context `{FloatText} `{Digest}.
Implicit Types p q : VerifierResidualPacket.

Definition packet_text p : string := json_print false (jnorm (PDict (_content p))).
Definition packet_hash p : string := "sha256:" +:+ text_sha256 (packet_text p).

Lemma content_wf p : py_wf (PDict (_content p)) = true.
Proof. cbn. by rewrite !str_list_wf. Qed.
Lemma content_text p : _canonical_json (_content p) = Ok (packet_text p).
Proof.
  apply canonical_json_Ok. unfold json_dumps.
  assert (json_check false (PDict (_content p)) = Ok ()) as Hc.
  { assert (∀ l, json_check false (str_list l) = Ok ()) as Hl by (intros l; by induction l).
    cbn -[str_list]. by rewrite !Hl. }
  by rewrite json_check_jnorm.
Qed.
Lemma content_sha256 p :
  canonical_sha256 BoundedReconciliationError
    "bounded reconciliation payload must be canonical JSON" (PDict (_content p))
  = Ok (text_sha256 (packet_text p)).
Proof.
  unfold canonical_sha256. pose proof (content_text p) as Hc. unfold _canonical_json in Hc.
  by rewrite Hc.
Qed.
Lemma content_hash p : _payload_sha256 (_content p) = Ok (packet_hash p).
Proof. unfold _payload_sha256. by rewrite content_text. Qed.
Lemma packet_verify_Ok p : packet_verify p = Ok () ↔ packet_sha256 p = packet_hash p.
Proof.
  unfold packet_verify. rewrite content_hash. cbn.
  destruct (String.eqb_spec (packet_sha256 p) (packet_hash p)); cbn; by split.
Qed.
Lemma content_with_sha p h : _content (with_sha p h) = _content p.
Proof. done. Qed.
Lemma packet_hash_ref p : digest_ref (packet_hash p) = true.
Proof. apply digest_ref_app, sha256_hex_wf. Qed.

Lemma packet_build_Ok args p :
  packet_build args = Ok p → packet_wf p ∧ packet_sha256 p = packet_hash p.
Proof.
  unfold packet_build. intros H1. run_ok H1. subst p.
  rewrite content_hash in Hok14. injection Hok14 as <-. split; [|done].
  apply negb_false_iff, text_in_spec in Hok0.
  destruct (_text _ "failure_class") as [fc|] eqn:Efc; [|done]. injection Hok9 as <-.
  apply _string_tuple_set in Hok11 as [? Hlen], Hok12 as [? _]. apply _sha256_ref in Hok4.
  constructor; cbn; try done; [|by apply upper_idem|by intros ->; cbn in Hlen; lia].
  unfold _text, packet_texts in *. cbn.
  rewrite !Forall_cons, Forall_nil. repeat split; eauto with nexus.
Qed.

(** [build] accepts the fields of a well-formed packet, in any mapping. *)
Lemma packet_build_id p d :
  packet_wf p → packet_sha256 p = packet_hash p →
  (∀ f, f ∈ packet_fields → dict_get f d = dict_get f (packet_to_dict p)) →
  packet_build d = Ok p.
Proof.
  intros [Ht Hc Hu Htg Hf Hfn Hr] Hh Hd. unfold packet_build, py_get.
  rewrite !Hd by (apply list_elem_of_In; cbn; tauto). cbn -[text_in].
  unfold packet_texts in Ht. rewrite !Forall_cons in Ht. destruct_and! Ht.
  assert (stripped_key (repair_target p) = true ∧ upper (repair_target p) = repair_target p) as [Hk Hup].
  { unfold _ALLOWED_REPAIR_TARGETS in Htg. rewrite !elem_of_cons in Htg.
    destruct_or! Htg; [rewrite Htg; by split..|by apply elem_of_nil in Htg]. }
  unfold _text. rewrite !req_text_of_key by done. cbn -[text_in].
  rewrite Hup, Hu. apply text_in_spec in Htg. rewrite Htg. cbn.
  rewrite _sha256_id by done. cbn.
  rewrite (_string_tuple_id (failed_invariants p)); [|done|by destruct (failed_invariants p); cbn; [|lia]].
  cbn. rewrite _string_tuple_id; [|done|lia]. cbn. rewrite content_hash. cbn. f_equal.
  destruct p; cbn in *. unfold packet_hash, packet_text in *; cbn in *. by rewrite Hh.
Qed.

Lemma packet_from_mapping_Ok v p :
  packet_from_mapping v = Ok p → packet_wf p ∧ packet_sha256 p = packet_hash p.
Proof.
  destruct v; try done. cbn. intros H1. run_ok H1. subst. by eapply packet_build_Ok.
Qed.
Lemma packet_to_dict_eq p :
  packet_to_dict p = _content p ++ [("packet_sha256", PStr (packet_sha256 p))].
Proof. done. Qed.

(** Any mapping with the members of [to_dict] parses to the packet. *)
Lemma packet_from_mapping_id p d :
  packet_wf p → packet_sha256 p = packet_hash p → keys d ≡ₚ keys (packet_to_dict p) →
  (∀ f, dict_get f d = dict_get f (packet_to_dict p)) →
  packet_from_mapping (PDict d) = Ok p.
Proof.
  intros Hwf Hh Hk Hd. cbn -[packet_fields].
  assert (keys_are ("schema" :: packet_fields ++ ["packet_sha256"]) d = true) as ->.
  { apply same_set_spec. intros x. by rewrite Hk. }
  unfold py_get. rewrite !Hd. cbn -[_sha256 packet_fields].
  rewrite (packet_build_id p) by auto. cbn -[_sha256].
  rewrite _sha256_id by (rewrite Hh; apply packet_hash_ref). cbn.
  by rewrite String.eqb_refl.
Qed.

(** Packets are sealed by their hash. *)
#[export] Instance packet_sealed : Sealed VerifierResidualPacket.
Proof.
  refine {| sealed_doc p := PDict (_content p); sealed_ok p := True;
            sealed_same p q := with_sha p EmptyString = with_sha q EmptyString |}.
  - intros p _. apply content_wf.
  - intros p q _ _ E.
    doc_members E.
    unfold with_sha. by f_equal.
Defined.
End packet_lemmas.

(** ** Errors *)
Section errors.
Context `{FloatText} `{Digest}.

Lemma _sha256_err v name e : _sha256 v name = Err e → exn_type e = BoundedReconciliationError.
Proof.
  unfold _sha256. intros [He%req_text_err|(t & _ & [He|(? & _ & ?)]%bind_Err_inv)]%bind_Err_inv;
    [done| |done]. revert He. by destruct (negb _); cbn; [intros [= <-]|].
Qed.
Lemma _string_tuple_err v name n e :
  _string_tuple v name n = Err e → exn_type e = BoundedReconciliationError.
Proof.
  unfold _string_tuple. destruct (as_array v) as [l|]; [|by intros [= <-]].
  intros [He|(t & _ & [He|(? & _ & ?)]%bind_Err_inv)]%bind_Err_inv; [| |done].
  - revert He. induction l as [|x l IH]; cbn; [done|].
    intros [?%req_text_err|(? & _ & [?|(? & _ & ?)]%bind_Err_inv)]%bind_Err_inv; auto; done.
  - revert He. by destruct (Nat.ltb _ _); cbn; [intros [= <-]|].
Qed.
Lemma fmap_err {A B} (f : A → B) (m : result A) e : f <$> m = Err e → m = Err e.
Proof. destruct m; cbn; [done|]. by intros [= ->]. Qed.

Lemma packet_build_err args e : packet_build args = Err e → exn_type e = BoundedReconciliationError.
Proof.
  unfold packet_build, _text. intros He.
  repeat (apply bind_Err_inv in He as [He|(? & _ & He)];
    [first [ by apply req_text_err in He | by apply fmap_err, req_text_err in He
           | by apply _sha256_err in He | by apply _string_tuple_err in He
           | by apply raise_if_err in He | by rewrite content_hash in He ]|]).
  done.
Qed.
Lemma packet_from_mapping_err v e :
  packet_from_mapping v = Err e → exn_type e = BoundedReconciliationError.
Proof.
  destruct v; try by intros [= <-]. cbn [packet_from_mapping]. intros He.
  repeat (apply bind_Err_inv in He as [He|(? & _ & He)];
    [first [ by apply _sha256_err in He | by apply packet_build_err in He
           | by apply raise_if_err in He ]|]).
  done.
Qed.

(** The recorded round is not a number [int()] can convert to an integer. *)
Definition infinite_round (request : list (string * pyval)) : Prop :=
  ∃ previous s, py_get request "bounded_reconciliation" = PDict previous ∧
    dict_get "repair_round" previous = Some (PFloat (S754_infinity s)).

Lemma _current_repair_round_err request e : _current_repair_round request = Err e →
  exn_type e = BoundedReconciliationError ∨ exn_type e = OverflowError ∧ infinite_round request.
Proof.
  unfold _current_repair_round. destruct (py_get request _) as [| | | | | | |previous|] eqn:Ep;
    try by (intros [= <-]; left).
  set (raw := default _ _). assert (raw = default (PInt 0) (dict_get "repair_round" previous)) as Er by done.
  clearbody raw. intros He.
  assert ((∃ b, raw = PBool b) ∨ match raw with PBool _ => False | _ => True end) as [[b ->]|Hraw]
    by (destruct raw; eauto).
  { injection He as <-. by left. }
  assert ((value ← match py_int raw with
                  | Ok n => Ok n
                  | Err e => if exn_is TypeError e || exn_is ValueError e
                      then raise BoundedReconciliationError "existing repair_round is malformed"
                      else Err e
                  end;
          _ ← raise_if (value <? 0)%Z BoundedReconciliationError
                "existing repair_round is negative";
          Ok value) = Err e) as He' by (destruct raw; done). clear He Hraw.
  apply bind_Err_inv in He' as [He|(? & _ & [He%raise_if_err|(? & _ & ?)]%bind_Err_inv)]; [|by left|done].
  destruct (py_int raw) as [|e'] eqn:Ei; [done|].
  destruct (py_int_err _ _ Ei) as [Ht|[Ht|[Ht [s ->]]]];
    destruct e' as [c m]; cbn in Ht; subst c; injection He as <-; [by left|by left|].
  right. split; [done|]. exists previous, s. split; [done|].
  destruct (dict_get _ previous); cbn in Er; congruence.
Qed.
End errors.

#[export] Hint Resolve content_wf packet_hash_ref : nexus.

(** ** The decision *)
Section decision_lemmas.
Context `{FloatText} `{Digest}.

Lemma first_mismatch_None bs :
  first_mismatch bs = None ↔ Forall (λ b, b.1.2 = PStr b.1.1) bs.
Proof.
  induction bs as [|[[o e] f] bs IH]; cbn [first_mismatch]; [by split|].
  rewrite Forall_cons, <- IH. cbn [fst snd].
  assert (py_eq (PStr o) e = true ↔ e = PStr o) as He.
  { split; [|intros ->; apply String.eqb_refl]. destruct e; cbn; try done.
    by intros ->%String.eqb_eq. }
  destruct (py_eq (PStr o) e); cbn; split; naive_solver.
Qed.
Lemma ineligible_not reason sha n : eligible (_ineligible reason sha n) = false.
Proof. done. Qed.

(** The state durably recorded for the rejected attempt admits one repair of it,
    on the strength of the packet [p]. *)
Record admissible (state : list (string * pyval)) (p : VerifierResidualPacket) : Prop := {
  adm_status : str_or (py_get state "status") EmptyString = "FINAL_BLOCK";
  adm_acceptance : str_or (py_get state "acceptance_decision") EmptyString = "REPAIRABLE";
  adm_class : failure_class p = CLEAN_SEMANTIC_REJECT;
  adm_external : py_get state "has_unresolved_external_effect" = PBool false;
  adm_active : py_get state "active_effect_count" = PInt 0;
  adm_task : py_get state "task_id" = PStr (task_id p);
  adm_attempt : py_get state "attempt_id" = PStr (predecessor_attempt_id p);
  adm_identity : ∃ identity, py_get state "candidate_identity" = PDict identity ∧
    _sha256 (py_get identity "candidate_sha256") "candidate_identity.candidate_sha256" =
      Ok (candidate_sha256 p) ∧
    py_get identity "candidate_id" = PStr (candidate_id p) ∧
    py_get identity "source_revision" = PStr (source_revision p);
  adm_verifier : ∃ verifier, py_get state "verifier_identity" = PDict verifier ∧
    py_get verifier "verifier_id" = PStr (verifier_id p) ∧
    py_get verifier "verifier_version" = PStr (verifier_version p) ∧
    py_get verifier "receipt_ref" = PStr (verifier_receipt_ref p)
}.

Lemma check_packet_admissible state p n :
  eligible (check_packet state p n) = true →
  admissible state p ∧ check_packet state p n = grant_repair (packet_sha256 p) n.
Proof.
  unfold check_packet.
  destruct (String.eqb_spec (str_or (py_get state "status") EmptyString) "FINAL_BLOCK"); [|done].
  destruct (String.eqb_spec (str_or (py_get state "acceptance_decision") EmptyString) "REPAIRABLE"); [|done].
  destruct (String.eqb_spec (failure_class p) CLEAN_SEMANTIC_REJECT); [|done]. cbn [negb].
  destruct (py_get state "has_unresolved_external_effect") as [|[]| | | | | | |] eqn:?; try done.
  cbn [negb].
  destruct (py_get state "active_effect_count") as [| |z| | | | | |] eqn:?; try done.
  destruct (Z.eqb_spec z 0) as [->|]; [|done]. cbn [negb].
  destruct (py_get state "candidate_identity") as [| | | | | | |identity|] eqn:?; try done.
  destruct (py_get state "verifier_identity") as [| | | | | | |verifier|] eqn:?; try done.
  destruct (_sha256 _ _) as [candidate|] eqn:?; [|done].
  destruct (first_mismatch _) eqn:Hm; [done|]. intros _. split; [|done].
  apply first_mismatch_None in Hm. rewrite !Forall_cons in Hm. cbn [fst snd] in Hm.
  destruct_and! Hm. constructor; try done; [exists identity|exists verifier]; naive_solver.
Qed.
Lemma admissible_check_packet state p n :
  admissible state p → check_packet state p n = grant_repair (packet_sha256 p) n.
Proof.
  intros [Hs Ha Hc He Hn Ht Hat (i & Hi & Hsha & Hid & Hrev) (v & Hv & Hv1 & Hv2 & Hv3)].
  unfold check_packet. rewrite Hs, Ha, Hc, He, Hn, Hi, Hv, Hsha. cbn [negb].
  match goal with |- context [first_mismatch ?bs] =>
    assert (first_mismatch bs = None) as E by (apply first_mismatch_None; repeat constructor; done)
  end.
  rewrite E. done.
Qed.

Lemma current_round_nonneg request n : _current_repair_round request = Ok n → (0 ≤ n)%Z.
Proof.
  unfold _current_repair_round. destruct (py_get request _) as [| | | | | | |previous|]; try done.
  { by intros [= <-]. }
  set (raw := default _ _). clearbody raw. intros Hr. destruct raw; [|done|..];
  apply bind_Ok_inv in Hr as (z & _ & (u & Hz%raise_if_Ok_inv & [= <-])%bind_Ok_inv); lia.
Qed.
(** What an eligible decision rests on. *)
Lemma evaluate_eligible state residual d :
  evaluate_bounded_reconciliation state residual = Ok d → eligible d = true →
  ∃ fields request p,
    state = PDict fields ∧ py_get fields "request" = PDict request ∧
    _current_repair_round request = Ok 0%Z ∧ packet_from_mapping residual = Ok p ∧
    admissible fields p ∧ d = grant_repair (packet_sha256 p) 0.
Proof.
  unfold evaluate_bounded_reconciliation. intros He Hd.
  destruct state as [| | | | | | |fields|]; try by injection He as <-.
  destruct (py_get fields "request") as [| | | | | | |request|] eqn:Er; try by injection He as <-.
  destruct (_current_repair_round request) as [n|e] eqn:En;
    [|destruct (exn_is _ e); [by injection He as <-|done]].
  pose proof (current_round_nonneg _ _ En). destruct (Z.leb_spec MAX_REPAIR_ROUNDS_V1 n);
    [by injection He as <-|].
  assert (n = 0%Z) as -> by (unfold MAX_REPAIR_ROUNDS_V1 in *; lia).
  destruct (packet_from_mapping residual) as [p|e];
    [|destruct (exn_is _ e); [by injection He as <-|done]].
  injection He as <-. apply check_packet_admissible in Hd as [? ->]. naive_solver.
Qed.
(** The metadata of a granted repair records round 1. *)
Lemma granted_metadata state residual d pred succ metadata :
  evaluate_bounded_reconciliation state residual = Ok d →
  build_repair_request_metadata d pred succ = Ok metadata →
  dict_get "repair_round" metadata = Some (PInt 1).
Proof.
  intros He Hm. unfold build_repair_request_metadata in Hm.
  destruct (eligible d) eqn:Hd; [|done].
  destruct (evaluate_eligible _ _ _ He Hd) as (? & ? & ? & _ & _ & _ & _ & _ & ->).
  cbn [next_repair_round grant_repair] in Hm. run_ok Hm. by subst metadata.
Qed.
End decision_lemmas.

(** * Properties *)
Section properties.
Context `{FloatText} `{Digest}.

(** A packet that [build] returns verifies, and survives the trip through JSON
    text: writing [to_dict] and reading it back with [from_mapping] gives the same
    packet. *)
Theorem packet_json_roundtrip (args : list (string * pyval)) (p : VerifierResidualPacket) :
  packet_build args = Ok p →
  packet_verify p = Ok () ∧
  ∃ text, json_dumps false false (PDict (packet_to_dict p)) = Ok text ∧
    (v ← json_loads text; packet_from_mapping v) = Ok p.
Proof.
  intros [Hwf Hh]%packet_build_Ok. split; [by apply packet_verify_Ok|].
  assert (NoDup (keys (packet_to_dict p))) as Hnd by by apply (bool_decide_eq_true_1 _).
  assert (py_wf (PDict (packet_to_dict p)) = true) as Hpw by by cbn; rewrite !str_list_wf.
  assert (∀ l, json_check false (str_list l) = Ok ()) as Hl by (intros l; by induction l).
  assert (∃ text, json_dumps false false (PDict (packet_to_dict p)) = Ok text) as [text Ht].
  { unfold json_dumps. rewrite json_check_jnorm by by cbn; rewrite !Hl. cbn. eauto. }
  exists text. split; [done|].
  pose proof (json_loads_dumps _ _ _ _ EmptyString Hpw Ht eq_refl eq_refl) as Hr.
  rewrite str_app_nil_r in Hr. rewrite Hr. cbn -[packet_from_mapping packet_to_dict].
  apply packet_from_mapping_id; [done|done|by rewrite keys_jnorm|].
  intros f. rewrite jnorm_get by done.
  destruct (dict_get f (packet_to_dict p)) as [v|] eqn:Ev; [|done]. cbn. f_equal.
  apply dict_get_In in Ev. rewrite packet_to_dict_eq in Ev. unfold _content in Ev.
  cbn in Ev. rewrite !elem_of_cons in Ev. unfold str_list in Ev.
  destruct_or! Ev; [injection Ev as -> ->; cbn; rewrite ?map_map; done..|by apply elem_of_nil in Ev].
Qed.

(** A residual packet is tamper evident: two mappings that both parse, with the
    same [packet_sha256], are the same packet, or their canonical texts are a SHA-256
    collision. *)
Theorem packet_hash_binds (v w : pyval) (p q : VerifierResidualPacket) :
  packet_from_mapping v = Ok p → packet_from_mapping w = Ok q →
  packet_sha256 p = packet_sha256 q →
  p = q ∨ ∃ s t, _canonical_json (_content p) = Ok s ∧ _canonical_json (_content q) = Ok t ∧
    collision (utf8 s) (utf8 t).
Proof.
  intros [_ Hp]%packet_from_mapping_Ok [_ Hq]%packet_from_mapping_Ok Heq.
  assert (text_sha256 (packet_text q) = text_sha256 (packet_text p)) as Eh.
  { rewrite Hp, Hq in Heq. unfold packet_hash in Heq. rewrite !str_app_cons, !str_app_nil in Heq.
    congruence. }
  pose proof (content_sha256 q) as Eq. rewrite Eh in Eq.
  destruct (@seal_binds _ _ _ packet_sealed _ _ p q _ I I (content_sha256 p) Eq) as [E|?];
    [left|by right].
  cbn in E. rewrite <- (with_sha_back p EmptyString), <- (with_sha_back q EmptyString).
  by rewrite E, Heq.
Qed.

(** C26: a repair is granted exactly when no repair round was spent, the residual
    packet parses with a matching hash, and every binding between the packet and the
    durable state of the rejected attempt holds: nothing else makes a decision
    eligible, and nothing else is needed.  The granted decision names the packet and
    moves the round from 0 to 1. *)
Theorem repair_granted_iff (state residual : pyval) (d : BoundedReconciliationDecision) :
  evaluate_bounded_reconciliation state residual = Ok d ∧ eligible d = true ↔
  ∃ fields request p,
    state = PDict fields ∧ py_get fields "request" = PDict request ∧
    _current_repair_round request = Ok 0%Z ∧ packet_from_mapping residual = Ok p ∧
    admissible fields p ∧ d = grant_repair (packet_sha256 p) 0.
Proof.
  split; [intros [??]; by apply (evaluate_eligible _ residual)|].
  intros (fields & request & p & -> & Hr & Hn & Hp & Hadm & ->).
  unfold evaluate_bounded_reconciliation. rewrite Hr, Hn, Hp. cbn [Z.leb].
  by rewrite admissible_check_packet.
Qed.

(** C25: at most one repair round.  A successor request that carries the metadata of a
    granted repair is never granted another: whatever its state and whatever packet is
    presented, the evaluation returns [REPAIR_BUDGET_EXHAUSTED] and asks for a replan. *)
Theorem one_repair_round (state residual pred succ : pyval) (d : BoundedReconciliationDecision)
    (metadata : list (string * pyval)) :
  evaluate_bounded_reconciliation state residual = Ok d →
  build_repair_request_metadata d pred succ = Ok metadata →
  ∀ (fields request : list (string * pyval)) (residual' : pyval),
    evaluate_bounded_reconciliation
      (PDict (dict_set "request" (PDict (dict_set "bounded_reconciliation" (PDict metadata) request))
         fields)) residual'
    = Ok (budget_exhausted 1).
Proof.
  intros He Hm fields request residual'. pose proof (granted_metadata _ _ _ _ _ _ He Hm) as Hr.
  unfold evaluate_bounded_reconciliation. rewrite py_get_set.
  unfold _current_repair_round. rewrite py_get_set, Hr. done.
Qed.

(** The evaluation is total up to one exception: it returns a decision for every
    state and residual, except that a recorded repair round of infinity escapes as the
    [OverflowError] of [int()]. *)
Theorem evaluate_only_raises_overflow (state residual : pyval) (e : exn) :
  evaluate_bounded_reconciliation state residual = Err e →
  exn_type e = OverflowError ∧
  ∃ fields request, state = PDict fields ∧ py_get fields "request" = PDict request ∧
    infinite_round request.
Proof.
  unfold evaluate_bounded_reconciliation. intros He.
  destruct state as [| | | | | | |fields|]; try done.
  destruct (py_get fields "request") as [| | | | | | |request|] eqn:Er; try done.
  destruct (_current_repair_round request) as [n|e'] eqn:En.
  - destruct (_ <=? n)%Z; [done|]. destruct (packet_from_mapping residual) as [p|e'] eqn:Ep; [done|].
    apply packet_from_mapping_err in Ep. destruct e' as [c m]; cbn in Ep; by subst c.
  - destruct (_current_repair_round_err _ _ En) as [Ht|[Ht Hr]]; destruct e' as [c m];
      cbn in Ht; subst c; [done|]. injection He as <-. eauto 10.
Qed.
End properties.

(** * Witnesses *)
#[local] Existing Instance Sha256_Digest.
#[local] Existing Instance Dyadic_FloatText.

Definition sample_digest : string := "9f86d081884c7d659a2feaa0c55ad015a3bf4f1b2b0b822cd15d6c15b0f00a08".
Definition sample_args : list (string * pyval) := [
  ("task_id", PStr " task-7 "); ("predecessor_attempt_id", PStr "attempt-1");
  ("candidate_id", PStr "cand-1"); ("candidate_sha256", PStr sample_digest);
  ("source_revision", PStr "abc123"); ("verifier_id", PStr "verifier-a");
  ("verifier_version", PStr "2"); ("verifier_receipt_ref", PStr "receipts/1.json");
  ("failure_class", PStr "clean_semantic_reject"); ("residual_family", PStr "ordering");
  ("failed_invariants", str_list ["inv-b"; "inv-a"; "inv-b"]); ("counterexample_refs", PTuple []);
  ("repair_target", PStr "implementation"); ("claim_ceiling", PStr "PATCH_ONLY")].
Definition sample_packet : result VerifierResidualPacket := packet_build sample_args.
(** The packet as a document, and a hand-edited copy of it: list order, a blank and the
    case of a field changed, the recorded hash kept. *)
Definition sample_doc : pyval :=
  match sample_packet with Ok p => PDict (packet_to_dict p) | Err _ => PNone end.
Definition sample_edited : pyval :=
  match sample_doc with
  | PDict d => PDict (dict_set "failed_invariants" (str_list ["inv-b"; "inv-a"])
                 (dict_set "repair_target" (PStr " Implementation") d))
  | v => v
  end.
Definition sample_state : pyval := PDict [
  ("request", PDict []); ("status", PStr "FINAL_BLOCK"); ("acceptance_decision", PStr "REPAIRABLE");
  ("has_unresolved_external_effect", PBool false); ("active_effect_count", PInt 0);
  ("task_id", PStr "task-7"); ("attempt_id", PStr "attempt-1");
  ("candidate_identity", PDict [("candidate_id", PStr "cand-1");
     ("candidate_sha256", PStr sample_digest); ("source_revision", PStr "abc123")]);
  ("verifier_identity", PDict [("verifier_id", PStr "verifier-a"); ("verifier_version", PStr "2");
     ("receipt_ref", PStr "receipts/1.json")])].

Lemma packet_json_roundtrip_witness : ∃ p, packet_build sample_args = Ok p ∧
  packet_verify p = Ok () ∧
  ∃ text, json_dumps false false (PDict (packet_to_dict p)) = Ok text ∧
    (v ← json_loads text; packet_from_mapping v) = Ok p.
Proof.
  eexists. split; [vm_compute; reflexivity|].
  apply (packet_json_roundtrip sample_args). vm_compute. reflexivity.
Defined.
Lemma packet_hash_binds_witness : ∃ p q,
  sample_doc ≠ sample_edited ∧
  packet_from_mapping sample_doc = Ok p ∧ packet_from_mapping sample_edited = Ok q ∧
  (p = q ∨ ∃ s t, _canonical_json (_content p) = Ok s ∧ _canonical_json (_content q) = Ok t ∧
     collision (utf8 s) (utf8 t)).
Proof.
  eexists _, _. split; [vm_compute; discriminate|]. split; [vm_compute; reflexivity|].
  split; [vm_compute; reflexivity|].
  apply (packet_hash_binds sample_doc sample_edited); vm_compute; reflexivity.
Defined.
Lemma one_repair_round_witness : ∃ d metadata,
  evaluate_bounded_reconciliation sample_state sample_doc = Ok d ∧ eligible d = true ∧
  build_repair_request_metadata d (PStr "attempt-1") (PStr "attempt-2") = Ok metadata ∧
  ∀ fields request residual',
    evaluate_bounded_reconciliation
      (PDict (dict_set "request" (PDict (dict_set "bounded_reconciliation" (PDict metadata) request))
         fields)) residual'
    = Ok (budget_exhausted 1).
Proof.
  eexists _, _. split; [vm_compute; reflexivity|]. split; [reflexivity|].
  split; [vm_compute; reflexivity|].
  apply (one_repair_round sample_state sample_doc (PStr "attempt-1") (PStr "attempt-2")
    (grant_repair (match sample_packet with Ok p => packet_sha256 p | Err _ => EmptyString end) 0));
    vm_compute; reflexivity.
Defined.
Definition infinite_state : list (string * pyval) := [
  ("request", PDict [("bounded_reconciliation", PDict [("repair_round", PFloat (S754_infinity false))])])].
Lemma evaluate_only_raises_overflow_witness : ∃ e,
  evaluate_bounded_reconciliation (PDict infinite_state) PNone = Err e ∧
  exn_type e = OverflowError ∧
  ∃ fields request, PDict infinite_state = PDict fields ∧ py_get fields "request" = PDict request ∧
    infinite_round request.
Proof.
  eexists. split; [vm_compute; reflexivity|].
  apply (evaluate_only_raises_overflow (PDict infinite_state) PNone). vm_compute. reflexivity.
Defined.
