(* ===== verification/RetryService.v ===== *)
(** * The retry service ([src/src/nexus_runtime/task_retry/retry_service.py], [ports.py])

    [retry_task] reads one task snapshot and either resubmits the task as a fresh
    attempt, through the submission port, or answers with the unchanged state and the
    reason.  The four ports are host code: an arbitrary record of operations over a
    host state [W], each of which may raise.  [submitted] records the requests handed
    to the submission port. *)
From Stdlib Require Import String SpecFloat.
From S2P Require Import Prelude PyValue Json Digest Contract Instances TaskLifecycle.
From S2P Require BoundedReconciliation.

(** [retry_service.TERMINAL_STATUSES] and [INTEGRATION_INTERMEDIATE_STATUSES] are copies of
    the sets of [task_lifecycle]. *)
Module Service.
Definition TERMINAL_STATUSES : list string :=
  ["FINAL_BLOCK"; "RETAINED_FOR_REVIEW"; "REJECTED"; "SUPERSEDED"; "INTEGRATED";
   "INTEGRATION_FAILED"; "CANCELLED"; "REHEARSAL_VERIFIED"; "DIRECT_COMPLETED";
   "DIRECT_RECONCILE_REQUIRED"; "INTEGRATED_AND_CLEANED"].
Definition PENDING_CANDIDATE_STATUSES : list string :=
  ["PENDING_HUMAN_APPROVAL"; "APPROVED"; "APPROVAL_INVALIDATED"; "INTEGRATING"].
Definition INTEGRATION_INTERMEDIATE_STATUSES : list string :=
  ["INTEGRATION_FAILED_PRE_APPLY"; "INTEGRATION_VERIFY_FAILED_AFTER_APPLY";
   "INTEGRATED_TARGET_RETAINED"].
Definition RETRYABLE_TASK_STATUSES : list string := ["FINAL_BLOCK"; "CANCELLED"].
End Service.

Definition CLEANED_DECISIONS : list string := ["REMOVED"; "ALREADY_REMOVED"; "TARGET_CLEANED"].

(** The ports ([ports.py]); [Mapping | None] is [option dict], a value the service checks
    with [isinstance] is a [pyval]. *)
Record RetryPorts (W : Type) : Type := {
  read_snapshot : string → prog W (option dict);
  maximum_attempts : pyval → prog W pyval;
  build_retry_request : dict → prog W dict;
  workforce_inputs : dict → prog W (pyval * pyval);
  recover_predecessor : dict → dict → exn → prog W (option dict);
  validate_predecessor : dict → dict → prog W (option dict);
  validate_repair : dict → prog W (option dict);
  rebind_fresh_attempt : dict → dict → prog W pyval;
  validate_fresh : dict → dict → prog W pyval;
  submit : dict → prog W dict
}.
Arguments read_snapshot {W}. Arguments maximum_attempts {W}. Arguments build_retry_request {W}.
Arguments workforce_inputs {W}. Arguments recover_predecessor {W}.
Arguments validate_predecessor {W}. Arguments validate_repair {W}.
Arguments rebind_fresh_attempt {W}. Arguments validate_fresh {W}. Arguments submit {W}.

Record service_state (W : Type) : Type := { host : W; submitted : list dict }.
Arguments host {W}. Arguments submitted {W}.

Section service.
Context `{FloatText} `{Digest} {W : Type} (ports : RetryPorts W).
Abbreviation M := (prog (service_state W)).

(** Calling a port; calling [submit]. *)
Definition call {A} (op : prog W A) : M A := λ s,
  let '(r, w) := op (host s) in (r, {| host := w; submitted := submitted s |}).
Definition call_submit (request : dict) : M dict := λ s,
  let '(r, w) := submit ports request (host s) in
  (r, {| host := w; submitted := submitted s ++ [request] |}).

Definition _meta (task_id : string) (state : dict) (decision blocker : pyval) : dict :=
  [("task_id", PStr task_id);
   ("previous_status", PStr (str_or (py_get state "status") "UNKNOWN"));
   ("previous_attempt_id", py_get state "attempt_id");
   ("decision", decision); ("blocker", blocker)].

(** [{**state, "retry": {**meta, "decision": decision, "blocker": blocker}}]. *)
Definition blocked (state meta : dict) (decision blocker : string) : dict :=
  dict_set "retry" (PDict (dict_merge meta [("decision", PStr decision); ("blocker", PStr blocker)]))
    state.

(** An early return, from a stage whose other outcome is an [A]. *)
Definition refuse {A} (state meta : dict) (blocker : string) : M (dict + A) :=
  mret (inl (blocked state meta "BLOCK" blocker)).

(** The decision on the status alone (lines 103-144). *)
Definition status_block (status : string) : option (string * string) :=
  if String.eqb status "RETAINED_FOR_REVIEW" then
    Some ("BLOCKED_RETAINED_REVIEW", "human disposition or retained-candidate recovery is required before retry; clean no-Candidate retention may retry only after formal cleanup")
  else if text_in status Service.INTEGRATION_INTERMEDIATE_STATUSES
          || String.eqb status "INTEGRATION_FAILED" then
    Some ("BLOCKED_INTEGRATION_FAILURE", "integration failure requires dedicated integration retry; generic task retry is forbidden")
  else if text_in status Service.TERMINAL_STATUSES
          && negb (text_in status Service.RETRYABLE_TASK_STATUSES)
          && negb (text_in status ["RETAINED_FOR_REVIEW"; "INTEGRATION_FAILED"]) then
    Some ("BLOCKED_ABSORBING_STATUS", "task is in absorbing terminal status " +:+ status
            +:+ "; same-semantic task retry is forbidden")
  else if negb (text_in status Service.RETRYABLE_TASK_STATUSES) then
    Some ("NO_DUPLICATE_ACTIVE_TASK", "task is " +:+ status
            +:+ "; wait for its existing attempt instead of resubmitting")
  else None.

Definition ENVELOPE : string := "canonical_dispatch_envelope".
Definition envelope_malformed (source : dict) : bool :=
  match dict_get ENVELOPE source with
  | Some (PDict _) | None => false
  | Some _ => true
  end.

(** Lines 167-212: the dispatch the previous attempt ran under.  [inl] is an early
    return. *)
Definition find_predecessor (state request meta : dict) : M (dict + option dict) :=
  let envelope_present :=
    negb (is_none (py_get request ENVELOPE)) || negb (is_none (py_get state ENVELOPE)) in
  if envelope_present && (envelope_malformed request || envelope_malformed state) then
    refuse state meta "WORKFORCE_DISPATCH_ENVELOPE_INVALID"
  else
    inputs ← call (workforce_inputs ports request);
    let '(demands, admission) := inputs in
    let dispatch_needed := envelope_present || negb (is_none demands) || negb (is_none admission) in
    found ← (if dispatch_needed then
      catch_prog RuntimeError (p ← call (validate_predecessor ports request state); mret (inr p))
        (λ exc, p ← call (recover_predecessor ports state request exc);
                match p with
                | None => refuse state meta (exn_msg exc)
                | Some _ => mret (inr p)
                end)
      else mret (inr None));
    match found with
    | inr (Some p) =>
        if is_mapping (py_get p ENVELOPE) then mret found
        else refuse state meta "WORKFORCE_DISPATCH_ENVELOPE_MISSING"
    | _ => mret found
    end.

(** Lines 213-246: for a repairable predecessor, the reconciliation decision and the
    dispatch of the repair worker; the request then names that worker. *)
Definition plan_repair (state request meta : dict) :
    M (dict + dict * option (BoundedReconciliation.BoundedReconciliationDecision * dict)) :=
  if String.eqb (str_or (py_get state "acceptance_decision") EmptyString) "REPAIRABLE" then
    if negb (is_mapping (py_get request "planner_output")) then
      refuse state meta "WORKFORCE_ADMISSION_BINDING_MISSING"
    else
      decision ← lift (BoundedReconciliation.evaluate_bounded_reconciliation (PDict state)
                         (py_get state "verifier_residual"));
      if negb (BoundedReconciliation.eligible decision) then
        let verdict := if String.eqb (BoundedReconciliation.disposition decision)
                            BoundedReconciliation.REPAIR_BUDGET_EXHAUSTED
          then "BLOCKED_REPAIR_BUDGET_EXHAUSTED" else "BLOCKED_BOUNDED_RECONCILIATION" in
        mret (inl (dict_set "retry" (PDict (dict_merge meta [
          ("decision", PStr verdict); ("blocker", PStr (BoundedReconciliation.reason decision));
          ("bounded_reconciliation", PDict (BoundedReconciliation.decision_to_dict decision))])) state))
      else
        repair ← catch_prog RuntimeError (r ← call (validate_repair ports request); mret (inr r))
          (λ exc, refuse state meta (exn_msg exc));
        match repair with
        | inl r => mret (inl r)
        | inr repair =>
            let repair := default [] repair in
            let worker_id := str_or (py_get repair "worker_id") EmptyString in
            if String.eqb worker_id EmptyString then
              refuse state meta "WORKFORCE_REPAIR_WORKER_MISSING"
            else mret (inr (dict_set "repair_worker_id" (PStr worker_id) request, Some (decision, repair)))
        end
  else mret (inr (request, None)).

(** [fresh[key]]. *)
Definition subscript (d : dict) (key : string) : result pyval :=
  match dict_get key d with Some v => Ok v | None => raise KeyError (repr_str key) end.

(** Lines 248-291: bind the retry request to a fresh dispatch. *)
Definition rebind (state meta retry_request : dict) (dispatch : option dict) : M (dict + dict) :=
  match dispatch with
  | None => mret (inr retry_request)
  | Some dispatch =>
      let failed exc := refuse state meta ("WORKFORCE_REBIND_FAILED:" +:+ exn_msg exc) in
      rebound ← catch_prog TypeError
        (catch_prog ValueError
          (r ← call (rebind_fresh_attempt ports retry_request dispatch); mret (inr r)) failed)
        failed;
      match rebound with
      | inl r => mret (inl r)
      | inr (PDict rebound) =>
          fresh ← call (validate_fresh ports rebound state);
          match fresh with
          | PDict fresh =>
              provider ← lift (subscript fresh "provider");
              model ← lift (subscript fresh "model");
              worker_id ← lift (subscript fresh "worker_id");
              mret (inr (dict_merge rebound [
                ("worker", provider); ("provider", provider); ("model", model);
                ("worker_id", worker_id); ("worker_order", PList [provider]);
                ("workforce_dispatch", PDict fresh); (ENVELOPE, py_get fresh ENVELOPE)]))
          | _ => refuse state meta "WORKFORCE_REBIND_FAILED"
          end
      | inr _ => refuse state meta "WORKFORCE_REBIND_FAILED"
      end
  end.

(** Lines 292-312: attach the repair metadata, submit, report. *)
Definition submit_retry (state meta retry_request : dict)
    (decision : option BoundedReconciliation.BoundedReconciliationDecision) : M dict :=
  metadata ← match decision with
    | None => mret None
    | Some decision =>
        m ← lift (BoundedReconciliation.build_repair_request_metadata decision
              (PStr (str_or (py_get state "attempt_id") EmptyString))
              (PStr (str_or (py_get retry_request "attempt_id") EmptyString)));
        mret (Some m)
    end;
  let retry_request := match metadata with
    | Some m => dict_set "bounded_reconciliation" (PDict m) retry_request
    | None => retry_request
    end in
  result ← call_submit retry_request;
  attempts ← lift (py_len (py_or (py_get result "attempts") (PTuple [])));
  let retry := dict_merge meta [
    ("decision", PStr "REUSED_TASK_ID"); ("new_attempt_id", py_get result "attempt_id");
    ("new_action_id", py_get result "action_id");
    ("new_idempotency_key", py_get result "idempotency_key");
    ("attempts", PInt (Z.of_nat attempts))] in
  let retry := match metadata with
    | Some m => dict_set "bounded_reconciliation" (PDict m) retry
    | None => retry
    end in
  mret (dict_set "retry" (PDict retry) result).

(** Lines 158-312: a retryable task whose target is cleaned. *)
Definition resubmit (state meta : dict) (request : pyval) : M dict :=
  match request with
  | PDict request =>
      found ← find_predecessor state request meta;
      match found with
      | inl r => mret r
      | inr predecessor =>
          planned ← plan_repair state request meta;
          match planned with
          | inl r => mret r
          | inr (request, repair) =>
              retry_request ← call (build_retry_request ports (dict_set "request" (PDict request) state));
              bound ← rebind state meta retry_request
                (match repair with Some (_, dispatch) => Some dispatch | None => predecessor end);
              match bound with
              | inl r => mret r
              | inr retry_request => submit_retry state meta retry_request (fst <$> repair)
              end
          end
      end
  | _ => mret (blocked state meta "BLOCKED_MISSING_REQUEST"
                 "durable request is missing; cannot safely reconstruct the task")
  end.

(** Lines 94-312: the budget, then the status and the disposition of the target. *)
Definition retry_within (state meta : dict) (maximum : Z) (spent : nat) : M dict :=
  if (maximum <=? Z.of_nat spent)%Z then
    mret (blocked state meta "BLOCK" "ATTEMPT_BUDGET_EXHAUSTED")
  else match status_block (str_or (py_get state "status") "UNKNOWN") with
  | Some (decision, blocker) => mret (blocked state meta decision blocker)
  | None =>
      if negb (text_in (str_or (py_get state "cleanup_decision") EmptyString) CLEANED_DECISIONS)
      then mret (blocked state meta "BLOCKED_TARGET_DISPOSITION"
                   "previous Target disposition is not removed/cleaned")
      else resubmit state meta (py_get state "request")
  end.

(** Lines 80-312: the attempt budget of the contract port. *)
Definition retry_budgeted (task_id : string) (state : dict) : M dict :=
  let meta := _meta task_id state PNone PNone in
  maximum ← catch_prog ExceptionC
    (v ← call (maximum_attempts ports (py_or (py_get state "request") (PDict [])));
     n ← lift (py_int v); mret (Some n))
    (λ _, mret None);
  match maximum with
  | None => mret (blocked state meta "BLOCK" "ATTEMPT_BUDGET_UNAVAILABLE")
  | Some maximum =>
      spent ← lift (py_len (py_or (py_get state "attempts") (PTuple [])));
      retry_within state meta maximum spent
  end.

(** [RetryService.retry_task]: on the snapshot read (lines 69-312), and the whole. *)
Definition retry_read (task_id : string) (state : dict) : M dict :=
  match py_get state "state_valid" with
  | PBool false =>
      blocker ← lift (as_mapping (py_or (py_get state "blocker") (PDict [])) "get");
      mret (dict_set "retry" (PDict (_meta task_id (dict_set "attempt_id" PNone state)
              (PStr "BLOCKED_INVALID_STATE") (py_get blocker "code"))) state)
  | _ =>
      retry_budgeted task_id state
  end.
Definition retry_task (task_id : string) : M dict :=
  snapshot ← call (read_snapshot ports task_id);
  match snapshot with
  | None => lift (raise KeyError ("unknown task_id: " +:+ task_id))
  | Some state => retry_read task_id state
  end.
End service.

(** * Lemmas *)
Lemma py_get_merge a b k : k ∉ keys (dict_of b) → py_get (dict_merge a b) k = py_get a k.
Proof. intros Hk%dict_get_None. unfold py_get. by rewrite dict_get_merge, Hk. Qed.
Lemma py_get_merge_new a b k v : dict_get k (dict_of b) = Some v → py_get (dict_merge a b) k = v.
Proof. intros Hk. unfold py_get. by rewrite dict_get_merge, Hk. Qed.

(** ** Program logic for the service *)
Section logic.
Context `{FloatText} `{Digest} {W : Type} (ports : RetryPorts W).
Abbreviation M := (prog (service_state W)).

(** [m] submits nothing, and a value it returns satisfies [Q]. *)
Definition runs {A} (m : M A) (Q : A → Prop) : Prop :=
  ∀ s, submitted (m s).2 = submitted s ∧ ∀ a, (m s).1 = Ok a → Q a.

(** [m] either leaves [state] as it was, annotated with a refusal, or submits one
    request, which satisfies [G]. *)
Definition verdict_at (G : dict → Prop) (state : dict) (m : M dict) (s : service_state W) : Prop :=
  (submitted (m s).2 = submitted s ∧ ∀ a, (m s).1 = Ok a →
     ∃ retry, a = dict_set "retry" (PDict retry) state ∧
       py_get retry "decision" ≠ PStr "REUSED_TASK_ID") ∨
  (∃ request, submitted (m s).2 = submitted s ++ [request] ∧ G request ∧ ∀ a, (m s).1 = Ok a →
     ∃ retry, py_get a "retry" = PDict retry ∧ py_get retry "decision" = PStr "REUSED_TASK_ID").

Definition verdict (G : dict → Prop) (state : dict) (m : M dict) : Prop :=
  ∀ s, verdict_at G state m s.

(** An early return leaves the state as it was. *)
Definition refusal (state a : dict) : Prop :=
  ∃ retry, a = dict_set "retry" (PDict retry) state ∧
    py_get retry "decision" ≠ PStr "REUSED_TASK_ID".
Definition staged {A} (state : dict) (Q : A → Prop) (x : dict + A) : Prop :=
  match x with inl a => refusal state a | inr y => Q y end.

Lemma retry_runs_ret {A} (a : A) (Q : A → Prop) : Q a → runs (mret a) Q.
Proof. intros Ha s. split; [done|]. by intros ? [= <-]. Qed.
Lemma retry_runs_lift {A} (r : result A) (Q : A → Prop) : (∀ a, r = Ok a → Q a) → runs (lift r) Q.
Proof. intros Ha s. split; [done|]. exact Ha. Qed.
Lemma retry_runs_lift_eq {A} (r : result A) : runs (lift r) (λ a, r = Ok a).
Proof. by apply retry_runs_lift. Qed.
Lemma retry_runs_call {A} (op : prog W A) (Q : A → Prop) : (∀ a, Q a) → runs (call op) Q.
Proof. intros Ha s. unfold call. destruct (op (host s)); cbn. split; [done|]. auto. Qed.
Lemma retry_runs_bind {A B} (m : M A) (f : A → M B) Q R :
  runs m Q → (∀ a, Q a → runs (f a) R) → runs (m ≫= f) R.
Proof.
  intros Hm Hf s. destruct (Hm s) as [Hs HQ]. cbn. unfold mbind, prog_bind.
  destruct (m s) as [[a|e] s']; cbn in *; [|by split].
  destruct (Hf a (HQ a eq_refl) s') as [Hs' HR]. split; [congruence|done].
Qed.
Lemma retry_runs_catch {A} c (m : M A) h (Q : A → Prop) :
  runs m Q → (∀ e, runs (h e) Q) → runs (catch_prog c m h) Q.
Proof.
  intros Hm Hh s. destruct (Hm s) as [Hs HQ]. unfold catch_prog.
  destruct (m s) as [[a|e] s']; cbn in *; [by split|].
  destruct (exn_is c e); cbn; [|by split]. destruct (Hh e s') as [Hs' HR]. split; [congruence|done].
Qed.
Lemma retry_runs_mono {A} (m : M A) (Q R : A → Prop) : (∀ a, Q a → R a) → runs m Q → runs m R.
Proof. intros HQR Hm s. destruct (Hm s). split; auto. Qed.

Lemma verdict_ret G state a : refusal state a → verdict G state (mret a).
Proof. intros Ha s. left. split; [done|]. by intros ? [= <-]. Qed.
Lemma verdict_err G state e : verdict G state (lift (Err e)).
Proof. intros s. by left. Qed.
Lemma verdict_bind {A} (m : M A) (f : A → M dict) Q G state :
  runs m Q → (∀ a, Q a → verdict G state (f a)) → verdict G state (m ≫= f).
Proof.
  intros Hm Hf s. destruct (Hm s) as [Hs HQ]. unfold verdict_at, mbind, prog_bind.
  destruct (m s) as [[a|e] s']; cbn in *; [|left; by split].
  rewrite <- Hs. apply Hf. by apply HQ.
Qed.

Lemma blocked_refusal state meta decision blocker :
  decision ≠ "REUSED_TASK_ID" → refusal state (blocked state meta decision blocker).
Proof.
  intros Hd. eexists. split; [done|]. erewrite py_get_merge_new by done. by intros [= ?].
Qed.
Lemma runs_refuse {A} state meta blocker (Q : A → Prop) :
  runs (refuse state meta blocker) (staged state Q).
Proof. by apply retry_runs_ret, blocked_refusal. Qed.
End logic.
#[export] Hint Resolve retry_runs_ret retry_runs_lift retry_runs_call runs_refuse blocked_refusal : nexus.

(** ** The stages *)
Section stages.
Context `{FloatText} `{Digest} {W : Type} (ports : RetryPorts W).

Lemma find_predecessor_runs state request meta :
  runs (find_predecessor ports state request meta) (staged state (λ _, True)).
Proof.
  unfold find_predecessor. case_match; [apply runs_refuse|].
  eapply retry_runs_bind; [by apply retry_runs_call with (Q := λ _, True)|]. intros [demands admission] _.
  eapply retry_runs_bind with (Q := staged state (λ _, True)).
  - case_match; [|by apply retry_runs_ret]. apply retry_runs_catch.
    + eapply retry_runs_bind; [by apply retry_runs_call with (Q := λ _, True)|]. intros p _. by apply retry_runs_ret.
    + intros e. eapply retry_runs_bind; [by apply retry_runs_call with (Q := λ _, True)|].
      intros [p|] _; [by apply retry_runs_ret|apply runs_refuse].
  - intros [r|[p|]] Hr; [by apply retry_runs_ret| |by apply retry_runs_ret].
    case_match; [by apply retry_runs_ret|apply runs_refuse].
Qed.

(** A repair is planned exactly for a repairable predecessor, by an eligible decision. *)
Definition planned (state : dict)
    (x : dict * option (BoundedReconciliation.BoundedReconciliationDecision * dict)) : Prop :=
  match x.2 with
  | None => str_or (py_get state "acceptance_decision") EmptyString ≠ "REPAIRABLE"
  | Some (d, _) =>
      BoundedReconciliation.evaluate_bounded_reconciliation (PDict state)
        (py_get state "verifier_residual") = Ok d ∧ BoundedReconciliation.eligible d = true
  end.
Lemma plan_repair_runs state request meta :
  runs (plan_repair ports state request meta) (staged state (planned state)).
Proof.
  unfold plan_repair. destruct (String.eqb_spec (str_or (py_get state "acceptance_decision") EmptyString)
    "REPAIRABLE"); [|by apply retry_runs_ret].
  case_match; [apply runs_refuse|].
  eapply retry_runs_bind; [apply retry_runs_lift_eq|]. cbn beta. intros d Hd.
  destruct (BoundedReconciliation.eligible d) eqn:He; cbn [negb].
  - eapply retry_runs_bind with (Q := staged state (λ _, True)).
    + apply retry_runs_catch; [|intros ?; apply runs_refuse].
      eapply retry_runs_bind; [by apply retry_runs_call with (Q := λ _, True)|]. intros p _. by apply retry_runs_ret.
    + intros [r|repair] Hr; [by apply retry_runs_ret|]. case_match; [apply runs_refuse|].
      by apply retry_runs_ret.
  - apply retry_runs_ret. eexists. split; [done|]. erewrite py_get_merge_new by done.
    by case_match.
Qed.
Lemma rebind_runs state meta retry_request dispatch :
  runs (rebind ports state meta retry_request dispatch) (staged state (λ _, True)).
Proof.
  unfold rebind. destruct dispatch as [dispatch|]; [|by apply retry_runs_ret].
  eapply retry_runs_bind with (Q := staged state (λ _, True)).
  { apply retry_runs_catch; [apply retry_runs_catch|]; try (intros ?; apply runs_refuse).
    eapply retry_runs_bind; [by apply retry_runs_call with (Q := λ _, True)|]. intros p _. by apply retry_runs_ret. }
  intros [r|v] Hr; [by apply retry_runs_ret|].
  destruct v as [| | | | | | |rebound|]; try apply runs_refuse.
  eapply retry_runs_bind; [by apply retry_runs_call with (Q := λ _, True)|].
  intros [| | | | | | |fresh|] _; try apply runs_refuse.
  do 3 (eapply retry_runs_bind; [by apply retry_runs_lift with (Q := λ _, True)|intros ? _]). by apply retry_runs_ret.
Qed.

(** What a submitted request carries when its attempt is a repair. *)
Definition carries_repair (d : option BoundedReconciliation.BoundedReconciliationDecision)
    (request : dict) : Prop :=
  ∀ decision, d = Some decision → ∃ pred succ metadata,
    BoundedReconciliation.build_repair_request_metadata decision pred succ = Ok metadata ∧
    py_get request "bounded_reconciliation" = PDict metadata.
Lemma submit_retry_verdict state meta retry_request d :
  verdict (carries_repair d) state (submit_retry ports state meta retry_request d).
Proof.
  unfold submit_retry. eapply verdict_bind with
    (Q := λ m, ∀ decision, d = Some decision → ∃ pred succ metadata, m = Some metadata ∧
            BoundedReconciliation.build_repair_request_metadata decision pred succ = Ok metadata).
  { destruct d as [d|]; [|by apply retry_runs_ret].
    eapply retry_runs_bind; [apply retry_runs_lift_eq|]. cbn beta. intros m Hm. apply retry_runs_ret. naive_solver. }
  intros m Hm s. right. unfold mbind, prog_bind, call_submit.
  set (req := match m with Some _ => _ | None => _ end). exists req.
  destruct (submit ports req (host s)) as [[result|e] w]; cbn -[dict_merge dict_set].
  - split; [|split].
    + by destruct (py_len _).
    + intros decision Hd. destruct (Hm _ Hd) as (p & q & md & -> & Hb).
      exists p, q, md. split; [done|]. apply py_get_set.
    + intros a. destruct (py_len _) as [n|]; cbn -[dict_merge dict_set]; [|done]. intros [= <-].
      rewrite py_get_set. eexists. split; [done|].
      destruct m; rewrite !py_get_set_ne by done; apply py_get_set.
  - split; [done|]. split; [|done].
    intros decision Hd. destruct (Hm _ Hd) as (p & q & md & -> & Hb).
    exists p, q, md. split; [done|]. apply py_get_set.
Qed.
End stages.

(** ** [retry_task] *)
Section task.
Context `{FloatText} `{Digest} {W : Type} (ports : RetryPorts W).

Lemma status_block_None status :
  status_block status = None ↔ status ∈ TaskLifecycle.RETRYABLE_TASK_STATUSES.
Proof.
  unfold status_block. split.
  - intros E. repeat (case_match; try done). by apply text_in_spec, negb_false_iff.
  - unfold TaskLifecycle.RETRYABLE_TASK_STATUSES. rewrite !elem_of_cons, elem_of_nil.
    by intros [->|[->|[]]].
Qed.
Lemma status_block_Some status decision blocker :
  status_block status = Some (decision, blocker) → decision ≠ "REUSED_TASK_ID".
Proof.
  unfold status_block.
  destruct (String.eqb _ _); [by intros [= <- _]|].
  destruct (_ || _); [by intros [= <- _]|].
  destruct (_ && _ && _); [by intros [= <- _]|].
  destruct (negb _); [by intros [= <- _]|done].
Qed.

Definition repair_carried (state request : dict) : Prop :=
  str_or (py_get state "acceptance_decision") EmptyString = "REPAIRABLE" →
  ∃ decision metadata,
    BoundedReconciliation.evaluate_bounded_reconciliation (PDict state)
      (py_get state "verifier_residual") = Ok decision ∧
    BoundedReconciliation.eligible decision = true ∧
    py_get request "bounded_reconciliation" = PDict metadata ∧
    dict_get "repair_round" metadata = Some (PInt 1).
Lemma resubmit_verdict state meta request :
  verdict (λ r, (∃ durable, request = PDict durable) ∧ repair_carried state r) state
    (resubmit ports state meta request).
Proof.
  unfold resubmit. destruct request as [| | | | | | |request|];
    try (by apply verdict_ret, blocked_refusal).
  eapply verdict_bind; [apply find_predecessor_runs|]. intros [r|predecessor] Hf; [by apply verdict_ret|].
  eapply verdict_bind; [apply plan_repair_runs|]. intros [r|[request' repair]] Hp; [by apply verdict_ret|].
  eapply verdict_bind; [by apply retry_runs_call with (Q := λ _, True)|]. intros rr _.
  eapply verdict_bind; [apply rebind_runs|]. intros [r|rr'] Hr; [by apply verdict_ret|].
  intros s. destruct (submit_retry_verdict ports state meta rr' (fst <$> repair) s) as
    [?|(req & Hs & Hc & Ha)]; [by left|right]. exists req. split; [done|]. split; [|done].
  split; [eauto|]. intros Hacc. unfold planned in Hp. cbn [staged snd] in Hp.
  destruct repair as [[d disp]|]; [|done].
  destruct Hp as [He Hd]. destruct (Hc d eq_refl) as (p & q & md & Hb & Hg).
  exists d, md. split_and!; try done. by eapply BoundedReconciliation.granted_metadata.
Qed.

Definition admitted (state : dict) (maximum : Z) (spent : nat) (request : dict) : Prop :=
  (Z.of_nat spent < maximum)%Z ∧
  str_or (py_get state "status") "UNKNOWN" ∈ TaskLifecycle.RETRYABLE_TASK_STATUSES ∧
  str_or (py_get state "cleanup_decision") EmptyString ∈ CLEANED_DECISIONS ∧
  (∃ durable, py_get state "request" = PDict durable) ∧ repair_carried state request.
Lemma retry_within_verdict state meta maximum spent :
  verdict (admitted state maximum spent) state (retry_within ports state meta maximum spent).
Proof.
  unfold retry_within. destruct (Z.leb_spec maximum (Z.of_nat spent));
    [by apply verdict_ret, blocked_refusal|].
  destruct (status_block _) as [[decision blocker]|] eqn:Es.
  { apply verdict_ret, blocked_refusal. by eapply status_block_Some. }
  apply status_block_None in Es.
  destruct (text_in _ _) eqn:Ec; [|by apply verdict_ret, blocked_refusal].
  apply text_in_spec in Ec. intros s. cbn [negb].
  destruct (resubmit_verdict state meta (py_get state "request") s) as [?|(req & ? & [??] & ?)];
    [by left|right]. exists req. by repeat split.
Qed.

Lemma status_block_table status : status ∉ TaskLifecycle.RETRYABLE_TASK_STATUSES →
  ∃ b, status_block status = Some (
    if decide (status = "RETAINED_FOR_REVIEW") then "BLOCKED_RETAINED_REVIEW"
    else if decide (status = "INTEGRATION_FAILED" ∨
                    status ∈ TaskLifecycle.INTEGRATION_INTERMEDIATE_STATUSES)
    then "BLOCKED_INTEGRATION_FAILURE"
    else if decide (status ∈ TaskLifecycle.TERMINAL_STATUSES) then "BLOCKED_ABSORBING_STATUS"
    else "NO_DUPLICATE_ACTIVE_TASK", b).
Proof.
  intros Hst. unfold status_block.
  destruct (String.eqb_spec status "RETAINED_FOR_REVIEW") as [->|H1]; [by eexists|].
  rewrite decide_False by done.
  change Service.INTEGRATION_INTERMEDIATE_STATUSES with TaskLifecycle.INTEGRATION_INTERMEDIATE_STATUSES.
  change Service.TERMINAL_STATUSES with TaskLifecycle.TERMINAL_STATUSES.
  change Service.RETRYABLE_TASK_STATUSES with TaskLifecycle.RETRYABLE_TASK_STATUSES.
  apply text_in_false in Hst as Hst'. rewrite Hst'. cbn [negb]. rewrite andb_true_r.
  destruct (_ || _) eqn:E1.
  { apply orb_true_iff in E1. rewrite text_in_spec, String.eqb_eq in E1.
    rewrite decide_True by tauto. eauto. }
  apply orb_false_iff in E1 as [E1%text_in_false E2%String.eqb_neq]. rewrite decide_False by tauto.
  assert (text_in status ["RETAINED_FOR_REVIEW"; "INTEGRATION_FAILED"] = false) as ->.
  { apply text_in_false. rewrite !elem_of_cons, elem_of_nil. tauto. }
  cbn [negb]. rewrite andb_true_r. destruct (text_in status TaskLifecycle.TERMINAL_STATUSES) eqn:E3.
  - apply text_in_spec in E3. rewrite decide_True by done. eauto.
  - apply text_in_false in E3. rewrite decide_False by done. eauto.
Qed.

(** What a resubmission rests on: the snapshot read, and the budget granted, during
    this very call. *)
Definition budgeted (state : dict) (w1 : W) (request : dict) : Prop :=
  ∃ budget w2 maximum spent,
    maximum_attempts ports (py_or (py_get state "request") (PDict [])) w1 = (Ok budget, w2) ∧
    py_int budget = Ok maximum ∧
    py_len (py_or (py_get state "attempts") (PTuple [])) = Ok spent ∧
    admitted state maximum spent request.
Lemma retry_budgeted_verdict task_id state s1 :
  verdict_at (budgeted state (host s1)) state (retry_budgeted ports task_id state) s1.
Proof.
  unfold verdict_at, retry_budgeted, mbind, prog_bind, catch_prog, call, lift.
  set (meta := _meta _ _ _ _).
  assert (∀ d b, d ≠ "REUSED_TASK_ID" → refusal state (blocked state meta d b)) as Hb
    by (intros; by apply blocked_refusal).
  destruct (maximum_attempts ports _ (host s1)) as [[v|e] w2] eqn:Em; cbn -[retry_within blocked].
  2: { left. destruct (exn_is ExceptionC e); cbn -[blocked]; split; try done.
       intros a [= <-]. by apply Hb. }
  destruct (py_int v) as [n|e] eqn:En; cbn -[retry_within blocked].
  2: { left. destruct (exn_is ExceptionC e); cbn -[blocked]; split; try done.
       intros a [= <-]. by apply Hb. }
  destruct (py_len _) as [spent|e] eqn:El; cbn -[retry_within]; [|by left].
  set (s2 := {| host := w2; submitted := submitted s1 |}).
  destruct (retry_within_verdict state meta n spent s2) as [?|(req & ? & ? & ?)]; [by left|right].
  exists req. split; [done|]. split; [|done]. exists v, w2, n, spent. done.
Qed.

(** The whole service, one run: what is submitted, and what is returned. *)
Definition authorised (task_id : string) (s : service_state W) (request : dict) : Prop :=
  ∃ state w1, read_snapshot ports task_id (host s) = (Ok (Some state), w1) ∧
    py_get state "state_valid" ≠ PBool false ∧ budgeted state w1 request.
Lemma retry_task_run task_id s :
  (submitted (retry_task ports task_id s).2 = submitted s ∧
   ∀ a, (retry_task ports task_id s).1 = Ok a →
     ∃ state w, read_snapshot ports task_id (host s) = (Ok (Some state), w) ∧ refusal state a) ∨
  (∃ request, submitted (retry_task ports task_id s).2 = submitted s ++ [request] ∧
     authorised task_id s request ∧
     ∀ a, (retry_task ports task_id s).1 = Ok a →
       ∃ retry, py_get a "retry" = PDict retry ∧ py_get retry "decision" = PStr "REUSED_TASK_ID").
Proof.
  destruct (read_snapshot ports task_id (host s)) as [[[state|]|e] w1] eqn:Er.
  2,3: left; unfold retry_task, mbind, prog_bind, call; rewrite Er; by split.
  set (s1 := {| host := w1; submitted := submitted s |}).
  assert (retry_task ports task_id s = retry_read ports task_id state s1) as ->.
  { unfold retry_task, mbind, prog_bind, call. by rewrite Er. }
  assert (py_get state "state_valid" = PBool false ∨ py_get state "state_valid" ≠ PBool false)
    as [Hv|Hv] by (destruct (py_get state "state_valid") as [|[]| | | | | | |]; auto).
  { left. unfold retry_read. rewrite Hv. unfold mbind, prog_bind, lift.
    destruct (as_mapping _ _) as [blocker|]; cbn -[dict_set]; split; try done.
    intros a [= <-]. exists state, w1. split; [done|]. eexists. by split. }
  assert (retry_read ports task_id state = retry_budgeted ports task_id state) as ->.
  { unfold retry_read. destruct (py_get state "state_valid") as [|[]| | | | | | |]; done. }
  destruct (retry_budgeted_verdict task_id state s1) as [[? Hq]|(req & ? & ? & ?)]; [left|right].
  - split; [done|]. intros a Ha. exists state, w1. split; [done|]. by apply Hq.
  - exists req. split; [done|]. split; [|done]. by exists state, w1.
Qed.
End task.

(** * Properties *)
Section properties.
Context `{FloatText} `{Digest} {W : Type} (ports : RetryPorts W).

(** C30: one call submits at most one request, and only a snapshot that is valid, whose
    status is retryable, whose target is cleaned, whose durable request is present and
    whose attempts are below the budget the contract port granted in the same call.  If
    the attempt was rejected as repairable, the residual packet was found eligible and
    the submitted request carries the metadata of repair round 1. *)
Theorem retry_submission_authorised (task_id : string) (s : service_state W) :
  submitted (retry_task ports task_id s).2 = submitted s ∨
  ∃ request, submitted (retry_task ports task_id s).2 = submitted s ++ [request] ∧
    authorised ports task_id s request.
Proof.
  destruct (retry_task_run ports task_id s) as [[??]|(r & ? & ? & _)]; [by left|right; eauto].
Qed.

(** A call that returns without submitting returns the snapshot it read, changed
    in the [retry] member only, and does not report a reused task. *)
Theorem retry_refusal_preserves_state (task_id : string) (s : service_state W) (a : dict) :
  (retry_task ports task_id s).1 = Ok a →
  submitted (retry_task ports task_id s).2 = submitted s →
  ∃ state w retry, read_snapshot ports task_id (host s) = (Ok (Some state), w) ∧
    a = dict_set "retry" (PDict retry) state ∧
    (∀ k, k ≠ "retry" → py_get a k = py_get state k) ∧
    py_get retry "decision" ≠ PStr "REUSED_TASK_ID".
Proof.
  intros Ha Hs. destruct (retry_task_run ports task_id s) as [[_ Hr]|(r & Hs' & _)].
  - destruct (Hr a Ha) as (state & w & Hw & retry & -> & Hd). exists state, w, retry.
    repeat split; try done. intros k Hk. by rewrite py_get_set_ne.
  - rewrite Hs' in Hs. apply (f_equal length) in Hs. rewrite length_app in Hs. cbn in Hs. lia.
Qed.

(** The status decides alone for every status outside the retryable ones, in the
    vocabulary of [task_lifecycle]: a snapshot within its budget is refused with the
    decision of its status class, submitting nothing. *)
Theorem retry_status_refusal (task_id : string) (s : service_state W) (state : dict) (w1 w2 : W)
    (budget : pyval) (maximum : Z) (spent : nat) :
  let status := str_or (py_get state "status") "UNKNOWN" in
  read_snapshot ports task_id (host s) = (Ok (Some state), w1) →
  py_get state "state_valid" ≠ PBool false →
  maximum_attempts ports (py_or (py_get state "request") (PDict [])) w1 = (Ok budget, w2) →
  py_int budget = Ok maximum →
  py_len (py_or (py_get state "attempts") (PTuple [])) = Ok spent →
  (Z.of_nat spent < maximum)%Z →
  status ∉ TaskLifecycle.RETRYABLE_TASK_STATUSES →
  ∃ retry,
    retry_task ports task_id s =
      (Ok (dict_set "retry" (PDict retry) state), {| host := w2; submitted := submitted s |}) ∧
    py_get retry "decision" = PStr (
      if decide (status = "RETAINED_FOR_REVIEW") then "BLOCKED_RETAINED_REVIEW"
      else if decide (status = "INTEGRATION_FAILED" ∨
                      status ∈ TaskLifecycle.INTEGRATION_INTERMEDIATE_STATUSES)
      then "BLOCKED_INTEGRATION_FAILURE"
      else if decide (status ∈ TaskLifecycle.TERMINAL_STATUSES) then "BLOCKED_ABSORBING_STATUS"
      else "NO_DUPLICATE_ACTIVE_TASK").
Proof.
  intros status Hr Hv Hm Hi Hl Hlt Hst.
  assert (∃ b, status_block status = Some (
      if decide (status = "RETAINED_FOR_REVIEW") then "BLOCKED_RETAINED_REVIEW"
      else if decide (status = "INTEGRATION_FAILED" ∨
                      status ∈ TaskLifecycle.INTEGRATION_INTERMEDIATE_STATUSES)
      then "BLOCKED_INTEGRATION_FAILURE"
      else if decide (status ∈ TaskLifecycle.TERMINAL_STATUSES) then "BLOCKED_ABSORBING_STATUS"
      else "NO_DUPLICATE_ACTIVE_TASK", b)) as [b Hb] by by apply status_block_table.
  eexists. split.
  - unfold retry_task, mbind at 1, prog_bind at 1, call. rewrite Hr.
    assert (retry_read ports task_id state = retry_budgeted ports task_id state) as ->.
    { unfold retry_read. destruct (py_get state "state_valid") as [|[]| | | | | | |]; done. }
    unfold retry_budgeted, mbind, prog_bind, catch_prog, call, lift. cbn [host].
    rewrite Hm. cbn [submitted]. rewrite Hi. cbn -[retry_within]. rewrite Hl.
    unfold retry_within. destruct (Z.leb_spec maximum (Z.of_nat spent)); [lia|].
    fold status. rewrite Hb. reflexivity.
  - by erewrite py_get_merge_new by done.
Qed.
End properties.

(** * Witnesses *)
#[local] Existing Instance Sha256_Digest.
#[local] Existing Instance Dyadic_FloatText.

(** Ports over a fixed snapshot: a budget of 3, no workforce inputs, a repair worker. *)
Definition sample_ports (snapshot : dict) : RetryPorts unit := {|
  read_snapshot _ := mret (Some snapshot);
  maximum_attempts _ := mret (PInt 3);
  build_retry_request state := mret (dict_set "attempt_id" (PStr "attempt-2") state);
  workforce_inputs _ := mret (PNone, PNone);
  recover_predecessor _ _ _ := mret None;
  validate_predecessor _ _ := mret None;
  validate_repair _ := mret (Some [("worker_id", PStr "w1")]);
  rebind_fresh_attempt request _ := mret (PDict request);
  validate_fresh _ _ := mret (PDict [("provider", PStr "p"); ("model", PStr "m");
                                     ("worker_id", PStr "w1")]);
  submit request := mret request
|}.
Definition start : service_state unit := {| host := (); submitted := [] |}.
Definition repairable_snapshot : dict :=
  match BoundedReconciliation.sample_state with
  | PDict d => dict_merge d [
      ("request", PDict [("planner_output", PDict [])]); ("cleanup_decision", PStr "REMOVED");
      ("attempts", PList [PStr "attempt-1"]);
      ("verifier_residual", BoundedReconciliation.sample_doc)]
  | _ => []
  end.
(** The repair path runs through to a submission. *)
Example repair_submitted :
  length (submitted (retry_task (sample_ports repairable_snapshot) "task-7" start).2) = 1%nat.
Proof. vm_compute. reflexivity. Qed.

Definition running_snapshot : dict := [("task_id", PStr "task-7"); ("status", PStr "WORKER_RUNNING")].
Lemma retry_refusal_preserves_state_witness : ∃ a,
  (retry_task (sample_ports running_snapshot) "task-7" start).1 = Ok a ∧
  ∃ state w retry, read_snapshot (sample_ports running_snapshot) "task-7" () = (Ok (Some state), w) ∧
    a = dict_set "retry" (PDict retry) state ∧ (∀ k, k ≠ "retry" → py_get a k = py_get state k) ∧
    py_get retry "decision" ≠ PStr "REUSED_TASK_ID".
Proof.
  eexists. split; [vm_compute; reflexivity|].
  apply (retry_refusal_preserves_state (sample_ports running_snapshot) "task-7" start);
    vm_compute; reflexivity.
Defined.
Lemma retry_status_refusal_witness : ∃ retry,
  retry_task (sample_ports running_snapshot) "task-7" start =
    (Ok (dict_set "retry" (PDict retry) running_snapshot), start) ∧
  py_get retry "decision" = PStr "NO_DUPLICATE_ACTIVE_TASK".
Proof.
  apply (retry_status_refusal (sample_ports running_snapshot) "task-7" start running_snapshot () ()
    (PInt 3) 3 0); try reflexivity; try discriminate; try lia.
  apply (bool_decide_unpack _). vm_compute. exact I.
Defined.
