(* ===== verification/WriterGeneration.v ===== *)
(** * The writer generation manifest
    ([src/src/nexus_runtime/kernel/events/writer_generation.py])

    The event store names its current writer in a manifest file: a generation number
    and a writer id under a digest.  [install_generation] replaces the manifest by
    compare-and-swap under the store lock; [event_store_lock] is re-entrant per thread.

    A file is what [lstat], [open] and a read can tell of it; [os.replace] of a written
    temporary file is the atomic change of a [file] to [Regular text].  Operations under
    the lock are run to completion one after the other; [Lock] models the lock itself. *)
From Stdlib Require Import Ascii String SpecFloat.
From S2P Require Import Prelude PyValue Json Digest Contract Instances.

(** [Unreadable] is a regular file whose [open] or read fails. *)
Inductive file : Set := Absent | Symlink | Special | Unreadable | Regular (text : string).

Definition SCHEMA := "nexus.event_writer_generation.v1".
Definition STORE := "event_log".
Definition MANIFEST_DIGEST := "manifest_digest".

Record EventWriterGeneration : Set := { generation : Z; writer_id : string }.
#[export] Instance generation_eq_dec : EqDecision EventWriterGeneration.
Proof. solve_decision. Defined.

(** [EventWriterGeneration(generation, writer_id)]: [__post_init__]. *)
Definition new_generation (g w : pyval) : result EventWriterGeneration :=
  match g with
  | PInt g =>
      _ ← raise_if (g <? 1)%Z ValueError "generation must be a positive integer";
      match w with
      | PStr w => if blank w then raise ValueError "writer_id is required"
                  else Ok {| generation := g; writer_id := w |}
      | _ => raise ValueError "writer_id is required"
      end
  | _ => raise ValueError "generation must be a positive integer"
  end.

Definition _payload (g : Z) (w : string) : dict := [
  ("schema", PStr SCHEMA); ("store", PStr STORE); ("event_log", PStr "event_log.jsonl");
  ("lock", PStr "event_log.lock"); ("generation", PInt g); ("writer_id", PStr w)].

Section manifest.
Context `{FloatText} `{Digest}.

Definition _digest (payload : dict) : result string := json_sha256 true true (PDict payload).

Definition _validated (data : pyval) : result EventWriterGeneration :=
  match data with
  | PDict data =>
      let required := keys (_payload 1 "x") in
      _ ← raise_if (negb (keys_are (required ++ [MANIFEST_DIGEST]) data)
                    || negb (is_text (py_get data "schema") SCHEMA)
                    || negb (is_text (py_get data "store") STORE))
            GenerationError "GENERATION_MANIFEST_MALFORMED";
      _ ← raise_if (negb (is_text (py_get data "event_log") "event_log.jsonl")
                    || negb (is_text (py_get data "lock") "event_log.lock"))
            GenerationError "GENERATION_MANIFEST_MALFORMED";
      match py_get data "generation", py_get data "writer_id" with
      | PInt g, PStr w =>
          _ ← raise_if (g <? 1)%Z GenerationError "GENERATION_MANIFEST_MALFORMED";
          _ ← raise_if (blank w) GenerationError "GENERATION_MANIFEST_MALFORMED";
          h ← _digest (map (λ k, (k, py_get data k)) required);
          _ ← raise_if (negb (is_text (py_get data MANIFEST_DIGEST) h))
                GenerationError "GENERATION_MANIFEST_TAMPERED";
          new_generation (PInt g) (PStr w)
      | _, _ => raise GenerationError "GENERATION_MANIFEST_MALFORMED"
      end
  | _ => raise GenerationError "GENERATION_MANIFEST_MALFORMED"
  end.

Definition read_generation (path : file) : result (option EventWriterGeneration) :=
  match path with
  | Absent => Ok None
  | Symlink => raise GenerationError "GENERATION_MANIFEST_SYMLINK"
  | Special | Unreadable => raise GenerationError "GENERATION_MANIFEST_MALFORMED"
  | Regular text =>
      match (data ← json_loads text; _validated data) with
      | Ok g => Ok (Some g)
      | Err e =>
          if exn_is GenerationError e then Err e
          else if exn_is OSError e || exn_is ValueError e
          then raise GenerationError "GENERATION_MANIFEST_MALFORMED"
          else Err e
      end
  end.

(** The text [install_generation] writes. *)
Definition manifest_text (g : EventWriterGeneration) : result string :=
  let payload := _payload (generation g) (writer_id g) in
  h ← _digest payload;
  t ← json_dumps true true (PDict (dict_set MANIFEST_DIGEST (PStr h) payload));
  Ok (t +:+ String "010"%char EmptyString).

Definition install_generation (g : EventWriterGeneration) (expected_generation : pyval) :
    prog file EventWriterGeneration :=
  expected ← lift (match expected_generation with
    | PNone => Ok None
    | PInt n => if (n <? 1)%Z then raise GenerationError "GENERATION_CAS_MALFORMED" else Ok (Some n)
    | _ => raise GenerationError "GENERATION_CAS_MALFORMED"
    end);
  path ← get_state;
  current ← lift (read_generation path);
  _ ← lift (raise_if (negb (bool_decide (expected = generation <$> current)))
              GenerationConflict "GENERATION_CAS_CONFLICT");
  _ ← lift (raise_if (match current with
                      | Some current => (generation g <=? generation current)%Z
                      | None => false
                      end) GenerationConflict "GENERATION_MUST_ADVANCE");
  text ← lift (manifest_text g);
  _ ← put_state (Regular text);
  mret g.
End manifest.

(** ** The store lock

    Threads of several processes that nest blocks and fork anywhere, also inside a block.
    [flock] is the owner of the kernel lock; [held] is a process's registry [_HELD_LOCKS]
    restricted to the store's lock; [blocks] are the open [with] blocks of a thread, each
    with what its generator captured on entry. *)
Module Lock.
Abbreviation pid := positive.
Abbreviation tid := positive.
(** [_HeldStoreLock] without the descriptor and the path. *)
Record entry : Type := { depth : nat; entry_pid : pid; entry_tid : tid }.
(** An open [with event_store_lock(...)] block: the branch it took, and the [pid] and the
    [thread_id] its generator captured on entry.  A forked child inherits the open blocks
    of the forking thread with the values captured in the parent. *)
Record block : Type := { outer : bool; block_pid : pid; block_tid : tid }.
(** The kernel lock and the thread that took it, the registry of each process, the open
    blocks of each thread (the innermost first), and every process started so far
    (process ids are not used again). *)
Record state : Type := {
  flock : option (pid * tid);
  held : gmap pid entry;
  blocks : gmap (pid * tid) (list block);
  procs : gset pid
}.
Definition open_blocks (s : state) (p : pid) (t : tid) : list block := default [] (blocks s !! (p, t)).
Definition own_depth (s : state) (p : pid) (t : tid) : nat :=
  length (filter (λ b, block_pid b = p) (open_blocks s p t)).

(** Entering: re-entrant, or a successful [flock] (a waiting thread takes no step; its
    time-out raises outside the block). *)
Definition enter (p : pid) (t : tid) (s : state) : option state :=
  let push (reentrant : bool) :=
    <[(p, t) := {| outer := negb reentrant; block_pid := p; block_tid := t |} :: open_blocks s p t]> (blocks s) in
  let acquire :=
    match flock s with
    | None => Some {| flock := Some (p, t);
                      held := <[p := {| depth := 1; entry_pid := p; entry_tid := t |}]> (held s);
                      blocks := push false; procs := procs s |}
    | Some _ => None
    end in
  if decide (p ∈ procs s) then
    match held s !! p with
    | Some e =>
        if decide (entry_pid e = p ∧ entry_tid e = t)
        then Some {| flock := flock s;
                     held := <[p := {| depth := S (depth e); entry_pid := entry_pid e; entry_tid := entry_tid e |}]> (held s);
                     blocks := push true; procs := procs s |}
        else acquire
    | None => acquire
    end
  else None.
(** Leaving the innermost block.  Its [finally] does something only when the registry of
    the process names the process and the thread that entered the block: an outer block
    then pops the entry and releases the lock, a re-entrant one counts down. *)
Definition leave (p : pid) (t : tid) (s : state) : option state :=
  match open_blocks s p t with
  | [] => None
  | b :: rest =>
      let popped := <[(p, t) := rest]> (blocks s) in
      let release :=
        Some {| flock := None; held := delete p (held s); blocks := popped; procs := procs s |} in
      let unchanged :=
        Some {| flock := flock s; held := held s; blocks := popped; procs := procs s |} in
      match held s !! p with
      | Some e =>
          if decide (entry_pid e = block_pid b ∧ entry_tid e = block_tid b) then
            if outer b then release
            else if decide (pred (depth e) = 0) then release
            else Some {| flock := flock s;
                         held := <[p := {| depth := pred (depth e); entry_pid := entry_pid e; entry_tid := entry_tid e |}]> (held s);
                         blocks := popped; procs := procs s |}
          else unchanged
      | None => unchanged
      end
  end.
(** [os.fork] by thread [t] of process [p]: the child has this thread only, inside the
    blocks the parent's thread is inside, and an empty registry ([_after_fork_child]).
    The kernel lock stays with the parent's open file description. *)
Definition fork (p : pid) (t : tid) (child : pid) (s : state) : option state :=
  if decide (p ∈ procs s ∧ child ∉ procs s)
  then Some {| flock := flock s; held := delete child (held s);
               blocks := <[(child, t) := open_blocks s p t]> (blocks s);
               procs := {[child]} ∪ procs s |}
  else None.
(** A process that is not a fork of one of these. *)
Definition start (p : pid) (s : state) : option state :=
  if decide (p ∈ procs s) then None
  else Some {| flock := flock s; held := held s; blocks := blocks s; procs := {[p]} ∪ procs s |}.

Inductive step : state → state → Prop :=
| step_start p s s' : start p s = Some s' → step s s'
| step_enter p t s s' : enter p t s = Some s' → step s s'
| step_leave p t s s' : leave p t s = Some s' → step s s'
| step_fork p t c s s' : fork p t c s = Some s' → step s s'.
Definition initial : state := {| flock := None; held := ∅; blocks := ∅; procs := ∅ |}.
End Lock.

(** A run of install attempts, one after the other; the generations that won. *)
Fixpoint run_installs `{FloatText} `{Digest} (ops : list (EventWriterGeneration * pyval)) (path : file) :
    list EventWriterGeneration * file :=
  match ops with
  | [] => ([], path)
  | (g, expected) :: ops =>
      match install_generation g expected path with
      | (Ok g, path) => let '(won, path) := run_installs ops path in (g :: won, path)
      | (Err _, path) => run_installs ops path
      end
  end.

(** * Lemmas *)
(** What the constructor guarantees of every token. *)
Definition token (g : EventWriterGeneration) : Prop := (1 ≤ generation g)%Z ∧ blank (writer_id g) = false.

Lemma new_generation_token g w x : new_generation g w = Ok x → token x.
Proof.
  destruct g as [| |g| | | | | |]; try done. cbn. intros (u & Hg%raise_if_Ok_inv & Hx)%bind_Ok_inv.
  destruct w as [| | | |w| | | |]; try done. destruct (blank w) eqn:Hw; [done|].
  injection Hx as <-. split; [cbn; lia|done].
Qed.
Lemma new_generation_id g : token g → new_generation (PInt (generation g)) (PStr (writer_id g)) = Ok g.
Proof.
  intros [Hg Hw]. cbn. replace (generation g <? 1)%Z with false by lia. cbn. rewrite Hw. by destruct g.
Qed.

Section manifest_lemmas.
Context `{FloatText} `{Digest}.

Definition payload_text (g : EventWriterGeneration) : string :=
  json_print true (jnorm (PDict (_payload (generation g) (writer_id g)))).
Definition manifest (g : EventWriterGeneration) : dict :=
  _payload (generation g) (writer_id g) ++ [(MANIFEST_DIGEST, PStr (text_sha256 (payload_text g)))].

Lemma payload_digest g : _digest (_payload (generation g) (writer_id g)) = Ok (text_sha256 (payload_text g)).
Proof. unfold _digest, json_sha256, json_dumps. by rewrite json_check_jnorm. Qed.
Lemma manifest_text_eq g :
  manifest_text g = Ok (json_print true (jnorm (PDict (manifest g))) +:+ String "010"%char EmptyString).
Proof.
  unfold manifest_text. rewrite payload_digest. cbn [mbind result_bind].
  change (dict_set MANIFEST_DIGEST _ _) with (manifest g).
  unfold json_dumps. by rewrite json_check_jnorm.
Qed.
Lemma validated_manifest g d :
  token g → keys d ≡ₚ keys (manifest g) → (∀ k, py_get d k = py_get (manifest g) k) →
  _validated (PDict d) = Ok g.
Proof.
  intros Hg Hk Hd. unfold _validated.
  assert (keys_are (keys (_payload 1 "x") ++ [MANIFEST_DIGEST]) d = true) as ->.
  { apply same_set_spec. intros x. by rewrite Hk. }
  rewrite !Hd. destruct Hg as [Hg Hw]. cbn -[_digest new_generation].
  replace (generation g <? 1)%Z with false by lia. cbn -[_digest new_generation].
  rewrite Hw. cbn -[_digest new_generation]. rewrite !Hd.
  change (_digest _) with (_digest (_payload (generation g) (writer_id g))).
  rewrite payload_digest. cbn -[new_generation]. unfold is_text. cbn -[new_generation].
  rewrite String.eqb_refl. cbn -[new_generation]. by apply new_generation_id.
Qed.
(** An installed manifest is read back. *)
Lemma read_manifest_text g : token g →
  ∃ text, manifest_text g = Ok text ∧ read_generation (Regular text) = Ok (Some g).
Proof.
  intros Hg. eexists. split; [apply manifest_text_eq|]. unfold read_generation.
  assert (NoDup (keys (manifest g))) as Hnd by by apply (bool_decide_eq_true_1 _).
  rewrite (json_loads_dumps true true (PDict (manifest g)));
    [|done|unfold json_dumps; by rewrite json_check_jnorm|done|done].
  cbn [mbind result_bind jnorm].
  rewrite (validated_manifest g); [done|done|by rewrite keys_jnorm|].
  intros k. unfold py_get. rewrite jnorm_get by done.
  destruct (dict_get k (manifest g)) as [v|] eqn:Ev; [|done]. cbn.
  apply dict_get_In in Ev. unfold manifest, _payload in Ev. cbn in Ev. rewrite !elem_of_cons in Ev.
  destruct_or! Ev; [by injection Ev as -> ->..|by apply elem_of_nil in Ev].
Qed.
Lemma validated_token v g : _validated v = Ok g → token g.
Proof.
  destruct v as [| | | | | | |d|]; try done. unfold _validated. intros Ev.
  run_ok Ev. destruct (py_get d "generation"); try done. destruct (py_get d "writer_id"); try done.
  run_ok Ev. by eapply new_generation_token.
Qed.
Lemma read_generation_token path g : read_generation path = Ok (Some g) → token g.
Proof.
  destruct path as [| | | |text]; try done. cbn [read_generation].
  destruct (data ← json_loads text; _validated data) as [g'|e] eqn:Ev;
    [|by repeat case_match]. intros [= <-].
  apply bind_Ok_inv in Ev as (v & _ & Ev). by eapply validated_token.
Qed.
End manifest_lemmas.

Section install_lemmas.
Context `{FloatText} `{Digest}.

Definition expected_number (v : pyval) : option (option Z) :=
  match v with PNone => Some None | PInt n => if (n <? 1)%Z then None else Some (Some n) | _ => None end.

(** [install_generation], all its branches. *)
Lemma install_generation_spec g expected path :
  token g →
  match install_generation g expected path with
  | (Ok g', path') =>
      g' = g ∧ read_generation path' = Ok (Some g) ∧
      ∃ current, read_generation path = Ok current ∧
        expected_number expected = Some (generation <$> current) ∧
        ∀ c, current = Some c → (generation c < generation g)%Z
  | (Err _, path') => path' = path
  end.
Proof.
  intros Hg. unfold install_generation, mbind, prog_bind, lift, get_state, put_state.
  assert (∀ v, match v with
    | PNone => Ok None
    | PInt n => if (n <? 1)%Z then raise GenerationError "GENERATION_CAS_MALFORMED" else Ok (Some n)
    | _ => raise GenerationError "GENERATION_CAS_MALFORMED"
    end = match expected_number v with
          | Some n => Ok n | None => raise GenerationError "GENERATION_CAS_MALFORMED" end) as Ee.
  { intros [| |n| | | | | |]; try done. cbn. by destruct (n <? 1)%Z. }
  rewrite Ee. clear Ee. destruct (expected_number expected) as [n|] eqn:En; [|done].
  destruct (read_generation path) as [current|e] eqn:Er; [|done].
  case_bool_decide as Hn; [cbn [negb raise_if]|done].
  destruct (raise_if (match current with Some c => _ | None => _ end) _ _) as [[]|] eqn:Ea; [|done].
  apply raise_if_Ok_inv in Ea.
  destruct (read_manifest_text g Hg) as (text & Ht & Hread). rewrite Ht.
  split; [done|]. split; [done|]. exists current. split; [done|]. split; [by subst|].
  intros c ->. apply Z.leb_gt in Ea. lia.
Qed.
Lemma run_installs_cons g expected ops path :
  run_installs ((g, expected) :: ops) path =
    match install_generation g expected path with
    | (Ok g, path) => ((g :: (run_installs ops path).1), (run_installs ops path).2)
    | (Err _, path) => run_installs ops path
    end.
Proof. cbn. destruct (install_generation _ _ _) as [[g'|] p]; [|done]. by destruct (run_installs ops p). Qed.

(** Winners after a manifest [c] all have larger generations. *)
Lemma run_installs_spec ops path :
  Forall (λ op, token op.1) ops → ∀ current, read_generation path = Ok current →
  let '(won, path') := run_installs ops path in
  StronglySorted Z.lt (map generation won) ∧
  (∀ c g, current = Some c → g ∈ won → (generation c < generation g)%Z) ∧
  read_generation path' = Ok (match last won with Some g => Some g | None => current end).
Proof.
  intros Hops. revert path. induction Hops as [|[g expected] ops Hg _ IH]; intros path current Hc.
  { cbn. split; [constructor|]. split; [set_solver|done]. }
  rewrite run_installs_cons. pose proof (install_generation_spec g expected path Hg) as Hi.
  destruct (install_generation g expected path) as [[g'|e] path'].
  - destruct Hi as (-> & Hr & c' & Hc' & _ & Hlt). assert (c' = current) as -> by congruence.
    specialize (IH path' (Some g) Hr). destruct (run_installs ops path') as [won p]. cbn.
    destruct IH as (Hs & Hall & Hl). split; [|split].
    + constructor; [done|]. apply Forall_forall. intros z (x & -> & Hx)%list_elem_of_fmap. by apply Hall.
    + intros c x -> [->|Hx]%elem_of_cons; [by apply Hlt|].
      specialize (Hlt c eq_refl). specialize (Hall g x eq_refl Hx). lia.
    + rewrite Hl, last_cons. by destruct (last won).
  - subst path'. by apply IH.
Qed.
End install_lemmas.

(** ** The lock *)
Module LockFacts.
Import Lock.

(** A thread's open blocks: [n] of its own, the outermost of which took the lock, inside
    whatever it inherited. *)
Definition own (p : pid) (t : tid) (n : nat) : list block :=
  match n with
  | 0 => []
  | S n => replicate n {| outer := false; block_pid := p; block_tid := t |} ++
           [{| outer := true; block_pid := p; block_tid := t |}]
  end.
Definition shape (p : pid) (t : tid) (n : nat) (l : list block) : Prop :=
  ∃ inherited, l = own p t n ++ inherited ∧ Forall (λ b, block_pid b ≠ p) inherited.
(** No block of a process that was never started. *)
Definition started (s : state) : Prop :=
  ∀ p t b, b ∈ open_blocks s p t → p ∈ procs s ∧ block_pid b ∈ procs s.
(** The registry, the kernel lock and the threads inside agree. *)
Definition consistent (s : state) : Prop :=
  started s ∧
  match flock s with
  | None => held s = ∅ ∧ ∀ p t, shape p t 0 (open_blocks s p t)
  | Some (p, t) => ∃ d, held s = {[p := {| depth := S d; entry_pid := p; entry_tid := t |}]} ∧
      shape p t (S d) (open_blocks s p t) ∧ p ∈ procs s ∧
      ∀ p' t', (p', t') ≠ (p, t) → shape p' t' 0 (open_blocks s p' t')
  end.

Lemma own_S_S p t n : own p t (S (S n)) = {| outer := false; block_pid := p; block_tid := t |} :: own p t (S n).
Proof. done. Qed.
Lemma shape_0 p t l : shape p t 0 l ↔ Forall (λ b, block_pid b ≠ p) l.
Proof. split; [by intros (inh & -> & Hi)|]. intros Hl. by exists l. Qed.
Lemma shape_cons p t n l :
  shape p t n l →
  shape p t (S n) ({| outer := bool_decide (n = 0); block_pid := p; block_tid := t |} :: l).
Proof. intros (inh & -> & Hi). exists inh. split; [by destruct n|done]. Qed.
Lemma shape_uncons p t n b l :
  shape p t (S n) (b :: l) →
  b = {| outer := bool_decide (n = 0); block_pid := p; block_tid := t |} ∧ shape p t n l.
Proof.
  intros (inh & Hl & Hi). destruct n as [|n].
  - injection Hl as -> ->. split; [done|by exists inh].
  - rewrite own_S_S in Hl. injection Hl as -> ->. split; [done|by exists inh].
Qed.
Lemma shape_length p t n l : shape p t n l → length (filter (λ b, block_pid b = p) l) = n.
Proof.
  revert l. induction n as [|n IH]; intros l Hl.
  - apply shape_0 in Hl. induction Hl as [|b l Hb _ IH]; [done|]. by rewrite filter_cons_False.
  - destruct l as [|b l]; [by destruct Hl as (inh & Hl & _); destruct n|].
    apply shape_uncons in Hl as [-> Hl]. rewrite filter_cons_True by done. cbn. by rewrite IH.
Qed.

Lemma open_blocks_insert s f h ps p t l p' t' :
  open_blocks {| flock := f; held := h; blocks := <[(p, t) := l]> (blocks s); procs := ps |} p' t' =
    if decide ((p', t') = (p, t)) then l else open_blocks s p' t'.
Proof.
  unfold open_blocks. cbn. case_decide as E; [by rewrite E, lookup_insert_eq|].
  by rewrite lookup_insert_ne.
Qed.
(** Replacing one thread's blocks keeps [started] when they are of started processes. *)
Lemma started_insert s f h ps p t l :
  started s → procs s ⊆ ps → (∀ b, b ∈ l → p ∈ ps ∧ block_pid b ∈ ps) →
  started {| flock := f; held := h; blocks := <[(p, t) := l]> (blocks s); procs := ps |}.
Proof.
  intros Hs Hps Hl p' t' b. rewrite open_blocks_insert. cbn [procs].
  case_decide as E; [injection E as -> ->; apply Hl|]. intros Hb%Hs. set_solver.
Qed.
(** ... and the shape of every other thread's. *)
Lemma others_insert s f h ps p t l :
  (∀ p' t', (p', t') ≠ (p, t) → shape p' t' 0 (open_blocks s p' t')) →
  ∀ p' t', (p', t') ≠ (p, t) →
    shape p' t' 0 (open_blocks {| flock := f; held := h; blocks := <[(p, t) := l]> (blocks s); procs := ps |} p' t').
Proof. intros Ho p' t' Hne. rewrite open_blocks_insert, decide_False by done. by apply Ho. Qed.

Lemma enter_consistent p t s s' : consistent s → enter p t s = Some s' → consistent s'.
Proof.
  intros [Hs Hc] He. unfold enter in He. case_decide as Hp; [|done].
  assert (∀ r b, b ∈ {| outer := r; block_pid := p; block_tid := t |} :: open_blocks s p t →
    p ∈ procs s ∧ block_pid b ∈ procs s) as Hl.
  { intros r b [->|Hb]%elem_of_cons; [done|]. by split; [|eapply Hs]. }
  destruct (flock s) as [[p0 t0]|] eqn:Hk.
  - destruct Hc as (d & Hh & Hd & Hp0 & Ho). rewrite Hh in He.
    destruct (decide (p = p0)) as [->|Hne]; [|by rewrite lookup_singleton_ne in He].
    rewrite lookup_singleton_eq in He. cbn [entry_pid entry_tid] in He.
    case_decide as E; [destruct E as [_ ->]|done]. injection He as <-.
    split; [apply started_insert; [done|done|apply Hl]|]. cbn [flock held procs]. exists (S d).
    split; [by rewrite insert_singleton_eq|]. split; [|split; [done|by apply others_insert]].
    rewrite open_blocks_insert, decide_True by done. by apply (shape_cons _ _ (S d)).
  - destruct Hc as [Hh Hd]. rewrite Hh, lookup_empty in He. injection He as <-.
    split; [apply started_insert; [done|done|apply Hl]|]. cbn [flock held procs]. exists 0.
    split; [by rewrite insert_empty|]. split; [|split; [done|by apply others_insert]].
    rewrite open_blocks_insert, decide_True by done. by apply (shape_cons _ _ 0).
Qed.

(** A thread with no block of its own leaves an inherited one: only its stack changes. *)
Lemma leave_inherited p t s s' :
  consistent s → leave p t s = Some s' → shape p t 0 (open_blocks s p t) →
  flock s' = flock s ∧ held s' = held s ∧ procs s' = procs s ∧
  ∃ b rest, open_blocks s p t = b :: rest ∧ blocks s' = <[(p, t) := rest]> (blocks s).
Proof.
  intros [_ Hc] Hl Hd. unfold leave in Hl. destruct (open_blocks s p t) as [|b rest] eqn:Eb; [done|].
  apply shape_0, Forall_cons in Hd as [Hb _].
  assert (∀ e, held s !! p = Some e → entry_pid e = p) as He.
  { intros e Hpe. destruct (flock s) as [[p0 t0]|]; [|by destruct Hc as [Hh _]; rewrite Hh in Hpe].
    destruct Hc as (d & Hh & _). rewrite Hh in Hpe. by apply lookup_singleton_Some in Hpe as [-> <-]. }
  destruct (held s !! p) as [e|] eqn:Eh.
  - rewrite decide_False in Hl by (rewrite (He e) by done; naive_solver). injection Hl as <-. eauto 10.
  - injection Hl as <-. eauto 10.
Qed.
Lemma leave_consistent p t s s' : consistent s → leave p t s = Some s' → consistent s'.
Proof.
  intros Hcs Hl. pose proof Hcs as [Hs Hc].
  assert (∀ b rest, open_blocks s p t = b :: rest → ∀ b', b' ∈ rest → p ∈ procs s ∧ block_pid b' ∈ procs s) as Hr.
  { intros b rest Eb b' Hb. apply (Hs p t b'). rewrite Eb. by apply list_elem_of_further. }
  destruct (decide (flock s = Some (p, t))) as [Hk|Hk].
  - rewrite Hk in Hc. destruct Hc as (d & Hh & Hd & Hp & Ho). unfold leave in Hl.
    destruct (open_blocks s p t) as [|b rest] eqn:Eb; [done|]. apply shape_uncons in Hd as [-> Hd].
    rewrite Hh, lookup_singleton_eq in Hl. cbn [entry_pid entry_tid block_pid block_tid outer depth pred] in Hl.
    rewrite decide_True in Hl by done. specialize (Hr _ _ eq_refl).
    destruct d as [|d];
      [rewrite bool_decide_eq_true_2 in Hl by done
      |rewrite bool_decide_eq_false_2, decide_False in Hl by done]; injection Hl as <-.
    + split; [by apply started_insert|]. cbn [flock held]. split; [by rewrite delete_singleton_eq|].
      intros p' t'. rewrite open_blocks_insert.
      destruct (decide ((p', t') = (p, t))) as [[= -> ->]|Hne]; [done|by apply Ho].
    + split; [by apply started_insert|]. cbn [flock held procs]. rewrite Hk. exists d.
      split; [by rewrite insert_singleton_eq|]. split; [|split; [done|by apply others_insert]].
      by rewrite open_blocks_insert, decide_True.
  - assert (shape p t 0 (open_blocks s p t)) as Hd.
    { destruct (flock s) as [[p0 t0]|]; [|by destruct Hc].
      destruct Hc as (d & _ & _ & _ & Ho). apply Ho. by intros [= -> ->]. }
    destruct (leave_inherited p t s s' Hcs Hl Hd) as (Hf & Hh & Hp & b & rest & Eb & Hb).
    destruct s' as [f' h' b' p']. cbn in Hf, Hh, Hp, Hb. subst.
    split; [apply started_insert; [done..|by eapply Hr]|]. cbn [flock held procs].
    rewrite Eb in Hd. apply shape_0, Forall_cons in Hd as [_ Hd].
    destruct (flock s) as [[p0 t0]|].
    + destruct Hc as (d & Hh' & Hd0 & Hp0 & Ho). exists d. split; [done|].
      split; [by rewrite open_blocks_insert, decide_False by congruence|]. split; [done|].
      intros p' t' Hne. rewrite open_blocks_insert. case_decide as E; [injection E as -> ->; by apply shape_0|by apply Ho].
    + split; [apply Hc|]. intros p' t'. rewrite open_blocks_insert.
      case_decide as E; [injection E as -> ->; by apply shape_0|apply Hc].
Qed.
Lemma fork_consistent p t c s s' : consistent s → fork p t c s = Some s' → consistent s'.
Proof.
  intros [Hs Hc] Hf. unfold fork in Hf. case_decide as Hpc; [|done]. destruct Hpc as [Hp Hc']. injection Hf as <-.
  assert (shape c t 0 (open_blocks s p t)) as Hd.
  { apply shape_0, Forall_forall. intros b [_ Hb]%Hs <-. by apply Hc'. }
  split; [apply started_insert; [done|set_solver|intros b Hb%Hs; set_solver]|].
  cbn [flock held procs]. destruct (flock s) as [[p0 t0]|].
  - destruct Hc as (d & -> & Hd0 & Hp0 & Ho). exists d.
    assert (c ≠ p0) as Hne by by intros ->.
    split; [by rewrite delete_singleton_ne|]. split; [by rewrite open_blocks_insert, decide_False by congruence|].
    split; [set_solver|]. intros p' t' Hn. rewrite open_blocks_insert.
    case_decide as E; [by injection E as -> ->|by apply Ho].
  - destruct Hc as [-> Ho]. split; [by rewrite delete_empty|]. intros p' t'. rewrite open_blocks_insert.
    case_decide as E; [by injection E as -> ->|by apply Ho].
Qed.
Lemma start_consistent p s s' : consistent s → start p s = Some s' → consistent s'.
Proof.
  intros [Hs Hc] He. unfold start in He. case_decide; [done|]. injection He as <-.
  split; [intros p' t' b Hb%Hs; cbn; set_solver|]. cbn [flock held procs].
  destruct (flock s) as [[p0 t0]|]; [|done]. destruct Hc as (d & ? & ? & ? & ?).
  exists d. split_and!; [done|done|set_solver|done].
Qed.
Lemma reachable_consistent s : rtc step initial s → consistent s.
Proof.
  assert (consistent initial) as Hi.
  { split; [intros p t b Hb; by apply elem_of_nil in Hb|]. split; [done|]. intros p t. by apply shape_0. }
  intros Hr. revert Hi. induction Hr as [|s1 s2 s3 Hs _ IH]; [done|]. intros Hc. apply IH.
  destruct Hs; eauto using start_consistent, enter_consistent, leave_consistent, fork_consistent.
Qed.
(** Whether a thread is inside a block of its own is whether it has the lock. *)
Lemma consistent_depth s p t :
  consistent s → shape p t (own_depth s p t) (open_blocks s p t) ∧ (0 < own_depth s p t ↔ flock s = Some (p, t)).
Proof.
  intros [_ Hc].
  assert (∀ n, shape p t n (open_blocks s p t) → own_depth s p t = n) as Hn by (intros n; apply shape_length).
  destruct (flock s) as [[p0 t0]|].
  - destruct Hc as (d & _ & Hd & _ & Ho). destruct (decide ((p, t) = (p0, t0))) as [[= -> ->]|Hne].
    + rewrite (Hn _ Hd). split; [done|]. split; [done|lia].
    + specialize (Ho _ _ Hne). rewrite (Hn _ Ho). split; [done|]. split; [lia|congruence].
  - destruct Hc as [_ Ho]. rewrite (Hn _ (Ho p t)). split; [done|]. split; [lia|done].
Qed.
End LockFacts.

(** * Properties *)
Section properties.
Context `{FloatText} `{Digest}.

(** [install_generation] is a compare-and-swap.  It succeeds only when the expected
    number is the installed one (or absent with none installed) and the new generation is
    larger, and the manifest then reads back as the installed token; every failure leaves
    the file as it was. *)
Theorem install_compare_and_swap (g : EventWriterGeneration) (expected : pyval) (path : file) :
  token g →
  match install_generation g expected path with
  | (Ok g', path') =>
      g' = g ∧ read_generation path' = Ok (Some g) ∧
      ∃ current, read_generation path = Ok current ∧
        expected_number expected = Some (generation <$> current) ∧
        ∀ c, current = Some c → (generation c < generation g)%Z
  | (Err _, path') => path' = path
  end.
Proof. apply install_generation_spec. Qed.

(** C31: over any run of install attempts on a readable manifest the winners' generations
    strictly increase, from above the installed one, and the manifest names the last
    winner. *)
Theorem generations_strictly_advance (ops : list (EventWriterGeneration * pyval)) (path : file)
    (current : option EventWriterGeneration) :
  Forall (λ op, token op.1) ops → read_generation path = Ok current →
  StronglySorted Z.lt (map generation (run_installs ops path).1) ∧
  (∀ c g, current = Some c → g ∈ (run_installs ops path).1 → (generation c < generation g)%Z) ∧
  read_generation (run_installs ops path).2 =
    Ok (match last (run_installs ops path).1 with Some g => Some g | None => current end).
Proof.
  intros Hops Hc. pose proof (run_installs_spec ops path Hops current Hc) as Hr.
  by destruct (run_installs ops path).
Qed.

(** C32: mutual exclusion.  In every reachable state of the re-entrant lock, over any
    processes, threads, nestings and forks (also by a thread inside a block), a thread is
    inside a block it entered itself exactly when it owns the kernel lock, so no two
    threads are; the registry of its process then counts exactly these blocks and every
    other registry is empty.  A forked child goes on inside the blocks it inherited
    without owning the lock, and leaving one of them changes neither the lock nor a
    registry. *)
Theorem lock_mutual_exclusion (s : Lock.state) (p p' : Lock.pid) (t t' : Lock.tid) :
  rtc Lock.step Lock.initial s →
  (0 < Lock.own_depth s p t ↔ Lock.flock s = Some (p, t)) ∧
  (0 < Lock.own_depth s p t → 0 < Lock.own_depth s p' t' → (p', t') = (p, t)) ∧
  (0 < Lock.own_depth s p t →
    Lock.held s = {[p := {| Lock.depth := Lock.own_depth s p t; Lock.entry_pid := p; Lock.entry_tid := t |}]}) ∧
  (∀ s', Lock.own_depth s p t = 0 → Lock.leave p t s = Some s' →
    Lock.flock s' = Lock.flock s ∧ Lock.held s' = Lock.held s).
Proof.
  intros Hr%LockFacts.reachable_consistent.
  pose proof (LockFacts.consistent_depth s p t Hr) as [Hd Hk].
  pose proof (LockFacts.consistent_depth s p' t' Hr) as [_ Hk'].
  split; [done|]. split; [|split].
  - intros H1%Hk H2%Hk'. congruence.
  - intros H1%Hk. pose proof Hr as [_ Hc]. rewrite H1 in Hc. destruct Hc as (d & -> & Hs & _).
    unfold Lock.own_depth. by rewrite (LockFacts.shape_length _ _ _ _ Hs).
  - intros s' Hz Hl. rewrite Hz in Hd.
    destruct (LockFacts.leave_inherited p t s s' Hr Hl Hd) as (? & ? & _). done.
Qed.
End properties.

(** * Witnesses *)
#[local] Existing Instance Sha256_Digest.
#[local] Existing Instance Dyadic_FloatText.

Definition gen (n : Z) : EventWriterGeneration := {| generation := n; writer_id := "writer-a" |}.
Lemma install_compare_and_swap_witness :
  is_ok (install_generation (gen 1) PNone Absent).1 = true ∧
  match install_generation (gen 1) PNone Absent with
  | (Ok g', path') =>
      g' = gen 1 ∧ read_generation path' = Ok (Some (gen 1)) ∧
      ∃ current, read_generation Absent = Ok current ∧
        expected_number PNone = Some (generation <$> current) ∧
        ∀ c, current = Some c → (generation c < generation (gen 1))%Z
  | (Err _, path') => path' = Absent
  end.
Proof.
  split; [vm_compute; reflexivity|].
  apply (install_compare_and_swap (gen 1) PNone Absent). split; [cbn; lia|reflexivity].
Defined.

(** Two writers race for generation 2; the second one loses, then advances. *)
Definition race : list (EventWriterGeneration * pyval) :=
  [(gen 1, PNone); (gen 2, PInt 1); (gen 2, PInt 1); (gen 5, PInt 2)].
Lemma generations_strictly_advance_witness :
  map generation (run_installs race Absent).1 = [1; 2; 5]%Z ∧
  StronglySorted Z.lt (map generation (run_installs race Absent).1) ∧
  (∀ c g, None = Some c → g ∈ (run_installs race Absent).1 → (generation c < generation g)%Z) ∧
  read_generation (run_installs race Absent).2 =
    Ok (match last (run_installs race Absent).1 with Some g => Some g | None => None end).
Proof.
  split; [vm_compute; reflexivity|].
  apply (generations_strictly_advance race Absent None); [|reflexivity].
  repeat constructor; cbn; lia.
Defined.

(** A thread enters twice, a fork of it inherits both blocks, and leaves one of them. *)
Definition nested_lock : Lock.state :=
  default Lock.initial
    (s ← Lock.start 1 Lock.initial; s ← Lock.enter 1 1 s; s ← Lock.enter 1 1 s;
     s ← Lock.fork 1 1 2 s; Lock.leave 2 1 s).
Lemma lock_mutual_exclusion_witness :
  (Lock.own_depth nested_lock 1 1 = 2 ∧ Lock.own_depth nested_lock 2 1 = 0 ∧
    length (Lock.open_blocks nested_lock 2 1) = 1) ∧
  (0 < Lock.own_depth nested_lock 1 1 ↔ Lock.flock nested_lock = Some (1, 1)%positive) ∧
  (0 < Lock.own_depth nested_lock 1 1 → 0 < Lock.own_depth nested_lock 2 1 → (2, 1)%positive = (1, 1)%positive) ∧
  (0 < Lock.own_depth nested_lock 1 1 →
    Lock.held nested_lock =
      {[1%positive := {| Lock.depth := Lock.own_depth nested_lock 1 1; Lock.entry_pid := 1; Lock.entry_tid := 1 |}]}) ∧
  (∀ s', Lock.own_depth nested_lock 1 1 = 0 → Lock.leave 1 1 nested_lock = Some s' →
    Lock.flock s' = Lock.flock nested_lock ∧ Lock.held s' = Lock.held nested_lock).
Proof.
  split; [split; [|split]; vm_compute; reflexivity|].
  apply (lock_mutual_exclusion nested_lock 1 2 1 1).
  eapply rtc_l; [apply (Lock.step_start 1); reflexivity|].
  eapply rtc_l; [apply (Lock.step_enter 1 1); reflexivity|].
  eapply rtc_l; [apply (Lock.step_enter 1 1); reflexivity|].
  eapply rtc_l; [apply (Lock.step_fork 1 1 2); reflexivity|].
  eapply rtc_l; [apply (Lock.step_leave 2 1); reflexivity|]. apply rtc_refl.
Defined.
