(* ===== verification/EffectJournal.v ===== *)
(** * The effect journal ([src/src/nexus_runtime/kernel/events/effect_journal.py])

    A JSON file of effect records.  An effect is reserved (PENDING), marked DISPATCHED
    and only then started; an effect found in any state but COMPLETED is never started
    again, it is resolved by an observation or marked UNKNOWN.

    The state is the manifest and journal files together with a trace of what happened
    to the outside world: every atomic replacement of the journal file and every start
    of an effect, in order.  An interrupted run is a prefix of its trace.  Host code (the
    effect itself, the reconcile port) is given by its outcome. *)
From Stdlib Require Import Ascii String SpecFloat.
From S2P Require Import Prelude PyValue Json Lines Digest Contract Instances.
From S2P Require WriterGeneration.
#[local] Existing Instance WriterGeneration.generation_eq_dec.
Abbreviation file := WriterGeneration.file.
Abbreviation EventWriterGeneration := WriterGeneration.EventWriterGeneration.

Definition SCHEMA := "nexus.runtime_effect_journal.v1".
Definition _STATES : list string := ["PENDING"; "DISPATCHED"; "COMPLETED"; "UNKNOWN"].

(** A record that [_read_locked] admits.  [operation_id] and [reason] are not checked to
    be strings; [result_] is [None] or a mapping. *)
Record effect_record : Type := {
  operation_id : pyval;
  subject : string;
  request_digest : string;
  generation : Z;
  project_root : string;
  effect_id : string;
  state : string;
  result_ : pyval;
  result_digest : string;
  reason : pyval;
  record_digest : string
}.
(** The journal: its records by effect id, in file order, and the document around them. *)
Record journal : Type := { document : dict; records : list (string * effect_record) }.

Definition unsigned (r : effect_record) : dict := [
  ("schema", PStr SCHEMA); ("operation_id", operation_id r); ("subject", PStr (subject r));
  ("request_digest", PStr (request_digest r)); ("generation", PInt (generation r));
  ("project_root", PStr (project_root r)); ("effect_id", PStr (effect_id r));
  ("state", PStr (state r)); ("result", result_ r); ("result_digest", PStr (result_digest r));
  ("reason", reason r)].
Definition record_dict (r : effect_record) : dict :=
  unsigned r ++ [("record_digest", PStr (record_digest r))].
Definition record_fields : list string :=
  ["schema"; "operation_id"; "subject"; "request_digest"; "generation"; "project_root";
   "effect_id"; "state"; "result"; "result_digest"; "reason"; "record_digest"].

(** [record["state"] = ...; record["reason"] = ...] and
    [record["state"] = "COMPLETED"; record["result"] = ...; ...]. *)
Definition with_state (r : effect_record) (s : string) (why : pyval) : effect_record :=
  {| operation_id := operation_id r; subject := subject r; request_digest := request_digest r;
     generation := generation r; project_root := project_root r; effect_id := effect_id r;
     state := s; result_ := result_ r; result_digest := result_digest r; reason := why;
     record_digest := record_digest r |}.
Definition with_result (r : effect_record) (v : pyval) (h : string) : effect_record :=
  {| operation_id := operation_id r; subject := subject r; request_digest := request_digest r;
     generation := generation r; project_root := project_root r; effect_id := effect_id r;
     state := state r; result_ := v; result_digest := h; reason := reason r;
     record_digest := record_digest r |}.
Definition with_digest (r : effect_record) (h : string) : effect_record :=
  {| operation_id := operation_id r; subject := subject r; request_digest := request_digest r;
     generation := generation r; project_root := project_root r; effect_id := effect_id r;
     state := state r; result_ := result_ r; result_digest := result_digest r; reason := reason r;
     record_digest := h |}.

Inductive event : Type := Wrote (text : string) | Dispatched (effect : string).
Record store : Type := { manifest : file; journal_file : file; trace : list event }.


Section journal.
Context `{FloatText} `{Digest}.

Definition _canonical (v : pyval) : result string :=
  canonical_json EffectJournalError "EFFECT_IDENTITY_UNSERIALIZABLE" v.
Definition canonical_digest (v : pyval) : result string :=
  canonical_sha256 EffectJournalError "EFFECT_IDENTITY_UNSERIALIZABLE" v.

Definition identity_required : list string :=
  ["task_id"; "workspace_revision"; "planner_decision_id"; "action"; "subject_revision";
   "request_digest"].
Definition operation_digest (identity : pyval) : result string :=
  match identity with
  | PDict ((_ :: _) as identity) =>
      _ ← raise_if (negb (forallb (λ k, has_key k identity) identity_required)
                    || negb (has_key "attempt_number" identity) && negb (has_key "attempt" identity)
                    || negb (forallb (λ k, text_in k (identity_required ++ ["attempt_number"; "attempt"]))
                               (keys identity)))
            EffectJournalError "EFFECT_IDENTITY_MALFORMED";
      let attempt := default (py_get identity "attempt") (dict_get "attempt_number" identity) in
      _ ← raise_if (match attempt with PInt n => (n <? 1)%Z | _ => true end)
            EffectJournalError "EFFECT_IDENTITY_MALFORMED";
      _ ← raise_if (existsb (λ k, match py_get identity k with
                                  | PStr s => String.eqb s EmptyString | _ => true end) identity_required)
            EffectJournalError "EFFECT_IDENTITY_MALFORMED";
      canonical_digest (PDict identity)
  | _ => raise EffectJournalError "EFFECT_IDENTITY_REQUIRED"
  end.
Definition deterministic_effect_id (identity : pyval) : result string :=
  h ← operation_digest identity; Ok ("effect-" +:+ h).

Definition _digest_record (r : effect_record) : result string := canonical_digest (PDict (unsigned r)).
(** [record["record_digest"] = _digest_record(record)]. *)
Definition seal (r : effect_record) : result effect_record :=
  h ← _digest_record r; Ok (with_digest r h).

Definition _safe_result (v : pyval) : result dict :=
  match v with
  | PDict ((_ :: _) as d) =>
      match _canonical (PDict d) with
      | Ok _ => Ok d
      | Err e => if exn_is EffectJournalError e
          then raise EffectJournalError "EFFECT_RESULT_UNSERIALIZABLE" else Err e
      end
  | _ => raise EffectJournalError "EFFECT_RESULT_MALFORMED"
  end.

Definition _observed_result (r : effect_record) (observed : pyval) : result dict :=
  match observed with
  | PDict observed =>
      _ ← raise_if
            (negb (keys_are ["operation_id"; "effect_id"; "subject"; "request_digest"; "generation";
                             "result"] observed)
             || negb (py_eq (py_get observed "operation_id") (operation_id r))
             || negb (py_eq (py_get observed "effect_id") (PStr (effect_id r)))
             || negb (py_eq (py_get observed "subject") (PStr (subject r)))
             || negb (py_eq (py_get observed "request_digest") (PStr (request_digest r)))
             || negb (py_eq (py_get observed "generation") (PInt (generation r))))
            EffectIdentityMismatch "EFFECT_OBSERVATION_MISMATCH";
      _safe_result (py_get observed "result")
  | _ => raise EffectJournalError "EFFECT_OBSERVATION_MALFORMED"
  end.

Definition nonempty_text (v : pyval) : bool :=
  match v with PStr s => negb (String.eqb s EmptyString) | _ => false end.
End journal.

(** ** One journal object: [EffectJournal(project_root, generation)]

    [root] is [str(project_root.resolve())]. *)
Section effect_journal.
Context `{FloatText} `{Digest} (self_generation : EventWriterGeneration) (root : string).
Abbreviation self_number := (WriterGeneration.generation self_generation).
Abbreviation malformed := (raise EffectJournalError "EFFECT_JOURNAL_MALFORMED").

Definition _check_generation : prog store unit :=
  s ← get_state;
  installed ← lift (WriterGeneration.read_generation (manifest s));
  lift (raise_if (negb (bool_decide (installed = Some self_generation))) GenerationError
          "GENERATION_REQUIRED").

(** One round of the validation loop of [_read_locked]. *)
Definition read_record (kv : string * pyval) : result (string * effect_record) :=
  let '(key, v) := kv in
  match v with
  | PDict r =>
      known ← in_text_set (py_get r "state") _STATES;
      _ ← raise_if (negb known) EffectJournalError "EFFECT_JOURNAL_MALFORMED";
      _ ← raise_if (negb (keys_are record_fields r) || negb (is_text (py_get r "schema") SCHEMA)
                    || negb (nonempty_text (py_get r "subject"))
                    || negb (nonempty_text (py_get r "request_digest"))
                    || match py_get r "generation" with
                       | PInt n => (n <? 1)%Z || (self_number <? n)%Z | _ => true end)
            EffectJournalError "EFFECT_JOURNAL_MALFORMED";
      _ ← raise_if (negb (py_eq (PStr key) (py_get r "effect_id"))
                    || negb (String.eqb key ("effect-" +:+ str_or (py_get r "operation_id") EmptyString))
                    || negb (is_text (py_get r "project_root") root))
            EffectJournalError "EFFECT_JOURNAL_ID_MISMATCH";
      _ ← (if is_text (py_get r "state") "COMPLETED" then
             _ ← _safe_result (py_get r "result");
             h ← canonical_digest (py_get r "result");
             raise_if (negb (is_text (py_get r "result_digest") h)) EffectJournalError
               "EFFECT_RESULT_TAMPERED"
           else raise_if (negb (is_none (py_get r "result"))
                          || negb (is_text (py_get r "result_digest") EmptyString))
                  EffectJournalError "EFFECT_JOURNAL_MALFORMED");
      h ← canonical_digest (PDict (dict_del "record_digest" r));
      _ ← raise_if (negb (is_text (py_get r "record_digest") h)) EffectJournalError
            "EFFECT_JOURNAL_TAMPERED";
      Ok (key, {| operation_id := py_get r "operation_id"; subject := text_of (py_get r "subject");
        request_digest := text_of (py_get r "request_digest");
        generation := match py_get r "generation" with PInt n => n | _ => 0%Z end;
        project_root := text_of (py_get r "project_root"); effect_id := key;
        state := text_of (py_get r "state"); result_ := py_get r "result";
        result_digest := text_of (py_get r "result_digest"); reason := py_get r "reason";
        record_digest := text_of (py_get r "record_digest") |})
  | _ => malformed
  end.

Definition _read_locked (f : file) : result journal :=
  match f with
  | WriterGeneration.Absent =>
      Ok {| document := [("schema", PStr SCHEMA); ("records", PDict [])]; records := [] |}
  | WriterGeneration.Symlink | WriterGeneration.Special =>
      raise EffectJournalError "EFFECT_JOURNAL_UNSAFE_PATH"
  | WriterGeneration.Unreadable => malformed
  | WriterGeneration.Regular text =>
      data ← match json_loads text with
             | Ok data => Ok data
             | Err e => if exn_is ValueError e then malformed else Err e
             end;
      match data with
      | PDict data =>
          match is_text (py_get data "schema") SCHEMA, py_get data "records" with
          | true, PDict raw =>
              rs ← mapM_result read_record raw;
              Ok {| document := data; records := rs |}
          | _, _ => malformed
          end
      | _ => malformed
      end
  end.

(** The document [_write_locked] serialises, and its text. *)
Definition journal_doc (j : journal) : dict :=
  dict_set "records" (PDict (map (λ kr, (kr.1, PDict (record_dict kr.2))) (records j))) (document j).
Definition journal_text (j : journal) : result string :=
  t ← json_dumps false true (PDict (journal_doc j)); Ok (t +:+ newline).
Definition _write_locked (j : journal) : prog store unit :=
  text ← lift (journal_text j);
  modify_state (λ s, {| manifest := manifest s; journal_file := WriterGeneration.Regular text;
                        trace := trace s ++ [Wrote text] |}).

(** [data["records"][effect] = record; self._write_locked(data)]. *)
Definition put_record (j : journal) (r : effect_record) : prog store journal :=
  let j := {| document := document j; records := dict_set (effect_id r) r (records j) |} in
  _ ← _write_locked j; mret j.

Definition load : prog store journal :=
  _ ← _check_generation; s ← get_state; lift (_read_locked (journal_file s)).

Definition new_record (op effect subject request_digest : string) : effect_record :=
  {| operation_id := PStr op; subject := subject; request_digest := request_digest;
     generation := self_number; project_root := root; effect_id := effect; state := "PENDING";
     result_ := PNone; result_digest := EmptyString; reason := PStr EmptyString;
     record_digest := EmptyString |}.
(** The identity checks on a record found under the effect's id. *)
Definition same_binding (old : effect_record) (op : string) (subj digest : pyval) : bool :=
  py_eq (operation_id old) (PStr op) && py_eq (PStr (subject old)) subj
  && py_eq (PStr (request_digest old)) digest && (generation old =? self_number)%Z.

Definition reserve (identity subj digest : pyval) : prog store dict :=
  op ← lift (operation_digest identity); effect ← lift (deterministic_effect_id identity);
  _ ← lift (raise_if (negb (nonempty_text subj) || negb (nonempty_text digest))
              EffectJournalError "EFFECT_BINDING_REQUIRED");
  identity ← lift (as_mapping identity "get");
  _ ← lift (raise_if (negb (py_eq (py_get identity "request_digest") digest))
              EffectIdentityMismatch "EFFECT_REQUEST_DIGEST_MISMATCH");
  data ← load;
  match dict_get effect (records data) with
  | Some old =>
      if same_binding old op subj digest then mret (record_dict old)
      else lift (raise EffectIdentityMismatch "EFFECT_IDENTITY_MISMATCH")
  | None =>
      record ← lift (seal (new_record op effect (text_of subj) (text_of digest)));
      _ ← put_record data record;
      mret (record_dict record)
  end.

Definition get (effect : string) : prog store (option dict) :=
  _ ← lift (raise_if (String.eqb effect EmptyString) EffectJournalError "EFFECT_ID_REQUIRED");
  data ← load;
  mret (record_dict <$> dict_get effect (records data)).

Definition unresolved_for_subject (subj : string) : prog store (list dict) :=
  _ ← lift (raise_if (String.eqb subj EmptyString) EffectJournalError "EFFECT_BINDING_REQUIRED");
  data ← load;
  mret (map record_dict (List.filter (λ r, String.eqb (subject r) subj && negb (String.eqb (state r) "COMPLETED"))
                      (map snd (records data)))).

(** [state = "COMPLETED"; result; result_digest; reason = ""], sealed. *)
Definition completed (r : effect_record) (v : pyval) (why : pyval) : result effect_record :=
  h ← canonical_digest v; seal (with_state (with_result r v h) "COMPLETED" why).

Definition transition (effect to_state : string) (value why : pyval) : prog store dict :=
  _ ← lift (raise_if (negb (text_in to_state _STATES)) EffectJournalError "EFFECT_STATE_INVALID");
  data ← load;
  match dict_get effect (records data) with
  | None => lift (raise EffectJournalError "EFFECT_NOT_RESERVED")
  | Some old =>
      if String.eqb (state old) "COMPLETED" then
        _ ← lift (raise_if (negb (String.eqb to_state "COMPLETED")) EffectIdentityMismatch
                    "EFFECT_COMPLETED_IMMUTABLE");
        _ ← lift (if is_none value then Ok () else
                    v ← _safe_result value;
                    raise_if (negb (py_eq (PDict v) (result_ old))) EffectIdentityMismatch
                      "EFFECT_COMPLETED_CONFLICT");
        mret (record_dict old)
      else
        let why := PStr (str_or why EmptyString) in
        record ← lift (if String.eqb to_state "COMPLETED"
                       then _ ← _safe_result value; completed old value why
                       else seal (with_state old to_state why));
        _ ← put_record data record;
        mret (record_dict record)
  end.

(** [existing["state"] = "UNKNOWN"; existing["reason"] = ...; write]. *)
Definition mark_unknown (data : journal) (r : effect_record) (why : string) : prog store unit :=
  record ← lift (seal (with_state r "UNKNOWN" (PStr why)));
  _ ← put_record data record; mret tt.
Definition finish (data : journal) (r : effect_record) (v : pyval) : prog store unit :=
  record ← lift (completed r v (PStr EmptyString)); _ ← put_record data record; mret tt.

Definition reconcile (effect : string) (observed : pyval) : prog store pyval :=
  data ← load;
  match dict_get effect (records data) with
  | None => lift (raise EffectJournalError "EFFECT_NOT_RESERVED")
  | Some record =>
      if String.eqb (state record) "COMPLETED" then
        v ← lift (_observed_result record observed);
        h ← lift (canonical_digest (PDict v));
        _ ← lift (raise_if (negb (String.eqb h (result_digest record))) EffectIdentityMismatch
                    "EFFECT_COMPLETED_CONFLICT");
        mret (PDict v)
      else
        match _observed_result record observed with
        | Err exc =>
            if exn_is ExceptionC exc then
              _ ← mark_unknown data record ("reconcile_failed:" +:+ exn_class_name (exn_type exc));
              mret PNone
            else lift (Err exc)
        | Ok v => _ ← finish data record (PDict v); mret (PDict v)
        end
  end.

(** Starting the effect: it happens, then [dispatch()] returns or raises. *)
Definition start_effect (effect : string) (outcome : result pyval) : prog store pyval :=
  _ ← modify_state (λ s, {| manifest := manifest s; journal_file := journal_file s;
                            trace := trace s ++ [Dispatched effect] |});
  lift outcome.

(** After the call: the record is completed, or left uncertain and the exception goes on. *)
Definition conclude (data : journal) (record : effect_record) (outcome : result pyval) :
    prog store pyval :=
  match outcome with
  | Err exc =>
      _ ← mark_unknown data record ("dispatch_uncertain:" +:+ exn_class_name (exn_type exc));
      lift (Err exc)
  | Ok v => _ ← finish data record v; mret v
  end.
(** The end of [execute]: an effect without a record. *)
Definition execute_fresh (data : journal) (op effect : string) (subj digest : pyval)
    (dispatch : result pyval) : prog store pyval :=
  _ ← lift (raise_if (negb (nonempty_text subj) || negb (nonempty_text digest))
              EffectJournalError "EFFECT_BINDING_REQUIRED");
  pending ← lift (seal (new_record op effect (text_of subj) (text_of digest)));
  data ← put_record data pending;
  record ← lift (seal (with_state pending "DISPATCHED" (reason pending)));
  data ← put_record data record;
  outcome ← attempt (v ← start_effect effect dispatch; _ ← lift (_safe_result v); mret v);
  conclude data record outcome.

(** [execute], with the outcome [dispatch] has if it is called and the reconcile
    callable, [None] when it is not callable. *)
Definition execute (identity subj digest : pyval) (dispatch : result pyval)
    (reconcile : option (dict → result pyval)) : prog store pyval :=
  effect ← lift (deterministic_effect_id identity);
  op ← lift (operation_digest identity);
  identity ← lift (as_mapping identity "get");
  _ ← lift (raise_if (negb (py_eq (py_get identity "request_digest") digest))
              EffectIdentityMismatch "EFFECT_REQUEST_DIGEST_MISMATCH");
  data ← load;
  match dict_get effect (records data) with
  | Some existing =>
      if negb (same_binding existing op subj digest)
      then lift (raise EffectIdentityMismatch "EFFECT_IDENTITY_MISMATCH")
      else if String.eqb (state existing) "COMPLETED" then mret (result_ existing)
      else
        let observation :=
          observed ← match reconcile with Some f => f (record_dict existing) | None => Ok PNone end;
          _ ← raise_if (is_none observed) EffectJournalError "EFFECT_RECONCILE_UNAVAILABLE";
          _observed_result existing observed in
        match observation with
        | Err exc =>
            if exn_is ExceptionC exc then
              _ ← mark_unknown data existing ("reconcile_failed:" +:+ exn_class_name (exn_type exc));
              mret PNone
            else lift (Err exc)
        | Ok v => _ ← finish data existing (PDict v); mret (PDict v)
        end
  | None => execute_fresh data op effect subj digest dispatch
  end.
End effect_journal.

(** * What is on disk

    The stored form of a record, read off the file without validating it. *)
Section disk.
Context `{FloatText} `{Digest}.

Definition disk_record (f : file) (e : string) : option pyval :=
  match f with
  | WriterGeneration.Regular text =>
      match json_loads text with
      | Ok (PDict d) => match py_get d "records" with PDict raw => dict_get e raw | _ => None end
      | _ => None
      end
  | _ => None
  end.
Definition in_state (s : string) (v : pyval) : Prop :=
  ∃ r, v = PDict r ∧ py_get r "state" = PStr s.
(** The effect has a record, in some state. *)
Definition recorded (f : file) (e : string) : Prop := is_Some (disk_record f e).

(** A write keeps every record, and a completed one unchanged. *)
Definition extends (f f' : file) : Prop := ∀ e v, disk_record f e = Some v →
  ∃ v', disk_record f' e = Some v' ∧ (in_state "COMPLETED" v → jnorm v' = jnorm v).

(** ** Sound traces: what an uninterrupted run may do, starting from the file [f], when
    the effects in [known] may not be started. *)
Fixpoint sound (known : string → Prop) (f : file) (tr : list event) : Prop :=
  match tr with
  | [] => True
  | Wrote text :: tr =>
      extends f (WriterGeneration.Regular text) ∧ sound known (WriterGeneration.Regular text) tr
  | Dispatched e :: tr =>
      ¬ known e ∧ (∃ v, disk_record f e = Some v ∧ in_state "DISPATCHED" v) ∧
      sound (λ x, known x ∨ x = e) f tr
  end.
Definition replay_event (f : file) (ev : event) : file :=
  match ev with Wrote text => WriterGeneration.Regular text | Dispatched _ => f end.
Definition replay (f : file) (tr : list event) : file := foldl replay_event f tr.

Definition is_start (e : string) (ev : event) : bool :=
  match ev with Dispatched e' => String.eqb e e' | Wrote _ => false end.
Definition starts (e : string) (tr : list event) : nat := length (List.filter (is_start e) tr).

Definition evolves (s s' : store) : Prop :=
  manifest s' = manifest s ∧
  ∃ tr, trace s' = trace s ++ tr ∧ journal_file s' = replay (journal_file s) tr ∧
    sound (recorded (journal_file s)) (journal_file s) tr.
End disk.

(** * Lemmas *)
Section read_lemmas.
Context `{FloatText} `{Digest}.

Lemma extends_refl f : extends f f.
Proof. intros e v Hv. eauto. Qed.
Lemma in_state_jnorm s v w : py_wf v = true → jnorm v = w → in_state s v → in_state s w.
Proof.
  intros Hwf Hw (r & -> & Hr). cbn in Hw. destruct w as [| | | | | | |d'|]; try done.
  exists d'. split; [done|]. cbn in Hwf. apply andb_true_iff in Hwf as [Hn%bool_decide_eq_true _].
  rewrite (py_get_jnorm r d' "state" Hn Hw), Hr. done.
Qed.

Lemma in_state_jnorm_back s v w : py_wf v = true → jnorm v = w → in_state s w → in_state s v.
Proof.
  intros Hwf Hw (d' & -> & Hr). destruct v as [| | | | | | |r|]; try done.
  exists r. split; [done|]. rewrite (py_get_jnorm r d' "state" (bool_decide_eq_true_1 _ (proj1 (andb_prop _ _ Hwf))) Hw) in Hr.
  by destruct (py_get r "state").
Qed.
Lemma nonempty_text_of v : nonempty_text v = true → v = PStr (text_of v).
Proof. by destruct v. Qed.
Lemma str_eq v s : is_text v s = true → v = PStr (text_of v).
Proof. by intros ->%is_text_spec. Qed.

(** What validation of a record establishes. *)
Lemma read_record_inv gen root key v k r :
  read_record gen root (key, v) = Ok (k, r) →
  k = key ∧ effect_id r = key ∧ project_root r = root ∧ (generation r ≤ WriterGeneration.generation gen)%Z ∧
  ∃ raw, v = PDict raw ∧ keys_are record_fields raw = true ∧
    ∀ f, f ∈ record_fields → py_get (record_dict r) f = py_get raw f.
Proof.
  unfold read_record. destruct v as [| | | | | | |raw|]; try done. intros Hr.
  apply bind_Ok_inv in Hr as (known & Hk & Hr). cbn beta in Hr.
  apply bind_Ok_inv in Hr as (u1 & H1%raise_if_Ok_inv%negb_false_iff & Hr).
  apply bind_Ok_inv in Hr as (u2 & H2%raise_if_Ok_inv & Hr).
  apply bind_Ok_inv in Hr as (u3 & H3%raise_if_Ok_inv & Hr).
  apply bind_Ok_inv in Hr as (u4 & H4 & Hr).
  apply bind_Ok_inv in Hr as (h & Hh & Hr).
  apply bind_Ok_inv in Hr as (u5 & H5%raise_if_Ok_inv%negb_false_iff & Hr).
  injection Hr as <- <-.
  apply orb_false_iff in H3 as [[Hid%negb_false_iff _]%orb_false_iff Hroot%negb_false_iff].
  apply orb_false_iff in H2 as [H2 Hgen]. apply orb_false_iff in H2 as [H2 Hrd%negb_false_iff].
  apply orb_false_iff in H2 as [H2 Hsub%negb_false_iff].
  apply orb_false_iff in H2 as [Hkeys%negb_false_iff Hschema%negb_false_iff].
  assert (∃ st, py_get raw "state" = PStr st) as [st Hst].
  { clear H4. destruct (py_get raw "state"); try done; try (by injection Hk as <-). eauto. }
  assert (∃ rd, py_get raw "result_digest" = PStr rd) as [rd Hresd].
  { destruct (is_text (py_get raw "state") "COMPLETED").
    - apply bind_Ok_inv in H4 as (? & _ & H4). apply bind_Ok_inv in H4 as (? & _ & H4).
      apply raise_if_Ok_inv, negb_false_iff, is_text_spec in H4. eauto.
    - apply raise_if_Ok_inv, orb_false_iff in H4 as [_ H4%negb_false_iff%is_text_spec]. eauto. }
  destruct (py_get raw "generation") as [| |n| | | | | |] eqn:Hn; try done.
  apply orb_false_iff in Hgen as [Hge1 Hge2].
  assert (py_get raw "effect_id" = PStr key) as Heid.
  { destruct (py_get raw "effect_id"); try done. by apply String.eqb_eq in Hid as ->. }
  split; [done|]. split; [done|]. apply is_text_spec in Hroot as Hroot'.
  split; [cbn; by rewrite Hroot'|]. split; [cbn; lia|].
  exists raw. split; [done|]. split; [done|]. intros f Hf.
  apply is_text_spec in Hschema. apply nonempty_text_of in Hsub, Hrd. apply str_eq in H5.
  unfold record_fields in Hf. rewrite !elem_of_cons, elem_of_nil in Hf.
  destruct_or! Hf; subst f; cbn; rewrite ?Hst, ?Hresd, ?Heid, ?Hroot', ?Hn, ?Hschema; done || congruence.
Qed.
End read_lemmas.

(** ** A journal in memory and its file *)
Section holds.
Context `{FloatText} `{Digest}.

Definition record_wf (r : effect_record) : Prop :=
  doc_ok (operation_id r) ∧ doc_ok (result_ r) ∧ doc_ok (reason r).
Definition journal_wf (j : journal) : Prop :=
  doc_ok (PDict (document j)) ∧ NoDup (keys (records j)) ∧
  Forall (λ kr, record_wf kr.2) (records j).
(** The file stores exactly the records of [j]. *)
Definition holds (j : journal) (f : file) : Prop :=
  journal_wf j ∧ ∀ e, match dict_get e (records j) with
    | None => disk_record f e = None
    | Some r => ∃ v, disk_record f e = Some v ∧ py_wf v = true ∧
        jnorm v = jnorm (PDict (record_dict r))
    end.

Lemma record_keys r : keys (record_dict r) = record_fields.
Proof. done. Qed.
Lemma record_keys_nodup : NoDup record_fields.
Proof. by apply (bool_decide_eq_true_1 _). Qed.
Lemma record_dict_wf r : record_wf r → doc_ok (PDict (record_dict r)).
Proof. intros ([H1 H1'] & [H2 H2'] & [H3 H3']). split; cbn; by rewrite ?H1, ?H2, ?H3, ?H1', ?H2', ?H3'. Qed.
(** The stored form of a validated record is the record. *)
Lemma record_jnorm raw r :
  py_wf (PDict raw) = true → keys_are record_fields raw = true →
  (∀ f, f ∈ record_fields → py_get (record_dict r) f = py_get raw f) →
  jnorm (PDict raw) = jnorm (PDict (record_dict r)).
Proof.
  intros Hwf Hk Hf. pose proof (proj1 (same_set_spec _ _) Hk) as Hks.
  apply jnorm_dict_ext; [by apply py_wf_nodup|apply record_keys_nodup|].
  intros k. destruct (decide (k ∈ record_fields)) as [Hin|Hnin].
  - specialize (Hf k Hin). unfold py_get in Hf.
    destruct (dict_get k raw) eqn:E1, (dict_get k (record_dict r)) eqn:E2; cbn in Hf; [congruence| | |done].
    + apply dict_get_None in E2. by rewrite record_keys in E2.
    + apply dict_get_None in E1. by rewrite Hks in E1.
  - transitivity (@None pyval); [|symmetry]; apply dict_get_None; [by rewrite Hks|done].
Qed.

Lemma read_records_inv gen root raw rs :
  doc_ok (PDict raw) → mapM_result (read_record gen root) raw = Ok rs →
  keys rs = keys raw ∧ Forall (λ kr, record_wf kr.2 ∧ effect_id kr.2 = kr.1) rs ∧
  ∀ e r, dict_get e rs = Some r → ∃ v, dict_get e raw = Some v ∧ py_wf v = true ∧
    jnorm v = jnorm (PDict (record_dict r)).
Proof.
  intros [Hwf Hpl] Hm%mapM_result_Ok_inv. cbn in Hwf, Hpl. apply andb_true_iff in Hwf as [_ Hwf].
  apply Forall_forallb in Hwf, Hpl.
  induction Hm as [|[key v] [k r] raw rs Hx Hm IH]; [by split_and!|].
  apply Forall_cons in Hwf as [Hv Hwf], Hpl as [Hvp Hpl].
  cbn [snd] in Hv, Hvp. destruct (IH Hwf Hpl) as (Hk & Hr & Hd).
  apply read_record_inv in Hx as (-> & Hid & _ & _ & d & -> & Hka & Hf).
  cbn [keys map fst]. split_and!.
  - cbn. f_equal. exact Hk.
  - constructor; [|done]. cbn. split; [|done].
    assert (∀ f, doc_ok (py_get d f)) as Hg by (intros f; by apply doc_ok_py_get).
    assert (∀ f, f ∈ record_fields → doc_ok (py_get (record_dict r) f)) as Hg'
      by (intros f Hin; rewrite Hf by done; apply Hg).
    split_and!; [apply (Hg' "operation_id")|apply (Hg' "result")|apply (Hg' "reason")];
      by apply (bool_decide_eq_true_1 _).
  - intros e r'. cbn. destruct (String.eqb e key); [|apply Hd]. intros [= <-].
    eexists. split; [done|]. split; [done|]. by apply record_jnorm.
Qed.

Lemma read_locked_holds gen root f j : _read_locked gen root f = Ok j →
  holds j f ∧ Forall (λ kr, effect_id kr.2 = kr.1) (records j).
Proof.
  destruct f as [| | | |text]; try done; cbn [_read_locked].
  { intros [= <-]. split; [|constructor]. split; [|done]. split; [done|]. by split; [constructor|]. }
  destruct (json_loads text) as [data|e] eqn:El; [|by case_match].
  cbn [mbind result_bind]. pose proof (json_loads_ok _ _ El) as Hwf.
  destruct data as [| | | | | | |data|]; try done.
  destruct (is_text (py_get data "schema") SCHEMA); [|done].
  destruct (py_get data "records") as [| | | | | | |raw|] eqn:Er; try done.
  intros (rs & Hrs & [= <-])%bind_Ok_inv.
  assert (doc_ok (PDict raw)) as Hraw by (rewrite <- Er; by apply doc_ok_py_get).
  destruct (read_records_inv _ _ _ _ Hraw Hrs) as (Hk & Hall & Hd).
  apply Forall_and in Hall as [Hall Hids]. split; [|done]. split.
  { split; [done|]. split; [|done]. cbn [records]. rewrite Hk. by apply py_wf_nodup, Hraw. }
  intros e. cbn. rewrite El, Er. destruct (dict_get e rs) as [r|] eqn:Ee; [by apply Hd|].
  apply dict_get_None. apply dict_get_None in Ee. by rewrite <- Hk.
Qed.

Lemma doc_ok_set d k v : doc_ok (PDict d) → doc_ok v → doc_ok (PDict (dict_set k v d)).
Proof.
  intros [Hd Hp] [Hv Hvp]. split; [by apply py_wf_set|]. cbn in *.
  apply Forall_forallb in Hp. apply Forall_forallb. by apply dict_set_Forall.
Qed.
Lemma journal_doc_wf j : journal_wf j → doc_ok (PDict (journal_doc j)).
Proof.
  intros (Hd & Hn & Hr). apply doc_ok_set; [done|]. split; cbn.
  - rewrite bool_decide_true; [cbn|by unfold keys in *; rewrite map_map].
    apply Forall_forallb. rewrite Forall_map. eapply Forall_impl; [exact Hr|].
    intros [k r] Hw. by apply record_dict_wf.
  - apply Forall_forallb. rewrite Forall_map. eapply Forall_impl; [exact Hr|].
    intros [k r] Hw. by apply record_dict_wf.
Qed.
(** Writing does not fail. *)
Lemma journal_text_Ok j : journal_wf j → ∃ text, journal_text j = Ok text.
Proof.
  intros [_ Hp]%journal_doc_wf. unfold journal_text, json_dumps.
  rewrite json_check_jnorm by by apply json_check_ok. cbn. eauto.
Qed.
Lemma journal_text_disk j text e : journal_wf j → journal_text j = Ok text →
  disk_record (WriterGeneration.Regular text) e
  = (λ r, jnorm (PDict (record_dict r))) <$> dict_get e (records j).
Proof.
  intros Hj (t & Ht & [= <-])%bind_Ok_inv. destruct (journal_doc_wf j Hj) as [Hwf _].
  unfold disk_record. rewrite (json_loads_dumps _ _ _ _ newline Hwf Ht) by done.
  assert (∃ d', jnorm (PDict (journal_doc j)) = PDict d') as [d' Hd'] by (cbn; eauto).
  rewrite Hd', (py_get_jnorm _ _ "records" (py_wf_nodup _ Hwf) Hd').
  unfold journal_doc at 1. rewrite py_get_set. cbn [jnorm].
  destruct Hj as (_ & Hn & _).
  rewrite jnorm_get by (unfold keys in *; by rewrite map_map).
  rewrite (dict_get_map (λ r, PDict (record_dict r))).
  by destruct (dict_get e (records j)).
Qed.
Lemma journal_text_holds j text : journal_wf j → journal_text j = Ok text →
  holds j (WriterGeneration.Regular text).
Proof.
  intros Hj Ht. split; [done|]. intros e. rewrite (journal_text_disk j text e Hj Ht).
  destruct (dict_get e (records j)) as [r|] eqn:Er; [|done]. cbn [fmap option_fmap option_map].
  assert (record_wf r) as Hr.
  { destruct Hj as (_ & _ & Hj). rewrite Forall_forall in Hj. apply dict_get_In in Er.
    by apply (Hj (e, r)). }
  apply record_dict_wf in Hr as [Hr _]. eexists. split; [done|]. split; [by rewrite py_wf_jnorm|by apply jnorm_idem].
Qed.

Lemma holds_put j f r : holds j f → record_wf r →
  journal_wf {| document := document j; records := dict_set (effect_id r) r (records j) |}.
Proof.
  intros [(Hd & Hn & Ha) _] Hr. split; [done|]. split; [by apply NoDup_dict_set|].
  by apply dict_set_Forall.
Qed.
Lemma record_in_state r : in_state (state r) (jnorm (PDict (record_dict r))).
Proof.
  assert (∃ d', jnorm (PDict (record_dict r)) = PDict d') as [d' Hd'] by (cbn; eauto).
  exists d'. split; [done|]. rewrite (py_get_jnorm (record_dict r) d' "state" record_keys_nodup Hd'). done.
Qed.
Lemma in_state_inj s s' v : in_state s v → in_state s' v → s = s'.
Proof. intros (r & -> & Hr) (r' & [= <-] & Hr'). congruence. Qed.
End holds.

(** ** Writing *)
Section writing.
Context `{FloatText} `{Digest}.

(** Replacing the record of an effect, unless it is completed, extends the file. *)
Lemma holds_extends j f r text :
  holds j f →
  (∀ old, dict_get (effect_id r) (records j) = Some old → state old ≠ "COMPLETED") →
  let j' := {| document := document j; records := dict_set (effect_id r) r (records j) |} in
  journal_wf j' → journal_text j' = Ok text → extends f (WriterGeneration.Regular text).
Proof.
  intros [_ Hf] Hold j' Hj' Ht e v Hv. rewrite (journal_text_disk j' text e Hj' Ht). cbn [records j'].
  rewrite dict_get_set. specialize (Hf e).
  destruct (dict_get e (records j)) as [old|] eqn:Eo; [|congruence].
  destruct Hf as (v' & Hv' & Hwf & Hn). assert (v' = v) as -> by congruence.
  destruct (String.eqb_spec e (effect_id r)) as [->|Hne]; cbn [fmap option_fmap option_map].
  - eexists. split; [done|]. intros Hc. destruct (Hold _ Eo).
    eapply in_state_inj; [apply record_in_state|].
    eapply in_state_jnorm; [exact Hwf| |exact Hc]. done.
  - eexists. split; [done|]. intros _. rewrite jnorm_idem; [done|].
    by rewrite <- py_wf_jnorm, <- Hn, py_wf_jnorm.
Qed.

(** What one [put_record] does. *)
Definition put_spec (j : journal) (r : effect_record) (s : store) (out : result journal * store) : Prop :=
  match out with
  | (Ok j', s') => ∃ text,
      j' = {| document := document j; records := dict_set (effect_id r) r (records j) |} ∧
      s' = {| manifest := manifest s; journal_file := WriterGeneration.Regular text;
              trace := trace s ++ [Wrote text] |} ∧
      holds j' (WriterGeneration.Regular text) ∧
      extends (journal_file s) (WriterGeneration.Regular text)
  | (Err _, s') => s' = s
  end.
Lemma put_record_spec j r s :
  holds j (journal_file s) → record_wf r →
  (∀ old, dict_get (effect_id r) (records j) = Some old → state old ≠ "COMPLETED") →
  put_spec j r s (put_record j r s).
Proof.
  intros Hh Hr Hold. pose proof (holds_put j _ r Hh Hr) as Hj'.
  unfold put_record, _write_locked, mbind, prog_bind, lift, modify_state.
  destruct (journal_text _) as [text|e] eqn:Et; [|done]. exists text.
  split; [done|]. split; [done|]. split; [by apply journal_text_holds|].
  by eapply holds_extends.
Qed.

Lemma seal_spec r r' : seal r = Ok r' → ∃ h, r' = with_digest r h.
Proof. intros (h & _ & [= <-])%bind_Ok_inv. eauto. Qed.
Lemma completed_spec r v why r' : completed r v why = Ok r' →
  record_wf r → doc_ok v → doc_ok why →
  record_wf r' ∧ effect_id r' = effect_id r ∧ state r' = "COMPLETED" ∧ result_ r' = v.
Proof.
  intros (h & _ & (h' & ->)%seal_spec)%bind_Ok_inv (? & ? & ?) ??. by split_and!.
Qed.
Lemma with_state_spec r st why r' : seal (with_state r st why) = Ok r' →
  record_wf r → doc_ok why →
  record_wf r' ∧ effect_id r' = effect_id r ∧ state r' = st.
Proof. intros (h & ->)%seal_spec (? & ? & ?) ?. by split_and!. Qed.

(** ** Soundness of traces *)
Lemma extends_recorded f f' e : extends f f' → recorded f e → recorded f' e.
Proof. intros Hx [v Hv]. destruct (Hx e v Hv) as (v' & Hv' & _). by exists v'. Qed.
Lemma sound_mono (P Q : string → Prop) f tr : (∀ x, P x → Q x) → sound Q f tr → sound P f tr.
Proof.
  revert P Q f. induction tr as [|[text|e] tr IH]; intros P Q f HPQ; cbn; [done| |].
  - intros [??]. eauto.
  - intros (Hn & Hv & Hs). split; [auto|]. split; [done|].
    eapply IH; [|exact Hs]. intros x [?| ->]; auto.
Qed.
Lemma sound_recorded P f tr e : sound P f tr → recorded f e → recorded (replay f tr) e.
Proof.
  revert P f. induction tr as [|[text|x] tr IH]; intros P f; cbn; [done| |].
  - intros [Hx Hs] Hr. eapply IH; [exact Hs|]. by eapply extends_recorded.
  - intros (_ & _ & Hs) Hr. by eapply IH.
Qed.
Lemma sound_started P f tr e : sound P f tr → Dispatched e ∈ tr → recorded (replay f tr) e.
Proof.
  revert P f. induction tr as [|[text|x] tr IH]; intros P f; cbn; [set_solver| |].
  - intros [_ Hs] [?|Hin]%elem_of_cons; [done|]. by eapply IH.
  - intros (_ & (v & Hv & _) & Hs) [[= <-]|Hin]%elem_of_cons; [|by eapply IH].
    eapply sound_recorded; [exact Hs|]. by exists v.
Qed.
Lemma sound_app P f tr1 tr2 :
  sound P f tr1 → sound (λ x, P x ∨ Dispatched x ∈ tr1) (replay f tr1) tr2 → sound P f (tr1 ++ tr2).
Proof.
  revert P f. induction tr1 as [|[text|e] tr1 IH]; intros P f; cbn.
  - intros _. apply sound_mono. auto.
  - intros [Hx Hs] H2. split; [done|]. apply IH; [done|]. eapply sound_mono; [|exact H2].
    intros x [?|?]; [by left|right; by right].
  - intros (Hn & Hv & Hs) H2. split; [done|]. split; [done|]. apply IH; [done|].
    eapply sound_mono; [|exact H2]. intros x [[?| ->]|?]; [by left|right; by left|right; by right].
Qed.
Lemma replay_app f tr1 tr2 : replay f (tr1 ++ tr2) = replay (replay f tr1) tr2.
Proof. apply foldl_app. Qed.
Lemma evolves_trans s1 s2 s3 : evolves s1 s2 → evolves s2 s3 → evolves s1 s3.
Proof.
  intros (Hm & tr & Ht & Hf & Hs) (Hm' & tr' & Ht' & Hf' & Hs').
  split; [congruence|]. exists (tr ++ tr'). split; [by rewrite Ht', Ht, app_assoc|].
  split; [by rewrite Hf', Hf, replay_app|]. apply sound_app; [done|]. rewrite <- Hf.
  eapply sound_mono; [|exact Hs']. intros x [Hx|Hx]; rewrite Hf;
    [by eapply sound_recorded|by eapply sound_started].
Qed.

(** ** Programs that change nothing, and programs that evolve the store *)
Definition quiet {A} (m : prog store A) (Q : store → A → Prop) : Prop :=
  ∀ s, (m s).2 = s ∧ ∀ a, (m s).1 = Ok a → Q s a.
Definition evolving {A} (m : prog store A) (s : store) : Prop := evolves s (m s).2.

Lemma evolves_refl s : evolves s s.
Proof. split; [done|]. exists []. by rewrite app_nil_r. Qed.
Lemma quiet_lift {A} (r : result A) : quiet (lift r) (λ _ a, r = Ok a).
Proof. done. Qed.
Lemma quiet_get : quiet get_state (λ s a, a = s).
Proof. intros s. split; [done|]. by intros a [= <-]. Qed.
Lemma quiet_bind {A B} (m : prog store A) (f : A → prog store B) Q R :
  quiet m Q → (∀ a, quiet (f a) (λ s b, Q s a → R s b)) → quiet (m ≫= f) R.
Proof.
  intros Hm Hf s. destruct (Hm s) as [Hs HQ]. unfold mbind, prog_bind.
  destruct (m s) as [[a|e] s']; cbn in *; subst s'; [|done].
  destruct (Hf a s) as [Hs' HR]. split; [done|]. eauto.
Qed.
Lemma evolving_quiet {A} (m : prog store A) Q s : quiet m Q → evolving m s.
Proof. intros Hm. unfold evolving. destruct (Hm s) as [-> _]. apply evolves_refl. Qed.
Lemma evolving_bind {A B} (m : prog store A) (f : A → prog store B) Q s :
  quiet m Q → (∀ a, Q s a → evolving (f a) s) → evolving (m ≫= f) s.
Proof.
  intros Hm Hf. destruct (Hm s) as [Hs HQ]. unfold evolving, mbind, prog_bind.
  destruct (m s) as [[a|e] s']; cbn in *; subst s'; [|apply evolves_refl]. by apply Hf, HQ.
Qed.
Lemma evolving_lift {A} (r : result A) s : evolving (lift r) s.
Proof. apply evolves_refl. Qed.
Lemma evolving_ret {A} (a : A) s : evolving (mret a) s.
Proof. apply evolves_refl. Qed.
(** One write, then nothing more. *)
Lemma evolving_put {A} j r (f : journal → prog store A) s :
  holds j (journal_file s) → record_wf r →
  (∀ old, dict_get (effect_id r) (records j) = Some old → state old ≠ "COMPLETED") →
  (∀ j', quiet (f j') (λ _ _, True)) → evolving (put_record j r ≫= f) s.
Proof.
  intros Hh Hr Hold Hf. pose proof (put_record_spec j r s Hh Hr Hold) as Hp.
  unfold evolving, mbind, prog_bind, put_spec in *.
  destruct (put_record j r s) as [[j'|e] s']; cbn; [|subst; apply evolves_refl].
  destruct Hp as (text & -> & -> & _ & Hx). destruct (Hf
    {| document := document j; records := dict_set (effect_id r) r (records j) |}
    {| manifest := manifest s; journal_file := WriterGeneration.Regular text;
       trace := trace s ++ [Wrote text] |}) as [-> _].
  split; [done|]. exists [Wrote text]. by cbn.
Qed.

Context (gen : EventWriterGeneration) (root : string).
Lemma quiet_load :
  quiet (load gen root) (λ s j, holds j (journal_file s) ∧ Forall (λ kr, effect_id kr.2 = kr.1) (records j)).
Proof.
  unfold load. eapply quiet_bind with (Q := λ _ _, True).
  { unfold _check_generation. eapply quiet_bind; [apply quiet_get|]. intros s1.
    eapply quiet_bind; [apply quiet_lift|]. intros g s. by split. }
  intros _. eapply quiet_bind; [apply quiet_get|]. intros s1 s. split; [done|].
  intros j Hj E _. cbn in Hj. subst s1. exact (read_locked_holds _ _ _ _ Hj).
Qed.
Lemma holds_record j f e r : holds j f → dict_get e (records j) = Some r → record_wf r.
Proof.
  intros [(_ & _ & Ha) _] Hr%dict_get_In. rewrite Forall_forall in Ha. by apply (Ha (e, r)).
Qed.
Lemma loaded_id (rs : list (string * effect_record)) e r :
  Forall (λ kr, effect_id kr.2 = kr.1) rs → dict_get e rs = Some r → effect_id r = e.
Proof. intros Ha Hr%dict_get_In. rewrite Forall_forall in Ha. by apply (Ha (e, r)). Qed.
Lemma safe_result_wf v d : py_wf v = true → _safe_result v = Ok d → doc_ok v ∧ v = PDict d.
Proof.
  unfold _safe_result. destruct v as [| | | | | | |[|kv d']|]; try done.
  destruct (_canonical _) as [t|e] eqn:Ec; [|by destruct (exn_is _ e)].
  intros Hw [= <-]. split; [|done]. split; [done|].
  by apply canonical_json_Ok, json_dumps_Ok in Ec as (_ & ? & _).
Qed.
Lemma observed_result_wf r v d :
  py_wf v = true → _observed_result r v = Ok d → doc_ok (PDict d).
Proof.
  destruct v as [| | | | | | |o|]; try done. intros Hwf (u & _ & Hd)%bind_Ok_inv.
  apply safe_result_wf in Hd as [? <-]; [done|]. by apply py_wf_py_get.
Qed.
End writing.

(** ** The operations *)
Section operations.
Context `{FloatText} `{Digest} (gen : EventWriterGeneration) (root : string).

Ltac step_lift x Hx := eapply evolving_bind; [apply quiet_lift|]; cbn beta; intros x Hx.
Ltac step_load := eapply evolving_bind; [apply quiet_load|]; cbn beta; intros data [Hh Hids].

Lemma new_record_wf op effect subj digest r :
  seal (new_record gen root op effect subj digest) = Ok r →
  record_wf r ∧ effect_id r = effect ∧ state r = "PENDING".
Proof. intros (h & ->)%seal_spec. by split_and!. Qed.

Lemma reserve_evolving identity subj digest s : evolving (reserve gen root identity subj digest) s.
Proof.
  unfold reserve. step_lift op Hop. step_lift effect He. step_lift u1 H1. step_lift i Hi.
  step_lift u2 H2. step_load.
  destruct (dict_get effect (records data)) as [old|] eqn:Eo;
    [case_match; [apply evolving_ret|apply evolving_lift]|].
  step_lift r Hr. apply new_record_wf in Hr as (Hwf & Hid & _).
  apply evolving_put; [done|done|rewrite Hid, Eo; done|]. intros j' s'. by split.
Qed.
Lemma get_evolving e s : evolving (get gen root e) s.
Proof. unfold get. step_lift u Hu. step_load. apply evolving_ret. Qed.
Lemma unresolved_evolving subj s : evolving (unresolved_for_subject gen root subj) s.
Proof. unfold unresolved_for_subject. step_lift u Hu. step_load. apply evolving_ret. Qed.

Lemma transition_evolving e st value why s :
  py_wf value = true → evolving (transition gen root e st value why) s.
Proof.
  intros Hv. unfold transition. step_lift u Hu. step_load.
  destruct (dict_get e (records data)) as [old|] eqn:Eo; [|apply evolving_lift].
  pose proof (loaded_id _ _ _ Hids Eo) as Hid. pose proof (holds_record _ _ _ _ Hh Eo) as Hwf.
  destruct (String.eqb_spec (state old) "COMPLETED") as [|Hst].
  { step_lift u1 H1. step_lift u2 H2. apply evolving_ret. }
  step_lift r Hr. assert (record_wf r ∧ effect_id r = effect_id old) as [Hwf' Hid'].
  { destruct (String.eqb st "COMPLETED").
    - apply bind_Ok_inv in Hr as (d & Hd & Hc). apply safe_result_wf in Hd as [? _]; [|done].
      apply completed_spec in Hc as (? & ? & _); done.
    - apply with_state_spec in Hr as (? & ? & _); done. }
  apply evolving_put; [done|done|rewrite Hid', Hid, Eo; congruence|]. intros j' s'. by split.
Qed.

(** Resolving an uncertain record that is on file. *)
Lemma mark_unknown_evolving {A} data r why s e (a : prog store A) :
  holds data (journal_file s) → dict_get e (records data) = Some r → effect_id r = e →
  state r ≠ "COMPLETED" → quiet a (λ _ _, True) → evolving (mark_unknown data r why ≫= λ _, a) s.
Proof.
  intros Hh Hr Hid Hst Ha. pose proof (holds_record _ _ _ _ Hh Hr) as Hwf.
  destruct (seal (with_state r "UNKNOWN" (PStr why))) as [r'|x] eqn:Es.
  2: { unfold evolving, mark_unknown, mbind, prog_bind, lift. rewrite Es. apply evolves_refl. }
  assert ((mark_unknown data r why ≫= λ _, a) s = (put_record data r' ≫= λ _, a) s) as E.
  { unfold mark_unknown, mbind, prog_bind, lift. rewrite Es. by destruct (put_record data r' s) as [[|]]. }
  unfold evolving. rewrite E.
  apply with_state_spec in Es as (Hwf' & Hid' & _); [|done|done].
  apply (evolving_put data r' (λ _, a)); [done|done|rewrite Hid', Hid, Hr; congruence|done].
Qed.
Lemma finish_evolving {A} data r v s e (a : prog store A) :
  holds data (journal_file s) → dict_get e (records data) = Some r → effect_id r = e →
  state r ≠ "COMPLETED" → doc_ok v → quiet a (λ _ _, True) →
  evolving (finish data r v ≫= λ _, a) s.
Proof.
  intros Hh Hr Hid Hst Hv Ha. pose proof (holds_record _ _ _ _ Hh Hr) as Hwf.
  destruct (completed r v (PStr EmptyString)) as [r'|x] eqn:Es.
  2: { unfold evolving, finish, mbind, prog_bind, lift. rewrite Es. apply evolves_refl. }
  assert ((finish data r v ≫= λ _, a) s = (put_record data r' ≫= λ _, a) s) as E.
  { unfold finish, mbind, prog_bind, lift. rewrite Es. by destruct (put_record data r' s) as [[|]]. }
  unfold evolving. rewrite E.
  apply completed_spec in Es as (Hwf' & Hid' & _); [|done..].
  apply (evolving_put data r' (λ _, a)); [done|done|rewrite Hid', Hid, Hr; congruence|done].
Qed.

Lemma reconcile_evolving e observed s :
  py_wf observed = true → evolving (reconcile gen root e observed) s.
Proof.
  intros Ho. unfold reconcile. step_load.
  destruct (dict_get e (records data)) as [r|] eqn:Er; [|apply evolving_lift].
  pose proof (loaded_id _ _ _ Hids Er) as Hid.
  destruct (String.eqb_spec (state r) "COMPLETED") as [|Hst].
  { step_lift v Hv. step_lift h Hh'. step_lift u Hu. apply evolving_ret. }
  destruct (_observed_result r observed) as [v|exc] eqn:Ev.
  - apply observed_result_wf in Ev; [|done]. by eapply finish_evolving.
  - destruct (exn_is ExceptionC exc); [by eapply mark_unknown_evolving|apply evolving_lift].
Qed.

(** Values the reconcile callable returns are Python values. *)
Definition reconcile_wf (f : option (dict → result pyval)) : Prop :=
  ∀ g d v, f = Some g → g d = Ok v → py_wf v = true.
Definition outcome_wf (r : result pyval) : Prop := ∀ v, r = Ok v → py_wf v = true.

(** The part of [execute] for an effect with no record. *)
Lemma fresh_evolving data op effect subj digest outcome s :
  holds data (journal_file s) → dict_get effect (records data) = None → outcome_wf outcome →
  evolving (execute_fresh gen root data op effect subj digest outcome) s.
Proof.
  intros Hh He Ho. unfold execute_fresh. step_lift u Hu. step_lift pending Hp.
  apply new_record_wf in Hp as (Hpwf & Hpid & Hpst).
  pose proof (put_record_spec data pending s Hh Hpwf) as Hput1. rewrite Hpid in Hput1.
  specialize (Hput1 ltac:(intros old Hold; congruence)).
  unfold evolving, mbind at 1, prog_bind at 1.
  destruct (put_record data pending s) as [[data1|x] s1]; cbn [snd]; [|cbn in Hput1; subst; apply evolves_refl].
  destruct Hput1 as (t1 & -> & -> & Hh1 & Hx1). set (s1 := {| manifest := _ |}) in *.
  assert (evolves s s1) as Hev1 by (split; [done|]; exists [Wrote t1]; by cbn).
  unfold mbind at 1, prog_bind at 1, lift at 1.
  destruct (seal _) as [r|x] eqn:Es; cbn [snd]; [|exact Hev1].
  apply with_state_spec in Es as (Hrwf & Hrid & Hrst); [|done|apply Hpwf].
  rewrite Hpid in Hrid, Hh1. rewrite Hpid.
  set (data1 := {| document := document data; records := dict_set effect pending (records data) |}) in *.
  pose proof (put_record_spec data1 r s1 Hh1 Hrwf) as Hput2. rewrite Hrid in Hput2.
  cbn [records data1] in Hput2. rewrite dict_get_set_eq in Hput2.
  specialize (Hput2 ltac:(intros old [= <-]; by rewrite Hpst)).
  unfold mbind at 1, prog_bind at 1.
  destruct (put_record data1 r s1) as [[data2|x] s2]; cbn [snd]; [|cbn in Hput2; subst; exact Hev1].
  destruct Hput2 as (t2 & -> & -> & Hh2 & Hx2). rewrite Hrid in *.
  set (data2 := {| document := document data1; records := dict_set effect r (records data1) |}) in *.
  assert (dict_get effect (records data2) = Some r) as Hget by apply dict_get_set_eq.
  set (s3 := {| manifest := manifest s; journal_file := WriterGeneration.Regular t2;
                trace := ((trace s ++ [Wrote t1]) ++ [Wrote t2]) ++ [Dispatched effect] |}).
  assert (evolves s s3) as Hev3.
  { split; [done|]. exists [Wrote t1; Wrote t2; Dispatched effect].
    split; [by cbn; rewrite <- !app_assoc|]. split; [done|]. cbn [sound].
    split; [done|]. split; [done|]. split_and!; [| |done].
    - intros [v Hv]. destruct Hh as [_ Hh]. specialize (Hh effect). rewrite He in Hh. congruence.
    - destruct Hh2 as [_ Hh2]. specialize (Hh2 effect). rewrite Hget in Hh2.
      destruct Hh2 as (v & Hv & Hvwf & Hvj). exists v. split; [done|].
      eapply in_state_jnorm_back; [exact Hvwf|exact Hvj|]. rewrite <- Hrst. apply record_in_state. }
  eapply evolves_trans; [exact Hev3|].
  set (called := v ← outcome; _ ← _safe_result v; Ok v).
  match goal with |- evolves _ ?x => assert (x = (conclude data2 r called s3).2) as -> end.
  { unfold mbind at 1, prog_bind at 1, attempt, start_effect, modify_state, lift.
    unfold mbind, prog_bind, result_bind in *. subst called s3.
    destruct outcome as [v|x]; [|done]. cbn. by destruct (_safe_result v). }
  unfold conclude. assert (state r ≠ "COMPLETED") as Hrc by by rewrite Hrst.
  destruct called as [v|x] eqn:Ec.
  - apply (finish_evolving data2 r v s3 effect); try done.
    apply bind_Ok_inv in Ec as (v' & Hv' & (d & Hd & [= <-])%bind_Ok_inv).
    apply safe_result_wf in Hd as [? _]; [done|]. by apply Ho.
  - by apply (mark_unknown_evolving data2 r _ s3 effect).
Qed.

Lemma observation_wf r f v :
  reconcile_wf f →
  (observed ← match f with Some g => g (record_dict r) | None => Ok PNone end;
   _ ← raise_if (is_none observed) EffectJournalError "EFFECT_RECONCILE_UNAVAILABLE";
   _observed_result r observed) = Ok v → doc_ok (PDict v).
Proof.
  intros Hf (o & Ho & (u & _ & Hv)%bind_Ok_inv)%bind_Ok_inv.
  apply observed_result_wf in Hv; [done|]. destruct f as [g|]; [by eapply Hf|]. by injection Ho as <-.
Qed.
Lemma execute_evolving identity subj digest outcome f s :
  outcome_wf outcome → reconcile_wf f →
  evolving (execute gen root identity subj digest outcome f) s.
Proof.
  intros Ho Hf. unfold execute. step_lift effect He. step_lift op Hop. step_lift i Hi. step_lift u Hu.
  step_load. destruct (dict_get effect (records data)) as [r|] eqn:Er; [|by apply fresh_evolving].
  pose proof (loaded_id _ _ _ Hids Er) as Hid.
  destruct (negb (same_binding _ _ _ _ _)); [apply evolving_lift|].
  destruct (String.eqb_spec (state r) "COMPLETED") as [|Hst]; [apply evolving_ret|].
  cbv zeta. destruct (observed ← match f with Some g => g (record_dict r) | None => Ok PNone end; _)
    as [v|exc] eqn:Eo.
  - apply observation_wf in Eo; [|done]. by eapply finish_evolving.
  - destruct (exn_is ExceptionC exc); [by eapply mark_unknown_evolving|apply evolving_lift].
Qed.
End operations.

(** * Runs, interrupted anywhere *)
Section runs.
Context `{FloatText} `{Digest}.

(** One call, by a journal of some generation on some root, or an install. *)
Inductive operation : Type :=
| Reserve (gen : EventWriterGeneration) (root : string) (identity subj digest : pyval)
| Get (gen : EventWriterGeneration) (root e : string)
| Unresolved (gen : EventWriterGeneration) (root subj : string)
| Transition (gen : EventWriterGeneration) (root e st : string) (value why : pyval)
| Reconcile (gen : EventWriterGeneration) (root e : string) (observed : pyval)
| Execute (gen : EventWriterGeneration) (root : string) (identity subj digest : pyval)
    (dispatch : result pyval) (reconcile : option (dict → result pyval))
| Install (gen : EventWriterGeneration) (expected : pyval).
Definition run_op (o : operation) (s : store) : store :=
  match o with
  | Reserve g r i sj d => (reserve g r i sj d s).2
  | Get g r e => (get g r e s).2
  | Unresolved g r sj => (unresolved_for_subject g r sj s).2
  | Transition g r e st v w => (transition g r e st v w s).2
  | Reconcile g r e o => (reconcile g r e o s).2
  | Execute g r i sj d out f => (execute g r i sj d out f s).2
  | Install g x => {| manifest := (WriterGeneration.install_generation g x (manifest s)).2;
                      journal_file := journal_file s; trace := trace s |}
  end.
(** Arguments supplied by host code are Python values. *)
Definition operation_wf (o : operation) : Prop :=
  match o with
  | Transition _ _ _ _ v _ => py_wf v = true
  | Reconcile _ _ _ o => py_wf o = true
  | Execute _ _ _ _ _ out f => outcome_wf out ∧ reconcile_wf f
  | _ => True
  end.

(** A call that may be cut off after any of its effects on the world: what it wrote and
    started up to there stays. *)
Inductive interrupted_run : store → store → Prop :=
| interrupt o s pre post m : operation_wf o → trace (run_op o s) = trace s ++ pre ++ post →
    m = manifest s ∨ m = manifest (run_op o s) →
    interrupted_run s {| manifest := m; journal_file := replay (journal_file s) pre;
                         trace := trace s ++ pre |}.

Lemma run_op_evolves o s : operation_wf o →
  ∃ tr, trace (run_op o s) = trace s ++ tr ∧ sound (recorded (journal_file s)) (journal_file s) tr.
Proof.
  intros Ho. destruct o; cbn [run_op]; try (by exists []; rewrite app_nil_r);
    match goal with |- context [(?m s).2] =>
      assert (evolving m s) as (_ & tr & Ht & _ & Hs) end; eauto using reserve_evolving, get_evolving,
      unresolved_evolving, transition_evolving, reconcile_evolving.
  destruct Ho. by apply execute_evolving.
Qed.
Lemma sound_prefix P f tr tr' : sound P f (tr ++ tr') → sound P f tr.
Proof.
  revert P f. induction tr as [|[text|e] tr IH]; intros P f; cbn; [done| |].
  - intros [??]; eauto.
  - intros (?&?&?); eauto.
Qed.

(** Any sequence of interrupted calls leaves a sound trace. *)
Lemma interrupted_sound s0 s :
  rtc interrupted_run s0 s → trace s0 = [] →
  journal_file s = replay (journal_file s0) (trace s) ∧
  sound (recorded (journal_file s0)) (journal_file s0) (trace s).
Proof.
  intros Hr Ht. revert s Hr. apply (rtc_ind_r (λ s, journal_file s = replay (journal_file s0) (trace s) ∧
    sound (recorded (journal_file s0)) (journal_file s0) (trace s))); [by rewrite Ht|].
  intros s s' _ Hs [Hf Hsound]. destruct Hs as [o s pre post m Ho Htr Hm]. cbn [journal_file trace].
  destruct (run_op_evolves o s Ho) as (tr & Htr' & Hs'). rewrite Htr' in Htr. simplify_list_eq.
  apply sound_prefix in Hs'. split; [by rewrite replay_app, <- Hf|].
  apply sound_app; [done|]. rewrite <- Hf. eapply sound_mono; [|exact Hs'].
  intros x [Hx|Hx]; rewrite Hf; [by eapply sound_recorded|by eapply sound_started].
Qed.

(** A sound trace starts an effect at most once, and only an unrecorded one. *)
Lemma starts_cons e ev tr : starts e (ev :: tr) = (if is_start e ev then 1 else 0) + starts e tr.
Proof. unfold starts. cbn. by destruct (is_start e ev). Qed.
Lemma sound_starts P f tr e : sound P f tr → starts e tr ≤ 1 ∧ (P e → starts e tr = 0).
Proof.
  revert P f. induction tr as [|[text|x] tr IH]; intros P f; [split; [cbn; lia|done]| |].
  - intros [_ Hs]. rewrite starts_cons. cbn [is_start]. apply (IH _ _ Hs).
  - intros (Hn & _ & Hs). rewrite starts_cons. cbn [is_start].
    destruct (IH _ _ Hs) as [Hle Hz]. destruct (String.eqb_spec e x) as [->|].
    + rewrite Hz by by right. by split.
    + split; [done|]. intros Hp. apply Hz. by left.
Qed.
Lemma sound_marked P f pre e post : sound P f (pre ++ Dispatched e :: post) →
  ∃ v, disk_record (replay f pre) e = Some v ∧ in_state "DISPATCHED" v.
Proof.
  revert P f. induction pre as [|[text|x] pre IH]; intros P f; cbn.
  - by intros (_ & ? & _).
  - intros [_ Hs]. by eapply IH.
  - intros (_ & _ & Hs). by eapply IH.
Qed.
Lemma in_state_jnorm_eq st v w : py_wf v = true → jnorm v = jnorm w → in_state st v → in_state st (jnorm w).
Proof. intros Hv E Hs. rewrite <- E. by eapply in_state_jnorm. Qed.
Lemma disk_record_wf f e v : disk_record f e = Some v → py_wf v = true.
Proof.
  destruct f as [| | | |text]; try done. cbn. destruct (json_loads text) as [d|] eqn:E; [|done].
  apply json_loads_wf in E. destruct d as [| | | | | | |d|]; try done.
  apply (py_wf_py_get _ "records") in E. destruct (py_get d "records") eqn:Er; try done.
  intros Hv. by eapply py_wf_get.
Qed.
Lemma sound_completed P f tr e v :
  sound P f tr → disk_record f e = Some v → in_state "COMPLETED" v →
  ∃ v', disk_record (replay f tr) e = Some v' ∧ jnorm v' = jnorm v.
Proof.
  revert P f v. induction tr as [|[text|x] tr IH]; intros P f v; cbn; [eauto| |].
  - intros [Hx Hs] Hv Hc. destruct (Hx e v Hv) as (v' & Hv' & Hj). specialize (Hj Hc).
    assert (in_state "COMPLETED" v') as Hc'.
    { eapply in_state_jnorm_back; [by eapply disk_record_wf|exact Hj|].
      apply (in_state_jnorm _ v); [by eapply disk_record_wf|done|done]. }
    destruct (IH _ _ _ Hs Hv' Hc') as (v'' & ? & ?). exists v''. split; [done|]. congruence.
  - intros (_ & _ & Hs) Hv Hc. by eapply IH.
Qed.
End runs.

(** * What [execute] returns *)
Section results.
Context `{FloatText} `{Digest} (gen : EventWriterGeneration) (root : string).

Lemma put_record_total j r s :
  holds j (journal_file s) → record_wf r →
  (∀ old, dict_get (effect_id r) (records j) = Some old → state old ≠ "COMPLETED") →
  ∃ text, put_record j r s =
    (Ok {| document := document j; records := dict_set (effect_id r) r (records j) |},
     {| manifest := manifest s; journal_file := WriterGeneration.Regular text;
        trace := trace s ++ [Wrote text] |}) ∧
    holds {| document := document j; records := dict_set (effect_id r) r (records j) |}
      (WriterGeneration.Regular text).
Proof.
  intros Hh Hr Hold. pose proof (holds_put j _ r Hh Hr) as Hj'.
  destruct (journal_text_Ok _ Hj') as [text Ht]. exists text.
  split; [|by apply journal_text_holds].
  unfold put_record, _write_locked, mbind, prog_bind, lift, modify_state. by rewrite Ht.
Qed.
Lemma canonical_digest_Ok v : json_check false v = Ok () → ∃ h, canonical_digest v = Ok h.
Proof.
  intros Hc. unfold canonical_digest, canonical_sha256, canonical_json, json_dumps.
  rewrite json_check_jnorm by done. cbn. eauto.
Qed.
Lemma safe_result_check v d : _safe_result v = Ok d → json_check false v = Ok ().
Proof.
  unfold _safe_result. destruct v as [| | | | | | |[|kv d']|]; try done.
  destruct (_canonical _) as [t|e] eqn:Ec; [|by destruct (exn_is _ e)]. intros _.
  apply canonical_json_Ok, json_dumps_Ok in Ec as (Hc & _). by apply json_check_jnorm_inv.
Qed.
(** Everything that goes into the digest of the record can be hashed. *)
Definition sealable (r : effect_record) : Prop :=
  json_check false (operation_id r) = Ok () ∧ json_check false (result_ r) = Ok () ∧
  json_check false (reason r) = Ok ().
Lemma seal_total r : sealable r → ∃ h, seal r = Ok (with_digest r h).
Proof.
  intros (H1 & H2 & H3). unfold seal, _digest_record.
  destruct (canonical_digest_Ok (PDict (unsigned r))) as [h Hh].
  - cbn. by rewrite H1, H2, H3.
  - exists h. by rewrite Hh.
Qed.
Lemma completed_total r v why :
  sealable r → json_check false v = Ok () → json_check false why = Ok () →
  ∃ h h', completed r v why = Ok (with_digest (with_state (with_result r v h) "COMPLETED" why) h').
Proof.
  intros (H1 & H2 & H3) Hv Hw. unfold completed. destruct (canonical_digest_Ok v Hv) as [h Hh].
  rewrite Hh. cbn [mbind result_bind].
  destruct (seal_total (with_state (with_result r v h) "COMPLETED" why)) as [h' Hh']; [done|].
  rewrite Hh'. eauto.
Qed.

(** The stored record of an effect: its state and result. *)
Definition stored (f : file) (e st : string) (v : pyval) : Prop :=
  ∃ raw, disk_record f e = Some (PDict raw) ∧ py_get raw "state" = PStr st ∧
    jnorm (py_get raw "result") = jnorm v.
Lemma holds_stored j f e r :
  holds j f → dict_get e (records j) = Some r → stored f e (state r) (result_ r).
Proof.
  intros [_ Hf] Hr. specialize (Hf e). rewrite Hr in Hf. destruct Hf as (v & Hv & Hwf & Hj).
  assert (∃ d', jnorm (PDict (record_dict r)) = PDict d') as [d' Hd'] by (cbn; eauto).
  rewrite Hd' in Hj. destruct v as [| | | | | | |raw|]; try done. exists raw. split; [done|].
  pose proof (λ k, py_get_jnorm raw d' k (py_wf_nodup _ Hwf) Hj) as G.
  pose proof (λ k, py_get_jnorm (record_dict r) d' k record_keys_nodup Hd') as G'.
  split.
  - pose proof (G "state") as E. rewrite G' in E. cbn in E. by destruct (py_get raw "state").
  - rewrite <- G, G'. done.
Qed.

Lemma mark_unknown_total data r why s e :
  holds data (journal_file s) → dict_get e (records data) = Some r → effect_id r = e →
  state r ≠ "COMPLETED" → sealable r →
  ∃ text, mark_unknown data r why s =
    (Ok tt, {| manifest := manifest s; journal_file := WriterGeneration.Regular text;
               trace := trace s ++ [Wrote text] |}) ∧
    stored (WriterGeneration.Regular text) e "UNKNOWN" (result_ r).
Proof.
  intros Hh Hr Hid Hst (S1 & S2 & S3). pose proof (holds_record _ _ _ _ Hh Hr) as (W1 & W2 & W3).
  destruct (seal_total (with_state r "UNKNOWN" (PStr why))) as [h Hs]; [done|].
  set (r' := with_digest (with_state r "UNKNOWN" (PStr why)) h) in *.
  destruct (put_record_total data r' s) as (text & Hput & Hh'); [done|by split_and!| |].
  { cbn. rewrite Hid, Hr. congruence. }
  exists text. split.
  - unfold mark_unknown, mbind, prog_bind, lift. by rewrite Hs, Hput.
  - assert (effect_id r' = e) as Hid' by done. rewrite Hid' in Hh'.
    apply (holds_stored _ _ e r' Hh'). apply dict_get_set_eq.
Qed.
Lemma finish_total data r v s e :
  holds data (journal_file s) → dict_get e (records data) = Some r → effect_id r = e →
  state r ≠ "COMPLETED" → sealable r → doc_ok v → json_check false v = Ok () →
  ∃ text, finish data r v s =
    (Ok tt, {| manifest := manifest s; journal_file := WriterGeneration.Regular text;
               trace := trace s ++ [Wrote text] |}) ∧
    stored (WriterGeneration.Regular text) e "COMPLETED" v.
Proof.
  intros Hh Hr Hid Hst Hse Hv Hc. pose proof (holds_record _ _ _ _ Hh Hr) as (W1 & W2 & W3).
  destruct (completed_total r v (PStr EmptyString)) as (h & h' & Hs); [done..|].
  set (r' := with_digest _ h') in *.
  destruct (put_record_total data r' s) as (text & Hput & Hh'); [done|by split_and!| |].
  { cbn. rewrite Hid, Hr. congruence. }
  exists text. split.
  - unfold finish, mbind, prog_bind, lift. by rewrite Hs, Hput.
  - assert (effect_id r' = e) as Hid' by done. rewrite Hid' in Hh'.
    apply (holds_stored _ _ e r' Hh'). apply dict_get_set_eq.
Qed.

(** The outcome of starting an effect: what it returned, if that is a result. *)
Definition effect_outcome (outcome : result pyval) : result pyval :=
  v ← outcome; _ ← _safe_result v; Ok v.
Lemma execute_fresh_total data op effect subj digest outcome s :
  holds data (journal_file s) → dict_get effect (records data) = None → outcome_wf outcome →
  nonempty_text subj = true → nonempty_text digest = true →
  ∃ t1 t2 t3, execute_fresh gen root data op effect subj digest outcome s =
    (effect_outcome outcome,
     {| manifest := manifest s; journal_file := WriterGeneration.Regular t3;
        trace := trace s ++ [Wrote t1; Wrote t2; Dispatched effect; Wrote t3] |}) ∧
    match effect_outcome outcome with
    | Ok v => stored (WriterGeneration.Regular t3) effect "COMPLETED" v
    | Err _ => stored (WriterGeneration.Regular t3) effect "UNKNOWN" PNone
    end.
Proof.
  intros Hh He Ho Hsub Hdig. set (p := new_record gen root op effect (text_of subj) (text_of digest)).
  destruct (seal_total p) as [h1 Hs1]; [done|]. set (pending := with_digest p h1) in *.
  destruct (put_record_total data pending s) as (t1 & Hp1 & Hh1); [done|by split_and!|cbn; by rewrite He|].
  destruct (seal_total (with_state pending "DISPATCHED" (reason pending))) as [h2 Hs2]; [done|].
  set (r := with_digest _ h2) in *. set (data1 := {| document := _ |}) in *.
  set (s1 := {| manifest := _; journal_file := _; trace := trace s ++ [Wrote t1] |}) in *.
  destruct (put_record_total data1 r s1) as (t2 & Hp2 & Hh2); [done|by split_and!| |].
  { cbn. rewrite dict_get_set_eq. intros old Hold. injection Hold as <-. discriminate. }
  set (data2 := {| document := document data1; records := _ |}) in *.
  set (s2 := {| manifest := _; journal_file := _; trace := trace s1 ++ [Wrote t2] |}) in *.
  set (s3 := {| manifest := manifest s; journal_file := WriterGeneration.Regular t2;
                trace := trace s2 ++ [Dispatched effect] |}).
  assert (dict_get effect (records data2) = Some r) as Hget by apply dict_get_set_eq.
  assert (execute_fresh gen root data op effect subj digest outcome s
          = conclude data2 r (effect_outcome outcome) s3) as ->.
  { unfold execute_fresh. rewrite Hsub, Hdig. fold p.
    unfold attempt, start_effect, modify_state, lift, mbind, prog_bind. cbn [negb orb raise_if].
    rewrite Hs1, Hp1, Hs2, Hp2. unfold effect_outcome. destruct outcome as [v|x]; [|done].
    unfold mbind, result_bind. by destruct (_safe_result v). }
  unfold conclude, mbind, prog_bind, lift. destruct (effect_outcome outcome) as [v|x] eqn:Eo.
  - apply bind_Ok_inv in Eo as (v' & Hv' & (d & Hd & [= <-])%bind_Ok_inv).
    pose proof (safe_result_check _ _ Hd) as Hc. apply safe_result_wf in Hd as [Hok _]; [|by apply Ho].
    destruct (finish_total data2 r v' s3 effect) as (t3 & Hf & Hst); try done.
    rewrite Hf. exists t1, t2, t3. split; [|done]. cbn. by rewrite <- !app_assoc.
  - destruct (mark_unknown_total data2 r ("dispatch_uncertain:" +:+ exn_class_name (exn_type x)) s3 effect)
      as (t3 & Hf & Hst); try done.
    rewrite Hf. exists t1, t2, t3. split; [|done]. cbn. by rewrite <- !app_assoc.
Qed.

(** ** Records read back can be sealed again *)
Lemma json_check_get n d k v :
  json_check n (PDict d) = Ok () → dict_get k d = Some v → json_check n v = Ok ().
Proof.
  induction d as [|[k' w] d IH]; [done|]. cbn. intros ([] & Hw & Hd)%bind_Ok_inv.
  destruct (String.eqb k k'); [by intros [= <-]|by apply IH].
Qed.
Lemma read_record_sealable kv k r : read_record gen root kv = Ok (k, r) → sealable r.
Proof.
  destruct kv as [key v]. unfold read_record. destruct v as [| | | | | | |raw|]; try done. intros Hr.
  apply bind_Ok_inv in Hr as (? & _ & Hr). do 4 apply bind_Ok_inv in Hr as (? & _ & Hr).
  apply bind_Ok_inv in Hr as (h & Hh & Hr). apply bind_Ok_inv in Hr as (? & _ & Hr).
  injection Hr as <- <-.
  apply bind_Ok_inv in Hh as (t & Ht & _). apply canonical_json_Ok, json_dumps_Ok in Ht as (Hc & _).
  apply json_check_jnorm_inv in Hc.
  assert (∀ f, f ≠ "record_digest" → json_check false (py_get raw f) = Ok ()) as G.
  { intros f Hf. unfold py_get. destruct (dict_get f raw) as [v|] eqn:Ev; [|done].
    eapply json_check_get; [exact Hc|]. by rewrite dict_get_del_ne. }
  by split_and!; apply G.
Qed.
Lemma read_locked_sealable f j e r :
  _read_locked gen root f = Ok j → dict_get e (records j) = Some r → sealable r.
Proof.
  intros Hj Hr%dict_get_In. destruct f as [| | | |text]; try done; cbn [_read_locked] in Hj.
  { injection Hj as <-. by apply elem_of_nil in Hr. }
  apply bind_Ok_inv in Hj as (data & _ & Hj). destruct data as [| | | | | | |data|]; try done.
  destruct (is_text _ _); [|done]. destruct (py_get data "records") as [| | | | | | |raw|]; try done.
  apply bind_Ok_inv in Hj as (rs & Hrs%mapM_result_Ok_inv & [= <-]). cbn in Hr.
  apply list_elem_of_In in Hr. induction Hrs as [|kv [k r'] raw rs Hx _ IH]; [done|].
  destruct Hr as [[= -> ->]|Hr]; [by eapply read_record_sealable|by apply IH].
Qed.

(** A call of [execute] that gets past the checks on its arguments, to the loaded journal. *)
Record called (s : store) (identity subj digest : pyval) (effect op : string) (data : journal) : Prop := {
  called_effect : deterministic_effect_id identity = Ok effect;
  called_op : operation_digest identity = Ok op;
  called_digest : ∃ i, identity = PDict i ∧ py_eq (py_get i "request_digest") digest = true;
  called_manifest : WriterGeneration.read_generation (manifest s) = Ok (Some gen);
  called_journal : _read_locked gen root (journal_file s) = Ok data
}.
Lemma load_called s data :
  WriterGeneration.read_generation (manifest s) = Ok (Some gen) →
  _read_locked gen root (journal_file s) = Ok data → load gen root s = (Ok data, s).
Proof.
  intros Hm Hj. unfold load, _check_generation, mbind, prog_bind, lift, get_state.
  by rewrite Hm, bool_decide_true, Hj.
Qed.
(** Resolving a record that is not completed, by an observation. *)
Definition resolve (data : journal) (existing : effect_record) (observation : result dict) :
    prog store pyval :=
  match observation with
  | Err exc =>
      if exn_is ExceptionC exc then
        _ ← mark_unknown data existing ("reconcile_failed:" +:+ exn_class_name (exn_type exc)); mret PNone
      else lift (Err exc)
  | Ok v => _ ← finish data existing (PDict v); mret (PDict v)
  end.
Definition observe (existing : effect_record) (f : option (dict → result pyval)) : result dict :=
  observed ← match f with Some g => g (record_dict existing) | None => Ok PNone end;
  _ ← raise_if (is_none observed) EffectJournalError "EFFECT_RECONCILE_UNAVAILABLE";
  _observed_result existing observed.
Lemma execute_called s identity subj digest effect op data outcome f :
  called s identity subj digest effect op data →
  execute gen root identity subj digest outcome f s =
    match dict_get effect (records data) with
    | Some existing =>
        if negb (same_binding gen existing op subj digest)
        then (raise EffectIdentityMismatch "EFFECT_IDENTITY_MISMATCH", s)
        else if String.eqb (state existing) "COMPLETED" then (Ok (result_ existing), s)
        else resolve data existing (observe existing f) s
    | None => execute_fresh gen root data op effect subj digest outcome s
    end.
Proof.
  intros [He Ho (i & -> & Hd) Hm Hj]. pose proof (load_called _ _ Hm Hj) as Hl.
  unfold execute. rewrite He, Ho. cbn [as_mapping].
  unfold mbind at 1 2 3 4 5, prog_bind at 1 2 3 4 5, lift at 1 2 3 4. rewrite Hd. cbn [raise_if negb].
  rewrite Hl. destruct (dict_get effect (records data)) as [r|]; [|done].
  destruct (negb _); [done|]. by destruct (String.eqb _ _).
Qed.

Lemma resolve_total data r observation s e :
  holds data (journal_file s) → dict_get e (records data) = Some r → effect_id r = e →
  state r ≠ "COMPLETED" → sealable r →
  (∀ v, observation = Ok v → doc_ok (PDict v) ∧ json_check false (PDict v) = Ok ()) →
  match observation with
  | Ok v => ∃ t, resolve data r observation s =
      (Ok (PDict v), {| manifest := manifest s; journal_file := WriterGeneration.Regular t;
                        trace := trace s ++ [Wrote t] |}) ∧
      stored (WriterGeneration.Regular t) e "COMPLETED" (PDict v)
  | Err x =>
      if exn_is ExceptionC x then ∃ t, resolve data r observation s =
        (Ok PNone, {| manifest := manifest s; journal_file := WriterGeneration.Regular t;
                      trace := trace s ++ [Wrote t] |}) ∧
        stored (WriterGeneration.Regular t) e "UNKNOWN" (result_ r)
      else resolve data r observation s = (Err x, s)
  end.
Proof.
  intros Hh Hr Hid Hst Hse Hobs. unfold resolve, mbind, prog_bind, lift. destruct observation as [v|x].
  - destruct (Hobs v eq_refl) as [Hok Hc].
    destruct (finish_total data r (PDict v) s e) as (t & Hf & Hs); try done. exists t. by rewrite Hf.
  - destruct (exn_is ExceptionC x); [|done].
    destruct (mark_unknown_total data r ("reconcile_failed:" +:+ exn_class_name (exn_type x)) s e)
      as (t & Hf & Hs); try done. exists t. by rewrite Hf.
Qed.
Lemma observe_ok r f v : reconcile_wf f → observe r f = Ok v →
  doc_ok (PDict v) ∧ json_check false (PDict v) = Ok ().
Proof.
  intros Hf Ho. split; [by eapply observation_wf|].
  apply bind_Ok_inv in Ho as (o & _ & (u & _ & Hv)%bind_Ok_inv).
  destruct o as [| | | | | | |o|]; try done. apply bind_Ok_inv in Hv as (u' & _ & Hv).
  pose proof (safe_result_check _ _ Hv) as Hc. unfold _safe_result in Hv.
  destruct (py_get o "result") as [| | | | | | |[|kv d]|]; try done.
  destruct (_canonical _); [|by destruct (exn_is _ _)]. by injection Hv as <-.
Qed.
End results.

(** * Properties *)
Section properties.
Context `{FloatText} `{Digest}.

(** C1: at most once.  Over any sequence of calls, by journals of any generations and
    roots, each cut off at any point, with any outcomes of the effects and any content of
    the files at the start, no effect is started twice; an effect that already had a
    record is not started at all. *)
Theorem effect_started_at_most_once (s0 s : store) (e : string) :
  trace s0 = [] → rtc interrupted_run s0 s →
  starts e (trace s) ≤ 1 ∧ (recorded (journal_file s0) e → starts e (trace s) = 0).
Proof.
  intros Ht Hr. destruct (interrupted_sound s0 s Hr Ht) as [_ Hs].
  by apply (sound_starts _ _ _ e) in Hs.
Qed.

(** C2: write-ahead.  Whenever an effect is started, the journal file on disk at that
    moment already holds its record in state DISPATCHED. *)
Theorem effect_recorded_before_start (s0 s : store) (e : string) (pre post : list event) :
  trace s0 = [] → rtc interrupted_run s0 s → trace s = pre ++ Dispatched e :: post →
  ∃ v, disk_record (replay (journal_file s0) pre) e = Some v ∧ in_state "DISPATCHED" v.
Proof.
  intros Ht Hr Htr. destruct (interrupted_sound s0 s Hr Ht) as [_ Hs]. rewrite Htr in Hs.
  by eapply sound_marked.
Qed.

(** A completed record is final: no sequence of interrupted calls removes it or
    changes any of its members. *)
Theorem completed_record_final (s0 s : store) (e : string) (v : pyval) :
  trace s0 = [] → rtc interrupted_run s0 s →
  disk_record (journal_file s0) e = Some v → in_state "COMPLETED" v →
  ∃ v', disk_record (journal_file s) e = Some v' ∧ jnorm v' = jnorm v.
Proof.
  intros Ht Hr Hv Hc. destruct (interrupted_sound s0 s Hr Ht) as [-> Hs].
  by eapply sound_completed.
Qed.

(** Executing an effect without a record starts it exactly once, after two durable
    writes, returns or raises what the effect did (a result that is not a non-empty JSON
    mapping is an error), and leaves the record COMPLETED with that result or UNKNOWN. *)
Theorem execute_new_effect (gen : EventWriterGeneration) (root : string) (s : store)
    (identity subj digest : pyval) (effect op : string) (data : journal) (outcome : result pyval)
    (f : option (dict → result pyval)) :
  called gen root s identity subj digest effect op data →
  dict_get effect (records data) = None → nonempty_text subj = true → nonempty_text digest = true →
  outcome_wf outcome →
  ∃ t1 t2 t3, execute gen root identity subj digest outcome f s =
    (effect_outcome outcome,
     {| manifest := manifest s; journal_file := WriterGeneration.Regular t3;
        trace := trace s ++ [Wrote t1; Wrote t2; Dispatched effect; Wrote t3] |}) ∧
    match effect_outcome outcome with
    | Ok v => stored (WriterGeneration.Regular t3) effect "COMPLETED" v
    | Err _ => stored (WriterGeneration.Regular t3) effect "UNKNOWN" PNone
    end.
Proof.
  intros Hc He Hs Hd Ho. rewrite (execute_called _ _ _ _ _ _ _ _ _ _ _ Hc), He.
  destruct (read_locked_holds _ _ _ _ (called_journal _ _ _ _ _ _ _ _ _ Hc)) as [Hh _].
  by apply execute_fresh_total.
Qed.

(** Executing an effect that has a record never starts it.  A completed one gives its
    recorded result and changes nothing; any other is resolved by the observation: the
    observed result becomes the recorded one, or the record is left UNKNOWN and nothing
    is returned (an exit exception passes through). *)
Theorem execute_known_effect (gen : EventWriterGeneration) (root : string) (s : store)
    (identity subj digest : pyval) (effect op : string) (data : journal) (r : effect_record)
    (outcome : result pyval) (f : option (dict → result pyval)) :
  called gen root s identity subj digest effect op data →
  dict_get effect (records data) = Some r → same_binding gen r op subj digest = true →
  reconcile_wf f →
  let out := execute gen root identity subj digest outcome f s in
  if String.eqb (state r) "COMPLETED" then out = (Ok (result_ r), s)
  else match observe r f with
  | Ok v => ∃ t, out = (Ok (PDict v),
      {| manifest := manifest s; journal_file := WriterGeneration.Regular t;
         trace := trace s ++ [Wrote t] |}) ∧ stored (WriterGeneration.Regular t) effect "COMPLETED" (PDict v)
  | Err x =>
      if exn_is ExceptionC x then ∃ t, out = (Ok PNone,
        {| manifest := manifest s; journal_file := WriterGeneration.Regular t;
           trace := trace s ++ [Wrote t] |}) ∧ stored (WriterGeneration.Regular t) effect "UNKNOWN" (result_ r)
      else out = (Err x, s)
  end.
Proof.
  intros Hc He Hb Hf out. subst out. rewrite (execute_called _ _ _ _ _ _ _ _ _ _ _ Hc), He, Hb. cbn [negb].
  destruct (String.eqb_spec (state r) "COMPLETED") as [|Hst]; [done|].
  pose proof (called_journal _ _ _ _ _ _ _ _ _ Hc) as Hj.
  destruct (read_locked_holds _ _ _ _ Hj) as [Hh Hids].
  apply resolve_total; try done; [by eapply loaded_id|by eapply read_locked_sealable|].
  intros v Hv. by eapply observe_ok.
Qed.
End properties.

(** * Witnesses *)
#[local] Existing Instance Sha256_Digest.
#[local] Existing Instance Dyadic_FloatText.

Definition sample_gen : EventWriterGeneration :=
  {| WriterGeneration.generation := 1; WriterGeneration.writer_id := "writer-a" |}.
Definition sample_identity : pyval := PDict [
  ("task_id", PStr "task-7"); ("workspace_revision", PStr "r1"); ("planner_decision_id", PStr "d1");
  ("action", PStr "apply"); ("subject_revision", PStr "r1"); ("request_digest", PStr "req-1");
  ("attempt_number", PInt 1)].
Definition sample_effect : string :=
  match deterministic_effect_id sample_identity with Ok e => e | Err _ => EmptyString end.
Definition sample_result : pyval := PDict [("commit", PStr "abc"); ("files", PTuple [PInt 2])].
Definition sample_manifest : file := (WriterGeneration.install_generation sample_gen PNone WriterGeneration.Absent).2.
Definition empty_store : store :=
  {| manifest := sample_manifest; journal_file := WriterGeneration.Absent; trace := [] |}.
Definition sample_execute (outcome : result pyval) : operation :=
  Execute sample_gen "/project" sample_identity (PStr "task-7") (PStr "req-1") outcome None.
Definition sample_trace : list event := trace (run_op (sample_execute (Ok sample_result)) empty_store).

(** The run of [o] from [s] cut off after [n] of its effects on the world. *)
Definition cut (o : operation) (n : nat) (s : store) : store :=
  let tr := drop (length (trace s)) (trace (run_op o s)) in
  {| manifest := manifest s; journal_file := replay (journal_file s) (take n tr);
     trace := trace s ++ take n tr |}.
Lemma cut_run o n s :
  operation_wf o → take (length (trace s)) (trace (run_op o s)) = trace s →
  interrupted_run s (cut o n s).
Proof.
  intros Ho Ht. pose proof (take_drop (length (trace s)) (trace (run_op o s))) as E. rewrite Ht in E.
  unfold cut. set (tr := drop (length (trace s)) (trace (run_op o s))) in *.
  apply (interrupt o s _ (drop n tr)); [done| |by left]. rewrite (take_drop n tr). by symmetry.
Qed.
Lemma sample_execute_wf v : py_wf v = true → operation_wf (sample_execute (Ok v)).
Proof. intros Hv. split; [by intros ? [= <-]|done]. Qed.

(** A first run is cut off right after the effect was started; the second one finds the
    record and does not start the effect again. *)
Definition after_crash : store := cut (sample_execute (Ok sample_result)) 3 empty_store.
Definition after_restart : store := cut (sample_execute (Ok sample_result)) 9 after_crash.
Lemma crash_runs : rtc interrupted_run empty_store after_restart.
Proof.
  eapply rtc_l; [apply (cut_run (sample_execute (Ok sample_result)) 3 empty_store)|].
  - by apply sample_execute_wf.
  - vm_compute. reflexivity.
  - apply rtc_once, (cut_run (sample_execute (Ok sample_result)) 9 after_crash).
    + by apply sample_execute_wf.
    + vm_compute. reflexivity.
Qed.
Lemma effect_started_at_most_once_witness :
  length (trace after_restart) = 4 ∧ starts sample_effect (trace after_restart) = 1 ∧
  starts sample_effect (trace after_restart) ≤ 1 ∧
  (recorded (journal_file empty_store) sample_effect → starts sample_effect (trace after_restart) = 0).
Proof.
  split; [vm_compute; reflexivity|]. split; [vm_compute; reflexivity|].
  apply (effect_started_at_most_once empty_store after_restart sample_effect); [reflexivity|].
  exact crash_runs.
Defined.
Lemma effect_recorded_before_start_witness :
  ∃ v, disk_record (replay (journal_file empty_store) (take 2 (trace after_restart))) sample_effect
       = Some v ∧ in_state "DISPATCHED" v.
Proof.
  apply (effect_recorded_before_start empty_store after_restart sample_effect
    (take 2 (trace after_restart)) (drop 3 (trace after_restart))); [reflexivity|exact crash_runs|].
  vm_compute. reflexivity.
Defined.

Definition finished_store : store :=
  {| manifest := sample_manifest;
     journal_file := journal_file (run_op (sample_execute (Ok sample_result)) empty_store);
     trace := [] |}.
Definition sample_reset : operation :=
  Transition sample_gen "/project" sample_effect "UNKNOWN" PNone (PStr "operator").
Lemma completed_record_final_witness : ∃ v,
  disk_record (journal_file finished_store) sample_effect = Some v ∧
  ∃ v', disk_record (journal_file (cut sample_reset 5 finished_store)) sample_effect = Some v' ∧
    jnorm v' = jnorm v.
Proof.
  eexists. split; [vm_compute; reflexivity|].
  apply (completed_record_final finished_store (cut sample_reset 5 finished_store) sample_effect);
    [reflexivity| |vm_compute; reflexivity|].
  - apply rtc_once, cut_run; [reflexivity|vm_compute; reflexivity].
  - eexists. split; vm_compute; reflexivity.
Defined.

Definition loaded (s : store) : journal :=
  match _read_locked sample_gen "/project" (journal_file s) with
  | Ok j => j | Err _ => {| document := []; records := [] |} end.
Definition sample_op : string :=
  match operation_digest sample_identity with Ok e => e | Err _ => EmptyString end.
Lemma execute_new_effect_witness : ∃ t1 t2 t3,
  execute sample_gen "/project" sample_identity (PStr "task-7") (PStr "req-1") (Ok sample_result) None
    empty_store =
  (effect_outcome (Ok sample_result),
   {| manifest := sample_manifest; journal_file := WriterGeneration.Regular t3;
      trace := [Wrote t1; Wrote t2; Dispatched sample_effect; Wrote t3] |}) ∧
  match effect_outcome (Ok sample_result) with
  | Ok v => stored (WriterGeneration.Regular t3) sample_effect "COMPLETED" v
  | Err _ => stored (WriterGeneration.Regular t3) sample_effect "UNKNOWN" PNone
  end.
Proof.
  apply (execute_new_effect sample_gen "/project" empty_store sample_identity (PStr "task-7")
    (PStr "req-1") sample_effect sample_op (loaded empty_store) (Ok sample_result) None);
    [|vm_compute; reflexivity|reflexivity|reflexivity|by intros ? [= <-]].
  constructor; [vm_compute; reflexivity|vm_compute; reflexivity| |vm_compute; reflexivity|
    vm_compute; reflexivity].
  eexists. split; reflexivity.
Defined.
Definition sample_record (s : store) : effect_record :=
  default (new_record sample_gen EmptyString EmptyString EmptyString EmptyString EmptyString)
    (dict_get sample_effect (records (loaded s))).
Lemma execute_known_effect_witness :
  let r := sample_record after_crash in
  state r = "DISPATCHED" ∧ is_ok (observe r None) = false ∧
  let out := execute sample_gen "/project" sample_identity (PStr "task-7") (PStr "req-1")
    (Ok sample_result) None after_crash in
  if String.eqb (state r) "COMPLETED" then out = (Ok (result_ r), after_crash)
  else match observe r None with
  | Ok v => ∃ t, out = (Ok (PDict v),
      {| manifest := manifest after_crash; journal_file := WriterGeneration.Regular t;
         trace := trace after_crash ++ [Wrote t] |}) ∧
      stored (WriterGeneration.Regular t) sample_effect "COMPLETED" (PDict v)
  | Err x =>
      if exn_is ExceptionC x then ∃ t, out = (Ok PNone,
        {| manifest := manifest after_crash; journal_file := WriterGeneration.Regular t;
           trace := trace after_crash ++ [Wrote t] |}) ∧
        stored (WriterGeneration.Regular t) sample_effect "UNKNOWN" (result_ r)
      else out = (Err x, after_crash)
  end.
Proof.
  intros r. split; [vm_compute; reflexivity|]. split; [vm_compute; reflexivity|].
  apply (execute_known_effect sample_gen "/project" after_crash sample_identity (PStr "task-7")
    (PStr "req-1") sample_effect sample_op (loaded after_crash) (sample_record after_crash)
    (Ok sample_result) None); [|vm_compute; reflexivity|vm_compute; reflexivity|done].
  constructor; [vm_compute; reflexivity|vm_compute; reflexivity| |vm_compute; reflexivity|
    vm_compute; reflexivity].
  eexists. split; reflexivity.
Defined.
