(* ===== verification/ModelCallResolution.v ===== *)
(** * Deterministic model-call resolution
    ([src/src/nexus_runtime/execution_coordination/model_call_resolution.py])

    Before a model is called, a host-supplied resolver may answer from the structured
    state alone.  Whatever the resolver does, the answer is a verdict, and anything
    unusable leaves the model eligible.  A telemetry record counts required, invoked and
    avoided calls. *)
From Stdlib Require Import Ascii String SpecFloat.
From S2P Require Import Prelude PyValue Json Digest Contract Instances.

Definition MODEL_CALL_RESOLUTION_SCHEMA := "nexus.runtime.model_call_resolution.v1".
Definition MODEL_CALL_RESOLUTION_TELEMETRY_SCHEMA := "nexus.runtime.model_call_resolution_telemetry.v1".
Definition WORKER_INVOCATION_SEAM := "execution_coordinator.worker_invocation".
Definition RESOLVED_DETERMINISTICALLY := "RESOLVED_DETERMINISTICALLY".
Definition MODEL_NEEDED := "MODEL_NEEDED".
Definition INSUFFICIENT_STRUCTURED_STATE := "INSUFFICIENT_STRUCTURED_STATE".
Definition _RESOLUTION_STATUSES : list string :=
  [RESOLVED_DETERMINISTICALLY; MODEL_NEEDED; INSUFFICIENT_STRUCTURED_STATE].
Definition DETERMINISTIC_RESOLVED := "DETERMINISTIC_RESOLVED".
Definition MODEL_REQUIRED := "MODEL_REQUIRED".
Definition MODEL_INVOKED := "MODEL_INVOKED".
Definition MODEL_AVOIDED := "MODEL_AVOIDED".
Definition _OUTCOME_KINDS : list string :=
  [DETERMINISTIC_RESOLVED; MODEL_REQUIRED; MODEL_INVOKED; MODEL_AVOIDED].
Definition _ENVELOPE_AUTHORIZATION_TOKENS : list string :=
  ["authoriz"; "approv"; "permission"; "permit"; "admission"; "allow"; "grant"; "certif"].

Record ModelCallNeedVerdict : Type := {
  resolution : string;
  reason : string;
  resolver_id : string;
  seam : string;
  structured_state_digest : string;
  deterministic_receipt : dict;
  resolver_failure : option string
}.
(** [ModelCallNeedVerdict.to_dict]. *)
Definition verdict_to_dict (v : ModelCallNeedVerdict) : dict := [
  ("schema", PStr MODEL_CALL_RESOLUTION_SCHEMA); ("resolution", PStr (resolution v));
  ("reason", PStr (reason v)); ("resolver_id", PStr (resolver_id v)); ("seam", PStr (seam v));
  ("structured_state_digest", PStr (structured_state_digest v));
  ("deterministic_receipt", PDict (deterministic_receipt v));
  ("resolver_failure", opt_str (resolver_failure v))].

(** What a resolver returns: a verdict object, or any other value. *)
Inductive raw_verdict : Type := RawVerdict (v : ModelCallNeedVerdict) | RawValue (v : pyval).
(** The port: its [resolver_id] attribute ([None] when missing), the name of its type, and
    the resolving method, host code. *)
Record ModelCallResolutionPort : Type := {
  port_resolver_id : pyval;
  port_type_name : string;
  port_resolve : dict → string → result raw_verdict
}.

Definition _envelope_carries_authorization (payload : dict) : option string :=
  first_token_key _ENVELOPE_AUTHORIZATION_TOKENS payload.

Definition _resolver_identity (resolver : option ModelCallResolutionPort) : string :=
  match resolver with
  | None => "unbound"
  | Some port =>
      match port_resolver_id port with
      | PStr s => if blank s then port_type_name port else strip s
      | _ => port_type_name port
      end
  end.

(** [ModelCallNeedVerdict(resolution=..., reason=..., ...)] without a receipt. *)
Definition plain_verdict (resolution reason resolver_id seam digest : string)
    (failure : option string) : ModelCallNeedVerdict :=
  {| resolution := resolution; reason := reason; resolver_id := resolver_id; seam := seam;
     structured_state_digest := digest; deterministic_receipt := []; resolver_failure := failure |}.

Section resolution.
Context `{FloatText} `{Digest}.

Abbreviation canonical_message := "model call resolution payload must be canonical JSON data".
Definition _content_digest (payload : dict) : result string :=
  canonical_sha256 ModelCallResolutionError canonical_message (PDict payload).
Definition _required_text : pyval → string → result string := req_text ModelCallResolutionError.
Definition _normalize_json_value : pyval → string → result pyval :=
  norm_json ModelCallResolutionError canonical_message.

(** [ModelCallNeedVerdict.build]. *)
Definition build_verdict (res why resolver_id seam digest receipt : pyval) :
    result ModelCallNeedVerdict :=
  let status := strip (str_or res EmptyString) in
  _ ← raise_if (negb (text_in status _RESOLUTION_STATUSES)) ModelCallResolutionError
        ("unknown model call resolution status: " +:+ py_repr res);
  receipt ← match receipt with
    | PDict (_ :: _) => _normalize_json_value receipt "deterministic_receipt"
    | _ => Ok (PDict [])
    end;
  let digest := strip (str_or digest EmptyString) in
  _ ← raise_if (truthy receipt && String.eqb digest EmptyString) ModelCallResolutionError
        "resolved verdict requires a structured state digest";
  why ← _required_text why "reason";
  resolver_id ← _required_text resolver_id "resolver_id";
  seam ← _required_text seam "seam";
  Ok {| resolution := status; reason := why; resolver_id := resolver_id; seam := seam;
        structured_state_digest := digest;
        deterministic_receipt := match receipt with PDict d => d | _ => [] end;
        resolver_failure := None |}.

Definition _structured_state_digest (structured_state : dict) : result string :=
  normalized ← _normalize_json_value (PDict structured_state) "structured_state";
  match normalized with
  | PDict d => _content_digest d
  | _ => raise ModelCallResolutionError "structured state must be a mapping"
  end.

(** [str(payload.get("resolution") or payload.get("status") or "").strip()]. *)
Definition claimed_status (payload : dict) : string :=
  strip (str_or (py_or (py_get payload "resolution") (py_get payload "status")) EmptyString).
Definition _normalize_verdict_payload (payload : dict) (resolver : ModelCallResolutionPort)
    (seam digest : string) : result ModelCallNeedVerdict :=
  _ ← match _envelope_carries_authorization payload with
      | Some smuggled => raise ModelCallResolutionError
          ("verdict must not carry authorization content: " +:+ smuggled)
      | None => Ok ()
      end;
  let status := claimed_status payload in
  _ ← raise_if (String.eqb status RESOLVED_DETERMINISTICALLY
                && negb (is_mapping (py_get payload "deterministic_receipt")))
        ModelCallResolutionError "resolved verdict requires a deterministic receipt mapping";
  _ ← raise_if (negb (text_in status _RESOLUTION_STATUSES)) ModelCallResolutionError
        ("unknown model call resolution status: " +:+ repr_str status);
  let why := match py_get payload "reason" with
    | PStr s => if blank s then None else Some (PStr s)
    | _ => None
    end in
  let why := default (PStr (if String.eqb status RESOLVED_DETERMINISTICALLY
                            then "deterministic_result_available" else "model_path_preserved")) why in
  build_verdict (PStr status) why
    (PStr (str_or (py_get payload "resolver_id") (_resolver_identity (Some resolver))))
    (PStr (str_or (py_get payload "seam") seam)) (PStr digest)
    (py_get payload "deterministic_receipt").

(** The payload of what the resolver returned: a verdict's dictionary or a mapping. *)
Definition verdict_payload (raw : raw_verdict) : option dict :=
  match raw with
  | RawVerdict v => Some (verdict_to_dict v)
  | RawValue (PDict d) => Some d
  | RawValue _ => None
  end.
Definition seam_or_default (seam : pyval) : string :=
  let s := strip (str_or seam EmptyString) in
  if String.eqb s EmptyString then WORKER_INVOCATION_SEAM else s.
Definition resolve_model_call_need (resolver : option ModelCallResolutionPort)
    (structured_state : dict) (seam : pyval) (on_invalid : string) : result ModelCallNeedVerdict :=
  let fallback := if text_in on_invalid [MODEL_NEEDED; INSUFFICIENT_STRUCTURED_STATE]
                  then on_invalid else MODEL_NEEDED in
  let seam_name := seam_or_default seam in
  let identity := _resolver_identity resolver in
  match _structured_state_digest structured_state with
  | Err exc =>
      if exn_is ModelCallResolutionError exc then
        Ok (plain_verdict fallback ("structured_state_unusable:" +:+ exn_msg exc) identity seam_name
              EmptyString (Some "structured_state_unusable"))
      else Err exc
  | Ok digest =>
      let insufficient why failure :=
        Ok (plain_verdict INSUFFICIENT_STRUCTURED_STATE why identity seam_name digest failure) in
      match resolver with
      | None => insufficient "model_call_resolver_not_bound" None
      | Some port =>
          match port_resolve port structured_state seam_name with
          | Err exc =>
              if exn_is ExceptionC exc then
                insufficient ("model_call_resolver_failed:" +:+ exn_class_name (exn_type exc))
                  (Some (exn_class_name (exn_type exc) +:+ ":" +:+ exn_msg exc))
              else Err exc
          | Ok (RawValue PNone) => insufficient "model_call_resolver_abstained" None
          | Ok raw =>
              match verdict_payload raw with
              | None => insufficient "model_call_resolver_verdict_malformed"
                          (Some "verdict_not_a_mapping")
              | Some payload =>
                  match _normalize_verdict_payload payload port seam_name digest with
                  | Ok v => Ok v
                  | Err exc =>
                      if exn_is ModelCallResolutionError exc then
                        insufficient ("model_call_resolver_verdict_rejected:" +:+ exn_msg exc)
                          (Some (exn_msg exc))
                      else Err exc
                  end
              end
          end
      end
  end.
End resolution.

(** ** Telemetry *)
Record ModelCallTelemetryRecord : Type := {
  t_outcome : string;
  t_resolution : string;
  t_reason : string;
  t_resolver_id : string;
  t_seam : string;
  t_structured_state_digest : string;
  t_model_avoided : bool;
  t_resolver_failure : option string;
  t_model_calls_required : Z;
  t_model_calls_invoked : Z;
  t_model_calls_avoided : Z;
  t_model_calls_not_eliminated : option bool
}.
Definition expected_not_eliminated (t : ModelCallTelemetryRecord) : bool :=
  (0 <? t_model_calls_invoked t)%Z || (t_model_calls_avoided t <? t_model_calls_required t)%Z.
Definition with_not_eliminated (t : ModelCallTelemetryRecord) (b : bool) : ModelCallTelemetryRecord :=
  {| t_outcome := t_outcome t; t_resolution := t_resolution t; t_reason := t_reason t;
     t_resolver_id := t_resolver_id t; t_seam := t_seam t;
     t_structured_state_digest := t_structured_state_digest t; t_model_avoided := t_model_avoided t;
     t_resolver_failure := t_resolver_failure t; t_model_calls_required := t_model_calls_required t;
     t_model_calls_invoked := t_model_calls_invoked t;
     t_model_calls_avoided := t_model_calls_avoided t; t_model_calls_not_eliminated := Some b |}.

(** [ModelCallTelemetryRecord.__post_init__]. *)
Definition telemetry_post_init (t : ModelCallTelemetryRecord) : result ModelCallTelemetryRecord :=
  let bad b msg := raise_if b ModelCallResolutionError msg in
  _ ← bad (negb (text_in (t_outcome t) _OUTCOME_KINDS))
        ("unknown model call telemetry outcome: " +:+ repr_str (t_outcome t));
  _ ← bad (negb (text_in (t_resolution t) _RESOLUTION_STATUSES))
        ("unknown model call resolution status: " +:+ repr_str (t_resolution t));
  _ ← bad (t_model_calls_required t <? 0)%Z "model_calls_required must be non-negative";
  _ ← bad (t_model_calls_invoked t <? 0)%Z "model_calls_invoked must be non-negative";
  _ ← bad (t_model_calls_avoided t <? 0)%Z "model_calls_avoided must be non-negative";
  _ ← bad (t_model_avoided t && (t_model_calls_avoided t <? 1)%Z)
        "model_avoided requires model_calls_avoided >= 1";
  _ ← bad (String.eqb (t_outcome t) MODEL_AVOIDED && negb (t_model_avoided t))
        "MODEL_AVOIDED requires model_avoided=true";
  _ ← bad (String.eqb (t_outcome t) MODEL_INVOKED && (t_model_calls_invoked t <? 1)%Z)
        "MODEL_INVOKED requires model_calls_invoked >= 1";
  match t_model_calls_not_eliminated t with
  | None => Ok (with_not_eliminated t (expected_not_eliminated t))
  | Some b =>
      _ ← bad (negb (Bool.eqb b (expected_not_eliminated t)))
            "model_calls_not_eliminated must match required/invoked/avoided counts";
      Ok t
  end.
(** [ModelCallTelemetryRecord.to_dict]. *)
Definition telemetry_to_dict (t : ModelCallTelemetryRecord) : dict := [
  ("schema", PStr MODEL_CALL_RESOLUTION_TELEMETRY_SCHEMA); ("outcome", PStr (t_outcome t));
  ("resolution", PStr (t_resolution t)); ("reason", PStr (t_reason t));
  ("resolver_id", PStr (t_resolver_id t)); ("seam", PStr (t_seam t));
  ("structured_state_digest", PStr (t_structured_state_digest t));
  ("model_avoided", PBool (t_model_avoided t)); ("resolver_failure", opt_str (t_resolver_failure t));
  ("model_calls_required", PInt (t_model_calls_required t));
  ("model_calls_invoked", PInt (t_model_calls_invoked t));
  ("model_calls_avoided", PInt (t_model_calls_avoided t));
  ("model_calls_not_eliminated", PBool (default false (t_model_calls_not_eliminated t)))].

(** * Lemmas *)
Lemma known_status s : text_in s _RESOLUTION_STATUSES = true → s ∈ _RESOLUTION_STATUSES.
Proof. by intros ?%bool_decide_eq_true. Qed.
Lemma is_resolution_error e : exn_type e = ModelCallResolutionError → exn_is ModelCallResolutionError e = true.
Proof. unfold exn_is. by intros ->. Qed.

Section resolution_lemmas.
Context `{FloatText} `{Digest}.

Lemma structured_state_digest_err st e :
  _structured_state_digest st = Err e → exn_type e = ModelCallResolutionError.
Proof.
  unfold _structured_state_digest. intros [He|(v & _ & He)]%bind_Err_inv.
  - by eapply norm_json_err.
  - destruct v; try (by injection He as <-). revert He.
    unfold _content_digest, canonical_sha256.
    by intros [->%canonical_json_err|(? & _ & ?)]%bind_Err_inv.
Qed.
Lemma structured_state_digest_hex st h : _structured_state_digest st = Ok h → is_hex64 h = true.
Proof.
  unfold _structured_state_digest. intros (v & _ & Hv)%bind_Ok_inv. destruct v; try done.
  revert Hv. unfold _content_digest, canonical_sha256. intros (t & _ & [= <-])%bind_Ok_inv.
  apply sha256_hex_wf.
Qed.

Lemma build_verdict_err a b c d e r x :
  build_verdict a b c d e r = Err x → exn_type x = ModelCallResolutionError.
Proof.
  unfold build_verdict. cbv zeta.
  intros [Hx|(? & _ & [Hx|(? & _ & [Hx|(? & _ & [Hx|(? & _ & [Hx|(? & _ &
    [Hx|(? & _ & ?)]%bind_Err_inv)]%bind_Err_inv)]%bind_Err_inv)]%bind_Err_inv)]%bind_Err_inv)]%bind_Err_inv;
    try done; try (by eapply req_text_err).
  all: try (unfold raise_if in Hx; case_match; [by injection Hx as <-|done]).
  destruct r as [| | | | | | |[|? ?]|]; try done. by eapply norm_json_err.
Qed.
Lemma normalize_verdict_payload_err payload port seam digest x :
  _normalize_verdict_payload payload port seam digest = Err x → exn_type x = ModelCallResolutionError.
Proof.
  unfold _normalize_verdict_payload. cbv zeta.
  intros [Hx|(? & _ & [Hx|(? & _ & [Hx|(? & _ & Hx)]%bind_Err_inv)]%bind_Err_inv)]%bind_Err_inv.
  - case_match; [by injection Hx as <-|done].
  - unfold raise_if in Hx. case_match; [by injection Hx as <-|done].
  - unfold raise_if in Hx. case_match; [by injection Hx as <-|done].
  - by eapply build_verdict_err.
Qed.

(** The identity and the seam a payload names, with the host's as defaults. *)
Definition named_identity (payload : dict) (port : ModelCallResolutionPort) : string :=
  str_or (py_get payload "resolver_id") (_resolver_identity (Some port)).
Definition named_seam (payload : dict) (seam : string) : string :=
  str_or (py_get payload "seam") seam.
(** A payload that may stand in for the model: it carries no authorization key, claims
    to have resolved the call, and its receipt is a mapping of JSON data. *)
Definition resolves (payload : dict) (port : ModelCallResolutionPort) (seam : string) (w : dict) : Prop :=
  _envelope_carries_authorization payload = None ∧
  claimed_status payload = RESOLVED_DETERMINISTICALLY ∧
  (∃ r, py_get payload "deterministic_receipt" = PDict r ∧
        _normalize_json_value (PDict r) "deterministic_receipt" = Ok (PDict w)) ∧
  blank (named_identity payload port) = false ∧ blank (named_seam payload seam) = false.

Lemma normalize_receipt r :
  match PDict r with
  | PDict (_ :: _) => _normalize_json_value (PDict r) "deterministic_receipt"
  | _ => Ok (PDict [])
  end = _normalize_json_value (PDict r) "deterministic_receipt".
Proof. by destruct r. Qed.
Lemma normalize_mapping r name x :
  _normalize_json_value (PDict r) name = Ok x → ∃ w, x = PDict w.
Proof.
  unfold _normalize_json_value. rewrite norm_json_dict_eq. intros (kvs & _ & [= <-])%bind_Ok_inv. eauto.
Qed.

Lemma build_verdict_Ok a b c d e r v :
  build_verdict a b c d e r = Ok v →
  resolution v = strip (str_or a EmptyString) ∧ resolution v ∈ _RESOLUTION_STATUSES ∧
  structured_state_digest v = strip (str_or e EmptyString) ∧ resolver_failure v = None ∧
  (∀ d, r = PDict d → _normalize_json_value r "deterministic_receipt" = Ok (PDict (deterministic_receipt v))) ∧
  (∃ s, c = PStr s ∧ blank s = false) ∧ (∃ s, d = PStr s ∧ blank s = false).
Proof.
  unfold build_verdict. cbv zeta.
  intros (u & Hs & (rc & Hr & (u' & _ & (why & _ & (i & Hi & (sm & Hsm & [= <-])%bind_Ok_inv)%bind_Ok_inv)%bind_Ok_inv)%bind_Ok_inv)%bind_Ok_inv)%bind_Ok_inv.
  cbn. apply raise_if_Ok_inv, negb_false_iff in Hs. apply bool_decide_eq_true in Hs.
  apply req_text_Ok in Hi as (? & -> & ? & _), Hsm as (? & -> & ? & _). split_and!; eauto.
  intros q ->. rewrite normalize_receipt in Hr. by destruct (normalize_mapping _ _ _ Hr) as [w ->].
Qed.

Lemma normalize_verdict_payload_Ok payload port seam digest v :
  _normalize_verdict_payload payload port seam digest = Ok v →
  resolution v ∈ _RESOLUTION_STATUSES ∧ structured_state_digest v = strip digest ∧
  resolver_failure v = None ∧ resolution v = claimed_status payload ∧
  (resolution v = RESOLVED_DETERMINISTICALLY → resolves payload port seam (deterministic_receipt v)).
Proof.
  unfold _normalize_verdict_payload. cbv zeta.
  intros (u & Ht & (u' & Hm & (u'' & Hs & Hb)%bind_Ok_inv)%bind_Ok_inv)%bind_Ok_inv.
  apply raise_if_Ok_inv in Hm, Hs. apply build_verdict_Ok in Hb as (Hv & Hin & Hd & Hf & Hrc & Hi & Hsm).
  assert (resolution v = claimed_status payload) as Hc.
  { rewrite Hv. rewrite str_or_text. apply strip_idem. }
  split_and!; [done| |done|done|].
  { by rewrite Hd, str_or_text. }
  intros Hres. rewrite Hc in Hres. unfold resolves. rewrite Hres in Hm. cbn in Hm.
  apply negb_false_iff in Hm. destruct (_envelope_carries_authorization payload); [done|].
  destruct (py_get payload "deterministic_receipt") as [| | | | | | |r|]; try done.
  destruct Hi as (i & [= <-] & Hi), Hsm as (sm & [= <-] & Hsm). split_and!; eauto.
Qed.

Lemma normalize_verdict_payload_resolves payload port seam digest w :
  is_hex64 digest = true → resolves payload port seam w →
  ∃ v, _normalize_verdict_payload payload port seam digest = Ok v ∧
    resolution v = RESOLVED_DETERMINISTICALLY ∧ deterministic_receipt v = w.
Proof.
  intros Hh (Ht & Hc & (r & Hr & Hn) & Hi & Hs). unfold _normalize_verdict_payload. cbv zeta.
  rewrite Ht, Hc, Hr. cbn [mbind result_bind is_mapping negb andb raise_if String.eqb].
  replace (negb (text_in RESOLVED_DETERMINISTICALLY _RESOLUTION_STATUSES)) with false by done.
  unfold build_verdict. cbv zeta. rewrite !str_or_text. fold (named_identity payload port).
  fold (named_seam payload seam).
  replace (strip RESOLVED_DETERMINISTICALLY) with RESOLVED_DETERMINISTICALLY by done.
  replace (negb (text_in RESOLVED_DETERMINISTICALLY _RESOLUTION_STATUSES)) with false by done.
  rewrite normalize_receipt, Hn, (hex64_strip _ Hh).
  assert (String.eqb digest EmptyString = false) as -> by (by apply String.eqb_neq, hex64_nonempty).
  rewrite andb_false_r. cbn [mbind result_bind raise_if String.eqb].
  unfold _required_text, req_text. rewrite Hi, Hs. cbn.
  rewrite andb_false_r. cbn [raise_if mbind result_bind].
  destruct (match py_get payload "reason" with PStr s => if blank s then None else Some (PStr s) | _ => None end)
    as [why|] eqn:Ew; [|by eexists].
  assert (∃ s, why = PStr s ∧ blank s = false) as (s & -> & Hb).
  { destruct (py_get payload "reason") as [| | | |s| | | |]; try done.
    destruct (blank s) eqn:E; [done|]. injection Ew as <-. eauto. }
  cbn. rewrite Hb. by eexists.
Qed.

(** What [build_verdict] returns: stripped texts, a known status and a normalised receipt. *)
Definition verdict_wf (v : ModelCallNeedVerdict) : Prop :=
  resolution v ∈ _RESOLUTION_STATUSES ∧ stripped_key (reason v) = true ∧
  stripped_key (resolver_id v) = true ∧ stripped_key (seam v) = true ∧
  normal (PDict (deterministic_receipt v)) = true.

Lemma build_verdict_wf a b c d e r v :
  py_wf r = true → build_verdict a b c d e r = Ok v → verdict_wf v.
Proof.
  unfold build_verdict. cbv zeta. intros Hwf.
  intros (u & Hs & (rc & Hr & (u' & _ & (why & Hw & (i & Hi & (sm & Hsm & [= <-])%bind_Ok_inv)%bind_Ok_inv)%bind_Ok_inv)%bind_Ok_inv)%bind_Ok_inv)%bind_Ok_inv.
  apply raise_if_Ok_inv, negb_false_iff, known_status in Hs. unfold verdict_wf. cbn [resolution reason resolver_id seam deterministic_receipt].
  apply req_text_key in Hw, Hi, Hsm. split_and!; [done..|].
  assert (∃ q, rc = PDict q ∧ normal (PDict q) = true) as (q & -> & Hq); [|done].
  destruct r as [| | | | | | |q|]; try (injection Hr as <-; by eexists).
  rewrite normalize_receipt in Hr. destruct (normalize_mapping _ _ _ Hr) as [w ->].
  exists w. split; [done|]. by eapply norm_json_normal.
Qed.

Lemma status_stripped s : s ∈ _RESOLUTION_STATUSES → strip s = s ∧ s ≠ EmptyString.
Proof. unfold _RESOLUTION_STATUSES. rewrite !elem_of_cons, elem_of_nil. by intros [->|[->|[->|[]]]]. Qed.

Definition relayed (v : ModelCallNeedVerdict) (digest : string) : ModelCallNeedVerdict :=
  {| resolution := resolution v; reason := reason v; resolver_id := resolver_id v; seam := seam v;
     structured_state_digest := digest; deterministic_receipt := deterministic_receipt v;
     resolver_failure := None |}.
Lemma str_or_key k d : stripped_key k = true → str_or (PStr k) d = k.
Proof. intros [_ Hb]%stripped_key_spec. by destruct k. Qed.
Lemma normalize_verdict_relay v port seam' digest :
  verdict_wf v → is_hex64 digest = true →
  _normalize_verdict_payload (verdict_to_dict v) port seam' digest = Ok (relayed v digest).
Proof.
  intros (Hs & Hw & Hi & Hsm & Hn) Hh. unfold _normalize_verdict_payload. cbv zeta.
  replace (_envelope_carries_authorization (verdict_to_dict v)) with (@None string) by done.
  destruct (status_stripped _ Hs) as [Hst Hne].
  assert (claimed_status (verdict_to_dict v) = resolution v) as ->.
  { unfold claimed_status. cbn [verdict_to_dict]. change (py_get _ "resolution") with (PStr (resolution v)).
    unfold py_or. cbn [truthy]. rewrite (proj2 (String.eqb_neq _ _) Hne). cbn [negb].
    by rewrite str_or_text. }
  change (py_get (verdict_to_dict v) "deterministic_receipt") with (PDict (deterministic_receipt v)).
  change (py_get (verdict_to_dict v) "reason") with (PStr (reason v)).
  change (py_get (verdict_to_dict v) "resolver_id") with (PStr (resolver_id v)).
  change (py_get (verdict_to_dict v) "seam") with (PStr (seam v)).
  rewrite !str_or_key by done. cbn [is_mapping negb]. rewrite andb_false_r.
  assert (text_in (resolution v) _RESOLUTION_STATUSES = true) as Hin by by apply bool_decide_eq_true.
  rewrite Hin. cbn [raise_if mbind result_bind negb].
  rewrite (proj2 (proj1 (stripped_key_spec _) Hw)). cbn [default].
  unfold build_verdict. cbv zeta. rewrite !str_or_text, Hst, Hin. cbn [raise_if mbind result_bind negb].
  rewrite normalize_receipt. unfold _normalize_json_value. rewrite norm_json_id by done.
  rewrite (hex64_strip _ Hh). cbn [mbind result_bind].
  assert (String.eqb digest EmptyString = false) as -> by (by apply String.eqb_neq, hex64_nonempty).
  rewrite andb_false_r. unfold _required_text. by rewrite (req_text_of_key _ _ _ Hw), (req_text_of_key _ _ _ Hi), (req_text_of_key _ _ _ Hsm).
Qed.

(** A verdict is bound to the state's digest. *)
Lemma resolve_digest resolver st seam oi v h :
  resolve_model_call_need resolver st seam oi = Ok v → _structured_state_digest st = Ok h →
  structured_state_digest v = h.
Proof.
  unfold resolve_model_call_need. cbv zeta. intros Hv Eh. rewrite Eh in Hv.
  destruct resolver as [port|]; [|by injection Hv as <-].
  destruct (port_resolve port st _) as [raw|e].
  2: { destruct (exn_is ExceptionC e); [by injection Hv as <-|done]. }
  assert (∀ x, match raw with RawValue PNone => x | _ => Ok v end = Ok v →
    raw = RawValue PNone ∨ raw ≠ RawValue PNone) as Hraw by (destruct raw as [|[]]; naive_solver).
  destruct (Hraw (Ok v)) as [->|Hne]; [by destruct raw as [|[]]|by injection Hv as <-|].
  destruct (verdict_payload raw) as [payload|] eqn:Ep; [|by destruct raw as [|[]]; injection Hv as <-].
  assert (match _normalize_verdict_payload payload port (seam_or_default seam) h with
          | Ok v => Ok v
          | Err exc =>
              if exn_is ModelCallResolutionError exc then
                Ok (plain_verdict INSUFFICIENT_STRUCTURED_STATE
                      ("model_call_resolver_verdict_rejected:" +:+ exn_msg exc)
                      (_resolver_identity (Some port)) (seam_or_default seam) h (Some (exn_msg exc)))
              else Err exc
          end = Ok v) as Hn by by destruct raw as [|[]].
  destruct (_normalize_verdict_payload _ _ _ _) as [w|e] eqn:En.
  - injection Hn as <-. apply normalize_verdict_payload_Ok in En as (_ & -> & _).
    apply hex64_strip. by eapply structured_state_digest_hex.
  - destruct (exn_is _ _); [by injection Hn as <-|done].
Qed.
End resolution_lemmas.

(** * Properties *)
Ltac insufficient :=
  eexists; split; [done|]; split_and!; [by apply known_status|by intros ? [= <-]|]; split; [done|].
Section properties.
Context `{FloatText} `{Digest}.

(** C34: the resolution seam fails safe.  Whatever the resolver returns, and whichever
    [Exception] it raises, the caller gets a verdict with a known status, bound to the
    digest of the structured state when that state is usable; and the verdict claims the
    call resolved exactly when a bound resolver returned, for a usable state, a payload
    without authorization keys that claims so and carries a JSON receipt, which is then
    the receipt of the verdict. *)
Theorem resolve_fail_safe resolver st seam on_invalid
    (Hraise : ∀ port e, resolver = Some port →
       port_resolve port st (seam_or_default seam) = Err e → exn_is ExceptionC e = true) :
  ∃ v, resolve_model_call_need resolver st seam on_invalid = Ok v ∧
    resolution v ∈ _RESOLUTION_STATUSES ∧
    (∀ h, _structured_state_digest st = Ok h → structured_state_digest v = h) ∧
    (resolution v = RESOLVED_DETERMINISTICALLY ↔
     ∃ port h raw payload w, resolver = Some port ∧ _structured_state_digest st = Ok h ∧
       port_resolve port st (seam_or_default seam) = Ok raw ∧ verdict_payload raw = Some payload ∧
       resolves payload port (seam_or_default seam) w ∧
       deterministic_receipt v = w ∧ resolver_failure v = None).
Proof.
  unfold resolve_model_call_need. cbv zeta.
  destruct (_structured_state_digest st) as [h|e] eqn:Eh.
  2: { rewrite is_resolution_error by (by eapply structured_state_digest_err).
       assert (∀ f, f = MODEL_NEEDED ∨ f = INSUFFICIENT_STRUCTURED_STATE →
                 f ∈ _RESOLUTION_STATUSES ∧ f ≠ RESOLVED_DETERMINISTICALLY) as Hfb.
       { intros f [-> | ->]; (split; [by apply known_status|done]). }
       edestruct Hfb as [Hin Hne]; [|eexists; split; [done|]; split_and!; [exact Hin|done|naive_solver]].
       destruct (text_in on_invalid _) eqn:E; [|by left].
       apply bool_decide_eq_true in E. set_solver. }
  pose proof (structured_state_digest_hex _ _ Eh) as Hh.
  destruct resolver as [port|]; [|insufficient; intros (?&?&?&?&?&[=]&_)].
  destruct (port_resolve port st (seam_or_default seam)) as [raw|e] eqn:Er.
  2: { rewrite (Hraise port e) by done. insufficient. naive_solver. }
  destruct (verdict_payload raw) as [payload|] eqn:Ep.
  2: { assert (¬ ∃ port' h' raw' payload' w, Some port = Some port' ∧ Ok h = Ok h' ∧
               port_resolve port' st (seam_or_default seam) = Ok raw' ∧ verdict_payload raw' = Some payload' ∧
               resolves payload' port' (seam_or_default seam) w) as Hno.
       { intros (port' & h' & raw' & payload' & w & [= <-] & _ & Hr & Hp & _). congruence. }
       destruct raw as [|[]]; try done; insufficient; naive_solver. }
  assert (∀ A (x y : A), match raw with RawValue PNone => x | _ => y end = y) as Eraw
    by (intros; by destruct raw as [|[]]).
  rewrite Eraw. clear Eraw.
  destruct (_normalize_verdict_payload payload port _ h) as [v|e] eqn:En.
  - pose proof (normalize_verdict_payload_Ok _ _ _ _ _ En) as (Hin & Hd & Hf & _ & Hres).
    exists v. rewrite (hex64_strip _ Hh) in Hd. split_and!; [done..|naive_solver|]. split.
    + intros Hv. exists port, h, raw, payload, (deterministic_receipt v). split_and!; auto.
    + intros (port' & h' & raw' & payload' & w & [= <-] & [= <-] & Hr' & Hp & Hr & _).
      assert (payload' = payload) as -> by congruence.
      destruct (normalize_verdict_payload_resolves _ _ _ _ _ Hh Hr) as (v' & Hv' & ? & _). congruence.
  - rewrite is_resolution_error by (by eapply normalize_verdict_payload_err).
    insufficient.
    intros (port' & h' & raw' & payload' & w & [= <-] & [= <-] & Hr' & Hp & Hr & _).
    assert (payload' = payload) as -> by congruence.
    destruct (normalize_verdict_payload_resolves _ _ _ _ _ Hh Hr) as (v' & Hv' & _). congruence.
Qed.

(** A resolver that returns a verdict object it built is believed: the verdict is
    passed through the mapping form and the checks unchanged, except that it is bound to
    the digest of the structured state the runtime computed itself. *)
Theorem verdict_relay port st seam on_invalid a b c d e r v h
    (Hr : py_wf r = true) (Hv : build_verdict a b c d e r = Ok v)
    (Hh : _structured_state_digest st = Ok h)
    (Hport : port_resolve port st (seam_or_default seam) = Ok (RawVerdict v)) :
  resolve_model_call_need (Some port) st seam on_invalid = Ok (relayed v h).
Proof.
  unfold resolve_model_call_need. cbv zeta. rewrite Hh, Hport. cbn [verdict_payload].
  rewrite normalize_verdict_relay; [done|by eapply build_verdict_wf|by eapply structured_state_digest_hex].
Qed.
End properties.

(** An accepted telemetry record is honest: calls are counted with natural numbers,
    an avoided call is counted, an invoked one too, and [model_calls_not_eliminated] is
    true exactly when a call was made or a required one was not avoided.  Those are all
    the conditions, and a record that states the flag itself is accepted only unchanged. *)
Theorem telemetry_accepted_iff t t' :
  telemetry_post_init t = Ok t' ↔
  t_outcome t ∈ _OUTCOME_KINDS ∧ t_resolution t ∈ _RESOLUTION_STATUSES ∧
  (0 ≤ t_model_calls_required t)%Z ∧ (0 ≤ t_model_calls_invoked t)%Z ∧ (0 ≤ t_model_calls_avoided t)%Z ∧
  (t_model_avoided t = true → 1 ≤ t_model_calls_avoided t)%Z ∧
  (t_outcome t = MODEL_AVOIDED → t_model_avoided t = true) ∧
  (t_outcome t = MODEL_INVOKED → 1 ≤ t_model_calls_invoked t)%Z ∧
  (∀ b, t_model_calls_not_eliminated t = Some b →
     (b = true ↔ (0 < t_model_calls_invoked t ∨ t_model_calls_avoided t < t_model_calls_required t)%Z)) ∧
  t' = with_not_eliminated t (expected_not_eliminated t).
Proof.
  assert (expected_not_eliminated t = true ↔
    (0 < t_model_calls_invoked t ∨ t_model_calls_avoided t < t_model_calls_required t)%Z) as He.
  { unfold expected_not_eliminated. by rewrite orb_true_iff, !Z.ltb_lt. }
  unfold telemetry_post_init, text_in. cbv zeta. split.
  - intros (?&H1&(?&H2&(?&H3&(?&H4&(?&H5&(?&H6&(?&H7&(?&H8&H9)%bind_Ok_inv)%bind_Ok_inv)%bind_Ok_inv)%bind_Ok_inv)%bind_Ok_inv)%bind_Ok_inv)%bind_Ok_inv)%bind_Ok_inv.
    apply raise_if_Ok_inv in H1, H2, H3, H4, H5, H6, H7, H8.
    apply negb_false_iff, bool_decide_eq_true in H1, H2. apply Z.ltb_ge in H3, H4, H5.
    split_and!; try done.
    + intros E. rewrite E in H6. by apply Z.ltb_ge in H6.
    + intros E. rewrite E in H7. by destruct (t_model_avoided t).
    + intros E. rewrite E in H8. by apply Z.ltb_ge in H8.
    + intros b E. rewrite E in H9. rewrite <- He.
      destruct (Bool.eqb b (expected_not_eliminated t)) eqn:Eb; [|done]. by apply eqb_prop in Eb as ->.
    + destruct (t_model_calls_not_eliminated t) as [b|] eqn:E; [|by injection H9 as <-].
      destruct (Bool.eqb b (expected_not_eliminated t)) eqn:Eb; [|done]. apply eqb_prop in Eb as <-.
      injection H9 as <-. destruct t; cbn in *. by subst.
  - intros (H1 & H2 & H3 & H4 & H5 & H6 & H7 & H8 & H9 & ->).
    rewrite !bool_decide_true by done. cbn [negb raise_if mbind result_bind].
    rewrite (proj2 (Z.ltb_ge _ _) H3), (proj2 (Z.ltb_ge _ _) H4), (proj2 (Z.ltb_ge _ _) H5).
    cbn [raise_if mbind result_bind].
    assert (t_model_avoided t && (t_model_calls_avoided t <? 1)%Z = false) as ->.
    { destruct (t_model_avoided t); [|done]. apply Z.ltb_ge. auto. }
    assert (String.eqb (t_outcome t) MODEL_AVOIDED && negb (t_model_avoided t) = false) as ->.
    { destruct (String.eqb_spec (t_outcome t) MODEL_AVOIDED); [|done]. by rewrite H7. }
    assert (String.eqb (t_outcome t) MODEL_INVOKED && (t_model_calls_invoked t <? 1)%Z = false) as ->.
    { destruct (String.eqb_spec (t_outcome t) MODEL_INVOKED); [|done]. apply Z.ltb_ge. auto. }
    cbn [raise_if mbind result_bind].
    destruct (t_model_calls_not_eliminated t) as [b|] eqn:E; [|done].
    assert (b = expected_not_eliminated t) as ->.
    { specialize (H9 b eq_refl). rewrite <- He in H9. by apply eq_true_iff_eq. }
    rewrite eqb_reflx. cbn. f_equal. destruct t; cbn in *. by rewrite E.
Qed.

(** The receipt of an unresolved verdict is kept too. *)
Lemma unresolved_receipt_kept `{FloatText} `{Digest} :
  ∃ v, build_verdict (PStr MODEL_NEEDED) (PStr "why") (PStr "r") (PStr "s") (PStr "d")
         (PDict [("status", PStr "completed")]) = Ok v ∧
    resolution v = MODEL_NEEDED ∧ deterministic_receipt v = [("status", PStr "completed")].
Proof. eexists. split; [vm_compute; reflexivity|]. done. Qed.

(** * Witnesses *)
#[local] Existing Instance Sha256_Digest.
#[local] Existing Instance Dyadic_FloatText.

Module Witness.
Definition state : dict := [("task_id", PStr "t-1"); ("attempt", PInt 2)].
Definition receipt : dict := [("status", PStr "completed")].
Definition answer : dict :=
  [("resolution", PStr RESOLVED_DETERMINISTICALLY); ("deterministic_receipt", PDict receipt)].
Definition port : ModelCallResolutionPort :=
  {| port_resolver_id := PStr "cache"; port_type_name := "Cache";
     port_resolve := λ _ _, Ok (RawValue (PDict answer)) |}.
Definition built : ModelCallNeedVerdict :=
  {| resolution := MODEL_NEEDED; reason := "no cached result"; resolver_id := "cache";
     seam := "worker"; structured_state_digest := EmptyString; deterministic_receipt := [];
     resolver_failure := None |}.
Definition building_port : ModelCallResolutionPort :=
  {| port_resolver_id := PStr "cache"; port_type_name := "Cache";
     port_resolve := λ _ _, Ok (RawVerdict built) |}.
End Witness.

Lemma resolve_fail_safe_witness :
  ∃ v, resolve_model_call_need (Some Witness.port) Witness.state PNone MODEL_NEEDED = Ok v ∧
    resolution v = RESOLVED_DETERMINISTICALLY.
Proof.
  destruct (resolve_fail_safe (Some Witness.port) Witness.state PNone MODEL_NEEDED)
    as (v & Hv & _ & _ & Hres); [by intros port e [= <-]|].
  exists v. split; [exact Hv|]. apply Hres. clear Hres. vm_compute in Hv. injection Hv as <-.
  eexists Witness.port, _, _, Witness.answer, Witness.receipt.
  split; [reflexivity|]. split; [vm_compute; reflexivity|]. split; [reflexivity|].
  split; [reflexivity|]. split; [|by vm_compute].
  split; [reflexivity|]. split; [reflexivity|].
  split; [by exists Witness.receipt|]. by split.
Defined.
Lemma verdict_relay_witness : ∃ h,
  _structured_state_digest Witness.state = Ok h ∧
  resolve_model_call_need (Some Witness.building_port) Witness.state (PStr " worker ") MODEL_NEEDED
    = Ok (relayed Witness.built h).
Proof.
  eexists. split; [vm_compute; reflexivity|].
  apply (verdict_relay Witness.building_port Witness.state (PStr " worker ") MODEL_NEEDED
    (PStr " MODEL_NEEDED ") (PStr "no cached result") (PStr "cache") (PStr "worker") PNone PNone);
    vm_compute; reflexivity.
Defined.
