(* ===== verification/BoundedDecision.v ===== *)
(** * Bounded semantic decisions
    ([src/src/nexus_runtime/execution_coordination/bounded_decision.py])

    After the resolution seam has answered that a model is needed, the residual may be
    representable as a finite choice.  [classify_bounded_decision] decides that from the
    verdict and the structured state, [build_bounded_decision_packet] freezes the choice in
    a hashed packet, and [validate_bounded_decision_response] checks a model's answer
    against the packet. *)
From Stdlib Require Import Ascii String SpecFloat.
From S2P Require Import Prelude PyValue Json Digest Contract Instances SortBy ModelCallResolution.

Definition BOUNDED_DECISION_PACKET_SCHEMA := "nexus.runtime.bounded_decision_packet.v1".
Definition BOUNDED_DECISION_RESPONSE_SCHEMA := "nexus.runtime.bounded_decision_response.v1".
Definition BOUNDED_DECISION_TELEMETRY_SCHEMA := "nexus.runtime.bounded_decision_telemetry.v1".
Definition BOUNDED_DECISION_ELIGIBLE := "BOUNDED_DECISION_ELIGIBLE".
Definition FRONTIER_REASONING_REQUIRED := "FRONTIER_REASONING_REQUIRED".
Definition BOUNDED_DECISION_INSUFFICIENT_STATE := "INSUFFICIENT_STRUCTURED_STATE".
Definition DETERMINISTIC_ALREADY_RESOLVED := "DETERMINISTIC_ALREADY_RESOLVED".
Definition ESCALATE := "ESCALATE".
Definition _ELIGIBILITY_STATUSES : list string :=
  [BOUNDED_DECISION_ELIGIBLE; FRONTIER_REASONING_REQUIRED; BOUNDED_DECISION_INSUFFICIENT_STATE;
   DETERMINISTIC_ALREADY_RESOLVED].
Definition _SAFE_BOUNDED_DECISION_FAMILIES : list string := ["repair_candidate_choice"].
Definition _AUTHORITY_TOKENS : list string :=
  ["authoriz"; "approv"; "permission"; "permit"; "admission"; "allow"; "grant"; "certif";
   "merge"; "release"; "production"].

Record BoundedDecisionCandidate : Type := {
  candidate_id : string;
  payload : pyval;
  evidence_refs : list string
}.
Record BoundedDecisionEligibility : Type := {
  disposition : string;
  reason : string;
  model_call_resolution : string;
  decision_family : string;
  candidate_ids : list string
}.
Record BoundedDecisionPacket : Type := {
  p_task_id : string;
  p_repository : string;
  p_source_revision : string;
  p_decision_family : string;
  p_structured_state : dict;
  p_evidence_refs : list string;
  p_candidates : list BoundedDecisionCandidate;
  p_allow_escalate : bool;
  p_required_verifier : string;
  p_claim_ceiling : string;
  p_content_sha256 : string
}.
Record BoundedDecisionResponse : Type := {
  r_packet_sha256 : string;
  r_choice_id : string;
  r_scores : list (string * spec_float);
  r_observation_provenance : dict
}.

(** [BoundedDecisionCandidate.to_dict]. *)
Definition candidate_to_dict (c : BoundedDecisionCandidate) : dict :=
  [("candidate_id", PStr (candidate_id c)); ("payload", payload c);
   ("evidence_refs", str_list (evidence_refs c))].
(** [BoundedDecisionEligibility.__post_init__]. *)
Definition new_eligibility (disposition why res family : string) (ids : list string) :
    result BoundedDecisionEligibility :=
  _ ← raise_if (negb (text_in disposition _ELIGIBILITY_STATUSES)) BoundedDecisionError
        ("unsupported bounded-decision disposition: " +:+ repr_str disposition);
  Ok {| disposition := disposition; reason := why; model_call_resolution := res;
        decision_family := family; candidate_ids := ids |}.
(** [BoundedDecisionEligibility.to_dict]. *)
Definition eligibility_to_dict (e : BoundedDecisionEligibility) : dict :=
  [("schema", PStr BOUNDED_DECISION_TELEMETRY_SCHEMA); ("disposition", PStr (disposition e));
   ("reason", PStr (reason e)); ("model_call_resolution", PStr (model_call_resolution e));
   ("decision_family", PStr (decision_family e)); ("candidate_ids", str_list (candidate_ids e))].
(** [BoundedDecisionPacket._content]. *)
Definition _content (p : BoundedDecisionPacket) : dict :=
  [("schema", PStr BOUNDED_DECISION_PACKET_SCHEMA); ("task_id", PStr (p_task_id p));
   ("repository", PStr (p_repository p)); ("source_revision", PStr (p_source_revision p));
   ("decision_family", PStr (p_decision_family p));
   ("structured_state", PDict (p_structured_state p));
   ("evidence_refs", str_list (p_evidence_refs p));
   ("candidates", PList (map (λ c, PDict (candidate_to_dict c)) (p_candidates p)));
   ("allow_escalate", PBool (p_allow_escalate p));
   ("required_verifier", PStr (p_required_verifier p)); ("claim_ceiling", PStr (p_claim_ceiling p))].
(** [BoundedDecisionPacket.to_dict]. *)
Definition packet_to_dict (p : BoundedDecisionPacket) : dict :=
  dict_merge (_content p) [("content_sha256", PStr (p_content_sha256 p))].
(** [BoundedDecisionResponse.to_dict]. *)
Definition response_to_dict (r : BoundedDecisionResponse) : dict :=
  [("schema", PStr BOUNDED_DECISION_RESPONSE_SCHEMA); ("packet_sha256", PStr (r_packet_sha256 r));
   ("choice_id", PStr (r_choice_id r));
   ("scores", PDict (map (λ kv, (kv.1, PFloat kv.2)) (r_scores r)));
   ("observation_provenance", PDict (r_observation_provenance r))].
Definition with_content_sha256 (p : BoundedDecisionPacket) (h : string) : BoundedDecisionPacket :=
  {| p_task_id := p_task_id p; p_repository := p_repository p;
     p_source_revision := p_source_revision p; p_decision_family := p_decision_family p;
     p_structured_state := p_structured_state p; p_evidence_refs := p_evidence_refs p;
     p_candidates := p_candidates p; p_allow_escalate := p_allow_escalate p;
     p_required_verifier := p_required_verifier p; p_claim_ceiling := p_claim_ceiling p;
     p_content_sha256 := h |}.

Definition _text : pyval → string → result string := req_text BoundedDecisionError.
Definition _string_list (v : pyval) (name : string) (minimum : nat) : result (list string) :=
  match as_array v with
  | None => raise BoundedDecisionError (name +:+ " must be an array of strings")
  | Some l =>
      r ← mapM_result (λ x, _text x name) l;
      _ ← raise_if (Nat.ltb (length r) minimum) BoundedDecisionError
            (name +:+ " requires at least " +:+ int_text (Z.of_nat minimum) +:+ " item(s)");
      _ ← raise_if (has_dups r) BoundedDecisionError (name +:+ " must not contain duplicates");
      Ok r
  end.
Definition _contains_authority_key (value : dict) : option string :=
  first_token_key _AUTHORITY_TOKENS value.
(** [sorted(candidates, key=lambda item: item.candidate_id)]. *)
Definition sorted_candidates : list BoundedDecisionCandidate → list BoundedDecisionCandidate :=
  sort_by candidate_id.

Section decision.
Context `{FloatText} `{Digest}.

Abbreviation canonical_message := "bounded decision payload must be canonical JSON data".
Definition _sha256_payload (v : pyval) : result string :=
  h ← canonical_sha256 BoundedDecisionError canonical_message v; Ok ("sha256:" +:+ h).
Definition _content_digest (v : pyval) : result string :=
  canonical_sha256 BoundedDecisionError canonical_message v.
Definition _json_value : pyval → string → result pyval := norm_json BoundedDecisionError canonical_message.

(** [BoundedDecisionPacket.verify]. *)
Definition packet_verify (p : BoundedDecisionPacket) : result unit :=
  expected ← _sha256_payload (PDict (_content p));
  raise_if (negb (String.eqb (p_content_sha256 p) expected)) BoundedDecisionError
    "bounded decision packet hash mismatch".

(** [BoundedDecisionCandidate.from_mapping]. *)
Definition candidate_from_mapping (value : dict) : result BoundedDecisionCandidate :=
  candidate_id ← _text (py_get value "candidate_id") "candidate_id";
  evidence_refs ← _string_list (py_get value "evidence_refs") "candidate.evidence_refs" 1;
  match dict_get "payload" value with
  | None => raise BoundedDecisionError "candidate.payload is required"
  | Some raw =>
      payload ← _json_value raw "candidate.payload";
      Ok {| candidate_id := candidate_id; payload := payload; evidence_refs := evidence_refs |}
  end.
(** One item of the candidates' array. *)
Definition read_candidate (item : pyval) : result BoundedDecisionCandidate :=
  match item with
  | PDict d => candidate_from_mapping d
  | _ => raise BoundedDecisionError "candidate must be a mapping"
  end.
Definition _normalized_candidates (value : pyval) : result (list BoundedDecisionCandidate) :=
  match as_array value with
  | None => raise BoundedDecisionError "candidates must be an array"
  | Some l =>
      candidates ← mapM_result read_candidate l;
      _ ← raise_if (Nat.ltb (length candidates) 2) BoundedDecisionError
            "bounded decision requires at least two candidates";
      _ ← raise_if (has_dups (map candidate_id candidates)) BoundedDecisionError
            "candidate ids must be unique";
      Ok (sorted_candidates candidates)
  end.

(** The [try] block of [classify_bounded_decision] over the contract fields. *)
Definition contract_candidates (d : dict) : result (list BoundedDecisionCandidate) :=
  candidates ← _normalized_candidates (py_get d "candidates");
  _ ← _string_list (py_get d "evidence_refs") "evidence_refs" 1;
  _ ← _text (py_get d "task_id") "task_id";
  _ ← _text (py_get d "repository") "repository";
  _ ← _text (py_get d "source_revision") "source_revision";
  _ ← _text (py_get d "required_verifier") "required_verifier";
  _ ← _text (py_get d "claim_ceiling") "claim_ceiling";
  Ok candidates.
(** The digest of the state the verdict must be bound to. *)
Definition state_digest (d : dict) : result string :=
  v ← _json_value (PDict d) "structured_state"; _content_digest v.
Definition claimed_family (d : dict) : string := strip (str_or (py_get d "decision_family") EmptyString).
Definition protected_values (l : list pyval) : list string :=
  map (λ x, upper (strip (py_str x))) (List.filter (λ x, negb (blank (py_str x))) l).

Definition classify_bounded_decision (verdict : ModelCallNeedVerdict) (structured_state : pyval) :
    result BoundedDecisionEligibility :=
  let res := resolution verdict in
  let refuse d why family := new_eligibility d why res family [] in
  let insufficient why := refuse BOUNDED_DECISION_INSUFFICIENT_STATE why EmptyString in
  if String.eqb res RESOLVED_DETERMINISTICALLY then
    refuse DETERMINISTIC_ALREADY_RESOLVED "deterministic_result_already_available" EmptyString
  else if String.eqb res INSUFFICIENT_STRUCTURED_STATE then
    insufficient "model_call_resolution_insufficient"
  else if negb (String.eqb res MODEL_NEEDED) then insufficient "unsupported_model_call_resolution"
  else match structured_state with
  | PDict d =>
      match state_digest d with
      | Err exc =>
          if exn_is BoundedDecisionError exc then insufficient ("bounded_state_unusable:" +:+ exn_msg exc)
          else Err exc
      | Ok digest =>
          if String.eqb (structured_state_digest verdict) EmptyString then
            insufficient "model_call_state_digest_missing"
          else if negb (String.eqb (structured_state_digest verdict) digest) then
            insufficient "model_call_state_digest_mismatch"
          else
          let family := claimed_family d in
          if String.eqb family EmptyString then insufficient "decision_family_missing"
          else if negb (text_in family _SAFE_BOUNDED_DECISION_FAMILIES) then
            refuse FRONTIER_REASONING_REQUIRED
              ("decision_family_not_bounded_safe:" +:+ family) family
          else match as_array (py_get d "protected_authority_requirements") with
          | None => refuse BOUNDED_DECISION_INSUFFICIENT_STATE
                      "protected_authority_requirements_missing" family
          | Some l =>
              match protected_values l with
              | (_ :: _) as values =>
                  refuse FRONTIER_REASONING_REQUIRED
                    ("protected_authority_requirement:" +:+ str_join "," (sort_unique values)) family
              | [] =>
                  match contract_candidates d with
                  | Err exc =>
                      if exn_is BoundedDecisionError exc then
                        refuse BOUNDED_DECISION_INSUFFICIENT_STATE
                          ("bounded_contract_incomplete:" +:+ exn_msg exc) family
                      else Err exc
                  | Ok candidates =>
                      new_eligibility BOUNDED_DECISION_ELIGIBLE "finite_provenance_bound_residual" res
                        family (map candidate_id candidates)
                  end
              end
          end
      end
  | _ => insufficient "bounded_state_not_mapping"
  end.

(** The packet of an eligible state with its candidates. *)
Definition freeze_residual (d : dict) (candidates : list BoundedDecisionCandidate) :
    result BoundedDecisionPacket :=
  state_payload ← match default (PDict []) (dict_get "structured_state" d) with
    | PDict s => _json_value (PDict s) "structured_state"
    | _ => raise BoundedDecisionError "structured_state must be a mapping"
    end;
  task_id ← _text (py_get d "task_id") "task_id";
  repository ← _text (py_get d "repository") "repository";
  source_revision ← _text (py_get d "source_revision") "source_revision";
  decision_family ← _text (py_get d "decision_family") "decision_family";
  evidence_refs ← _string_list (py_get d "evidence_refs") "evidence_refs" 1;
  required_verifier ← _text (py_get d "required_verifier") "required_verifier";
  claim_ceiling ← _text (py_get d "claim_ceiling") "claim_ceiling";
  let packet := {|
    p_task_id := task_id; p_repository := repository; p_source_revision := source_revision;
    p_decision_family := decision_family;
    p_structured_state := match state_payload with PDict s => s | _ => [] end;
    p_evidence_refs := evidence_refs; p_candidates := candidates; p_allow_escalate := true;
    p_required_verifier := required_verifier; p_claim_ceiling := claim_ceiling;
    p_content_sha256 := EmptyString |} in
  digest ← _sha256_payload (PDict (_content packet));
  Ok (with_content_sha256 packet digest).
Definition build_bounded_decision_packet (verdict : ModelCallNeedVerdict) (structured_state : pyval) :
    result BoundedDecisionPacket :=
  eligibility ← classify_bounded_decision verdict structured_state;
  _ ← raise_if (negb (String.eqb (disposition eligibility) BOUNDED_DECISION_ELIGIBLE))
        BoundedDecisionError
        ("bounded decision not eligible: " +:+ disposition eligibility +:+ ":" +:+ reason eligibility);
  d ← as_mapping structured_state "get";
  candidates ← match dict_get "candidates" d with
    | Some v => _normalized_candidates v
    | None => raise KeyError "candidates"
    end;
  freeze_residual d candidates.

(** [float(raw)] on an [int] or a [float]; [1e-6] as a binary64. *)
Definition py_float (v : pyval) : result spec_float :=
  match v with
  | PFloat f => Ok f
  | PInt n =>
      match float_of_int n with
      | S754_infinity _ => raise OverflowError "int too large to convert to float"
      | f => Ok f
      end
  | _ => raise TypeError "float() argument must be a string or a real number"
  end.
Definition float_one : spec_float := float_of_int 1.
Definition score_tolerance : spec_float := S754_finite false 4722366482869645 (-72).
Definition in_unit (f : spec_float) : bool := SFleb (float_of_int 0) f && SFleb f float_one.
(** [abs(total - 1.0) > 1e-6]. *)
Definition off_total (total : spec_float) : bool :=
  SFltb score_tolerance (SFabs (SFsub float_prec float_emax total float_one)).
Definition read_score (kv : string * pyval) : result (string * spec_float) :=
  let '(key, raw) := kv in
  match raw with
  | PInt _ | PFloat _ =>
      score ← py_float raw;
      _ ← raise_if (negb (in_unit score)) BoundedDecisionError
            ("score for " +:+ key +:+ " must be within [0,1]");
      Ok (key, score)
  | _ => raise BoundedDecisionError ("score for " +:+ key +:+ " must be numeric")
  end.

Definition validate_bounded_decision_response (packet : BoundedDecisionPacket) (response : pyval) :
    result BoundedDecisionResponse :=
  _ ← packet_verify packet;
  response ← match response with
    | PDict d => Ok d
    | _ => raise BoundedDecisionError "bounded decision response must be a mapping"
    end;
  _ ← match _contains_authority_key response with
      | Some smuggled => raise BoundedDecisionError
          ("bounded decision response must not carry authority content: " +:+ smuggled)
      | None => Ok ()
      end;
  _ ← raise_if (negb (is_text (py_get response "schema") BOUNDED_DECISION_RESPONSE_SCHEMA))
        BoundedDecisionError "bounded decision response schema mismatch";
  packet_sha ← _text (py_get response "packet_sha256") "packet_sha256";
  _ ← raise_if (negb (String.eqb packet_sha (p_content_sha256 packet))) BoundedDecisionError
        "bounded decision response packet mismatch";
  let allowed_choices := ESCALATE :: map candidate_id (p_candidates packet) in
  choice_id ← _text (py_get response "choice_id") "choice_id";
  _ ← raise_if (negb (text_in choice_id allowed_choices)) BoundedDecisionError
        "response introduced an out-of-set candidate";
  scores_value ← match py_get response "scores" with
    | PDict d => Ok d
    | _ => raise BoundedDecisionError "scores must be a mapping"
    end;
  _ ← raise_if (negb (keys_are allowed_choices scores_value)) BoundedDecisionError
        "scores must cover exactly the supplied candidates plus ESCALATE";
  scores ← mapM_result read_score scores_value;
  _ ← raise_if (off_total (float_sum (map snd scores))) BoundedDecisionError "scores must sum to 1";
  provenance ← match default (PDict []) (dict_get "observation_provenance" response) with
    | PDict d => _json_value (PDict d) "observation_provenance"
    | _ => raise BoundedDecisionError "observation_provenance must be a mapping"
    end;
  Ok {| r_packet_sha256 := packet_sha; r_choice_id := choice_id; r_scores := scores;
        r_observation_provenance := match provenance with PDict d => d | _ => [] end |}.
End decision.

(** * Lemmas *)
Lemma bounded_error e : exn_type e = BoundedDecisionError → exn_is BoundedDecisionError e = true.
Proof. unfold exn_is. by intros ->. Qed.

Lemma string_list_err v name n e : _string_list v name n = Err e → exn_type e = BoundedDecisionError.
Proof.
  unfold _string_list. destruct (as_array v) as [l|]; [|by intros [= <-]].
  intros [He|(t & _ & [?%raise_if_err|(? & _ & [?%raise_if_err|(? & _ & ?)]%bind_Err_inv)]%bind_Err_inv)]%bind_Err_inv;
    try done.
  revert He. apply (mapM_result_err _ (λ e, exn_type e = BoundedDecisionError)). intros x e'. apply req_text_err.
Qed.
Lemma string_list_Ok v name n l :
  _string_list v name n = Ok l ↔
  (∃ k, as_array v = Some k ∧ mapM_result (λ x, _text x name) k = Ok l) ∧ n ≤ length l ∧ NoDup l.
Proof.
  unfold _string_list. split.
  - destruct (as_array v) as [k|] eqn:Ek; [|done].
    intros (r & Hr & (? & H1%raise_if_Ok_inv & (? & H2%raise_if_Ok_inv & [= <-])%bind_Ok_inv)%bind_Ok_inv)%bind_Ok_inv.
    apply Nat.ltb_ge in H1. apply has_dups_false in H2. eauto.
  - intros ((k & -> & ->) & Hn & Hd). cbn [mbind result_bind].
    by rewrite (proj2 (Nat.ltb_ge _ _) Hn), (proj2 (has_dups_false _) Hd).
Qed.

Section decision_lemmas.
Context `{FloatText} `{Digest}.

Lemma candidate_err d e : candidate_from_mapping d = Err e → exn_type e = BoundedDecisionError.
Proof.
  unfold candidate_from_mapping.
  intros [?%req_text_err|(? & _ & [?%string_list_err|(? & _ & He)]%bind_Err_inv)]%bind_Err_inv; [done..|].
  destruct (dict_get "payload" d); [|by injection He as <-].
  apply bind_Err_inv in He as [?%norm_json_err|(? & _ & ?)]; done.
Qed.
Lemma normalized_candidates_err v e :
  _normalized_candidates v = Err e → exn_type e = BoundedDecisionError.
Proof.
  unfold _normalized_candidates. destruct (as_array v) as [l|]; [|by intros [= <-]].
  intros [He|(t & _ & [?%raise_if_err|(? & _ & [?%raise_if_err|(? & _ & ?)]%bind_Err_inv)]%bind_Err_inv)]%bind_Err_inv;
    try done.
  revert He. apply (mapM_result_err _ (λ e, exn_type e = BoundedDecisionError)). intros x e'. destruct x; try by intros [= <-]. apply candidate_err.
Qed.
Lemma contract_candidates_err d e : contract_candidates d = Err e → exn_type e = BoundedDecisionError.
Proof.
  unfold contract_candidates.
  intros [?%normalized_candidates_err|(? & _ & [?%string_list_err|(? & _ & He)]%bind_Err_inv)]%bind_Err_inv; [done..|].
  repeat (apply bind_Err_inv in He as [?%req_text_err|(? & _ & He)]; [done|]). done.
Qed.
Lemma state_digest_err d e : state_digest d = Err e → exn_type e = BoundedDecisionError.
Proof.
  unfold state_digest, _content_digest, canonical_sha256.
  by intros [?%norm_json_err|(? & _ & [->%canonical_json_err|(? & _ & ?)]%bind_Err_inv)]%bind_Err_inv.
Qed.
Lemma state_digest_hex d h : state_digest d = Ok h → is_hex64 h = true.
Proof.
  unfold state_digest, _content_digest, canonical_sha256.
  intros (? & _ & (? & _ & [= <-])%bind_Ok_inv)%bind_Ok_inv. apply sha256_hex_wf.
Qed.

(** Both modules digest a structured state alike. *)
Lemma state_digest_agrees d h : state_digest d = Ok h ↔ _structured_state_digest d = Ok h.
Proof.
  unfold state_digest, _structured_state_digest, _json_value, _normalize_json_value,
    _content_digest, ModelCallResolution._content_digest, canonical_sha256. split.
  - intros (v & Hv & (t & Ht & Hh)%bind_Ok_inv)%bind_Ok_inv.
    rewrite (norm_json_class _ _ _ _ _ _ _ Hv). cbn.
    destruct (normalize_mapping _ _ _ (norm_json_class _ _ _ _ _ _ _ Hv)) as [w ->].
    apply canonical_json_Ok in Ht.
    by rewrite (proj2 (canonical_json_Ok ModelCallResolutionError _ _ _) Ht).
  - intros (v & Hv & Hh)%bind_Ok_inv. destruct v as [| | | | | | |w|]; try done.
    apply bind_Ok_inv in Hh as (t & Ht & Hh).
    rewrite (norm_json_class _ BoundedDecisionError _ _ _ _ _ Hv). cbn.
    apply canonical_json_Ok in Ht.
    by rewrite (proj2 (canonical_json_Ok BoundedDecisionError _ _ _) Ht).
Qed.

Lemma py_get_default (d : dict) k v : py_get d k = v → v ≠ PNone → dict_get k d = Some v.
Proof. unfold py_get. destruct (dict_get k d); cbn; congruence. Qed.

Lemma normalized_candidates_Ok v cs :
  _normalized_candidates v = Ok cs ↔
  ∃ l read, as_array v = Some l ∧ mapM_result read_candidate l = Ok read ∧ 2 ≤ length read ∧
    NoDup (map candidate_id read) ∧ cs = sorted_candidates read.
Proof.
  unfold _normalized_candidates. split.
  - destruct (as_array v) as [l|] eqn:El; [|done].
    intros (read & Hr & (? & H1%raise_if_Ok_inv & (? & H2%raise_if_Ok_inv & [= <-])%bind_Ok_inv)%bind_Ok_inv)%bind_Ok_inv.
    apply Nat.ltb_ge in H1. apply has_dups_false in H2. eauto 10.
  - intros (l & read & -> & -> & Hn & Hd & ->). cbn [mbind result_bind].
    by rewrite (proj2 (Nat.ltb_ge _ _) Hn), (proj2 (has_dups_false _) Hd).
Qed.
Lemma merge_candidates_perm cs : sorted_candidates cs ≡ₚ cs.
Proof. apply sort_by_perm. Qed.
Lemma normalized_candidates_ids v cs :
  _normalized_candidates v = Ok cs → 2 ≤ length cs ∧ NoDup (map candidate_id cs).
Proof.
  intros (l & read & _ & _ & Hn & Hd & ->)%normalized_candidates_Ok.
  by rewrite merge_candidates_perm.
Qed.

(** When a residual is a bounded choice. *)
Definition eligible_residual (v : ModelCallNeedVerdict) (d : dict) (cs : list BoundedDecisionCandidate) : Prop :=
  resolution v = MODEL_NEEDED ∧ state_digest d = Ok (structured_state_digest v) ∧
  claimed_family d ∈ _SAFE_BOUNDED_DECISION_FAMILIES ∧
  (∃ l, as_array (py_get d "protected_authority_requirements") = Some l ∧
        Forall (λ x, blank (py_str x) = true) l) ∧
  contract_candidates d = Ok cs.

Lemma protected_values_nil l : protected_values l = [] ↔ Forall (λ x, blank (py_str x) = true) l.
Proof.
  unfold protected_values. induction l as [|x l IH]; cbn; [done|]. rewrite Forall_cons, <- IH.
  destruct (blank (py_str x)); cbn; [tauto|]. split; [done|]. by intros [? _].
Qed.

Definition eligible_as (v : ModelCallNeedVerdict) (d : dict) (cs : list BoundedDecisionCandidate) :
    BoundedDecisionEligibility :=
  {| disposition := BOUNDED_DECISION_ELIGIBLE; reason := "finite_provenance_bound_residual";
     model_call_resolution := resolution v; decision_family := claimed_family d;
     candidate_ids := map candidate_id cs |}.
Ltac refused := right; split; [|eexists _, _, _; split; [reflexivity|by apply text_in_spec]];
  let Hst := fresh in
  intros d' cs' Hst (Hr & Hd & Hf & (l' & Hl & Hall) & Hc); simplify_eq.
(** Either the residual is eligible, or the answer is a refusal. *)
Lemma classify_cases v st :
  (∃ d cs, st = PDict d ∧ eligible_residual v d cs ∧
     classify_bounded_decision v st = Ok (eligible_as v d cs)) ∨
  ((∀ d cs, st = PDict d → ¬ eligible_residual v d cs) ∧
   ∃ why family disp, classify_bounded_decision v st =
       Ok {| disposition := disp; reason := why; model_call_resolution := resolution v;
             decision_family := family; candidate_ids := [] |} ∧
     disp ∈ [FRONTIER_REASONING_REQUIRED; BOUNDED_DECISION_INSUFFICIENT_STATE;
             DETERMINISTIC_ALREADY_RESOLVED]).
Proof.
  unfold classify_bounded_decision. cbv zeta.
  destruct (String.eqb_spec (resolution v) RESOLVED_DETERMINISTICALLY) as [E|_]; [refused; by rewrite E in Hr|].
  destruct (String.eqb_spec (resolution v) INSUFFICIENT_STRUCTURED_STATE) as [E|_]; [refused; by rewrite E in Hr|].
  destruct (String.eqb_spec (resolution v) MODEL_NEEDED) as [E|?]; cbn [negb]; [|refused; congruence].
  destruct st as [| | | | | | |d|]; try (refused; congruence).
  destruct (state_digest d) as [h|e] eqn:Eh.
  2: { rewrite bounded_error by by eapply state_digest_err. refused; congruence. }
  destruct (String.eqb_spec (structured_state_digest v) EmptyString) as [Ee|_].
  { refused. assert (h = EmptyString) as -> by congruence. by apply state_digest_hex in Eh. }
  destruct (String.eqb_spec (structured_state_digest v) h) as [Ed|?]; cbn [negb]; [|refused; congruence].
  destruct (String.eqb_spec (claimed_family d) EmptyString) as [Ef|_].
  { refused. rewrite Ef in Hf. by apply text_in_spec in Hf. }
  destruct (text_in (claimed_family d) _SAFE_BOUNDED_DECISION_FAMILIES) eqn:Et; cbn [negb].
  2: { refused. apply text_in_spec in Hf. congruence. }
  destruct (as_array (py_get d "protected_authority_requirements")) as [l|] eqn:El; [|refused; congruence].
  destruct (protected_values l) as [|x r] eqn:Ep.
  2: { refused. assert (protected_values l = []) by (apply protected_values_nil; congruence). congruence. }
  destruct (contract_candidates d) as [cs|e] eqn:Ec.
  2: { rewrite bounded_error by by eapply contract_candidates_err. refused; congruence. }
  left. exists d, cs. split; [done|]. split; [|done]. unfold eligible_residual.
  apply text_in_spec in Et. apply protected_values_nil in Ep. split_and!; eauto. congruence.
Qed.
End decision_lemmas.

(** ** Packets *)
(** Candidates and packets up to the order of object keys in their JSON payloads. *)
Definition candidate_equiv (c c' : BoundedDecisionCandidate) : Prop :=
  candidate_id c = candidate_id c' ∧ jnorm (payload c) = jnorm (payload c') ∧
  evidence_refs c = evidence_refs c'.
Definition packet_equiv (p q : BoundedDecisionPacket) : Prop :=
  p_task_id p = p_task_id q ∧ p_repository p = p_repository q ∧
  p_source_revision p = p_source_revision q ∧ p_decision_family p = p_decision_family q ∧
  jnorm (PDict (p_structured_state p)) = jnorm (PDict (p_structured_state q)) ∧
  p_evidence_refs p = p_evidence_refs q ∧ Forall2 candidate_equiv (p_candidates p) (p_candidates q) ∧
  p_allow_escalate p = p_allow_escalate q ∧ p_required_verifier p = p_required_verifier q ∧
  p_claim_ceiling p = p_claim_ceiling q.
(** Payloads and state are normalised JSON. *)
Definition packet_wf (p : BoundedDecisionPacket) : Prop :=
  normal (PDict (p_structured_state p)) = true ∧
  Forall (λ c, normal (payload c) = true) (p_candidates p).

Lemma cons_eq_inv {A} (x y : A) l k : x :: l = y :: k → x = y ∧ l = k.
Proof. by intros [= -> ->]. Qed.
Lemma normal_str_list l : normal (str_list l) = true.
Proof. unfold str_list. cbn. induction l as [|x l IH]; cbn; auto. Qed.

(** A literal mapping with distinct stripped keys and normalised members is normalised. *)
Lemma normal_literal d :
  bool_decide (NoDup (keys d)) = true → forallb stripped_key (keys d) = true →
  Forall (λ kv, normal kv.2 = true) d → normal (PDict d) = true.
Proof.
  intros Hn%bool_decide_eq_true Hk Hv. apply normal_dict. split; [done|].
  apply Forall_forallb in Hk. unfold keys in Hk. rewrite Forall_map in Hk. by apply Forall_and.
Qed.

Section packet_lemmas.
Context `{FloatText} `{Digest}.

Lemma candidate_normal c : normal (payload c) = true → normal (PDict (candidate_to_dict c)) = true.
Proof.
  intros Hc. apply normal_literal; [done|done|]. cbn.
  repeat constructor; cbn; [done|apply normal_str_list].
Qed.
Lemma content_normal p : packet_wf p → normal (PDict (_content p)) = true.
Proof.
  intros [Hs Hc]. apply normal_literal; [done|done|].
  assert (normal (PList (map (λ c, PDict (candidate_to_dict c)) (p_candidates p))) = true) as Hl.
  { cbn [normal]. apply Forall_forallb. rewrite Forall_map. eapply Forall_impl; [exact Hc|].
    intros c. apply candidate_normal. }
  repeat (constructor; [first [reflexivity|exact Hs|exact Hl|apply normal_str_list]|]). constructor.
Qed.

Lemma candidate_dict_jnorm c c' :
  jnorm (PDict (candidate_to_dict c)) = jnorm (PDict (candidate_to_dict c')) ↔ candidate_equiv c c'.
Proof.
  split.
  - intros E. doc_members E. unfold candidate_equiv. auto.
  - intros (E1 & E2 & E3). cbn [jnorm candidate_to_dict map fst snd]. by rewrite E1, E2, E3.
Qed.
Lemma candidates_jnorm l l' :
  map jnorm (map (λ c, PDict (candidate_to_dict c)) l)
    = map jnorm (map (λ c, PDict (candidate_to_dict c)) l') ↔ Forall2 candidate_equiv l l'.
Proof.
  split.
  - revert l'. induction l as [|c l IH]; intros [|c' l']; [constructor|done|done|].
    cbn [map]. intros [E1 E2]%cons_eq_inv. constructor; [|by apply IH]. by apply candidate_dict_jnorm.
  - induction 1 as [|c c' l l' Hc _ IH]; [done|]. cbn [map]. f_equal; [|done].
    by apply candidate_dict_jnorm.
Qed.

#[export] Instance candidate_equiv_equivalence : Equivalence candidate_equiv.
Proof.
  unfold candidate_equiv. split.
  - by intros c.
  - by intros c c' (->&->&->).
  - by intros c c' c'' (->&->&->) (->&->&->).
Qed.
#[export] Instance packet_equiv_equivalence : Equivalence packet_equiv.
Proof.
  unfold packet_equiv. split.
  - intros p. split_and!; done.
  - intros p q (?&?&?&?&?&?&Hc&?&?&?). split_and!; done.
  - intros p q r (?&?&?&?&?&?&Hc&?&?&?) (?&?&?&?&?&?&Hc'&?&?&?). split_and!; try by etrans.
Qed.

(** Two packets are equivalent exactly when they hash the same document. *)
Lemma content_jnorm p q : jnorm (PDict (_content p)) = jnorm (PDict (_content q)) ↔ packet_equiv p q.
Proof.
  split.
  - intros E. apply jnorm_members in E; [|by apply (bool_decide_eq_true_1 _)|done].
    cbn [map fst snd _content] in E. rewrite !jnorm_of_str_list in E.
    injection E as E1 E2 E3 E4 E5 E6 E7 E8 E9 E10.
    unfold packet_equiv. split_and!; try done; [cbn; by f_equal|apply str_list_inj; unfold str_list; by f_equal|
      by apply candidates_jnorm].
  - intros (E1 & E2 & E3 & E4 & E5 & E6 & E7%candidates_jnorm & E8 & E9 & E10).
    change (jnorm (PDict (_content p))) with
      (PDict (sort_items (map (λ kv, (kv.1, jnorm kv.2)) (_content p)))).
    change (jnorm (PDict (_content q))) with
      (PDict (sort_items (map (λ kv, (kv.1, jnorm kv.2)) (_content q)))).
    do 2 f_equal. unfold _content. cbn [map fst snd]. rewrite E5, E1, E2, E3, E4, E6, E8, E9, E10.
    do 7 f_equal. do 2 f_equal. cbn [jnorm]. by rewrite E7.
Qed.
#[export] Instance sha256_payload_proper :
  Proper (packet_equiv ==> eq) (λ p, _sha256_payload (PDict (_content p))).
Proof.
  intros p q E%content_jnorm. unfold _sha256_payload, canonical_sha256, canonical_json, json_dumps.
  by rewrite E.
Qed.

(** Packets are sealed by their hash. *)
#[export] Instance packet_sealed : Sealed BoundedDecisionPacket.
Proof.
  refine {| sealed_doc p := PDict (_content p); sealed_ok := packet_wf; sealed_same := packet_equiv |}.
  - intros p Hp. by apply (normal_facts (PDict (_content p))), content_normal.
  - intros p q _ _. apply content_jnorm.
Defined.
End packet_lemmas.

(** ** Building a packet *)
Section build_lemmas.
Context `{FloatText} `{Digest}.

Lemma contract_candidates_Ok d cs :
  contract_candidates d = Ok cs → _normalized_candidates (py_get d "candidates") = Ok cs.
Proof.
  unfold contract_candidates. intros (a & Ha & Hc)%bind_Ok_inv.
  repeat (apply bind_Ok_inv in Hc as (? & _ & Hc)). congruence.
Qed.
Lemma build_Ok v st p :
  build_bounded_decision_packet v st = Ok p ↔
  ∃ d cs, st = PDict d ∧ eligible_residual v d cs ∧ freeze_residual d cs = Ok p.
Proof.
  unfold build_bounded_decision_packet.
  destruct (classify_cases v st) as [(d & cs & -> & He & ->)|(Hno & why & fam & disp & -> & Hd)].
  - cbn [mbind result_bind disposition eligible_as]. rewrite String.eqb_refl. cbn [negb raise_if as_mapping mbind result_bind].
    pose proof (contract_candidates_Ok d cs (proj2 (proj2 (proj2 (proj2 He))))) as Hc.
    assert (dict_get "candidates" d = Some (py_get d "candidates")) as ->.
    { apply py_get_default; [done|]. intros E. by rewrite E in Hc. }
    rewrite Hc. cbn [mbind result_bind]. split; [eauto|].
    intros (d' & cs' & [= <-] & He' & Hf).
    assert (cs' = cs) as ->; [|done].
    apply proj2, proj2, proj2, proj2 in He, He'. congruence.
  - cbn [mbind result_bind disposition].
    assert (String.eqb disp BOUNDED_DECISION_ELIGIBLE = false) as ->.
    { apply String.eqb_neq. intros ->. by apply text_in_spec in Hd. }
    cbn. split; [done|]. intros (d & cs & -> & He & _). by destruct (Hno d cs).
Qed.

(** The remaining fields do not depend on the candidates' array. *)
Definition agree_but (k : string) (d d' : dict) : Prop := ∀ k', k' ≠ k → dict_get k' d = dict_get k' d'.
Lemma agree_py_get k d d' k' : agree_but k d d' → k' ≠ k → py_get d k' = py_get d' k'.
Proof. unfold py_get. by intros E ?; rewrite (E k'). Qed.
Lemma freeze_ext d d' cs : agree_but "candidates" d d' → freeze_residual d cs = freeze_residual d' cs.
Proof.
  intros E. unfold freeze_residual. rewrite (E "structured_state") by done.
  by rewrite !(agree_py_get _ d d' _ E) by done.
Qed.
Lemma contract_ext d d' :
  agree_but "candidates" d d' →
  _normalized_candidates (py_get d "candidates") = _normalized_candidates (py_get d' "candidates") →
  contract_candidates d = contract_candidates d'.
Proof.
  intros E Ec. unfold contract_candidates. rewrite Ec.
  by rewrite !(agree_py_get _ d d' _ E) by done.
Qed.

Lemma normalized_candidates_perm l l' cs :
  l ≡ₚ l' → _normalized_candidates (PList l) = Ok cs → _normalized_candidates (PList l') = Ok cs.
Proof.
  rewrite !normalized_candidates_Ok. intros Hp (? & read & [= <-] & Hr & Hn & Hd & ->).
  destruct (mapM_result_perm _ _ _ _ Hp Hr) as (read' & Hr' & Hp').
  exists l', read'. split_and!; [done|done|by rewrite <- Hp'|by rewrite <- Hp'|by apply sort_by_unique].
Qed.

(** Well-formed states give well-formed packets. *)
Lemma candidate_wf d c : py_wf (PDict d) = true → candidate_from_mapping d = Ok c → normal (payload c) = true.
Proof.
  unfold candidate_from_mapping. intros Hwf (i & _ & (r & _ & Hp)%bind_Ok_inv)%bind_Ok_inv.
  destruct (dict_get "payload" d) as [raw|] eqn:E; [|done].
  apply bind_Ok_inv in Hp as (x & Hx & [= <-]). cbn.
  eapply norm_json_normal; [by eapply py_wf_get|done].
Qed.
Lemma normalized_candidates_wf v cs :
  py_wf v = true → _normalized_candidates v = Ok cs → Forall (λ c, normal (payload c) = true) cs.
Proof.
  intros Hv (l & read & Hl & Hr & _ & _ & ->)%normalized_candidates_Ok. rewrite merge_candidates_perm.
  apply (py_wf_array _ _ Hv) in Hl. apply mapM_result_Ok_inv in Hr.
  induction Hr as [|x c l read Hx _ IH]; [constructor|]. inversion Hl; subst.
  constructor; [|by apply IH]. destruct x; try done. by eapply candidate_wf.
Qed.
Lemma freeze_Ok d cs p :
  py_wf (PDict d) = true → Forall (λ c, normal (payload c) = true) cs → freeze_residual d cs = Ok p →
  packet_wf p ∧ _sha256_payload (PDict (_content p)) = Ok (p_content_sha256 p).
Proof.
  intros Hd Hcs. unfold freeze_residual. intros (st & Hst & Hf)%bind_Ok_inv.
  assert (∃ w, st = PDict w ∧ normal (PDict w) = true) as (w & -> & Hw).
  { destruct (default _ _) as [| | | | | | |s|] eqn:Es; try done.
    destruct (normalize_mapping _ _ _ (norm_json_class _ _ _ _ _ _ _ Hst)) as [w ->].
    exists w. split; [done|]. eapply norm_json_normal; [|done].
    destruct (dict_get "structured_state" d) eqn:Eg; cbn in Es; [|by injection Es as <-].
    subst. by eapply py_wf_get. }
  do 7 (apply bind_Ok_inv in Hf as (? & _ & Hf)). apply bind_Ok_inv in Hf as (h & Hh & [= <-]).
  by split.
Qed.
Lemma build_wf v st p :
  py_wf st = true → build_bounded_decision_packet v st = Ok p →
  packet_wf p ∧ _sha256_payload (PDict (_content p)) = Ok (p_content_sha256 p).
Proof.
  intros Hwf (d & cs & -> & (_ & _ & _ & _ & Hc%contract_candidates_Ok) & Hf)%build_Ok.
  eapply freeze_Ok; [done| |done]. eapply normalized_candidates_wf; [|done]. by apply py_wf_py_get.
Qed.
End build_lemmas.

(** ** Responses *)
(** What an accepted response promises about its packet: it names the packet, chooses one
    of the packet's candidates or escalates, and scores exactly those choices with numbers
    that pass the code's comparisons with 0 and 1 and whose sum passes its check of the total. *)
Definition allowed_choices (p : BoundedDecisionPacket) : list string :=
  ESCALATE :: map candidate_id (p_candidates p).
Definition response_ok `{FloatText} (p : BoundedDecisionPacket) (r : BoundedDecisionResponse) : Prop :=
  r_packet_sha256 r = p_content_sha256 p ∧ stripped_key (r_choice_id r) = true ∧
  r_choice_id r ∈ allowed_choices p ∧
  (∀ x, x ∈ keys (r_scores r) ↔ x ∈ allowed_choices p) ∧
  Forall (λ kv, in_unit kv.2 = true) (r_scores r) ∧
  off_total (float_sum (map snd (r_scores r))) = false ∧
  normal (PDict (r_observation_provenance r)) = true.

Section response_lemmas.
Context `{FloatText} `{Digest}.

Lemma read_score_Ok kv ks :
  read_score kv = Ok ks → ks.1 = kv.1 ∧ in_unit ks.2 = true.
Proof.
  destruct kv as [k raw]. unfold read_score.
  destruct raw; try done; intros (? & _ & (? & Hu%raise_if_Ok_inv & [= <-])%bind_Ok_inv)%bind_Ok_inv;
    by apply negb_false_iff in Hu.
Qed.
Lemma read_scores_keys d l :
  mapM_result read_score d = Ok l → keys l = keys d ∧ Forall (λ kv, in_unit kv.2 = true) l.
Proof.
  intros Hl%mapM_result_Ok_inv. induction Hl as [|kv ks d l [Hk Hu]%read_score_Ok _ [IHk IHu]]; [done|].
  split; [|by constructor]. unfold keys in *. cbn. by rewrite Hk, IHk.
Qed.
Lemma read_scores_floats l :
  Forall (λ kv, in_unit kv.2 = true) l →
  mapM_result read_score (map (λ kv, (kv.1, PFloat kv.2)) l) = Ok l.
Proof.
  induction 1 as [|[k f] l Hf _ IH]; [done|]. change (in_unit f = true) in Hf.
  assert (read_score (k, PFloat f) = Ok (k, f)) as E.
  { unfold read_score. cbn [py_float mbind result_bind]. by rewrite Hf. }
  cbn [map mapM_result fst snd]. rewrite E. cbn [mbind result_bind]. by rewrite IH.
Qed.
Lemma verified_hash_key p :
  packet_verify p = Ok () → stripped_key (p_content_sha256 p) = true.
Proof.
  unfold packet_verify. intros (x & Hx & Hr%raise_if_Ok_inv)%bind_Ok_inv.
  apply negb_false_iff, String.eqb_eq in Hr as ->. unfold _sha256_payload, canonical_sha256 in Hx.
  apply bind_Ok_inv in Hx as (h & (t & _ & [= <-])%bind_Ok_inv & [= <-]).
  apply digest_ref_key, digest_ref_app, sha256_hex_wf.
Qed.
End response_lemmas.

(** * Properties *)
Section properties.
Context `{FloatText} `{Digest}.

(** The classification always answers, with the verdict's resolution, and it answers
    ELIGIBLE exactly when the verdict asks for a model and is bound to this very state, the
    state names a reviewed family and no protected authority, and its contract fields are
    complete; the eligible choices are then at least two distinct candidates. *)
Theorem classify_eligible_iff v st :
  ∃ e, classify_bounded_decision v st = Ok e ∧ model_call_resolution e = resolution v ∧
    disposition e ∈ _ELIGIBILITY_STATUSES ∧
    (disposition e = BOUNDED_DECISION_ELIGIBLE ↔ ∃ d cs, st = PDict d ∧ eligible_residual v d cs) ∧
    (disposition e = BOUNDED_DECISION_ELIGIBLE →
       2 ≤ length (candidate_ids e) ∧ NoDup (candidate_ids e)) ∧
    (disposition e ≠ BOUNDED_DECISION_ELIGIBLE → candidate_ids e = []).
Proof.
  destruct (classify_cases v st) as [(d & cs & -> & He & ->)|(Hno & why & fam & disp & -> & Hd)].
  - eexists. split; [done|]. cbn. split_and!; [done|by apply text_in_spec| |intros _|done].
    + split; [|done]. eauto.
    + rewrite length_map. eapply normalized_candidates_ids, contract_candidates_Ok, He.
  - eexists. split; [done|]. cbn. assert (disp ≠ BOUNDED_DECISION_ELIGIBLE) as Hne.
    { intros ->. by apply text_in_spec in Hd. }
    split_and!; [done| |split; [done|]|done|done].
    + apply elem_of_cons. by right.
    + intros (d & cs & -> & He). by destruct (Hno d cs).
Qed.

(** A verdict obtained from the resolution seam for a state fits that state: the two
    modules hash it alike, so classifying the state under that verdict never fails on the
    digest, and is decided by the family, the protected authorities and the contract. *)
Theorem resolved_verdict_fits_state resolver d seam on_invalid v e
    (Hv : resolve_model_call_need resolver d seam on_invalid = Ok v)
    (Hneeded : resolution v = MODEL_NEEDED)
    (Husable : is_ok (_structured_state_digest d) = true)
    (He : classify_bounded_decision v (PDict d) = Ok e) :
  disposition e = BOUNDED_DECISION_ELIGIBLE ↔
  claimed_family d ∈ _SAFE_BOUNDED_DECISION_FAMILIES ∧
  (∃ l, as_array (py_get d "protected_authority_requirements") = Some l ∧
        Forall (λ x, blank (py_str x) = true) l) ∧
  is_ok (contract_candidates d) = true.
Proof.
  destruct (_structured_state_digest d) as [h|] eqn:Eh; [|done].
  pose proof (resolve_digest _ _ _ _ _ _ Hv Eh) as Hd. apply state_digest_agrees in Eh.
  destruct (classify_cases v (PDict d)) as [(d' & cs & [= <-] & Hel & Hc)|(Hno & why & fam & disp & Hc & Hdisp)];
    rewrite He in Hc; injection Hc as ->; cbn.
  - split; [intros _|done]. destruct Hel as (_ & _ & ? & ? & ->). done.
  - split; [intros ->; by apply text_in_spec in Hdisp|].
    intros (Hf & Hp & Hok). destruct (contract_candidates d) as [cs|] eqn:Ec; [|done].
    destruct (Hno d cs); [done|]. unfold eligible_residual. by rewrite Hd.
Qed.

(** The packet does not depend on the order of the candidates' array: a permuted
    state, under a verdict bound to it, is frozen in the very same packet. *)
Theorem packet_candidate_order v v' d p l l'
    (Hb : build_bounded_decision_packet v (PDict d) = Ok p)
    (Hl : py_get d "candidates" = PList l) (Hp : l ≡ₚ l')
    (Hres : resolution v' = MODEL_NEEDED)
    (Hdig : state_digest (dict_set "candidates" (PList l') d) = Ok (structured_state_digest v')) :
  build_bounded_decision_packet v' (PDict (dict_set "candidates" (PList l') d)) = Ok p.
Proof.
  set (d' := dict_set "candidates" (PList l') d) in *.
  assert (agree_but "candidates" d d') as Ha.
  { intros k Hk. unfold d'. by rewrite dict_get_set_ne. }
  apply build_Ok in Hb as (? & cs & [= <-] & (_ & _ & Hf & Hpr & Hc) & Hfr). apply build_Ok.
  exists d', cs. split; [done|]. split; [|by rewrite <- (freeze_ext d)].
  unfold eligible_residual. split_and!; [done|done| | |].
  - unfold claimed_family in *. by rewrite <- (agree_py_get _ _ _ "decision_family" Ha).
  - by rewrite <- (agree_py_get _ _ _ "protected_authority_requirements" Ha).
  - rewrite <- (contract_ext d); [done|done|]. pose proof (contract_candidates_Ok d cs Hc) as Hcs.
    rewrite Hcs. symmetry. unfold d'. rewrite py_get_set. rewrite Hl in Hcs.
    by eapply normalized_candidates_perm.
Qed.

(** C33: the content hash of a packet identifies it.  A packet built from a well-formed state
    passes its own check; packets whose contents agree up to the order of keys inside their
    JSON payloads have the same hash; and two packets built from whatever states that have the
    same hash agree in this way in every field, or their canonical texts are a SHA-256
    collision. *)
Theorem packet_hash_identifies v st p v' st' q
    (Hst : py_wf st = true) (Hst' : py_wf st' = true)
    (Hp : build_bounded_decision_packet v st = Ok p)
    (Hq : build_bounded_decision_packet v' st' = Ok q) :
  packet_verify p = Ok () ∧
  (packet_equiv p q → p_content_sha256 p = p_content_sha256 q) ∧
  (p_content_sha256 p = p_content_sha256 q → packet_equiv p q ∨
     ∃ s t, json_dumps false false (PDict (_content p)) = Ok s ∧
       json_dumps false false (PDict (_content q)) = Ok t ∧ collision (utf8 s) (utf8 t)).
Proof.
  destruct (build_wf _ _ _ Hst Hp) as [Hpw Hps]. destruct (build_wf _ _ _ Hst' Hq) as [Hqw Hqs].
  split_and!.
  - unfold packet_verify. rewrite Hps. cbn. by rewrite String.eqb_refl.
  - intros E%sha256_payload_proper. congruence.
  - intros E. rewrite <- E in Hqs. unfold _sha256_payload in Hps, Hqs.
    apply bind_Ok_inv in Hps as (h & Hh & [= Eh]), Hqs as (h' & Hh' & [= Eh']).
    assert (h' = h) as -> by (rewrite <- Eh in Eh'; by injection Eh').
    destruct (@seal_binds _ _ _ packet_sealed _ _ p q h Hpw Hqw Hh Hh') as [?|(s & t & Hs%canonical_json_Ok & Ht%canonical_json_Ok & ?)];
      eauto 10.
Qed.

(** An accepted answer keeps to its packet, whatever the model sent: the packet verifies, no
    top-level key of the answer carries an authority token, and the response names that packet,
    chooses inside it, scores exactly its choices with scores the code takes to be in [0,1] and
    whose sum, as the interpreter adds them, passes the code's check of the total, and carries
    normalised provenance (whose own keys are not looked at). *)
Theorem response_keeps_to_packet p d r
    (Hwf : py_wf (PDict d) = true)
    (Hr : validate_bounded_decision_response p (PDict d) = Ok r) :
  packet_verify p = Ok () ∧ Forall (λ k, carries_token _AUTHORITY_TOKENS k = false) (keys d) ∧
  response_ok p r.
Proof.
  unfold validate_bounded_decision_response in Hr. cbv zeta in Hr.
  apply bind_Ok_inv in Hr as ([] & Hv & Hr). cbn [mbind result_bind] in Hr.
  apply bind_Ok_inv in Hr as (? & Ha & (? & _ & (sha & Hsha & Hr)%bind_Ok_inv)%bind_Ok_inv).
  apply bind_Ok_inv in Hr as (? & He%raise_if_Ok_inv & (choice & Hc & Hr)%bind_Ok_inv).
  apply bind_Ok_inv in Hr as (? & Hin%raise_if_Ok_inv & (sv & Hsv & Hr)%bind_Ok_inv).
  apply bind_Ok_inv in Hr as (? & Hk%raise_if_Ok_inv & (scores & Hs & Hr)%bind_Ok_inv).
  apply bind_Ok_inv in Hr as (? & Ht%raise_if_Ok_inv & (prov & Hp & [= <-])%bind_Ok_inv).
  apply read_scores_keys in Hs as [Hks Hu]. apply negb_false_iff in He, Hin, Hk.
  apply String.eqb_eq in He. apply text_in_spec in Hin. unfold keys_are in Hk.
  pose proof (proj1 (same_set_spec _ _) Hk) as Hset. split; [done|]. split.
  - destruct (_contains_authority_key d) eqn:Et; [done|]. apply Forall_forall. intros k Hkin.
    unfold _contains_authority_key, first_token_key in Et.
    by apply (List.find_none _ _ Et), list_elem_of_In.
  - unfold response_ok. cbn [r_scores r_packet_sha256 r_choice_id r_observation_provenance]. split_and!; [done|by eapply req_text_key|done| |done|done|].
    + intros y. by rewrite Hks, Hset.
    + destruct (default _ _) as [| | | | | | |m|] eqn:Em; try done.
      destruct (normalize_mapping _ _ _ (norm_json_class _ _ _ _ _ _ _ Hp)) as [w ->].
      eapply norm_json_normal; [|exact Hp].
      destruct (dict_get "observation_provenance" d) eqn:Eg; cbn in Em; [|by injection Em as <-].
      subst. by eapply py_wf_get.
Qed.

(** Every response that keeps to a packet is accepted: sent as its own mapping, it is
    validated to itself. *)
Theorem response_roundtrip p r
    (Hp : packet_verify p = Ok ()) (Hr : response_ok p r) :
  validate_bounded_decision_response p (PDict (response_to_dict r)) = Ok r.
Proof.
  destruct Hr as (Hsha & Hck & Hc & Hks & Hu & Ht & Hn).
  unfold validate_bounded_decision_response. rewrite Hp. cbv zeta. cbn [mbind result_bind].
  change (_contains_authority_key (response_to_dict r)) with (@None string). cbn [mbind result_bind].
  change (py_get (response_to_dict r) "schema") with (PStr BOUNDED_DECISION_RESPONSE_SCHEMA).
  change (negb (is_text (PStr BOUNDED_DECISION_RESPONSE_SCHEMA) BOUNDED_DECISION_RESPONSE_SCHEMA))
    with false. cbn [mbind result_bind raise_if].
  change (py_get (response_to_dict r) "packet_sha256") with (PStr (r_packet_sha256 r)).
  change (py_get (response_to_dict r) "choice_id") with (PStr (r_choice_id r)).
  change (py_get (response_to_dict r) "scores")
    with (PDict (map (λ kv, (kv.1, PFloat kv.2)) (r_scores r))).
  change (dict_get "observation_provenance" (response_to_dict r))
    with (Some (PDict (r_observation_provenance r))).
  unfold _text. rewrite (req_text_of_key _ (r_packet_sha256 r)) by (rewrite Hsha; by apply verified_hash_key).
  cbn [mbind result_bind]. rewrite Hsha, String.eqb_refl. cbn [negb raise_if mbind result_bind].
  rewrite (req_text_of_key _ (r_choice_id r)) by done. cbn [mbind result_bind].
  fold (allowed_choices p). rewrite (proj2 (text_in_spec _ _) Hc). cbn [negb raise_if mbind result_bind].
  assert (keys_are (allowed_choices p) (map (λ kv, (kv.1, PFloat kv.2)) (r_scores r)) = true) as ->.
  { unfold keys_are. apply same_set_spec. rewrite keys_map. exact Hks. }
  cbn [negb raise_if mbind result_bind]. rewrite read_scores_floats by done. cbn [mbind result_bind].
  rewrite Ht. cbn [raise_if mbind result_bind default id from_option]. unfold _json_value.
  rewrite norm_json_id by done. cbn. rewrite <- Hsha. by destruct r.
Qed.
End properties.

(** * Witnesses *)
#[local] Existing Instance Sha256_Digest.
#[local] Existing Instance Dyadic_FloatText.

Module Witness.
Definition candidate (id : string) : pyval :=
  PDict [("candidate_id", PStr id); ("payload", PDict [("patch", PStr id)]);
         ("evidence_refs", PList [PStr "ref:1"])].
Definition state (cs : list pyval) : dict :=
  [("task_id", PStr "t-1"); ("repository", PStr "repo"); ("source_revision", PStr "abc");
   ("required_verifier", PStr "verifier"); ("claim_ceiling", PStr "L1");
   ("decision_family", PStr "repair_candidate_choice");
   ("protected_authority_requirements", PList []); ("evidence_refs", PList [PStr "ref:1"]);
   ("candidates", PList cs)].
Definition ab : list pyval := [candidate "a"; candidate "b"].
Definition ba : list pyval := [candidate "b"; candidate "a"].
(** A resolver that asks for the model. *)
Definition port : ModelCallResolutionPort :=
  {| port_resolver_id := PStr "cache"; port_type_name := "Cache";
     port_resolve := λ _ _, Ok (RawValue (PDict [("resolution", PStr MODEL_NEEDED)])) |}.
Definition verdict (d : dict) : ModelCallNeedVerdict :=
  match resolve_model_call_need (Some port) d PNone MODEL_NEEDED with
  | Ok v => v
  | Err _ => plain_verdict EmptyString EmptyString EmptyString EmptyString EmptyString None
  end.
Definition packet : BoundedDecisionPacket :=
  match build_bounded_decision_packet (verdict (state ab)) (PDict (state ab)) with
  | Ok p => p
  | Err _ => with_content_sha256 {| p_task_id := EmptyString; p_repository := EmptyString;
      p_source_revision := EmptyString; p_decision_family := EmptyString; p_structured_state := [];
      p_evidence_refs := []; p_candidates := []; p_allow_escalate := true;
      p_required_verifier := EmptyString; p_claim_ceiling := EmptyString;
      p_content_sha256 := EmptyString |} EmptyString
  end.
Definition half : spec_float := S754_finite false 4503599627370496 (-53).
Definition response : BoundedDecisionResponse :=
  {| r_packet_sha256 := p_content_sha256 packet; r_choice_id := "b";
     r_scores := [("a", half); ("b", half); (ESCALATE, S754_zero false)];
     r_observation_provenance := [("model", PStr "small")] |}.
End Witness.

Lemma resolved_verdict_fits_state_witness : ∃ v e,
  resolve_model_call_need (Some Witness.port) (Witness.state Witness.ab) PNone MODEL_NEEDED = Ok v ∧
  classify_bounded_decision v (PDict (Witness.state Witness.ab)) = Ok e ∧
  (disposition e = BOUNDED_DECISION_ELIGIBLE ↔
   claimed_family (Witness.state Witness.ab) ∈ _SAFE_BOUNDED_DECISION_FAMILIES ∧
   (∃ l, as_array (py_get (Witness.state Witness.ab) "protected_authority_requirements") = Some l ∧
         Forall (λ x, blank (py_str x) = true) l) ∧
   is_ok (contract_candidates (Witness.state Witness.ab)) = true).
Proof.
  eexists _, _. split; [vm_compute; reflexivity|]. split; [vm_compute; reflexivity|].
  apply (resolved_verdict_fits_state (Some Witness.port) (Witness.state Witness.ab) PNone MODEL_NEEDED
    (Witness.verdict (Witness.state Witness.ab))); vm_compute; reflexivity.
Defined.
Lemma packet_candidate_order_witness :
  build_bounded_decision_packet (Witness.verdict (Witness.state Witness.ba))
    (PDict (dict_set "candidates" (PList Witness.ba) (Witness.state Witness.ab))) = Ok Witness.packet.
Proof.
  apply (packet_candidate_order (Witness.verdict (Witness.state Witness.ab))
    (Witness.verdict (Witness.state Witness.ba)) (Witness.state Witness.ab) Witness.packet
    Witness.ab Witness.ba).
  - vm_compute. reflexivity.
  - reflexivity.
  - constructor.
  - vm_compute. reflexivity.
  - vm_compute. reflexivity.
Defined.
Lemma packet_hash_identifies_witness : packet_verify Witness.packet = Ok ().
Proof.
  apply (packet_hash_identifies (Witness.verdict (Witness.state Witness.ab)) (PDict (Witness.state Witness.ab))
    Witness.packet (Witness.verdict (Witness.state Witness.ab)) (PDict (Witness.state Witness.ab))
    Witness.packet); vm_compute; reflexivity.
Defined.
Lemma witness_response_ok : response_ok Witness.packet Witness.response.
Proof.
  unfold response_ok. split; [reflexivity|]. split; [reflexivity|].
  split; [apply text_in_spec; vm_compute; reflexivity|].
  split; [apply same_set_spec; vm_compute; reflexivity|].
  split; [repeat constructor|]. split; vm_compute; reflexivity.
Qed.
Lemma response_keeps_to_packet_witness :
  packet_verify Witness.packet = Ok () ∧
  Forall (λ k, carries_token _AUTHORITY_TOKENS k = false) (keys (response_to_dict Witness.response)) ∧
  response_ok Witness.packet Witness.response.
Proof.
  apply (response_keeps_to_packet Witness.packet (response_to_dict Witness.response)); vm_compute; reflexivity.
Defined.
Lemma response_roundtrip_witness :
  validate_bounded_decision_response Witness.packet (PDict (response_to_dict Witness.response))
    = Ok Witness.response.
Proof.
  apply (response_roundtrip Witness.packet Witness.response).
  - vm_compute. reflexivity.
  - exact witness_response_ok.
Defined.

(** A candidate may be called ESCALATE; choosing it is then not distinguishable from
    escalating. *)
Example escalate_is_a_candidate_id :
  candidate_ids <$> classify_bounded_decision
    (Witness.verdict (Witness.state [Witness.candidate "ESCALATE"; Witness.candidate "b"]))
    (PDict (Witness.state [Witness.candidate "ESCALATE"; Witness.candidate "b"]))
  = Ok ["ESCALATE"; "b"].
Proof. vm_compute. reflexivity. Qed.
