(* ===== verification/WorkflowCheckpoint.v ===== *)
(** * Workflow checkpoints ([src/src/nexus_runtime/workflow_checkpoint.py], the records)

    The durable, session-independent state of one execution attempt: a validated record,
    its hashed document, its successors ([advanced], [with_effect]) and the decision
    whether a new session may resume from it.  The store of checkpoints is in
    CheckpointStore. *)
From Stdlib Require Import Ascii String SpecFloat.
From S2P Require Import Prelude PyValue Json Digest Contract Instances SortBy.

Definition WORKFLOW_CHECKPOINT_SCHEMA := "nexus.runtime.workflow_checkpoint.v1".
Definition WORKFLOW_CHECKPOINT_CLAIM_CEILING := "RUNTIME_SESSION_CHECKPOINT_EXECUTION_STATE_ONLY".
Definition STATUS_RUNNING := "RUNNING".
Definition STATUS_WAITING_APPROVAL := "WAITING_APPROVAL".
Definition STATUS_WAITING_EXTERNAL := "WAITING_EXTERNAL".
Definition STATUS_RECONCILE := "RECONCILE".
Definition STATUS_COMPLETED := "COMPLETED".
Definition STATUS_FAILED := "FAILED".
Definition CHECKPOINT_STATUSES : list string :=
  [STATUS_RUNNING; STATUS_WAITING_APPROVAL; STATUS_WAITING_EXTERNAL; STATUS_RECONCILE;
   STATUS_COMPLETED; STATUS_FAILED].
Definition TERMINAL_STATUSES : list string := [STATUS_COMPLETED; STATUS_FAILED].
Definition DISPOSITION_SAFE := "SAFE".
Definition DISPOSITION_RECONCILE := "RECONCILE".
Definition DISPOSITION_WAIT := "WAIT".
Definition DISPOSITION_BLOCKED := "BLOCKED".

(** ** Records *)
Record IdentityBinding : Set := {
  repository : string;
  source_revision : string;
  runtime_identity : string;
  target_revision : string
}.
Record CompletedEffect : Set := {
  effect_key : string;
  receipt_ref : string;
  effect_hash : string
}.
#[export] Instance identity_eq_dec : EqDecision IdentityBinding.
Proof. solve_decision. Defined.
#[export] Instance effect_eq_dec : EqDecision CompletedEffect.
Proof. solve_decision. Defined.

Record WorkflowCheckpoint : Set := {
  task_id : string;
  operation_id : string;
  attempt_id : string;
  identity : IdentityBinding;
  revision : Z;
  status : string;
  phase : string;
  next_gate : string;
  external_operation_ids : list (string * string);
  leases : list string;
  evidence_refs : list string;
  completed_effects : list CompletedEffect;
  pending_steps : list string;
  retry_history : list string;
  blocked_reason : string;
  schema : string;
  claim_ceiling : string
}.
(** The keyword arguments of the constructor, before [__post_init__] has seen them. *)
Record checkpoint_args : Type := {
  a_task_id : string;
  a_operation_id : string;
  a_attempt_id : string;
  a_identity : IdentityBinding;
  a_revision : pyval;
  a_status : string;
  a_phase : string;
  a_next_gate : string;
  a_external_operation_ids : pyval;
  a_leases : list pyval;
  a_evidence_refs : list pyval;
  a_completed_effects : list CompletedEffect;
  a_pending_steps : list pyval;
  a_retry_history : list pyval;
  a_blocked_reason : string;
  a_schema : string;
  a_claim_ceiling : string
}.

Definition _text : pyval → string → result string := req_text CheckpointError.

(** [IdentityBinding(...)] and [CompletedEffect(...)]: validated, not stripped. *)
Definition new_identity (repo src runtime target : string) : result IdentityBinding :=
  _ ← _text (PStr repo) "repository";
  _ ← _text (PStr src) "source_revision";
  _ ← _text (PStr runtime) "runtime_identity";
  _ ← (if String.eqb target EmptyString then Ok EmptyString else _text (PStr target) "target_revision");
  Ok {| repository := repo; source_revision := src; runtime_identity := runtime;
        target_revision := target |}.
Definition new_effect (key ref hash : string) : result CompletedEffect :=
  _ ← _text (PStr key) "effect_key";
  _ ← _text (PStr ref) "receipt_ref";
  _ ← (if String.eqb hash EmptyString then Ok EmptyString else _text (PStr hash) "effect_hash");
  Ok {| effect_key := key; receipt_ref := ref; effect_hash := hash |}.
(** [to_dict]. *)
Definition identity_to_dict (i : IdentityBinding) : dict :=
  [("repository", PStr (repository i)); ("source_revision", PStr (source_revision i));
   ("runtime_identity", PStr (runtime_identity i)); ("target_revision", PStr (target_revision i))].
Definition effect_to_dict (e : CompletedEffect) : dict :=
  [("effect_key", PStr (effect_key e)); ("receipt_ref", PStr (receipt_ref e));
   ("effect_hash", PStr (effect_hash e))].

(** Non-blank strings, first occurrences kept: the loop of [__post_init__] over its
    sequences, for the module's exception class. *)
Definition text_tuple (c : exn_class) (name : string) (l : list pyval) : result (list string) :=
  let bad v := match v with PStr s => blank s | _ => true end in
  if existsb bad l then raise c (name +:+ " must contain non-empty strings")
  else Ok (from_keys (map (λ v, match v with PStr s => s | _ => EmptyString end) l)).

Section checkpoint.
Context `{FloatText} `{Digest}.

Definition effect_from_dict (v : pyval) : result CompletedEffect :=
  d ← as_mapping v "get";
  key ← _text (py_get d "effect_key") "effect_key";
  ref ← _text (py_get d "receipt_ref") "receipt_ref";
  new_effect key ref (str_or (py_get d "effect_hash") EmptyString).
Definition identity_from_dict (d : dict) : result IdentityBinding :=
  repo ← _text (py_get d "repository") "repository";
  src ← _text (py_get d "source_revision") "source_revision";
  runtime ← _text (py_get d "runtime_identity") "runtime_identity";
  new_identity repo src runtime (str_or (py_get d "target_revision") EmptyString).

(** [WorkflowCheckpoint.__post_init__]. *)
Definition new_checkpoint (a : checkpoint_args) : result WorkflowCheckpoint :=
  let bad b msg := raise_if b CheckpointError msg in
  _ ← bad (negb (String.eqb (a_schema a) WORKFLOW_CHECKPOINT_SCHEMA))
        "unsupported workflow checkpoint schema";
  _ ← _text (PStr (a_task_id a)) "task_id";
  _ ← _text (PStr (a_operation_id a)) "operation_id";
  _ ← _text (PStr (a_attempt_id a)) "attempt_id";
  revision ← match a_revision a with
    | PInt n => Ok n
    | _ => raise CheckpointError "revision must be an int"
    end;
  _ ← bad (revision <? 1)%Z "revision must be >= 1";
  _ ← bad (negb (text_in (a_status a) CHECKPOINT_STATUSES))
        ("unsupported checkpoint status: " +:+ repr_str (a_status a));
  external ← py_dict_items (a_external_operation_ids a);
  leases ← text_tuple CheckpointError "leases" (a_leases a);
  evidence_refs ← text_tuple CheckpointError "evidence_refs" (a_evidence_refs a);
  pending_steps ← text_tuple CheckpointError "pending_steps" (a_pending_steps a);
  retry_history ← text_tuple CheckpointError "retry_history" (a_retry_history a);
  _ ← bad (has_dups (map effect_key (a_completed_effects a)))
        "completed_effects must not repeat an effect_key";
  _ ← bad (text_in (a_status a) TERMINAL_STATUSES && match pending_steps with [] => false | _ => true end)
        "terminal checkpoints must not carry pending_steps";
  Ok {| task_id := a_task_id a; operation_id := a_operation_id a; attempt_id := a_attempt_id a;
        identity := a_identity a; revision := revision; status := a_status a; phase := a_phase a;
        next_gate := a_next_gate a;
        external_operation_ids := dict_of (map (λ kv, (py_str kv.1, py_str kv.2)) external);
        leases := leases; evidence_refs := evidence_refs;
        completed_effects := sort_by effect_key (a_completed_effects a);
        pending_steps := pending_steps; retry_history := retry_history;
        blocked_reason := a_blocked_reason a; schema := a_schema a;
        claim_ceiling := a_claim_ceiling a |}.

(** The document that is hashed, [to_dict] and the [checkpoint_hash] property. *)
Definition checkpoint_body (c : WorkflowCheckpoint) : dict := [
  ("schema", PStr (schema c)); ("task_id", PStr (task_id c)); ("operation_id", PStr (operation_id c));
  ("attempt_id", PStr (attempt_id c)); ("revision", PInt (revision c)); ("status", PStr (status c));
  ("phase", PStr (phase c)); ("next_gate", PStr (next_gate c));
  ("identity", PDict (identity_to_dict (identity c)));
  ("external_operation_ids",
   PDict (sort_items (map (λ kv, (kv.1, PStr kv.2)) (external_operation_ids c))));
  ("leases", str_list (leases c)); ("evidence_refs", str_list (evidence_refs c));
  ("completed_effects", PList (map (λ e, PDict (effect_to_dict e)) (completed_effects c)));
  ("pending_steps", str_list (pending_steps c)); ("retry_history", str_list (retry_history c));
  ("blocked_reason", PStr (blocked_reason c)); ("claim_ceiling", PStr (claim_ceiling c))].
Definition _canonical (v : pyval) : result string :=
  match json_dumps true true v with
  | Ok t => Ok t
  | Err e => if exn_is TypeError e || exn_is ValueError e
      then raise CheckpointError "checkpoint value must be JSON-serializable" else Err e
  end.
Definition _sha256 (v : pyval) : result string :=
  match v with
  | PStr s => Ok (text_sha256 s)
  | _ => t ← _canonical v; Ok (text_sha256 t)
  end.
Definition checkpoint_hash (c : WorkflowCheckpoint) : result string := _sha256 (PDict (checkpoint_body c)).
Definition checkpoint_to_dict (c : WorkflowCheckpoint) : result dict :=
  h ← checkpoint_hash c; Ok (dict_set "checkpoint_hash" (PStr h) (checkpoint_body c)).

(** [WorkflowCheckpoint.from_dict]. *)
Definition checkpoint_from_dict (v : pyval) : result WorkflowCheckpoint :=
  data ← match v with
    | PDict d => Ok d
    | _ => raise CheckpointError "checkpoint payload must be an object"
    end;
  _ ← raise_if (negb (is_text (py_get data "claim_ceiling") WORKFLOW_CHECKPOINT_CLAIM_CEILING))
        CheckpointError "checkpoint claim ceiling mismatch";
  identity_raw ← match py_get data "identity" with
    | PDict d => Ok d
    | _ => raise CheckpointError "checkpoint identity must be an object"
    end;
  effects_raw ← match py_or (py_get data "completed_effects") (PTuple []) with
    | PList l | PTuple l => Ok l
    | _ => raise CheckpointError "completed_effects must be a list"
    end;
  stored_hash ← match py_get data "checkpoint_hash" with
    | PStr s => if blank s then raise CheckpointError "checkpoint_hash is required for durable checkpoints"
                else Ok s
    | _ => raise CheckpointError "checkpoint_hash is required for durable checkpoints"
    end;
  let items k := py_tuple (py_or (py_get data k) (PTuple [])) in
  task ← _text (py_get data "task_id") "task_id";
  operation ← _text (py_get data "operation_id") "operation_id";
  attempt ← _text (py_get data "attempt_id") "attempt_id";
  ident ← identity_from_dict identity_raw;
  lease_items ← items "leases";
  evidence_items ← items "evidence_refs";
  effects ← mapM_result effect_from_dict effects_raw;
  pending_items ← items "pending_steps";
  retry_items ← items "retry_history";
  checkpoint ← new_checkpoint {|
    a_task_id := task; a_operation_id := operation; a_attempt_id := attempt; a_identity := ident;
    a_revision := default (PInt 1) (dict_get "revision" data);
    a_status := str_or (py_get data "status") EmptyString;
    a_phase := str_or (py_get data "phase") EmptyString;
    a_next_gate := str_or (py_get data "next_gate") EmptyString;
    a_external_operation_ids := py_or (py_get data "external_operation_ids") (PDict []);
    a_leases := lease_items; a_evidence_refs := evidence_items; a_completed_effects := effects;
    a_pending_steps := pending_items; a_retry_history := retry_items;
    a_blocked_reason := str_or (py_get data "blocked_reason") EmptyString;
    a_schema := str_or (py_get data "schema") EmptyString;
    a_claim_ceiling := str_or (py_get data "claim_ceiling") EmptyString |};
  h ← checkpoint_hash checkpoint;
  _ ← raise_if (negb (String.eqb h stored_hash)) CheckpointError
        "checkpoint_hash mismatch: payload has been tampered";
  Ok checkpoint.
End checkpoint.

(** ** Successors of a checkpoint *)
(** The record's own fields as constructor arguments. *)
Definition args_of (c : WorkflowCheckpoint) : checkpoint_args :=
  {| a_task_id := task_id c; a_operation_id := operation_id c; a_attempt_id := attempt_id c;
     a_identity := identity c; a_revision := PInt (revision c); a_status := status c;
     a_phase := phase c; a_next_gate := next_gate c;
     a_external_operation_ids := PDict (map (λ kv, (kv.1, PStr kv.2)) (external_operation_ids c));
     a_leases := map PStr (leases c); a_evidence_refs := map PStr (evidence_refs c);
     a_completed_effects := completed_effects c; a_pending_steps := map PStr (pending_steps c);
     a_retry_history := map PStr (retry_history c); a_blocked_reason := blocked_reason c;
     a_schema := WORKFLOW_CHECKPOINT_SCHEMA; a_claim_ceiling := WORKFLOW_CHECKPOINT_CLAIM_CEILING |}.
(** The optional arguments of [advanced]. *)
Record advance_args : Type := {
  n_status : option string;
  n_phase : option string;
  n_next_gate : option string;
  n_pending_steps : option (list string);
  n_blocked_reason : option string;
  n_retry_entry : option string;
  n_external_operation_ids : option (list (string * string));
  n_evidence_refs : option (list string)
}.
Definition text_or (o : option string) (s : string) : string :=
  match o with Some t => if String.eqb t EmptyString then s else t | None => s end.

Definition is_terminal (c : WorkflowCheckpoint) : bool := text_in (status c) TERMINAL_STATUSES.
Definition has_effect (key : string) (c : WorkflowCheckpoint) : bool :=
  existsb (λ e, String.eqb (effect_key e) key) (completed_effects c).

Section successors.
Context `{FloatText} `{Digest}.

Definition advanced (c : WorkflowCheckpoint) (n : advance_args) : result WorkflowCheckpoint :=
  let merged_external := match n_external_operation_ids n with
    | Some more => dict_merge (external_operation_ids c) more
    | None => external_operation_ids c
    end in
  let merged_evidence := match n_evidence_refs n with
    | Some ((_ :: _) as more) => from_keys (evidence_refs c ++ more)
    | _ => evidence_refs c
    end in
  merged_retry ← match n_retry_entry n with
    | Some entry =>
        if String.eqb entry EmptyString then Ok (retry_history c)
        else entry ← _text (PStr entry) "retry_entry"; Ok (retry_history c ++ [entry])
    | None => Ok (retry_history c)
    end;
  new_checkpoint {|
    a_task_id := task_id c; a_operation_id := operation_id c; a_attempt_id := attempt_id c;
    a_identity := identity c; a_revision := PInt (revision c + 1);
    a_status := text_or (n_status n) (status c);
    a_phase := default (phase c) (n_phase n); a_next_gate := default (next_gate c) (n_next_gate n);
    a_external_operation_ids := PDict (map (λ kv, (kv.1, PStr kv.2)) merged_external);
    a_leases := map PStr (leases c); a_evidence_refs := map PStr merged_evidence;
    a_completed_effects := completed_effects c;
    a_pending_steps := map PStr (default (pending_steps c) (n_pending_steps n));
    a_retry_history := map PStr merged_retry;
    a_blocked_reason := default (blocked_reason c) (n_blocked_reason n);
    a_schema := WORKFLOW_CHECKPOINT_SCHEMA; a_claim_ceiling := WORKFLOW_CHECKPOINT_CLAIM_CEILING |}.

Definition with_effect (c : WorkflowCheckpoint) (e : CompletedEffect) : result WorkflowCheckpoint :=
  if has_effect (effect_key e) c then Ok c
  else new_checkpoint
    {| a_task_id := task_id c; a_operation_id := operation_id c; a_attempt_id := attempt_id c;
       a_identity := identity c; a_revision := PInt (revision c + 1); a_status := status c;
       a_phase := phase c; a_next_gate := next_gate c;
       a_external_operation_ids := PDict (map (λ kv, (kv.1, PStr kv.2)) (external_operation_ids c));
       a_leases := map PStr (leases c); a_evidence_refs := map PStr (evidence_refs c);
       a_completed_effects := completed_effects c ++ [e];
       a_pending_steps := map PStr (pending_steps c); a_retry_history := map PStr (retry_history c);
       a_blocked_reason := blocked_reason c; a_schema := WORKFLOW_CHECKPOINT_SCHEMA;
       a_claim_ceiling := WORKFLOW_CHECKPOINT_CLAIM_CEILING |}.

(** The identity fields [names] in which two bindings differ. *)
Definition identity_field (name : string) (i : IdentityBinding) : string :=
  if String.eqb name "repository" then repository i
  else if String.eqb name "source_revision" then source_revision i
  else if String.eqb name "runtime_identity" then runtime_identity i
  else target_revision i.
Definition stale_fields (names : list string) (i j : IdentityBinding) : list string :=
  List.filter (λ name, negb (String.eqb (identity_field name i) (identity_field name j))) names.

(** A [resume_disposition] answer. *)
Definition resume_reply (disposition reason : string) (stale : list string) (gate hash : string) : dict :=
  [("disposition", PStr disposition); ("reason", PStr reason); ("stale_fields", str_list stale);
   ("next_gate", PStr gate); ("replay_completed_effects", PBool false);
   ("checkpoint_hash", PStr hash)].
Definition resume_disposition (c : WorkflowCheckpoint) (current : IdentityBinding) : result dict :=
  h ← checkpoint_hash c;
  let stale := stale_fields ["repository"; "source_revision"; "runtime_identity"] (identity c) current in
  Ok match stale with
  | _ :: _ => resume_reply DISPOSITION_RECONCILE "IDENTITY_DRIFT" stale (next_gate c) h
  | [] =>
      if String.eqb (status c) STATUS_COMPLETED then
        resume_reply DISPOSITION_BLOCKED "ALREADY_COMPLETED" [] EmptyString h
      else if String.eqb (status c) STATUS_FAILED then
        resume_reply DISPOSITION_BLOCKED "TERMINAL_FAILURE" [] (next_gate c) h
      else if String.eqb (status c) STATUS_RECONCILE then
        resume_reply DISPOSITION_RECONCILE
          (if String.eqb (blocked_reason c) EmptyString then "RECONCILIATION_REQUIRED" else blocked_reason c)
          [] (next_gate c) h
      else if String.eqb (status c) STATUS_WAITING_APPROVAL then
        resume_reply DISPOSITION_WAIT "APPROVAL_PENDING" [] (next_gate c) h
      else if String.eqb (status c) STATUS_WAITING_EXTERNAL then
        resume_reply DISPOSITION_WAIT "EXTERNAL_CONDITION_PENDING" [] (next_gate c) h
      else resume_reply DISPOSITION_SAFE "IDENTITY_BOUND_AND_NON_TERMINAL" [] (next_gate c) h
  end.
End successors.

(** * Lemmas *)

(** ** Well-formed checkpoints: the invariant the constructor establishes *)
Definition plain_texts (l : list string) : Prop := NoDup l ∧ Forall (λ s, blank s = false) l.
Definition checkpoint_wf (c : WorkflowCheckpoint) : Prop :=
  schema c = WORKFLOW_CHECKPOINT_SCHEMA ∧ blank (task_id c) = false ∧ blank (operation_id c) = false ∧
  blank (attempt_id c) = false ∧ (1 ≤ revision c)%Z ∧ status c ∈ CHECKPOINT_STATUSES ∧
  NoDup (keys (external_operation_ids c)) ∧ plain_texts (leases c) ∧ plain_texts (evidence_refs c) ∧
  plain_texts (pending_steps c) ∧ plain_texts (retry_history c) ∧
  NoDup (map effect_key (completed_effects c)) ∧
  StronglySorted (by_key effect_key) (completed_effects c) ∧
  (status c ∈ TERMINAL_STATUSES → pending_steps c = []).

Lemma text_tuple_Ok c name l r :
  text_tuple c name l = Ok r →
  plain_texts r ∧ ∃ ss, l = map PStr ss ∧ r = from_keys ss ∧ Forall (λ s, blank s = false) ss.
Proof.
  unfold text_tuple. destruct (existsb _ l) eqn:E; [done|]. intros [= <-].
  assert (∃ ss, l = map PStr ss ∧ Forall (λ s, blank s = false) ss) as (ss & -> & Hs).
  { induction l as [|v l IH]; [by exists []|]. cbn in E. apply orb_false_iff in E as [Hv Hl].
    destruct v as [| | | |s| | | |]; try done. destruct (IH Hl) as (ss & -> & ?).
    exists (s :: ss). split; [done|by constructor]. }
  assert (map (λ v, match v with PStr s => s | _ => EmptyString end) (map PStr ss) = ss) as ->
    by (rewrite map_map; apply map_id).
  split; [|by exists ss; split_and!].
  split; [apply NoDup_from_keys|].
  apply Forall_forall. intros x Hx. rewrite elem_of_from_keys in Hx.
  by apply (proj1 (Forall_forall _ _) Hs).
Qed.
Lemma text_tuple_plain c name ss : plain_texts ss → text_tuple c name (map PStr ss) = Ok ss.
Proof.
  intros [Hn Hs]. unfold text_tuple.
  assert (existsb (λ v, match v with PStr s => blank s | _ => true end) (map PStr ss) = false) as ->.
  { induction Hs as [|s ss Hb _ IH]; [done|]. cbn. inversion Hn; subst. rewrite Hb. by apply IH. }
  by rewrite map_map, map_id, from_keys_id.
Qed.

Section checkpoint_lemmas.
Context `{FloatText} `{Digest}.

(** What the constructor builds from its arguments, on success. *)
Lemma new_checkpoint_wf a c :
  new_checkpoint a = Ok c →
  checkpoint_wf c ∧ task_id c = a_task_id a ∧ operation_id c = a_operation_id a ∧
  attempt_id c = a_attempt_id a ∧ identity c = a_identity a ∧ a_revision a = PInt (revision c) ∧
  status c = a_status a ∧ completed_effects c ≡ₚ a_completed_effects a ∧
  claim_ceiling c = a_claim_ceiling a.
Proof.
  unfold new_checkpoint. cbv zeta. intros Hc.
  apply bind_Ok_inv in Hc as (? & H1%raise_if_Ok_inv & (t & Ht & (o & Ho & (at' & Ha & Hc)%bind_Ok_inv)%bind_Ok_inv)%bind_Ok_inv).
  apply bind_Ok_inv in Hc as (rev & Hr & (? & H2%raise_if_Ok_inv & (? & H3%raise_if_Ok_inv & Hc)%bind_Ok_inv)%bind_Ok_inv).
  apply bind_Ok_inv in Hc as (ext & _ & (le & Hle & (ev & Hev & (pe & Hpe & (re & Hre & Hc)%bind_Ok_inv)%bind_Ok_inv)%bind_Ok_inv)%bind_Ok_inv).
  apply bind_Ok_inv in Hc as (? & H4%raise_if_Ok_inv & (? & H5%raise_if_Ok_inv & [= <-])%bind_Ok_inv).
  apply negb_false_iff, String.eqb_eq in H1. apply Z.ltb_ge in H2. apply negb_false_iff, text_in_spec in H3.
  apply has_dups_false in H4.
  apply text_tuple_Ok in Hle as [? _], Hev as [? _], Hpe as [? _], Hre as [? _].
  apply req_text_Ok in Ht as (? & [= <-] & ? & _), Ho as (? & [= <-] & ? & _), Ha as (? & [= <-] & ? & _).
  assert (a_revision a = PInt rev) as Hrev by (revert Hr; destruct (a_revision a); [done|done|by intros [= <-]|done..]).
  split; [|split_and!; try done; cbn; apply sort_by_perm].
  unfold checkpoint_wf. cbn [schema task_id operation_id attempt_id revision status external_operation_ids
    leases evidence_refs pending_steps retry_history completed_effects].
  split_and!; try done.
  - apply NoDup_dict_of.
  - by rewrite sort_by_perm.
  - apply sort_by_sorted.
  - intros Hs%text_in_spec. rewrite Hs in H5. by destruct pe.
Qed.
End checkpoint_lemmas.

(** ** Reading back what was written *)
Definition with_external (c : WorkflowCheckpoint) (ext : list (string * string)) : WorkflowCheckpoint :=
  {| task_id := task_id c; operation_id := operation_id c; attempt_id := attempt_id c;
     identity := identity c; revision := revision c; status := status c; phase := phase c;
     next_gate := next_gate c; external_operation_ids := ext; leases := leases c;
     evidence_refs := evidence_refs c; completed_effects := completed_effects c;
     pending_steps := pending_steps c; retry_history := retry_history c;
     blocked_reason := blocked_reason c; schema := schema c; claim_ceiling := claim_ceiling c |}.
(** A checkpoint with its external operations in the order of the document. *)
Definition canon (c : WorkflowCheckpoint) : WorkflowCheckpoint :=
  with_external c (sort_items (external_operation_ids c)).

(** The reader strips the identifying texts; these records are unchanged by that. *)
Definition identity_readable (i : IdentityBinding) : Prop :=
  stripped_key (repository i) = true ∧ stripped_key (source_revision i) = true ∧
  stripped_key (runtime_identity i) = true ∧
  (target_revision i = EmptyString ∨ blank (target_revision i) = false).
Definition effect_readable (e : CompletedEffect) : Prop :=
  stripped_key (effect_key e) = true ∧ stripped_key (receipt_ref e) = true ∧
  (effect_hash e = EmptyString ∨ blank (effect_hash e) = false).
Definition checkpoint_readable (c : WorkflowCheckpoint) : Prop :=
  checkpoint_wf c ∧ claim_ceiling c = WORKFLOW_CHECKPOINT_CLAIM_CEILING ∧
  stripped_key (task_id c) = true ∧ stripped_key (operation_id c) = true ∧
  stripped_key (attempt_id c) = true ∧ identity_readable (identity c) ∧
  Forall effect_readable (completed_effects c).

Lemma map_snd_str (l : list (string * string)) :
  map (λ kv, (kv.1, jnorm kv.2)) (map (λ kv, (kv.1, PStr kv.2)) l) = map (λ kv, (kv.1, PStr kv.2)) l.
Proof. rewrite map_map. done. Qed.

Section reading.
Context `{FloatText} `{Digest}.

Lemma text_key s name : stripped_key s = true → _text (PStr s) name = Ok s.
Proof. apply req_text_of_key. Qed.
Lemma text_nonblank s name : blank s = false → _text (PStr s) name = Ok (strip s).
Proof. intros Hs. apply req_text_Ok. eauto. Qed.
Lemma str_or_str s : str_or (PStr s) EmptyString = s.
Proof. by destruct s. Qed.
Lemma key_blank s : stripped_key s = true → blank s = false.
Proof. by intros [_ ?]%stripped_key_spec. Qed.
Lemma optional_text s name :
  s = EmptyString ∨ blank s = false →
  is_ok (if String.eqb s EmptyString then Ok EmptyString else _text (PStr s) name) = true.
Proof. intros [->|Hs]; [done|]. destruct (String.eqb s EmptyString); [done|]. by rewrite text_nonblank. Qed.
Lemma new_identity_Ok i :
  identity_readable i →
  new_identity (repository i) (source_revision i) (runtime_identity i) (target_revision i) = Ok i.
Proof.
  intros (H1 & H2 & H3 & H4). unfold new_identity.
  rewrite (text_key _ _ H1), (text_key _ _ H2), (text_key _ _ H3). cbn [mbind result_bind].
  pose proof (optional_text _ "target_revision" H4) as Ho.
  destruct (if String.eqb _ _ then _ else _); [|done]. by destruct i.
Qed.
Lemma new_effect_Ok e :
  effect_readable e → new_effect (effect_key e) (receipt_ref e) (effect_hash e) = Ok e.
Proof.
  intros (H1 & H2 & H4). unfold new_effect. rewrite (text_key _ _ H1), (text_key _ _ H2). cbn [mbind result_bind].
  pose proof (optional_text _ "effect_hash" H4) as Ho.
  destruct (if String.eqb _ _ then _ else _); [|done]. by destruct e.
Qed.
Lemma identity_reads_back d i :
  (∀ k, py_get d k = py_get (identity_to_dict i) k) → identity_readable i →
  identity_from_dict d = Ok i.
Proof.
  intros Hd Hi. unfold identity_from_dict. rewrite !Hd. cbn [identity_to_dict].
  change (py_get (identity_to_dict i) "repository") with (PStr (repository i)).
  change (py_get (identity_to_dict i) "source_revision") with (PStr (source_revision i)).
  change (py_get (identity_to_dict i) "runtime_identity") with (PStr (runtime_identity i)).
  change (py_get (identity_to_dict i) "target_revision") with (PStr (target_revision i)).
  pose proof Hi as (H1 & H2 & H3 & _). rewrite (text_key _ _ H1), (text_key _ _ H2), (text_key _ _ H3). cbn [mbind result_bind].
  rewrite str_or_str. by apply new_identity_Ok.
Qed.
Lemma effect_reads_back e : effect_readable e → effect_from_dict (jnorm (PDict (effect_to_dict e))) = Ok e.
Proof.
  intros He. unfold effect_from_dict.
  change (jnorm (PDict (effect_to_dict e))) with
    (PDict [("effect_hash", PStr (effect_hash e)); ("effect_key", PStr (effect_key e));
            ("receipt_ref", PStr (receipt_ref e))]).
  cbn [as_mapping mbind result_bind].
  change (py_get _ "effect_key") with (PStr (effect_key e)).
  change (py_get _ "receipt_ref") with (PStr (receipt_ref e)).
  change (py_get _ "effect_hash") with (PStr (effect_hash e)).
  pose proof He as (H1 & H2 & _). rewrite (text_key _ _ H1), (text_key _ _ H2). cbn [mbind result_bind].
  rewrite str_or_str. by apply new_effect_Ok.
Qed.

(** The constructor is the identity on a well-formed record's own fields. *)
Lemma args_of_checkpoint c (ext : pyval) (effects : list CompletedEffect) :
  checkpoint_wf c → claim_ceiling c = WORKFLOW_CHECKPOINT_CLAIM_CEILING →
  effects ≡ₚ completed_effects c →
  py_dict_items ext = Ok (map (λ kv, (PStr kv.1, PStr kv.2)) (external_operation_ids c)) →
  new_checkpoint {| a_task_id := task_id c; a_operation_id := operation_id c;
     a_attempt_id := attempt_id c; a_identity := identity c; a_revision := PInt (revision c);
     a_status := status c; a_phase := phase c; a_next_gate := next_gate c;
     a_external_operation_ids := ext; a_leases := map PStr (leases c);
     a_evidence_refs := map PStr (evidence_refs c); a_completed_effects := effects;
     a_pending_steps := map PStr (pending_steps c); a_retry_history := map PStr (retry_history c);
     a_blocked_reason := blocked_reason c; a_schema := WORKFLOW_CHECKPOINT_SCHEMA;
     a_claim_ceiling := WORKFLOW_CHECKPOINT_CLAIM_CEILING |} = Ok c.
Proof.
  intros (Hs & Ht & Ho & Ha & Hr & Hst & Hext & Hl & He & Hp & Hre & Hn & Hsort & Hterm) Hc Hperm Hx.
  unfold new_checkpoint. cbv zeta. cbn [a_schema a_task_id a_operation_id a_attempt_id a_revision a_status
    a_external_operation_ids a_leases a_evidence_refs a_completed_effects a_pending_steps a_retry_history].
  rewrite (text_nonblank _ _ Ht), (text_nonblank _ _ Ho), (text_nonblank _ _ Ha). rewrite String.eqb_refl. cbn [negb raise_if mbind result_bind].
  rewrite (proj2 (Z.ltb_ge _ _) Hr). cbn [raise_if mbind result_bind].
  rewrite (proj2 (text_in_spec _ _) Hst). cbn [negb raise_if mbind result_bind].
  rewrite Hx. cbn [mbind result_bind]. 
  rewrite (text_tuple_plain _ _ _ Hl), (text_tuple_plain _ _ _ He), (text_tuple_plain _ _ _ Hp),
    (text_tuple_plain _ _ _ Hre). cbn [mbind result_bind].
  assert (has_dups (map effect_key effects) = false) as -> by (apply has_dups_false; by rewrite Hperm). cbn [raise_if mbind result_bind].
  assert (text_in (status c) TERMINAL_STATUSES
          && match pending_steps c with [] => false | _ => true end = false) as ->.
  { destruct (text_in (status c) TERMINAL_STATUSES) eqn:E; [|done].
    apply text_in_spec in E. by rewrite (Hterm E). }
  cbn [raise_if mbind result_bind]. f_equal.
  assert (sort_by effect_key effects = completed_effects c) as Hsorted.
  { rewrite (sort_by_unique _ _ (completed_effects c)); [by apply sort_by_id|by rewrite Hperm|done]. }
  assert (dict_of (map (λ kv, (py_str kv.1, py_str kv.2))
            (map (λ kv, (PStr kv.1, PStr kv.2)) (external_operation_ids c))) = external_operation_ids c) as Hd.
  { rewrite map_map. etrans; [|by apply dict_of_id]. f_equal.
    etrans; [|apply map_id]. apply map_ext. by intros []. }
  cbn [a_task_id]. rewrite Hsorted, Hd, <- Hs, <- Hc. by destruct c.
Qed.
End reading.

(** ** Values [json.dumps] always accepts *)
Lemma json_check_dict n d : json_check n (PDict d) = Ok () ↔ Forall (λ kv, json_check n kv.2 = Ok ()) d.
Proof.
  cbn. induction d as [|kv d IH]; [done|]. rewrite Forall_cons, <- IH. split.
  - by intros ([] & ? & ?)%bind_Ok_inv.
  - by intros [-> ?].
Qed.
Lemma json_check_list n l : json_check n (PList l) = Ok () ↔ Forall (λ v, json_check n v = Ok ()) l.
Proof.
  cbn. induction l as [|v l IH]; [done|]. rewrite Forall_cons, <- IH. split.
  - by intros ([] & ? & ?)%bind_Ok_inv.
  - by intros [-> ?].
Qed.
Lemma json_check_str_list n l : json_check n (str_list l) = Ok ().
Proof. apply json_check_list. rewrite Forall_map. by apply Forall_true. Qed.
Lemma json_check_dumps `{FloatText} a n v :
  json_check n v = Ok () → json_dumps a n v = Ok (json_print a (jnorm v)).
Proof. intros Hc. unfold json_dumps. by rewrite (json_check_jnorm n v Hc). Qed.
Ltac json_members :=
  apply json_check_dict; repeat (constructor; [first [reflexivity|apply json_check_str_list|idtac]|]);
  try apply Forall_nil.

Lemma check_identity n i : json_check n (PDict (identity_to_dict i)) = Ok ().
Proof. json_members. constructor. Qed.
Lemma check_effects n l : json_check n (PList (map (λ e, PDict (effect_to_dict e)) l)) = Ok ().
Proof. apply json_check_list. rewrite Forall_map. apply Forall_true. intros e. json_members. constructor. Qed.
Lemma check_external n (l : list (string * string)) :
  json_check n (PDict (sort_items (map (λ kv, (kv.1, PStr kv.2)) l))) = Ok ().
Proof. apply json_check_dict. rewrite sort_items_perm, Forall_map. by apply Forall_true. Qed.
Lemma check_body n c : json_check n (PDict (checkpoint_body c)) = Ok ().
Proof. json_members; [apply check_external|apply check_effects|done]. Qed.

Lemma py_wf_members d :
  bool_decide (NoDup (keys d)) = true → Forall (λ kv, py_wf kv.2 = true) d → py_wf (PDict d) = true.
Proof. intros Hn Hd. cbn. rewrite Hn. by apply Forall_forallb. Qed.
Lemma py_wf_str_list l : py_wf (str_list l) = true.
Proof. unfold str_list. cbn. apply Forall_forallb. rewrite Forall_map. by apply Forall_true. Qed.
Lemma py_wf_effects l : py_wf (PList (map (λ e, PDict (effect_to_dict e)) l)) = true.
Proof. cbn [py_wf]. apply Forall_forallb. rewrite Forall_map. by apply Forall_true. Qed.
Lemma external_sorted (l : list (string * string)) :
  NoDup (keys l) →
  sort_items (map (λ kv, (kv.1, PStr kv.2)) l) = map (λ kv, (kv.1, PStr kv.2)) (sort_items l).
Proof. apply (sort_items_map PStr). Qed.
Lemma keys_strs (l : list (string * string)) : keys (map (λ kv, (kv.1, PStr kv.2)) l) = keys l.
Proof. apply (keys_map PStr). Qed.
Lemma py_wf_external (l : list (string * string)) :
  NoDup (keys l) → py_wf (PDict (sort_items (map (λ kv, (kv.1, PStr kv.2)) l))) = true.
Proof.
  intros Hn. apply py_wf_members.
  - apply bool_decide_eq_true. by rewrite keys_sort_items, keys_strs.
  - rewrite sort_items_perm, Forall_map. by apply Forall_true.
Qed.
Lemma py_wf_body c : NoDup (keys (external_operation_ids c)) → py_wf (PDict (checkpoint_body c)) = true.
Proof.
  intros Hn. apply py_wf_members; [reflexivity|].
  repeat (constructor;
    [first [reflexivity|apply py_wf_str_list|apply py_wf_effects|by apply py_wf_external]|]).
  constructor.
Qed.
Lemma jnorm_external (l : list (string * string)) :
  NoDup (keys l) →
  jnorm (PDict (sort_items (map (λ kv, (kv.1, PStr kv.2)) l))) =
  PDict (map (λ kv, (kv.1, PStr kv.2)) (sort_items l)).
Proof.
  intros Hn. rewrite external_sorted by done. cbn [jnorm]. f_equal. rewrite map_snd_str.
  rewrite external_sorted by by rewrite keys_sort_items. f_equal. apply sort_items_id.
  - by rewrite keys_sort_items.
  - apply sort_items_sorted.
Qed.

(** The identity document with its members in document order. *)
Definition sorted_identity (i : IdentityBinding) : dict :=
  [("repository", PStr (repository i)); ("runtime_identity", PStr (runtime_identity i));
   ("source_revision", PStr (source_revision i)); ("target_revision", PStr (target_revision i))].
Lemma sorted_identity_get i k : py_get (sorted_identity i) k = py_get (identity_to_dict i) k.
Proof.
  unfold py_get, sorted_identity, identity_to_dict. cbn [dict_get].
  destruct (String.eqb_spec k "repository"); [done|].
  destruct (String.eqb_spec k "runtime_identity") as [->|]; [done|].
  by destruct (String.eqb_spec k "source_revision").
Qed.
Lemma array_back l :
  match py_or (PList l) (PTuple []) with
  | PList l | PTuple l => Ok l
  | _ => raise CheckpointError "completed_effects must be a list"
  end = Ok l.
Proof. by destruct l. Qed.

Lemma external_items (l : list (string * string)) :
  py_dict_items (py_or (PDict (map (λ kv, (kv.1, PStr kv.2)) l)) (PDict [])) =
  Ok (map (λ kv, (PStr kv.1, PStr kv.2)) l).
Proof. destruct l as [|kv l]; [done|]. cbn. by rewrite map_map. Qed.

Section roundtrip.
Context `{FloatText} `{Digest}.

Lemma canon_body c : NoDup (keys (external_operation_ids c)) → checkpoint_body (canon c) = checkpoint_body c.
Proof.
  intros Hn. unfold checkpoint_body. cbn [canon with_external schema task_id operation_id attempt_id
    revision status phase next_gate identity external_operation_ids leases evidence_refs
    completed_effects pending_steps retry_history blocked_reason claim_ceiling].
  assert (sort_items (sort_items (external_operation_ids c)) = sort_items (external_operation_ids c)) as E.
  { apply sort_items_id; [by rewrite keys_sort_items|apply sort_items_sorted]. }
  by rewrite !external_sorted, E by (by rewrite ?keys_sort_items).
Qed.
Lemma canon_readable c : checkpoint_readable c → checkpoint_readable (canon c).
Proof.
  intros ((?&?&?&?&?&?&Hn&?&?&?&?&?&?&?) & Hrest). split; [|done]. unfold checkpoint_wf.
  split_and!; try done. cbn [canon with_external external_operation_ids]. by rewrite keys_sort_items.
Qed.
Definition hash_of (c : WorkflowCheckpoint) : string :=
  text_sha256 (json_print true (jnorm (PDict (checkpoint_body c)))).
Lemma checkpoint_hash_Ok c : checkpoint_hash c = Ok (hash_of c).
Proof.
  unfold checkpoint_hash, _sha256, _canonical. rewrite json_check_dumps by apply check_body. done.
Qed.
Lemma checkpoint_to_dict_Ok c :
  checkpoint_to_dict c = Ok (checkpoint_body c ++ [("checkpoint_hash", PStr (hash_of c))]).
Proof.
  unfold checkpoint_to_dict. rewrite checkpoint_hash_Ok. reflexivity.
Qed.

Lemma items_back l : py_tuple (py_or (str_list l) (PTuple [])) = Ok (map PStr l).
Proof. by destruct l. Qed.
Lemma effects_back l :
  Forall effect_readable l →
  mapM_result effect_from_dict (map jnorm (map (λ e, PDict (effect_to_dict e)) l)) = Ok l.
Proof.
  intros Hl. apply mapM_result_Forall2. rewrite map_map.
  induction Hl as [|e l He _ IH]; constructor; [|done]. by apply effect_reads_back.
Qed.

(** A readable checkpoint's document, in any member order, is the checkpoint. *)
Lemma checkpoint_reads_back c d :
  checkpoint_readable c →
  (∀ k, dict_get k d = jnorm <$> dict_get k (checkpoint_body c ++ [("checkpoint_hash", PStr (hash_of c))])) →
  checkpoint_from_dict (PDict d) = Ok (canon c).
Proof.
  intros Hc Hd. pose proof Hc as (Hwf & Hcl & Ht & Ho & Ha & Hi & He).
  pose proof Hwf as (Hs&_&_&_&_&_&Hn&_).
  assert (∀ k, py_get d k = default PNone (jnorm <$> dict_get k (checkpoint_body c ++ [("checkpoint_hash", PStr (hash_of c))]))) as Hg.
  { intros k. unfold py_get. by rewrite Hd. }
  unfold checkpoint_from_dict. cbn [mbind result_bind]. cbv zeta. rewrite !Hg, Hd.
  cbn [checkpoint_body app dict_get String.eqb Ascii.eqb Bool.eqb fmap option_fmap option_map default from_option id].
  rewrite jnorm_external, !jnorm_of_str_list, !items_back by done.
  change (jnorm (PList (map (λ e, PDict (effect_to_dict e)) (completed_effects c)))) with
    (PList (map jnorm (map (λ e, PDict (effect_to_dict e)) (completed_effects c)))).
  rewrite array_back.
  change (jnorm (PDict (identity_to_dict (identity c)))) with (PDict (sorted_identity (identity c))).
  cbn [jnorm mbind result_bind].
  rewrite Hcl. change (is_text (PStr WORKFLOW_CHECKPOINT_CLAIM_CEILING) WORKFLOW_CHECKPOINT_CLAIM_CEILING)
    with true. cbn [negb raise_if mbind result_bind].
  rewrite (key_blank (hash_of c)) by apply hex64_key, sha256_hex_wf. cbn [mbind result_bind].
  rewrite (text_key _ _ Ht), (text_key _ _ Ho), (text_key _ _ Ha). cbn [mbind result_bind].
  rewrite (identity_reads_back _ (identity c)) by (apply sorted_identity_get || done).
  cbn [mbind result_bind]. rewrite effects_back by done. cbn [mbind result_bind].
  rewrite !str_or_str, Hs.
  rewrite (args_of_checkpoint (canon c)); [|apply canon_readable, Hc|done|done|].
  - cbn [mbind result_bind]. rewrite checkpoint_hash_Ok. cbn [mbind result_bind].
    unfold hash_of. rewrite canon_body, String.eqb_refl by done. done.
  - apply external_items.
Qed.
End roundtrip.

(** ** What reading guarantees *)
Lemma map_PStr_inj l l' : map PStr l = map PStr l' → l = l'.
Proof. intros E. apply str_list_inj. unfold str_list. by rewrite E. Qed.
Lemma map_ext_inj (l l' : list (string * string)) :
  map (λ kv, (kv.1, PStr kv.2)) l = map (λ kv, (kv.1, PStr kv.2)) l' → l = l'.
Proof.
  revert l'. induction l as [|[k v] l IH]; intros [|[k' v'] l']; [done|done|done|].
  cbn [map]. intros E. injection E as -> -> E. f_equal. by apply IH.
Qed.
Section read_facts.
Context `{FloatText} `{Digest}.

Lemma identity_from_dict_Ok d i : identity_from_dict d = Ok i → identity_readable i.
Proof.
  unfold identity_from_dict, new_identity.
  intros (a & Ha%req_text_key & (b & Hb%req_text_key & (c & Hc%req_text_key & Hi)%bind_Ok_inv)%bind_Ok_inv)%bind_Ok_inv.
  apply bind_Ok_inv in Hi as (? & _ & (? & _ & (? & _ & (t & Ht & [= <-])%bind_Ok_inv)%bind_Ok_inv)%bind_Ok_inv).
  unfold identity_readable. cbn. split_and!; try done.
  destruct (String.eqb_spec (str_or (py_get d "target_revision") EmptyString) EmptyString); [by left|right].
  by apply req_text_Ok in Ht as (? & [= <-] & ? & _).
Qed.
Lemma new_effect_facts k r h e :
  new_effect k r h = Ok e → e = {| effect_key := k; receipt_ref := r; effect_hash := h |} ∧
  (h = EmptyString ∨ blank h = false).
Proof.
  unfold new_effect. intros (? & _ & (? & _ & (t & Ht & [= <-])%bind_Ok_inv)%bind_Ok_inv)%bind_Ok_inv.
  split; [done|]. destruct (String.eqb_spec h EmptyString); [by left|right].
  by apply req_text_Ok in Ht as (? & [= <-] & ? & _).
Qed.
Lemma effect_from_dict_Ok v e : effect_from_dict v = Ok e → effect_readable e.
Proof.
  unfold effect_from_dict.
  intros (d & _ & (k & Hk%req_text_key & (r & Hr%req_text_key & He)%bind_Ok_inv)%bind_Ok_inv)%bind_Ok_inv.
  by apply new_effect_facts in He as [-> ?].
Qed.

(** A checkpoint that was read can be written and read again, and it has the stored hash. *)
Lemma checkpoint_from_dict_Ok v c :
  checkpoint_from_dict v = Ok c →
  checkpoint_readable c ∧ ∃ d, v = PDict d ∧ py_get d "checkpoint_hash" = PStr (hash_of c).
Proof.
  unfold checkpoint_from_dict. cbv zeta. intros (d & Hd & Hc)%bind_Ok_inv.
  destruct v as [| | | | | | |d0|]; try done. injection Hd as ->.
  apply bind_Ok_inv in Hc as (? & Hcl%raise_if_Ok_inv & (ir & _ & (er & _ & (h & Hh & Hc)%bind_Ok_inv)%bind_Ok_inv)%bind_Ok_inv).
  apply bind_Ok_inv in Hc as (t & Ht%req_text_key & (o & Ho%req_text_key & (a & Ha%req_text_key & Hc)%bind_Ok_inv)%bind_Ok_inv).
  apply bind_Ok_inv in Hc as (i & Hi%identity_from_dict_Ok & (? & _ & (? & _ & (effects & He & Hc)%bind_Ok_inv)%bind_Ok_inv)%bind_Ok_inv).
  apply bind_Ok_inv in Hc as (? & _ & (? & _ & (c' & Hc' & Hc)%bind_Ok_inv)%bind_Ok_inv).
  rewrite checkpoint_hash_Ok in Hc. apply bind_Ok_inv in Hc as (h' & [= <-] & (? & Heq%raise_if_Ok_inv & [= <-])%bind_Ok_inv).
  apply negb_false_iff, String.eqb_eq in Heq. apply negb_false_iff, is_text_spec in Hcl.
  apply new_checkpoint_wf in Hc' as (Hwf & E1 & E2 & E3 & E4 & _ & _ & Hp & E5). cbn in E1, E2, E3, E4, E5, Hp.
  split.
  - unfold checkpoint_readable. rewrite E1, E2, E3, E4, E5, Hcl. split_and!; try done.
    rewrite Hp. apply mapM_result_Ok_inv in He. clear - He.
    induction He as [|v e l k Hv _ IH]; constructor; [by eapply effect_from_dict_Ok|exact IH].
  - exists d. split; [done|]. destruct (py_get d "checkpoint_hash") as [| | | |s| | | |]; try done.
    destruct (blank s); [done|]. injection Hh as ->. by rewrite Heq.
Qed.

(** ** The hash identifies the checkpoint *)
Lemma effects_jnorm_inj l l' :
  map jnorm (map (λ e, PDict (effect_to_dict e)) l) = map jnorm (map (λ e, PDict (effect_to_dict e)) l') →
  l = l'.
Proof.
  revert l'. induction l as [|e l IH]; intros [|e' l']; [done|done|done|].
  cbn [map]. intros E. injection E as Eh Ek Er El. f_equal; [|by apply IH].
  destruct e, e'; cbn in *. congruence.
Qed.
Lemma body_inj c c' :
  checkpoint_wf c → checkpoint_wf c' →
  jnorm (PDict (checkpoint_body c)) = jnorm (PDict (checkpoint_body c')) → canon c = canon c'.
Proof.
  intros (_&_&_&_&_&_&Hn&_) (_&_&_&_&_&_&Hn'&_) E.
  apply jnorm_members in E; [|by apply (bool_decide_eq_true_1 _)|done].
  cbn [checkpoint_body map fst snd] in E. rewrite !jnorm_of_str_list in E.
  rewrite !jnorm_external in E by done.
  injection E as E1 E2 E3 E4 E5 E6 E7 E8 I1 I2 I3 I4 E10 E11 E12 E13 E14 E15 E16 E17.
  apply map_PStr_inj in E11, E12, E14, E15. apply effects_jnorm_inj in E13. apply map_ext_inj in E10.
  assert (identity c = identity c') as I by (destruct (identity c), (identity c'); cbn in *; congruence).
  unfold canon, with_external. rewrite E10. clear E10. destruct c, c'; cbn in *. by subst.
Qed.
Lemma hash_identifies c c' :
  checkpoint_wf c → checkpoint_wf c' → hash_of c = hash_of c' →
  canon c = canon c' ∨
  ∃ s t, json_dumps true true (PDict (checkpoint_body c)) = Ok s ∧
    json_dumps true true (PDict (checkpoint_body c')) = Ok t ∧ collision (utf8 s) (utf8 t).
Proof.
  intros Hc Hc' [E|Hx]%text_sha256_inj; [left|right].
  2: { eexists _, _. split; [apply json_check_dumps, check_body|].
       split; [apply json_check_dumps, check_body|exact Hx]. }
  apply body_inj; [done..|].
  pose proof Hc as (_&_&_&_&_&_&Hn&_). pose proof Hc' as (_&_&_&_&_&_&Hn'&_).
  eapply (json_dumps_inj true true); [by apply py_wf_body|by apply py_wf_body| |].
  - apply json_check_dumps, check_body.
  - rewrite E. apply json_check_dumps, check_body.
Qed.
End read_facts.

(** ** Successors *)
Section successor_lemmas.
Context `{FloatText} `{Digest}.

Lemma has_effect_spec k c : has_effect k c = true ↔ k ∈ map effect_key (completed_effects c).
Proof.
  unfold has_effect. rewrite existsb_exists, list_elem_of_fmap. split.
  - intros (e & He%list_elem_of_In & Hk%String.eqb_eq). eauto.
  - intros (e & -> & He). exists e. split; [by apply list_elem_of_In|apply String.eqb_refl].
Qed.
(** A new effect is added, once, and nothing else changes but the revision. *)
Lemma with_effect_spec c e :
  checkpoint_wf c → claim_ceiling c = WORKFLOW_CHECKPOINT_CLAIM_CEILING →
  with_effect c e = Ok (if has_effect (effect_key e) c then c else
    {| task_id := task_id c; operation_id := operation_id c; attempt_id := attempt_id c;
       identity := identity c; revision := revision c + 1; status := status c; phase := phase c;
       next_gate := next_gate c; external_operation_ids := external_operation_ids c;
       leases := leases c; evidence_refs := evidence_refs c;
       completed_effects := sort_by effect_key (completed_effects c ++ [e]);
       pending_steps := pending_steps c; retry_history := retry_history c;
       blocked_reason := blocked_reason c; schema := schema c; claim_ceiling := claim_ceiling c |}).
Proof.
  intros Hwf Hcl. unfold with_effect. destruct (has_effect (effect_key e) c) eqn:Eh; [done|].
  assert (effect_key e ∉ map effect_key (completed_effects c)) as Hnew by (rewrite <- has_effect_spec; by rewrite Eh).
  pose proof Hwf as (Hs & Ht & Ho & Ha & Hr & Hst & Hext & Hl & He & Hp & Hre & Hn & Hsort & Hterm).
  set (c' := {| revision := _; completed_effects := _ |}).
  assert (NoDup (map effect_key (completed_effects c ++ [e]))) as Hnd.
  { rewrite map_app. apply NoDup_app. split_and!; [done| |apply NoDup_singleton].
    intros k Hk [->|[]%elem_of_nil]%elem_of_cons. done. }
  assert (checkpoint_wf c') as Hwf'.
  { unfold checkpoint_wf. cbn [c' schema task_id operation_id attempt_id revision status
      external_operation_ids leases evidence_refs pending_steps retry_history completed_effects].
    split_and!; try done; [lia|by rewrite sort_by_perm|apply sort_by_sorted]. }
  apply (args_of_checkpoint c'); [done|done|symmetry; apply sort_by_perm|]. cbn. by rewrite map_map.
Qed.
Lemma with_effect_readable c e c' :
  checkpoint_readable c → effect_readable e → with_effect c e = Ok c' → checkpoint_readable c'.
Proof.
  intros Hc He Hw. pose proof Hc as (Hwf & Hcl & Ht & Ho & Ha & Hi & Hef).
  pose proof (with_effect_spec c e Hwf Hcl) as Hspec. rewrite Hw in Hspec.
  unfold with_effect in Hw. destruct (has_effect (effect_key e) c); [by injection Hw as <-|].
  injection Hspec as ->. apply new_checkpoint_wf in Hw as [Hwf' _].
  unfold checkpoint_readable. split; [done|]. cbn. split_and!; try done.
  rewrite sort_by_perm. apply Forall_app. split; [done|by constructor].
Qed.
End successor_lemmas.

(** ** The durable form *)
Section durable.
Context `{FloatText} `{Digest}.

(** The text [_atomic_write] puts in a file, and how the store reads it. *)
Definition durable_text (payload : dict) : result string :=
  t ← json_dumps true true (PDict payload); Ok (t +:+ String "010"%char EmptyString).
Definition load_checkpoint (text : string) : result WorkflowCheckpoint :=
  v ← json_loads text; checkpoint_from_dict v.

Lemma durable_text_Ok d :
  py_wf (PDict d) = true → json_check true (PDict d) = Ok () →
  ∃ text, durable_text d = Ok text ∧ json_loads text = Ok (jnorm (PDict d)).
Proof.
  intros Hwf Hc. unfold durable_text. pose proof (json_check_dumps true true _ Hc) as Hd. rewrite Hd.
  eexists. split; [reflexivity|]. by eapply json_loads_dumps.
Qed.
Lemma sealed_check c : json_check true (PDict (checkpoint_body c ++ [("checkpoint_hash", PStr (hash_of c))])) = Ok ().
Proof.
  apply json_check_dict, Forall_app. split; [|by repeat constructor].
  apply json_check_dict, check_body.
Qed.
Lemma sealed_py_wf c :
  NoDup (keys (external_operation_ids c)) →
  py_wf (PDict (checkpoint_body c ++ [("checkpoint_hash", PStr (hash_of c))])) = true.
Proof.
  intros Hn. apply py_wf_members; [reflexivity|]. apply Forall_app. split; [|by repeat constructor].
  pose proof (py_wf_body c Hn) as Hb. cbn [py_wf] in Hb. apply andb_true_iff in Hb as [_ Hb].
  by apply Forall_forallb.
Qed.
Lemma load_durable c text :
  checkpoint_readable c → (d ← checkpoint_to_dict c; durable_text d) = Ok text →
  load_checkpoint text = Ok (canon c).
Proof.
  intros Hc. rewrite checkpoint_to_dict_Ok. cbn [mbind result_bind]. intros Ht.
  pose proof Hc as ((_&_&_&_&_&_&Hn&_) & _).
  destruct (durable_text_Ok _ (sealed_py_wf c Hn) (sealed_check c)) as (text' & Ht' & Hl).
  rewrite Ht in Ht'. injection Ht' as <-. unfold load_checkpoint. rewrite Hl.
  cbn [mbind result_bind]. apply checkpoint_reads_back; [done|].
  intros k. apply jnorm_get. apply py_wf_nodup. by apply sealed_py_wf.
Qed.
Lemma durable_checkpoint c : checkpoint_wf c → ∃ text, (d ← checkpoint_to_dict c; durable_text d) = Ok text.
Proof.
  intros (_&_&_&_&_&_&Hn&_). rewrite checkpoint_to_dict_Ok. cbn [mbind result_bind].
  destruct (durable_text_Ok _ (sealed_py_wf c Hn) (sealed_check c)) as (text & Ht & _). by exists text.
Qed.
End durable.

Lemma stale_nil i j :
  stale_fields ["repository"; "source_revision"; "runtime_identity"] i j = [] ↔
  repository i = repository j ∧ source_revision i = source_revision j ∧
  runtime_identity i = runtime_identity j.
Proof.
  change (stale_fields _ i j) with (List.filter
    (λ name, negb (String.eqb (identity_field name i) (identity_field name j)))
    ["repository"; "source_revision"; "runtime_identity"]).
  rewrite <- !String.eqb_eq. cbn [List.filter].
  change (identity_field "repository") with repository.
  change (identity_field "source_revision") with source_revision.
  change (identity_field "runtime_identity") with runtime_identity.
  destruct (String.eqb (repository i) _), (String.eqb (source_revision i) _),
    (String.eqb (runtime_identity i) _); cbn; split; try done; by intros (? & ? & ?).
Qed.

(** ** The resume decision *)
Section resume.
Context `{FloatText} `{Digest}.

Definition same_runtime (i j : IdentityBinding) : Prop :=
  repository i = repository j ∧ source_revision i = source_revision j ∧
  runtime_identity i = runtime_identity j.
Lemma resume_table c current :
  checkpoint_wf c →
  let same := same_runtime (identity c) current in
  ∃ r, resume_disposition c current = Ok r ∧
    py_get r "replay_completed_effects" = PBool false ∧
    py_get r "checkpoint_hash" = PStr (hash_of c) ∧
    (py_get r "disposition" = PStr DISPOSITION_SAFE ↔ same ∧ status c = STATUS_RUNNING) ∧
    (py_get r "disposition" = PStr DISPOSITION_WAIT ↔
       same ∧ status c ∈ [STATUS_WAITING_APPROVAL; STATUS_WAITING_EXTERNAL]) ∧
    (py_get r "disposition" = PStr DISPOSITION_BLOCKED ↔ same ∧ status c ∈ TERMINAL_STATUSES) ∧
    (py_get r "disposition" = PStr DISPOSITION_RECONCILE ↔ ¬ same ∨ status c = STATUS_RECONCILE).
Proof.
  intros Hwf same. destruct Hwf as (_&_&_&_&_&Hst&_).
  unfold resume_disposition. rewrite checkpoint_hash_Ok. cbn [mbind result_bind].
  destruct (stale_fields _ _ _) as [|x l] eqn:Es.
  - apply stale_nil in Es. change same in Es. clearbody same. generalize dependent (status c). intros s Hs.
    unfold CHECKPOINT_STATUSES in Hs. rewrite !elem_of_cons, elem_of_nil in Hs.
    destruct Hs as [->|[->|[->|[->|[->|[->|[]]]]]]]; (eexists; split; [reflexivity|]);
      (split; [reflexivity|split; [reflexivity|]]); unfold TERMINAL_STATUSES; rewrite <- !text_in_spec;
      repeat split; try done; try (by intros [? ?]); try (by intros [?|?]); by right.
  - assert (¬ same) as Hno by (unfold same, same_runtime; rewrite <- stale_nil, Es; done). clearbody same.
    eexists. split; [reflexivity|]. split; [reflexivity|split; [reflexivity|]].
    repeat split; try done; try (by intros [? ?]). by left.
Qed.
End resume.

(** * Properties *)
Section properties.
Context `{FloatText} `{Digest}.

(** A checkpoint survives the loss of the session: any record the constructor
    accepts, whose identifying texts carry no surrounding blanks, is written to its file
    and read back as the same checkpoint (its external operations in document order), with
    the same document and hash. *)
Theorem checkpoint_file_roundtrip a c
    (Hc : new_checkpoint a = Ok c) (Hcl : a_claim_ceiling a = WORKFLOW_CHECKPOINT_CLAIM_CEILING)
    (Hids : Forall (λ s, stripped_key s = true) [task_id c; operation_id c; attempt_id c])
    (Hi : identity_readable (identity c)) (He : Forall effect_readable (completed_effects c)) :
  ∃ text, (d ← checkpoint_to_dict c; durable_text d) = Ok text ∧
    load_checkpoint text = Ok (canon c) ∧ checkpoint_to_dict (canon c) = checkpoint_to_dict c.
Proof.
  apply new_checkpoint_wf in Hc as (Hwf & _ & _ & _ & _ & _ & _ & _ & Hcl').
  destruct (durable_checkpoint c Hwf) as [text Ht]. exists text. split; [done|].
  pose proof Hwf as (_&_&_&_&_&_&Hn&_).
  split; [|by rewrite !checkpoint_to_dict_Ok; unfold hash_of; rewrite canon_body].
  apply load_durable; [|done]. rewrite !Forall_cons in Hids. destruct Hids as (? & ? & ? & _).
  unfold checkpoint_readable. rewrite Hcl'. done.
Qed.

(** A stored checkpoint cannot be edited unnoticed: two documents with the same
    [checkpoint_hash] that both load are the same checkpoint, or their canonical texts are
    a SHA-256 collision; and what loads has that hash and can be stored again. *)
Theorem checkpoint_tamper_evident d d' c c'
    (Hd : checkpoint_from_dict (PDict d) = Ok c) (Hd' : checkpoint_from_dict (PDict d') = Ok c')
    (Hh : py_get d "checkpoint_hash" = py_get d' "checkpoint_hash") :
  checkpoint_hash c = checkpoint_hash c' ∧ checkpoint_readable c ∧
  (canon c = canon c' ∨
   ∃ s t, json_dumps true true (PDict (checkpoint_body c)) = Ok s ∧
     json_dumps true true (PDict (checkpoint_body c')) = Ok t ∧ collision (utf8 s) (utf8 t)).
Proof.
  apply checkpoint_from_dict_Ok in Hd as (Hc & d1 & [= <-] & E1).
  apply checkpoint_from_dict_Ok in Hd' as (Hc' & d2 & [= <-] & E2).
  assert (hash_of c = hash_of c') as E by congruence.
  split; [by rewrite !checkpoint_hash_Ok, E|]. split; [done|].
  apply hash_identifies; [apply Hc|apply Hc'|done].
Qed.

(** The resume decision.  A checkpoint may be continued exactly when it is RUNNING and
    its repository, source revision and runtime identity are the current ones; it waits on
    a pending approval or external condition, is blocked when terminal, and any drift of
    those identities, or the status RECONCILE, asks for reconciliation.  Completed effects
    are never to be replayed. *)
Theorem resume_disposition_table c current (Hwf : checkpoint_wf c) :
  let same := same_runtime (identity c) current in
  ∃ r, resume_disposition c current = Ok r ∧
    py_get r "replay_completed_effects" = PBool false ∧
    py_get r "checkpoint_hash" = PStr (hash_of c) ∧
    (py_get r "disposition" = PStr DISPOSITION_SAFE ↔ same ∧ status c = STATUS_RUNNING) ∧
    (py_get r "disposition" = PStr DISPOSITION_WAIT ↔
       same ∧ status c ∈ [STATUS_WAITING_APPROVAL; STATUS_WAITING_EXTERNAL]) ∧
    (py_get r "disposition" = PStr DISPOSITION_BLOCKED ↔ same ∧ status c ∈ TERMINAL_STATUSES) ∧
    (py_get r "disposition" = PStr DISPOSITION_RECONCILE ↔ ¬ same ∨ status c = STATUS_RECONCILE).
Proof. by apply resume_table. Qed.
End properties.

(** * Witnesses *)
#[local] Existing Instance Sha256_Digest.
#[local] Existing Instance Dyadic_FloatText.

Module Witness.
Definition here : IdentityBinding :=
  {| repository := "repo"; source_revision := "abc"; runtime_identity := "rt-1";
     target_revision := EmptyString |}.
Definition effect_a : CompletedEffect :=
  {| effect_key := "a"; receipt_ref := "r:a"; effect_hash := EmptyString |}.
Definition effect_b : CompletedEffect :=
  {| effect_key := "b"; receipt_ref := "r:b"; effect_hash := "h" |}.
Definition args (task : string) : checkpoint_args :=
  {| a_task_id := task; a_operation_id := "op-1"; a_attempt_id := "at-1"; a_identity := here;
     a_revision := PInt 3; a_status := STATUS_RUNNING; a_phase := "build"; a_next_gate := "review";
     a_external_operation_ids := PDict [("z", PStr "1"); ("ci", PInt 7)];
     a_leases := [PStr "lease"; PStr "lease"]; a_evidence_refs := [PStr "e1"];
     a_completed_effects := [effect_b; effect_a]; a_pending_steps := [PStr "next"];
     a_retry_history := []; a_blocked_reason := EmptyString;
     a_schema := WORKFLOW_CHECKPOINT_SCHEMA; a_claim_ceiling := WORKFLOW_CHECKPOINT_CLAIM_CEILING |}.
Definition checkpoint : WorkflowCheckpoint :=
  {| task_id := "t-1"; operation_id := "op-1"; attempt_id := "at-1"; identity := here; revision := 3;
     status := STATUS_RUNNING; phase := "build"; next_gate := "review";
     external_operation_ids := [("z", "1"); ("ci", "7")]; leases := ["lease"];
     evidence_refs := ["e1"]; completed_effects := [effect_a; effect_b]; pending_steps := ["next"];
     retry_history := []; blocked_reason := EmptyString; schema := WORKFLOW_CHECKPOINT_SCHEMA;
     claim_ceiling := WORKFLOW_CHECKPOINT_CLAIM_CEILING |}.
Definition document : dict :=
  match checkpoint_to_dict checkpoint with Ok d => d | Err _ => [] end.
End Witness.

Lemma checkpoint_file_roundtrip_witness :
  ∃ text, (d ← checkpoint_to_dict Witness.checkpoint; durable_text d) = Ok text ∧
    load_checkpoint text = Ok (canon Witness.checkpoint) ∧
    checkpoint_to_dict (canon Witness.checkpoint) = checkpoint_to_dict Witness.checkpoint.
Proof.
  apply (checkpoint_file_roundtrip (Witness.args "t-1") Witness.checkpoint).
  - vm_compute. reflexivity.
  - reflexivity.
  - repeat constructor.
  - repeat split. by left.
  - constructor; [repeat split; by left|constructor; [repeat split; by right|constructor]].
Defined.
Lemma checkpoint_tamper_evident_witness :
  checkpoint_hash (canon Witness.checkpoint) = checkpoint_hash (canon Witness.checkpoint).
Proof.
  apply (checkpoint_tamper_evident Witness.document (dict_set "note" (PStr "added") Witness.document));
    vm_compute; reflexivity.
Defined.
Lemma resume_disposition_table_witness : ∃ r,
  resume_disposition Witness.checkpoint Witness.here = Ok r ∧
  py_get r "disposition" = PStr DISPOSITION_SAFE.
Proof.
  destruct (resume_disposition_table Witness.checkpoint Witness.here) as (r & Hr & _ & _ & [_ Hs] & _).
  - apply (new_checkpoint_wf (Witness.args "t-1")). vm_compute. reflexivity.
  - exists r. split; [exact Hr|]. apply Hs. repeat split.
Defined.

(** A record whose task id carries a blank is accepted and written, and its own file is
    then refused as tampered with. *)
Example padded_task_id_is_lost :
  (c ← new_checkpoint (Witness.args "t-1 "); d ← checkpoint_to_dict c; text ← durable_text d;
   load_checkpoint text)
  = raise CheckpointError "checkpoint_hash mismatch: payload has been tampered".
Proof. vm_compute. reflexivity. Qed.
(** A drifted target revision does not prevent a resume. *)
Example target_revision_is_not_compared :
  ((λ r, py_get r "disposition") <$>
     resume_disposition Witness.checkpoint
       {| repository := "repo"; source_revision := "abc"; runtime_identity := "rt-1";
          target_revision := "other" |})
  = Ok (PStr DISPOSITION_SAFE).
Proof. vm_compute. reflexivity. Qed.
(** A terminal checkpoint can be advanced back to RUNNING. *)
Example terminal_checkpoint_reopened :
  (c ← new_checkpoint {|
      a_task_id := "t-1"; a_operation_id := "op-1"; a_attempt_id := "at-1"; a_identity := Witness.here;
      a_revision := PInt 1; a_status := STATUS_COMPLETED; a_phase := EmptyString;
      a_next_gate := EmptyString; a_external_operation_ids := PDict []; a_leases := [];
      a_evidence_refs := []; a_completed_effects := []; a_pending_steps := []; a_retry_history := [];
      a_blocked_reason := EmptyString; a_schema := WORKFLOW_CHECKPOINT_SCHEMA;
      a_claim_ceiling := WORKFLOW_CHECKPOINT_CLAIM_CEILING |};
   c ← advanced c {| n_status := Some STATUS_RUNNING; n_phase := None; n_next_gate := None;
      n_pending_steps := None; n_blocked_reason := None; n_retry_entry := None;
      n_external_operation_ids := None; n_evidence_refs := None |};
   Ok (status c)) = Ok STATUS_RUNNING.
Proof. vm_compute. reflexivity. Qed.
