(* ===== verification/HandoffLineage.v ===== *)
(** * Handoff lineage ([src/src/nexus_runtime/handoff_lineage.py])

    The durable record of one predecessor-to-successor handoff of an execution attempt,
    its hashed document, and the decision whether the successor may resume. *)
From Stdlib Require Import Ascii String SpecFloat.
From S2P Require Import Prelude PyValue Json Digest Contract Instances SortBy WorkflowCheckpoint.

Definition HANDOFF_LINEAGE_SCHEMA := "nexus.runtime.handoff_lineage.v1".
Definition HANDOFF_LINEAGE_CLAIM_CEILING := "RUNTIME_HANDOFF_LINEAGE_STATE_ONLY".
Definition TRANSITION_LOCAL_TO_ONLINE := "LOCAL_TO_ONLINE".
Definition TRANSITION_ONLINE_A_TO_ONLINE_B := "ONLINE_A_TO_ONLINE_B".
Definition TRANSITION_RDC_TO_MAIN_GPT := "RDC_TO_MAIN_GPT".
Definition TRANSITION_MAIN_GPT_TO_DELEGATED := "MAIN_GPT_TO_DELEGATED".
Definition RECOGNIZED_TRANSITIONS : list string :=
  [TRANSITION_LOCAL_TO_ONLINE; TRANSITION_ONLINE_A_TO_ONLINE_B; TRANSITION_RDC_TO_MAIN_GPT;
   TRANSITION_MAIN_GPT_TO_DELEGATED].

Definition _handoff_text : pyval → string → result string := req_text HandoffLineageError.

(** ** Fence references *)
Definition canonical_prefixes : list string :=
  ["urn:nexus:fence:"; "urn:nexus:claim:"; "fence:"; "fence-receipt:"; "fence-receipt-";
   "fence_receipt:"; "fence-"; "claim_fence:"; "claim-fence:"; "claim:"].
Definition parse_canonical_fence_ref (ref : string) : option dict :=
  if blank ref then None
  else
    let ref := strip ref in
    match List.find (λ p, starts_with p ref) canonical_prefixes with
    | None => None
    | Some prefix =>
        let rest := str_drop (String.length prefix) ref in
        if blank rest then None
        else Some [("prefix", PStr prefix); ("raw", PStr ref); ("identifier", PStr (strip rest))]
    end.

(** ** Records *)
Record HandoffLineage : Type := {
  h_task_id : string;
  predecessor_attempt_id : string;
  successor_attempt_id : string;
  predecessor_operation_id : string;
  predecessor_checkpoint_hash : string;
  predecessor_checkpoint_revision : Z;
  handoff_reason : string;
  source_identity : IdentityBinding;
  terminal_state : string;
  fence_evidence_ref : string;
  completed_effect_refs : list string;
  completed_effect_keys : list string;
  unknown_effect_refs : list string;
  reconcile_disposition : string;
  successor_binding : dict;
  inherited_evidence_refs : list string;
  h_next_gate : string;
  freshness_identity : string;
  transition_type : string;
  h_schema : string;
  h_claim_ceiling : string
}.
(** The keyword arguments of the constructor. *)
Record handoff_args : Type := {
  g_task_id : string;
  g_predecessor_attempt_id : string;
  g_successor_attempt_id : string;
  g_predecessor_operation_id : string;
  g_predecessor_checkpoint_hash : string;
  g_predecessor_checkpoint_revision : pyval;
  g_handoff_reason : string;
  g_source_identity : IdentityBinding;
  g_terminal_state : string;
  g_fence_evidence_ref : string;
  g_completed_effect_refs : list pyval;
  g_completed_effect_keys : list pyval;
  g_unknown_effect_refs : list pyval;
  g_reconcile_disposition : string;
  g_successor_binding : pyval;
  g_inherited_evidence_refs : list pyval;
  g_next_gate : string;
  g_freshness_identity : string;
  g_transition_type : string;
  g_schema : string;
  g_claim_ceiling : string
}.

Section handoff.
Context `{FloatText} `{Digest}.

(** [HandoffLineage.__post_init__]. *)
Definition new_handoff (g : handoff_args) : result HandoffLineage :=
  let bad b msg := raise_if b HandoffLineageError msg in
  let text s name := _handoff_text (PStr s) name in
  _ ← bad (negb (String.eqb (g_schema g) HANDOFF_LINEAGE_SCHEMA))
        ("unsupported handoff lineage schema: " +:+ repr_str (g_schema g));
  _ ← bad (negb (String.eqb (g_claim_ceiling g) HANDOFF_LINEAGE_CLAIM_CEILING))
        ("unsupported claim ceiling: " +:+ repr_str (g_claim_ceiling g));
  _ ← text (g_task_id g) "task_id";
  _ ← text (g_predecessor_attempt_id g) "predecessor_attempt_id";
  _ ← text (g_successor_attempt_id g) "successor_attempt_id";
  _ ← bad (String.eqb (g_predecessor_attempt_id g) (g_successor_attempt_id g))
        "predecessor and successor attempt IDs must differ";
  _ ← text (g_predecessor_operation_id g) "predecessor_operation_id";
  _ ← text (g_predecessor_checkpoint_hash g) "predecessor_checkpoint_hash";
  rev ← match g_predecessor_checkpoint_revision g with
    | PInt n => Ok n
    | _ => raise HandoffLineageError "predecessor_checkpoint_revision must be an int"
    end;
  _ ← bad (rev <? 1)%Z "predecessor_checkpoint_revision must be >= 1";
  _ ← text (g_handoff_reason g) "handoff_reason";
  _ ← text (g_terminal_state g) "terminal_state";
  _ ← text (g_fence_evidence_ref g) "fence_evidence_ref";
  effect_refs ← text_tuple HandoffLineageError "completed_effect_refs" (g_completed_effect_refs g);
  effect_keys ← text_tuple HandoffLineageError "completed_effect_keys" (g_completed_effect_keys g);
  unknown ← text_tuple HandoffLineageError "unknown_effect_refs" (g_unknown_effect_refs g);
  inherited ← text_tuple HandoffLineageError "inherited_evidence_refs" (g_inherited_evidence_refs g);
  binding ← match g_successor_binding g with
    | PDict d => Ok d
    | _ => raise HandoffLineageError "successor_binding must be a Mapping"
    end;
  _ ← match dict_get "attempt_id" binding with
      | Some v =>
          let bound := strip (py_str v) in
          bad (negb (String.eqb bound EmptyString) && negb (String.eqb bound (g_successor_attempt_id g)))
            "successor_binding attempt_id does not match successor_attempt_id"
      | None => Ok ()
      end;
  _ ← bad (negb (String.eqb (g_transition_type g) EmptyString)
           && negb (text_in (g_transition_type g) RECOGNIZED_TRANSITIONS))
        ("unrecognized transition_type: " +:+ repr_str (g_transition_type g));
  Ok {| h_task_id := g_task_id g; predecessor_attempt_id := g_predecessor_attempt_id g;
        successor_attempt_id := g_successor_attempt_id g;
        predecessor_operation_id := g_predecessor_operation_id g;
        predecessor_checkpoint_hash := g_predecessor_checkpoint_hash g;
        predecessor_checkpoint_revision := rev; handoff_reason := g_handoff_reason g;
        source_identity := g_source_identity g; terminal_state := g_terminal_state g;
        fence_evidence_ref := g_fence_evidence_ref g; completed_effect_refs := effect_refs;
        completed_effect_keys := effect_keys; unknown_effect_refs := unknown;
        reconcile_disposition := g_reconcile_disposition g; successor_binding := binding;
        inherited_evidence_refs := inherited; h_next_gate := g_next_gate g;
        freshness_identity := g_freshness_identity g; transition_type := g_transition_type g;
        h_schema := g_schema g; h_claim_ceiling := g_claim_ceiling g |}.

(** The document that is hashed, [to_dict] and the [lineage_hash] property. *)
Definition handoff_body (h : HandoffLineage) : dict := [
  ("schema", PStr (h_schema h)); ("claim_ceiling", PStr (h_claim_ceiling h));
  ("task_id", PStr (h_task_id h)); ("predecessor_attempt_id", PStr (predecessor_attempt_id h));
  ("successor_attempt_id", PStr (successor_attempt_id h));
  ("predecessor_operation_id", PStr (predecessor_operation_id h));
  ("predecessor_checkpoint_hash", PStr (predecessor_checkpoint_hash h));
  ("predecessor_checkpoint_revision", PInt (predecessor_checkpoint_revision h));
  ("handoff_reason", PStr (handoff_reason h));
  ("source_identity", PDict (identity_to_dict (source_identity h)));
  ("terminal_state", PStr (terminal_state h)); ("fence_evidence_ref", PStr (fence_evidence_ref h));
  ("completed_effect_refs", str_list (completed_effect_refs h));
  ("completed_effect_keys", str_list (completed_effect_keys h));
  ("unknown_effect_refs", str_list (unknown_effect_refs h));
  ("reconcile_disposition", PStr (reconcile_disposition h));
  ("successor_binding", PDict (sort_items (successor_binding h)));
  ("inherited_evidence_refs", str_list (inherited_evidence_refs h));
  ("next_gate", PStr (h_next_gate h)); ("freshness_identity", PStr (freshness_identity h));
  ("transition_type", PStr (transition_type h))].
Definition lineage_hash (h : HandoffLineage) : result string := _sha256 (PDict (handoff_body h)).
Definition handoff_to_dict (h : HandoffLineage) : result dict :=
  digest ← lineage_hash h; Ok (dict_set "lineage_hash" (PStr digest) (handoff_body h)).

(** [HandoffLineage.from_dict]. *)
Definition handoff_from_dict (v : pyval) : result HandoffLineage :=
  data ← match v with
    | PDict d => Ok d
    | _ => raise HandoffLineageError "handoff lineage payload must be an object"
    end;
  _ ← raise_if (negb (is_text (py_get data "schema") HANDOFF_LINEAGE_SCHEMA)) HandoffLineageError
        "unsupported handoff lineage schema";
  _ ← raise_if (negb (is_text (py_get data "claim_ceiling") HANDOFF_LINEAGE_CLAIM_CEILING))
        HandoffLineageError "unsupported claim ceiling";
  identity_raw ← match py_get data "source_identity" with
    | PDict d => Ok d
    | _ => raise HandoffLineageError "source_identity must be an object"
    end;
  stored_hash ← match py_get data "lineage_hash" with
    | PStr s => if blank s then raise HandoffLineageError "lineage_hash is required for durable handoff records"
                else Ok s
    | _ => raise HandoffLineageError "lineage_hash is required for durable handoff records"
    end;
  let text k := _text (py_get data k) k in
  let items k := py_tuple (py_or (py_get data k) (PTuple [])) in
  let plain k := str_or (py_get data k) EmptyString in
  task ← text "task_id"; predecessor ← text "predecessor_attempt_id";
  successor ← text "successor_attempt_id"; operation ← text "predecessor_operation_id";
  hash ← text "predecessor_checkpoint_hash"; why ← text "handoff_reason";
  ident ← identity_from_dict identity_raw;
  terminal ← text "terminal_state"; fence ← text "fence_evidence_ref";
  effect_refs ← items "completed_effect_refs"; effect_keys ← items "completed_effect_keys";
  unknown ← items "unknown_effect_refs"; inherited ← items "inherited_evidence_refs";
  candidate ← new_handoff {|
    g_task_id := task; g_predecessor_attempt_id := predecessor; g_successor_attempt_id := successor;
    g_predecessor_operation_id := operation; g_predecessor_checkpoint_hash := hash;
    g_predecessor_checkpoint_revision := default (PInt 1) (dict_get "predecessor_checkpoint_revision" data);
    g_handoff_reason := why; g_source_identity := ident; g_terminal_state := terminal;
    g_fence_evidence_ref := fence; g_completed_effect_refs := effect_refs;
    g_completed_effect_keys := effect_keys; g_unknown_effect_refs := unknown;
    g_reconcile_disposition := str_or (py_get data "reconcile_disposition") DISPOSITION_SAFE;
    g_successor_binding := py_or (py_get data "successor_binding") (PDict []);
    g_inherited_evidence_refs := inherited; g_next_gate := plain "next_gate";
    g_freshness_identity := plain "freshness_identity"; g_transition_type := plain "transition_type";
    g_schema := plain "schema"; g_claim_ceiling := plain "claim_ceiling" |};
  digest ← lineage_hash candidate;
  _ ← raise_if (negb (String.eqb digest stored_hash)) HandoffLineageError
        "lineage_hash mismatch: payload has been tampered";
  Ok candidate.

(** ** Evaluation *)
(** What the host knows about fences: nothing, verified references, or facts by reference. *)
Inductive fence_facts : Type :=
| NoFacts
| VerifiedRefs (refs : list string)
| FactsByRef (facts : dict).
Definition fence_verified (facts : fence_facts) (ref : string) : bool :=
  match facts with
  | NoFacts => false
  | VerifiedRefs refs => text_in ref refs
  | FactsByRef d =>
      match py_get d ref with
      | PBool true => true
      | PDict fact => match py_get fact "verified" with PBool true => true | _ => false end
      | _ => false
      end
  end.
Definition all_identity_fields : list string :=
  ["repository"; "source_revision"; "runtime_identity"; "target_revision"].

(** A reply of [evaluate_handoff_lineage]: [extra] follows [stale_fields], [tail] the gate. *)
Definition reply (h : HandoffLineage) (digest disposition reason : string) (stale : list string)
    (extra tail : dict) : dict :=
  [("disposition", PStr disposition); ("reason", PStr reason); ("stale_fields", str_list stale)]
  ++ extra ++ [("next_gate", PStr (h_next_gate h)); ("replay_completed_effects", PBool false)]
  ++ tail ++ [("lineage_hash", PStr digest)].

(** The checks of [evaluate_handoff_lineage] in order: the first one that fails names the
    disposition, the reason and the extra members. *)
Definition evaluate_handoff_lineage (h : HandoffLineage) (current : IdentityBinding)
    (predecessor : option WorkflowCheckpoint) (facts : fence_facts) : result dict :=
  digest ← lineage_hash h;
  let reconcile why stale extra := Ok (reply h digest DISPOSITION_RECONCILE why stale extra []) in
  let stale := stale_fields all_identity_fields (source_identity h) current in
  match stale with
  | _ :: _ => reconcile "IDENTITY_DRIFT" stale []
  | [] =>
  match predecessor with
  | Some cp =>
      if String.eqb (status cp) STATUS_RECONCILE || negb (String.eqb (blocked_reason cp) EmptyString) then
        reconcile "PREDECESSOR_RECONCILIATION_REQUIRED" []
          [("blocked_reason", PStr (blocked_reason cp))]
      else
      match unknown_effect_refs h with
      | _ :: _ => reconcile "UNRESOLVED_UNKNOWN_EFFECTS" []
                    [("unknown_effect_refs", str_list (unknown_effect_refs h))]
      | [] =>
      if blank (fence_evidence_ref h) then reconcile "MISSING_OLD_WRITER_FENCE_REFERENCE" [] []
      else match parse_canonical_fence_ref (fence_evidence_ref h) with
      | None => reconcile "INVALID_FENCE_EVIDENCE_FORMAT" [] []
      | Some _ =>
      if negb (fence_verified facts (fence_evidence_ref h)) then
        reconcile "UNVERIFIED_OLD_WRITER_FENCE_REFERENCE" [] []
      else if negb (String.eqb (task_id cp) (h_task_id h)) then
        reconcile "PREDECESSOR_TASK_ID_MISMATCH" [] []
      else if negb (String.eqb (attempt_id cp) (predecessor_attempt_id h)) then
        reconcile "PREDECESSOR_ATTEMPT_ID_MISMATCH" [] []
      else if negb (String.eqb (operation_id cp) (predecessor_operation_id h)) then
        reconcile "PREDECESSOR_OPERATION_ID_MISMATCH" [] []
      else if negb (bool_decide (identity cp = source_identity h)) then
        reconcile "PREDECESSOR_IDENTITY_MISMATCH"
          (stale_fields all_identity_fields (identity cp) (source_identity h)) []
      else
      cp_hash ← checkpoint_hash cp;
      if negb (String.eqb cp_hash (predecessor_checkpoint_hash h)) then
        reconcile "STALE_PREDECESSOR_CHECKPOINT_HASH" [] []
      else if negb (revision cp =? predecessor_checkpoint_revision h)%Z then
        reconcile "STALE_PREDECESSOR_CHECKPOINT_REVISION" [] []
      else if negb (String.eqb (terminal_state h) (status cp)) then
        reconcile "TERMINAL_STATE_MISMATCH" ["terminal_state"] []
      else if negb (String.eqb (reconcile_disposition h) DISPOSITION_SAFE) then
        Ok (reply h digest (reconcile_disposition h)
              ("EXPLICIT_HANDOFF_DISPOSITION_" +:+ reconcile_disposition h) [] [] [])
      else
        Ok (reply h digest DISPOSITION_SAFE "LINEAGE_BOUND_AND_FENCED" [] []
              [("completed_effect_refs", str_list (completed_effect_refs h));
               ("inherited_evidence_refs", str_list (inherited_evidence_refs h))])
      end end
  | None =>
      match unknown_effect_refs h with
      | _ :: _ => reconcile "UNRESOLVED_UNKNOWN_EFFECTS" []
                    [("unknown_effect_refs", str_list (unknown_effect_refs h))]
      | [] => reconcile "MISSING_CANONICAL_PREDECESSOR_CHECKPOINT" [] []
      end
  end end.
End handoff.

(** * Lemmas *)

(** ** When a successor may resume *)
Section evaluation.
Context `{FloatText} `{Digest}.

Definition lineage_safe (h : HandoffLineage) (current : IdentityBinding) (cp : WorkflowCheckpoint)
    (facts : fence_facts) : Prop :=
  (source_identity h = current ∧ status cp ≠ STATUS_RECONCILE ∧ blocked_reason cp = EmptyString ∧
   unknown_effect_refs h = []) ∧
  (is_Some (parse_canonical_fence_ref (fence_evidence_ref h)) ∧
   fence_verified facts (fence_evidence_ref h) = true) ∧
  (task_id cp = h_task_id h ∧ attempt_id cp = predecessor_attempt_id h ∧
   operation_id cp = predecessor_operation_id h ∧ identity cp = source_identity h) ∧
  (predecessor_checkpoint_hash h = hash_of cp ∧ predecessor_checkpoint_revision h = revision cp ∧
   terminal_state h = status cp ∧ reconcile_disposition h = DISPOSITION_SAFE).

Lemma all_stale_nil i j : stale_fields all_identity_fields i j = [] ↔ i = j.
Proof.
  change (stale_fields _ i j) with (List.filter
    (λ name, negb (String.eqb (identity_field name i) (identity_field name j))) all_identity_fields).
  unfold all_identity_fields. cbn [List.filter].
  change (identity_field "repository") with repository.
  change (identity_field "source_revision") with source_revision.
  change (identity_field "runtime_identity") with runtime_identity.
  change (identity_field "target_revision") with target_revision.
  destruct i as [a b c d], j as [a' b' c' d']. cbn [repository source_revision runtime_identity target_revision].
  destruct (String.eqb_spec a a') as [->|]; [|cbn; split; congruence].
  destruct (String.eqb_spec b b') as [->|]; [|cbn; split; congruence].
  destruct (String.eqb_spec c c') as [->|]; [|cbn; split; congruence].
  destruct (String.eqb_spec d d') as [->|]; [done|cbn; split; congruence].
Qed.

Lemma parse_blank ref : blank ref = true → parse_canonical_fence_ref ref = None.
Proof. unfold parse_canonical_fence_ref. by intros ->. Qed.
Ltac refused :=
  eexists; split; [reflexivity|]; split; [reflexivity|]; split; [reflexivity|]; right;
  split; [|discriminate];
  intros cp' Hcp ((Hsrc & Hrec & Hblk & Hunk) & Hfence & (Htask & Hatt & Hop & Hid) & (Hhash & Hrev & Hterm & Hdisp));
  try (injection Hcp as <-).
(** Either everything holds and the reply is SAFE, or something fails and it is not. *)
Lemma evaluate_cases h current predecessor facts digest :
  lineage_hash h = Ok digest →
  ∃ r, evaluate_handoff_lineage h current predecessor facts = Ok r ∧
    py_get r "replay_completed_effects" = PBool false ∧ py_get r "lineage_hash" = PStr digest ∧
    ((∃ cp, predecessor = Some cp ∧ lineage_safe h current cp facts) ∧
       py_get r "disposition" = PStr DISPOSITION_SAFE ∨
     (∀ cp, predecessor = Some cp → ¬ lineage_safe h current cp facts) ∧
       py_get r "disposition" ≠ PStr DISPOSITION_SAFE).
Proof.
  intros Hh. unfold evaluate_handoff_lineage. rewrite Hh. cbn [mbind result_bind]. cbv zeta.
  destruct (stale_fields all_identity_fields (source_identity h) current) as [|x l] eqn:Es.
  2: { refused. assert (source_identity h = current) as E by done. apply all_stale_nil in E. congruence. }
  apply all_stale_nil in Es.
  destruct predecessor as [cp|].
  2: { destruct (unknown_effect_refs h); (eexists; split; [reflexivity|]; split; [reflexivity|];
         split; [reflexivity|]; right; split; [done|discriminate]). }
  destruct (String.eqb_spec (status cp) STATUS_RECONCILE); [refused; done|].
  destruct (String.eqb_spec (blocked_reason cp) EmptyString); cbn [negb orb]; [|refused; done].
  destruct (unknown_effect_refs h) eqn:Eu; [|refused; congruence].
  destruct (blank (fence_evidence_ref h)) eqn:Eb.
  { refused. apply parse_blank in Eb. destruct Hfence as [[y Hy] _]. congruence. }
  destruct (parse_canonical_fence_ref (fence_evidence_ref h)) eqn:Ep.
  2: { refused. destruct Hfence as [[y Hy] _]; congruence. }
  destruct (fence_verified facts (fence_evidence_ref h)) eqn:Ev; cbn [negb]; [|refused; destruct Hfence; congruence].
  destruct (String.eqb_spec (task_id cp) (h_task_id h)); cbn [negb]; [|refused; done].
  destruct (String.eqb_spec (attempt_id cp) (predecessor_attempt_id h)); cbn [negb]; [|refused; done].
  destruct (String.eqb_spec (operation_id cp) (predecessor_operation_id h)); cbn [negb]; [|refused; done].
  destruct (bool_decide (identity cp = source_identity h)) eqn:Ei; cbn [negb].
  2: { apply bool_decide_eq_false in Ei. refused; done. }
  apply bool_decide_eq_true in Ei. rewrite checkpoint_hash_Ok. cbn [mbind result_bind].
  destruct (String.eqb_spec (hash_of cp) (predecessor_checkpoint_hash h)); cbn [negb]; [|refused; congruence].
  destruct (Z.eqb_spec (revision cp) (predecessor_checkpoint_revision h)); cbn [negb]; [|refused; congruence].
  destruct (String.eqb_spec (terminal_state h) (status cp)); cbn [negb]; [|refused; done].
  destruct (String.eqb_spec (reconcile_disposition h) DISPOSITION_SAFE) as [Er|Er]; cbn [negb].
  - eexists. split; [reflexivity|]. split; [reflexivity|]. split; [reflexivity|]. left.
    split; [|reflexivity]. exists cp. split; [done|]. unfold lineage_safe. split_and!; eauto.
  - eexists. split; [reflexivity|]. split; [reflexivity|]. split; [reflexivity|]. right. split.
    + intros ? [= <-] (_ & _ & _ & _ & _ & _ & ?). done.
    + cbn. intros [= E]. by rewrite E in Er.
Qed.
End evaluation.

(** ** Well-formed handoffs, and reading back what was written *)
Definition binding_ok `{FloatText} (d : dict) (successor : string) : Prop :=
  match dict_get "attempt_id" d with
  | Some v => strip (py_str v) = EmptyString ∨ strip (py_str v) = successor
  | None => True
  end.
Definition handoff_wf `{FloatText} (h : HandoffLineage) : Prop :=
  h_schema h = HANDOFF_LINEAGE_SCHEMA ∧ h_claim_ceiling h = HANDOFF_LINEAGE_CLAIM_CEILING ∧
  Forall (λ s, blank s = false)
    [h_task_id h; predecessor_attempt_id h; successor_attempt_id h; predecessor_operation_id h;
     predecessor_checkpoint_hash h; handoff_reason h; terminal_state h; fence_evidence_ref h] ∧
  predecessor_attempt_id h ≠ successor_attempt_id h ∧ (1 ≤ predecessor_checkpoint_revision h)%Z ∧
  plain_texts (completed_effect_refs h) ∧ plain_texts (completed_effect_keys h) ∧
  plain_texts (unknown_effect_refs h) ∧ plain_texts (inherited_evidence_refs h) ∧
  binding_ok (successor_binding h) (successor_attempt_id h) ∧
  (transition_type h = EmptyString ∨ transition_type h ∈ RECOGNIZED_TRANSITIONS).

Definition with_binding (h : HandoffLineage) (b : dict) : HandoffLineage :=
  {| h_task_id := h_task_id h; predecessor_attempt_id := predecessor_attempt_id h;
     successor_attempt_id := successor_attempt_id h; predecessor_operation_id := predecessor_operation_id h;
     predecessor_checkpoint_hash := predecessor_checkpoint_hash h;
     predecessor_checkpoint_revision := predecessor_checkpoint_revision h;
     handoff_reason := handoff_reason h; source_identity := source_identity h;
     terminal_state := terminal_state h; fence_evidence_ref := fence_evidence_ref h;
     completed_effect_refs := completed_effect_refs h; completed_effect_keys := completed_effect_keys h;
     unknown_effect_refs := unknown_effect_refs h; reconcile_disposition := reconcile_disposition h;
     successor_binding := b; inherited_evidence_refs := inherited_evidence_refs h;
     h_next_gate := h_next_gate h; freshness_identity := freshness_identity h;
     transition_type := transition_type h; h_schema := h_schema h; h_claim_ceiling := h_claim_ceiling h |}.
(** The binding as its document lists it: sorted, tuples as lists. *)
Definition document_binding (d : dict) : dict := match jnorm (PDict d) with PDict d => d | _ => [] end.
Definition hcanon (h : HandoffLineage) : HandoffLineage := with_binding h (document_binding (successor_binding h)).

(** A handoff that its reader takes for the same handoff. *)
Definition handoff_readable `{FloatText} (h : HandoffLineage) : Prop :=
  handoff_wf (hcanon h) ∧
  Forall (λ s, stripped_key s = true)
    [h_task_id h; predecessor_attempt_id h; successor_attempt_id h; predecessor_operation_id h;
     predecessor_checkpoint_hash h; handoff_reason h; terminal_state h; fence_evidence_ref h] ∧
  identity_readable (source_identity h) ∧ reconcile_disposition h ≠ EmptyString ∧
  py_wf (PDict (successor_binding h)) = true ∧ json_check true (PDict (successor_binding h)) = Ok ().

Section handoff_roundtrip.
Context `{FloatText} `{Digest}.

Lemma new_handoff_wf g h :
  new_handoff g = Ok h →
  handoff_wf h ∧ successor_attempt_id h = g_successor_attempt_id g ∧
  predecessor_attempt_id h = g_predecessor_attempt_id g ∧ h_task_id h = g_task_id g ∧
  predecessor_operation_id h = g_predecessor_operation_id g ∧
  predecessor_checkpoint_hash h = g_predecessor_checkpoint_hash g ∧ handoff_reason h = g_handoff_reason g ∧
  terminal_state h = g_terminal_state g ∧ fence_evidence_ref h = g_fence_evidence_ref g ∧
  source_identity h = g_source_identity g ∧ reconcile_disposition h = g_reconcile_disposition g ∧
  g_successor_binding g = PDict (successor_binding h).
Proof.
  unfold new_handoff. cbv zeta. intros Hh.
  apply bind_Ok_inv in Hh as (? & H1%raise_if_Ok_inv & (? & H2%raise_if_Ok_inv & Hh)%bind_Ok_inv).
  apply bind_Ok_inv in Hh as (? & T1 & (? & T2 & (? & T3 & (? & H3%raise_if_Ok_inv & Hh)%bind_Ok_inv)%bind_Ok_inv)%bind_Ok_inv).
  apply bind_Ok_inv in Hh as (? & T4 & (? & T5 & (rev & Hr & (? & H4%raise_if_Ok_inv & Hh)%bind_Ok_inv)%bind_Ok_inv)%bind_Ok_inv).
  apply bind_Ok_inv in Hh as (? & T6 & (? & T7 & (? & T8 & Hh)%bind_Ok_inv)%bind_Ok_inv).
  apply bind_Ok_inv in Hh as (? & L1 & (? & L2 & (? & L3 & (? & L4 & Hh)%bind_Ok_inv)%bind_Ok_inv)%bind_Ok_inv).
  apply bind_Ok_inv in Hh as (b & Hb & (? & Hat & (? & Htr%raise_if_Ok_inv & [= <-])%bind_Ok_inv)%bind_Ok_inv).
  apply text_tuple_Ok in L1 as [? _], L2 as [? _], L3 as [? _], L4 as [? _].
  apply req_text_Ok in T1 as (? & [= <-] & ? & _), T2 as (? & [= <-] & ? & _), T3 as (? & [= <-] & ? & _),
    T4 as (? & [= <-] & ? & _), T5 as (? & [= <-] & ? & _), T6 as (? & [= <-] & ? & _),
    T7 as (? & [= <-] & ? & _), T8 as (? & [= <-] & ? & _).
  apply negb_false_iff, String.eqb_eq in H1, H2. apply String.eqb_neq in H3. apply Z.ltb_ge in H4.
  split; [|split_and!; try done; cbn [successor_binding]; revert Hb;
           destruct (g_successor_binding g); try done; by intros [= ->]].
  unfold handoff_wf. cbn [h_schema h_claim_ceiling h_task_id predecessor_attempt_id successor_attempt_id
    predecessor_operation_id predecessor_checkpoint_hash handoff_reason terminal_state fence_evidence_ref
    predecessor_checkpoint_revision completed_effect_refs completed_effect_keys unknown_effect_refs
    inherited_evidence_refs successor_binding transition_type].
  split_and!; try done.
  - by repeat constructor.
  - unfold binding_ok. destruct (dict_get "attempt_id" b) as [v|]; [|done].
    apply raise_if_Ok_inv in Hat.
    destruct (String.eqb_spec (strip (py_str v)) EmptyString) as [?|_]; [by left|right].
    by destruct (String.eqb_spec (strip (py_str v)) (g_successor_attempt_id g)).
  - destruct (String.eqb_spec (g_transition_type g) EmptyString) as [?|_]; [by left|right].
    cbn in Htr. by apply negb_false_iff, text_in_spec in Htr.
Qed.

(** The constructor is the identity on a well-formed record's own fields. *)
Lemma args_of_handoff h binding :
  handoff_wf h → binding = PDict (successor_binding h) →
  new_handoff {|
    g_task_id := h_task_id h; g_predecessor_attempt_id := predecessor_attempt_id h;
    g_successor_attempt_id := successor_attempt_id h; g_predecessor_operation_id := predecessor_operation_id h;
    g_predecessor_checkpoint_hash := predecessor_checkpoint_hash h;
    g_predecessor_checkpoint_revision := PInt (predecessor_checkpoint_revision h);
    g_handoff_reason := handoff_reason h; g_source_identity := source_identity h;
    g_terminal_state := terminal_state h; g_fence_evidence_ref := fence_evidence_ref h;
    g_completed_effect_refs := map PStr (completed_effect_refs h);
    g_completed_effect_keys := map PStr (completed_effect_keys h);
    g_unknown_effect_refs := map PStr (unknown_effect_refs h);
    g_reconcile_disposition := reconcile_disposition h; g_successor_binding := binding;
    g_inherited_evidence_refs := map PStr (inherited_evidence_refs h); g_next_gate := h_next_gate h;
    g_freshness_identity := freshness_identity h; g_transition_type := transition_type h;
    g_schema := h_schema h; g_claim_ceiling := h_claim_ceiling h |} = Ok h.
Proof.
  intros (Hs & Hc & Ht & Hne & Hr & H1 & H2 & H3 & H4 & Hb & Htr) ->. unfold new_handoff. cbv zeta.
  cbn [g_task_id g_predecessor_attempt_id g_successor_attempt_id g_predecessor_operation_id
    g_predecessor_checkpoint_hash g_predecessor_checkpoint_revision g_handoff_reason g_terminal_state
    g_fence_evidence_ref g_completed_effect_refs g_completed_effect_keys g_unknown_effect_refs
    g_successor_binding g_inherited_evidence_refs g_transition_type g_schema g_claim_ceiling].
  rewrite Hs, Hc, !String.eqb_refl. cbn [negb raise_if mbind result_bind].
  repeat (apply Forall_cons in Ht as [? Ht]).
  assert (∀ s name, blank s = false → _handoff_text (PStr s) name = Ok (strip s)) as Htext
    by (intros s name Hbs; apply req_text_Ok; eauto).
  do 3 (rewrite Htext by done; cbn [mbind result_bind]).
  rewrite (proj2 (String.eqb_neq _ _) Hne). cbn [raise_if mbind result_bind].
  do 2 (rewrite Htext by done; cbn [mbind result_bind]).
  rewrite (proj2 (Z.ltb_ge _ _) Hr). cbn [raise_if mbind result_bind].
  do 3 (rewrite Htext by done; cbn [mbind result_bind]).
  rewrite (text_tuple_plain _ _ _ H1), (text_tuple_plain _ _ _ H2), (text_tuple_plain _ _ _ H3),
    (text_tuple_plain _ _ _ H4). cbn [mbind result_bind].
  assert (match dict_get "attempt_id" (successor_binding h) with
          | Some v => raise_if (negb (String.eqb (strip (py_str v)) EmptyString)
                       && negb (String.eqb (strip (py_str v)) (successor_attempt_id h))) HandoffLineageError
                       "successor_binding attempt_id does not match successor_attempt_id"
          | None => Ok () end = Ok ()) as ->.
  { unfold binding_ok in Hb. destruct (dict_get "attempt_id" _); [|done].
    destruct Hb as [-> | ->]; [done|]. by rewrite String.eqb_refl, andb_false_r. }
  cbn [mbind result_bind].
  assert (negb (String.eqb (transition_type h) EmptyString)
          && negb (text_in (transition_type h) RECOGNIZED_TRANSITIONS) = false) as ->.
  { destruct Htr as [-> | Ht'%text_in_spec]; [done|]. by rewrite Ht', andb_false_r. }
  cbn [raise_if mbind result_bind]. rewrite <- Hs, <- Hc. by destruct h.
Qed.
End handoff_roundtrip.

Section handoff_reading.
Context `{FloatText} `{Digest}.

Definition lhash_of (h : HandoffLineage) : string :=
  text_sha256 (json_print true (jnorm (PDict (handoff_body h)))).

Lemma check_handoff h :
  json_check true (PDict (successor_binding h)) = Ok () → json_check true (PDict (handoff_body h)) = Ok ().
Proof.
  intros Hb. json_members. 2: done.
  apply json_check_dict. rewrite sort_items_perm. by apply json_check_dict.
Qed.
Lemma lineage_hash_Ok h :
  json_check true (PDict (successor_binding h)) = Ok () → lineage_hash h = Ok (lhash_of h).
Proof.
  intros Hb. unfold lineage_hash, _sha256, _canonical.
  by rewrite json_check_dumps by by apply check_handoff.
Qed.
Lemma handoff_to_dict_Ok h :
  json_check true (PDict (successor_binding h)) = Ok () →
  handoff_to_dict h = Ok (handoff_body h ++ [("lineage_hash", PStr (lhash_of h))]).
Proof. intros Hb. unfold handoff_to_dict. rewrite lineage_hash_Ok by done. reflexivity. Qed.
Lemma py_wf_sort d : py_wf (PDict d) = true → py_wf (PDict (sort_items d)) = true.
Proof.
  cbn [py_wf]. rewrite !andb_true_iff, !bool_decide_eq_true, keys_sort_items. intros [? Hd].
  split; [done|]. by rewrite (forallb_perm _ _ _ (sort_items_perm d)).
Qed.
Lemma py_wf_handoff h :
  py_wf (PDict (successor_binding h)) = true →
  py_wf (PDict (handoff_body h ++ [("lineage_hash", PStr (lhash_of h))])) = true.
Proof.
  intros Hb. apply py_wf_members; [reflexivity|].
  repeat (constructor; [first [reflexivity|apply py_wf_str_list|by apply py_wf_sort]|]). constructor.
Qed.

Lemma document_binding_eq d : PDict (document_binding d) = jnorm (PDict d).
Proof. reflexivity. Qed.
Lemma jnorm_sorted d : NoDup (keys d) → jnorm (PDict (sort_items d)) = jnorm (PDict d).
Proof.
  intros Hn. cbn [jnorm]. f_equal. apply sort_items_unique.
  - by rewrite keys_map, keys_sort_items.
  - apply Permutation_map, sort_items_perm.
Qed.
Lemma document_binding_sorted d :
  NoDup (keys d) → sort_items (document_binding d) = document_binding d.
Proof.
  intros Hn. apply sort_items_id; [|apply sort_items_sorted].
  change (document_binding d) with (sort_items (map (λ kv, (kv.1, jnorm kv.2)) d)).
  by rewrite keys_jnorm.
Qed.
Lemma hcanon_jnorm h :
  py_wf (PDict (successor_binding h)) = true →
  jnorm (PDict (handoff_body (hcanon h))) = jnorm (PDict (handoff_body h)).
Proof.
  intros Hwf. pose proof (py_wf_nodup _ Hwf) as Hn.
  assert (jnorm (PDict (sort_items (document_binding (successor_binding h)))) =
          jnorm (PDict (sort_items (successor_binding h)))) as E.
  { rewrite document_binding_sorted, document_binding_eq, jnorm_idem, jnorm_sorted by done. done. }
  change (PDict (sort_items (map (λ kv, (kv.1, jnorm kv.2)) (handoff_body (hcanon h)))) =
          PDict (sort_items (map (λ kv, (kv.1, jnorm kv.2)) (handoff_body h)))).
  unfold handoff_body, hcanon. cbn [map fst snd with_binding h_schema h_claim_ceiling h_task_id
    predecessor_attempt_id successor_attempt_id predecessor_operation_id predecessor_checkpoint_hash
    predecessor_checkpoint_revision handoff_reason source_identity terminal_state fence_evidence_ref
    completed_effect_refs completed_effect_keys unknown_effect_refs reconcile_disposition
    successor_binding inherited_evidence_refs h_next_gate freshness_identity transition_type].
  by rewrite E.
Qed.
Lemma hcanon_hash h :
  py_wf (PDict (successor_binding h)) = true → lhash_of (hcanon h) = lhash_of h.
Proof. intros Hwf. unfold lhash_of. by rewrite hcanon_jnorm. Qed.

Lemma str_or_default s d : s ≠ EmptyString → str_or (PStr s) d = s.
Proof. by destruct s. Qed.
Lemma mapping_back d : py_or (PDict d) (PDict []) = PDict d.
Proof. by destruct d. Qed.

(** A readable handoff's document, in any member order, is the handoff. *)
Lemma handoff_reads_back h d :
  handoff_readable h →
  (∀ k, dict_get k d = jnorm <$> dict_get k (handoff_body h ++ [("lineage_hash", PStr (lhash_of h))])) →
  handoff_from_dict (PDict d) = Ok (hcanon h).
Proof.
  intros (Hwf & Ht & Hi & Hrd & Hbw & Hbc) Hd.
  pose proof Hwf as (Hs&Hcl&_). cbn in Hs, Hcl.
  assert (∀ k, py_get d k = default PNone (jnorm <$> dict_get k
            (handoff_body h ++ [("lineage_hash", PStr (lhash_of h))]))) as Hg.
  { intros k. unfold py_get. by rewrite Hd. }
  unfold handoff_from_dict. cbn [mbind result_bind]. cbv zeta. rewrite !Hg, Hd.
  cbn [handoff_body app dict_get String.eqb Ascii.eqb Bool.eqb fmap option_fmap option_map default from_option id].
  rewrite jnorm_sorted, <- document_binding_eq, mapping_back, !jnorm_of_str_list, !items_back
    by by apply py_wf_nodup.
  change (jnorm (PDict (identity_to_dict (source_identity h)))) with (PDict (sorted_identity (source_identity h))).
  cbn [jnorm mbind result_bind]. rewrite Hs, Hcl.
  change (is_text (PStr HANDOFF_LINEAGE_SCHEMA) HANDOFF_LINEAGE_SCHEMA) with true.
  change (is_text (PStr HANDOFF_LINEAGE_CLAIM_CEILING) HANDOFF_LINEAGE_CLAIM_CEILING) with true.
  cbn [negb raise_if mbind result_bind].
  rewrite (key_blank (lhash_of h)) by apply hex64_key, sha256_hex_wf. cbn [mbind result_bind].
  repeat (apply Forall_cons in Ht as [? Ht]).
  do 6 (rewrite text_key by done; cbn [mbind result_bind]).
  rewrite (identity_reads_back _ (source_identity h)) by (apply sorted_identity_get || done).
  cbn [mbind result_bind]. do 2 (rewrite text_key by done; cbn [mbind result_bind]).
  rewrite !str_or_str, str_or_default by done.
  assert (py_wf (PDict (document_binding (successor_binding h))) = true) as Hdw
    by by rewrite document_binding_eq, py_wf_jnorm.
  pose proof (args_of_handoff (hcanon h) _ Hwf eq_refl) as Hargs.
  cbn [hcanon with_binding h_schema h_claim_ceiling h_task_id predecessor_attempt_id
    successor_attempt_id predecessor_operation_id predecessor_checkpoint_hash
    predecessor_checkpoint_revision handoff_reason source_identity terminal_state fence_evidence_ref
    completed_effect_refs completed_effect_keys unknown_effect_refs reconcile_disposition
    successor_binding inherited_evidence_refs h_next_gate freshness_identity transition_type] in Hargs.
  rewrite Hs, Hcl in Hargs. rewrite Hargs. cbn [mbind result_bind].
  rewrite lineage_hash_Ok; cbn [hcanon with_binding successor_binding].
  - cbn [mbind result_bind]. fold (hcanon h). rewrite hcanon_hash, String.eqb_refl by done. done.
  - rewrite document_binding_eq. by apply json_check_jnorm.
Qed.
End handoff_reading.

Section handoff_facts.
Context `{FloatText} `{Digest}.

Definition load_handoff (text : string) : result HandoffLineage :=
  v ← json_loads text; handoff_from_dict v.

Lemma document_binding_id d : jnorm (PDict d) = PDict d → document_binding d = d.
Proof. unfold document_binding. by intros ->. Qed.
Lemma hcanon_idem h : py_wf (PDict (successor_binding h)) = true → hcanon (hcanon h) = hcanon h.
Proof.
  intros Hwf. unfold hcanon. cbn [with_binding successor_binding]. rewrite (document_binding_id (document_binding (successor_binding h))); [done|].
  rewrite document_binding_eq. by apply jnorm_idem.
Qed.

(** A handoff that was read is well formed, stripped, and has the stored hash. *)
Lemma handoff_from_dict_Ok v h :
  handoff_from_dict v = Ok h →
  handoff_wf h ∧ identity_readable (source_identity h) ∧
  Forall (λ s, stripped_key s = true)
    [h_task_id h; predecessor_attempt_id h; successor_attempt_id h; predecessor_operation_id h;
     predecessor_checkpoint_hash h; handoff_reason h; terminal_state h; fence_evidence_ref h] ∧
  ∃ d digest, v = PDict d ∧ lineage_hash h = Ok digest ∧ py_get d "lineage_hash" = PStr digest.
Proof.
  unfold handoff_from_dict. cbv zeta. intros (d & Hd & Hh)%bind_Ok_inv.
  destruct v as [| | | | | | |d0|]; try done. injection Hd as ->.
  apply bind_Ok_inv in Hh as (? & _ & (? & _ & (ir & _ & (st & Hst & Hh)%bind_Ok_inv)%bind_Ok_inv)%bind_Ok_inv).
  apply bind_Ok_inv in Hh as (? & T1%req_text_key & (? & T2%req_text_key & (? & T3%req_text_key & Hh)%bind_Ok_inv)%bind_Ok_inv).
  apply bind_Ok_inv in Hh as (? & T4%req_text_key & (? & T5%req_text_key & (? & T6%req_text_key & Hh)%bind_Ok_inv)%bind_Ok_inv).
  apply bind_Ok_inv in Hh as (i & Hi%identity_from_dict_Ok & (? & T7%req_text_key & (? & T8%req_text_key & Hh)%bind_Ok_inv)%bind_Ok_inv).
  do 4 (apply bind_Ok_inv in Hh as (? & _ & Hh)).
  apply bind_Ok_inv in Hh as (h' & Hn & (digest & Hg & (? & Heq%raise_if_Ok_inv & [= <-])%bind_Ok_inv)%bind_Ok_inv).
  apply negb_false_iff, String.eqb_eq in Heq as <-.
  apply new_handoff_wf in Hn as (Hwf & E1 & E2 & E3 & E4 & E5 & E6 & E7 & E8 & E9 & _).
  cbn in E1, E2, E3, E4, E5, E6, E7, E8, E9.
  rewrite E1, E2, E3, E4, E5, E6, E7, E8, E9. split_and!; try done.
  - by repeat constructor.
  - exists d, digest. split_and!; try done. destruct (py_get d "lineage_hash") as [| | | |s| | | |]; try done.
    destruct (blank s); [done|]. by injection Hst as ->.
Qed.
Lemma load_handoff_durable h text :
  handoff_readable h → (d ← handoff_to_dict h; durable_text d) = Ok text →
  load_handoff text = Ok (hcanon h).
Proof.
  intros Hh. pose proof Hh as (_ & _ & _ & _ & Hbw & Hbc).
  rewrite handoff_to_dict_Ok by done. cbn [mbind result_bind]. intros Ht.
  assert (json_check true (PDict (handoff_body h ++ [("lineage_hash", PStr (lhash_of h))])) = Ok ()) as Hck.
  { apply json_check_dict, Forall_app. split; [|by repeat constructor].
    by apply json_check_dict, check_handoff. }
  destruct (durable_text_Ok _ (py_wf_handoff h Hbw) Hck) as (text' & Ht' & Hl).
  rewrite Ht in Ht'. injection Ht' as <-. unfold load_handoff. rewrite Hl.
  cbn [mbind result_bind]. apply handoff_reads_back; [done|].
  intros k. by apply jnorm_get, py_wf_nodup, py_wf_handoff.
Qed.
Lemma durable_handoff h :
  handoff_readable h → ∃ text, (d ← handoff_to_dict h; durable_text d) = Ok text.
Proof.
  intros (_ & _ & _ & _ & Hbw & Hbc). rewrite handoff_to_dict_Ok by done. cbn [mbind result_bind].
  destruct (durable_text_Ok _ (py_wf_handoff h Hbw)) as (text & Ht & _); [|by exists text].
  apply json_check_dict, Forall_app. split; [|by repeat constructor].
  by apply json_check_dict, check_handoff.
Qed.
End handoff_facts.

(** * Properties *)
Section properties.
Context `{FloatText} `{Digest}.

(** C14: when a successor may resume.  The evaluation of a handoff that has a hash always
    answers, and SAFE exactly when the handoff's source identity is the current one in every
    field, the predecessor's checkpoint is present, asks for no reconciliation, and is the
    very one (task, attempt, operation, identity, hash, revision, status) the handoff names,
    no effect is listed as unknown, the fence of the old writer is well formed and verified
    by its owner, and the handoff's own [reconcile_disposition] is SAFE (any other text is
    answered as it is).  The completed effects it lists are not compared with the
    checkpoint's, but no reply ever asks to replay them. *)
Theorem handoff_safe_iff h current predecessor facts digest (Hh : lineage_hash h = Ok digest) :
  ∃ r, evaluate_handoff_lineage h current predecessor facts = Ok r ∧
    py_get r "replay_completed_effects" = PBool false ∧ py_get r "lineage_hash" = PStr digest ∧
    (py_get r "disposition" = PStr DISPOSITION_SAFE ↔
     ∃ cp, predecessor = Some cp ∧ lineage_safe h current cp facts).
Proof.
  destruct (evaluate_cases h current predecessor facts digest Hh)
    as (r & Hr & Hp & Hl & [[Hs Hd]|[Hno Hd]]); exists r; split_and!; try done.
  split; [done|]. intros (cp & Hcp & Hs). by destruct (Hno cp Hcp).
Qed.

(** A handoff survives the loss of the session: every handoff whose texts carry no
    surrounding blanks and whose binding is JSON data is written and read back as itself
    (its binding in document form), with the same hash; so what is evaluated after a
    restart is what was handed over. *)
Theorem handoff_file_roundtrip h (Hh : handoff_readable h) :
  ∃ text, (d ← handoff_to_dict h; durable_text d) = Ok text ∧
    load_handoff text = Ok (hcanon h) ∧ lineage_hash (hcanon h) = lineage_hash h.
Proof.
  destruct (durable_handoff h Hh) as [text Ht]. exists text. split; [done|].
  split; [by apply load_handoff_durable|]. pose proof Hh as (_ & _ & _ & _ & Hbw & Hbc).
  rewrite !lineage_hash_Ok; [by rewrite hcanon_hash|done|].
  cbn [hcanon with_binding successor_binding]. rewrite document_binding_eq. by apply json_check_jnorm.
Qed.
End properties.

(** * Witnesses *)
#[local] Existing Instance Sha256_Digest.
#[local] Existing Instance Dyadic_FloatText.

Module Witness.
Definition here : IdentityBinding :=
  {| repository := "repo"; source_revision := "abc"; runtime_identity := "rt-1";
     target_revision := "t" |}.
Definition predecessor : WorkflowCheckpoint :=
  {| task_id := "t-1"; operation_id := "op-1"; attempt_id := "at-1"; identity := here; revision := 2;
     status := STATUS_FAILED; phase := EmptyString; next_gate := EmptyString;
     external_operation_ids := []; leases := []; evidence_refs := []; completed_effects := [];
     pending_steps := []; retry_history := []; blocked_reason := EmptyString;
     schema := WORKFLOW_CHECKPOINT_SCHEMA; claim_ceiling := WORKFLOW_CHECKPOINT_CLAIM_CEILING |}.
Definition handoff : HandoffLineage :=
  {| h_task_id := "t-1"; predecessor_attempt_id := "at-1"; successor_attempt_id := "at-2";
     predecessor_operation_id := "op-1"; predecessor_checkpoint_hash := hash_of predecessor;
     predecessor_checkpoint_revision := 2; handoff_reason := "carrier lost"; source_identity := here;
     terminal_state := STATUS_FAILED; fence_evidence_ref := "fence:9"; completed_effect_refs := [];
     completed_effect_keys := []; unknown_effect_refs := []; reconcile_disposition := DISPOSITION_SAFE;
     successor_binding := [("operation_id", PStr "op-2"); ("attempt_id", PStr "at-2")];
     inherited_evidence_refs := ["e"]; h_next_gate := "g"; freshness_identity := EmptyString;
     transition_type := TRANSITION_LOCAL_TO_ONLINE; h_schema := HANDOFF_LINEAGE_SCHEMA;
     h_claim_ceiling := HANDOFF_LINEAGE_CLAIM_CEILING |}.
End Witness.
Lemma witness_readable : handoff_readable Witness.handoff.
Proof.
  unfold handoff_readable, handoff_wf. split_and!; try (vm_compute; done).
  - by repeat constructor.
  - split; [constructor|constructor].
  - split; [constructor|constructor].
  - split; [constructor|constructor].
  - split; [apply NoDup_singleton|by repeat constructor].
  - right. reflexivity.
  - right. apply text_in_spec. reflexivity.
  - repeat constructor.
  - repeat split. by right.
Qed.

Lemma handoff_safe_iff_witness : ∃ r,
  evaluate_handoff_lineage Witness.handoff Witness.here (Some Witness.predecessor) (VerifiedRefs ["fence:9"]) = Ok r ∧
  py_get r "disposition" = PStr DISPOSITION_SAFE.
Proof.
  destruct (handoff_safe_iff Witness.handoff Witness.here (Some Witness.predecessor)
    (VerifiedRefs ["fence:9"]) (lhash_of Witness.handoff)) as (r & Hr & _ & _ & [_ Hs]).
  - vm_compute. reflexivity.
  - exists r. split; [exact Hr|]. apply Hs. exists Witness.predecessor. split; [reflexivity|].
    split; [|split; [|split]].
    + split; [reflexivity|]. split; [discriminate|]. split; reflexivity.
    + split; [|vm_compute; reflexivity].
      exists [("prefix", PStr "fence:"); ("raw", PStr "fence:9"); ("identifier", PStr "9")].
      vm_compute. reflexivity.
    + split; [reflexivity|]. split; [reflexivity|]. split; reflexivity.
    + split; [reflexivity|]. split; [reflexivity|]. split; reflexivity.
Defined.
Lemma handoff_file_roundtrip_witness : ∃ text,
  (d ← handoff_to_dict Witness.handoff; durable_text d) = Ok text ∧
  load_handoff text = Ok (hcanon Witness.handoff) ∧
  lineage_hash (hcanon Witness.handoff) = lineage_hash Witness.handoff.
Proof. apply (handoff_file_roundtrip Witness.handoff). exact witness_readable. Defined.
