(* ===== verification/CheckpointStore.v ===== *)
(** * The checkpoint store ([src/src/nexus_runtime/workflow_checkpoint.py], the store and
    its read-backs)

    One directory tree of JSON files: per attempt [current.json] and [history/], per task
    [handoffs/].  The disk is a map from paths (below the store's root) to texts, with the
    directories that are symbolic links and the atomic replacements performed so far,
    oldest first: a process that dies leaves the first of them done and the others not
    ([crashed]).  An operation holds the advisory lock of its attempt for its whole body, so
    operations on one attempt are run one after the other.  Directories, lock files and
    temporary files (none of which is ever read) are not represented, nor are I/O errors. *)
From Stdlib Require Import Ascii String SpecFloat.
From S2P Require Import Prelude PyValue Json Digest Contract Instances SortBy WorkflowCheckpoint.
From S2P Require Import HandoffLineage.

Abbreviation path := (list string).
Record disk : Type := {
  files : gmap path string;
  links : gset path;
  log : list (path * string)
}.

(** [_safe_segment]. *)
Definition has_char (c : ascii) (s : string) : bool := str_contains (String c EmptyString) s.
Definition _safe_segment (value field_name : string) : result string :=
  text ← _text (PStr value) field_name;
  if has_char "/" text || has_char "\" text || text_in text ["."; ".."] || has_char "000" text
  then raise CheckpointError (field_name +:+ " must not contain path separators")
  else Ok text.

Definition _attempt_dir (task_id attempt_id : string) : result path :=
  t ← _safe_segment task_id "task_id";
  a ← _safe_segment attempt_id "attempt_id";
  Ok [t; a].
Definition _current_path (task_id attempt_id : string) : result path :=
  d ← _attempt_dir task_id attempt_id; Ok (d ++ ["current.json"]).
(** [f"{revision:08d}"], of a revision that is at least 1. *)
Fixpoint zeros (n : nat) : string := match n with O => EmptyString | S n => String "0" (zeros n) end.
Definition padded (revision : Z) : string :=
  zeros (8 - String.length (int_text revision)) +:+ int_text revision.
Definition _history_path (task_id attempt_id : string) (revision : Z) : result path :=
  d ← _attempt_dir task_id attempt_id; Ok (d ++ ["history"; padded revision +:+ ".json"]).
Definition _handoffs_dir (task_id : string) : result path :=
  t ← _safe_segment task_id "task_id"; Ok [t; "handoffs"].
Definition _handoff_path (task_id successor_attempt_id : string) : result path :=
  d ← _handoffs_dir task_id;
  s ← _safe_segment successor_attempt_id "successor_attempt_id";
  Ok (d ++ [s +:+ ".json"]).

(** [sorted(directory.glob("*.json"))], as the paths of the files. *)
Definition ends_with (suffix s : string) : bool :=
  (String.length suffix <=? String.length s)
  && String.eqb (str_drop (String.length s - String.length suffix) s) suffix.
Definition entry_of (directory p : path) : option string :=
  match decide (removelast p = directory), last p with
  | left _, Some name => if ends_with ".json" name then Some name else None
  | _, _ => None
  end.
Definition json_files (directory : path) (s : disk) : list path :=
  map (λ name, directory ++ [name])
    (sort_strings (omap (λ kv, entry_of directory kv.1) (map_to_list (files s)))).

Section store.
Context `{FloatText} `{Digest}.

(** [_locked]: the check before the lock is taken; the [with] block that follows it is the
    rest of the operation. *)
Definition _locked (task_id attempt_id : string) : prog disk unit :=
  directory ← lift (_attempt_dir task_id attempt_id);
  s ← get_state;
  lift (raise_if (bool_decide (directory ∈ links s) || bool_decide (removelast directory ∈ links s))
          CheckpointError "checkpoint state path must not be a symlink").

(** [_atomic_write]: the text is complete before [os.replace] makes it the file. *)
Definition replace_file (p : path) (text : string) (s : disk) : disk :=
  {| files := <[p := text]> (files s); links := links s; log := log s ++ [(p, text)] |}.
Definition _atomic_write (p : path) (payload : dict) : prog disk unit :=
  text ← lift (durable_text payload);
  modify_state (replace_file p text).

(** [json.loads(path.read_text())] of the file at [p], [None] if there is none. *)
Definition read_at {A} (load : string → result A) (p : path) (s : disk) : result (option A) :=
  match files s !! p with
  | Some text => v ← load text; Ok (Some v)
  | None => Ok None
  end.

Definition write (checkpoint : WorkflowCheckpoint) (expected_revision : option Z) :
    prog disk WorkflowCheckpoint :=
  _ ← _locked (task_id checkpoint) (attempt_id checkpoint);
  p ← lift (_current_path (task_id checkpoint) (attempt_id checkpoint));
  s ← get_state;
  existing ← lift (read_at load_checkpoint p s);
  _ ← lift (match expected_revision with
    | Some expected =>
        let actual := match existing with Some c => revision c | None => 0%Z end in
        raise_if (negb (actual =? expected)%Z) CheckpointConflict
          ("checkpoint revision conflict: expected " +:+ int_text expected +:+ ", found " +:+ int_text actual)
    | None =>
        raise_if match existing with Some c => (revision checkpoint <=? revision c)%Z | None => false end
          CheckpointConflict "checkpoint revision must advance beyond the persisted revision"
    end);
  payload ← lift (checkpoint_to_dict checkpoint);
  _ ← _atomic_write p payload;
  h ← lift (_history_path (task_id checkpoint) (attempt_id checkpoint) (revision checkpoint));
  _ ← _atomic_write h payload;
  mret checkpoint.

Definition read (task_id attempt_id : string) (s : disk) : result (option WorkflowCheckpoint) :=
  p ← _current_path task_id attempt_id; read_at load_checkpoint p s.

(** The files of a directory, loaded in the order of their names. *)
Definition load_all {A} (load : string → result A) (directory : path) (s : disk) : result (list A) :=
  mapM_result (λ p, load (default EmptyString (files s !! p))) (json_files directory s).
Definition history (task_id attempt_id : string) (s : disk) : result (list WorkflowCheckpoint) :=
  d ← _attempt_dir task_id attempt_id; load_all load_checkpoint (d ++ ["history"]) s.

Definition record_effect (task_id attempt_id : string) (effect : CompletedEffect)
    (expected_revision : Z) : prog disk WorkflowCheckpoint :=
  _ ← _locked task_id attempt_id;
  p ← lift (_current_path task_id attempt_id);
  s ← get_state;
  existing ← lift (read_at load_checkpoint p s);
  match existing with
  | None => lift (raise CheckpointError "unknown checkpoint")
  | Some current =>
      _ ← lift (raise_if (negb (revision current =? expected_revision)%Z) CheckpointConflict
        ("checkpoint revision conflict: expected " +:+ int_text expected_revision +:+ ", found "
         +:+ int_text (revision current)));
      if has_effect (effect_key effect) current then mret current
      else
        updated ← lift (with_effect current effect);
        payload ← lift (checkpoint_to_dict updated);
        _ ← _atomic_write p payload;
        h ← lift (_history_path task_id attempt_id (revision updated));
        _ ← _atomic_write h payload;
        mret updated
  end.

Definition write_handoff (handoff : HandoffLineage) : prog disk HandoffLineage :=
  _ ← _locked (h_task_id handoff) ("handoff_" +:+ successor_attempt_id handoff);
  p ← lift (_handoff_path (h_task_id handoff) (successor_attempt_id handoff));
  s ← get_state;
  existing ← lift (read_at load_handoff p s);
  match existing with
  | Some existing =>
      h ← lift (lineage_hash existing);
      h' ← lift (lineage_hash handoff);
      if String.eqb h h' then mret existing
      else lift (raise CheckpointConflict
        ("handoff for successor " +:+ successor_attempt_id handoff
         +:+ " already exists with different payload"))
  | None =>
      payload ← lift (handoff_to_dict handoff);
      _ ← _atomic_write p payload;
      mret handoff
  end.

Definition read_handoff (task_id successor : string) (s : disk) : result (option HandoffLineage) :=
  p ← _handoff_path task_id successor; read_at load_handoff p s.

Definition list_handoffs (task_id : string) (s : disk) : result (list HandoffLineage) :=
  d ← _handoffs_dir task_id; load_all load_handoff d s.

(** The loop of [reconstruct_lineage_chain]: [visited] and [chain] are its variables,
    newest edge last; [None] when the fuel does not suffice. *)
Fixpoint chain_loop (fuel : nat) (task_id current : string) (visited : list string)
    (chain : list HandoffLineage) (s : disk) : option (result (list HandoffLineage)) :=
  match fuel with
  | O => None
  | S fuel =>
      let malformed msg := Some (raise HandoffLineageError msg) in
      if text_in current visited then
        malformed ("detected cyclic handoff lineage: attempt " +:+ repr_str current +:+ " creates cycle")
      else match read_handoff task_id current s with
      | Err e => Some (Err e)
      | Ok None => Some (Ok (reverse chain))
      | Ok (Some h) =>
          if negb (String.eqb (h_task_id h) task_id) then
            malformed ("malformed handoff lineage: expected task " +:+ repr_str task_id +:+ ", found "
                       +:+ repr_str (h_task_id h))
          else if negb (String.eqb (successor_attempt_id h) current) then
            malformed ("malformed handoff lineage: expected successor " +:+ repr_str current
                       +:+ ", found " +:+ repr_str (successor_attempt_id h))
          else if String.eqb (predecessor_attempt_id h) (successor_attempt_id h) then
            malformed ("detected self-cycle handoff lineage for attempt " +:+ repr_str current)
          else chain_loop fuel task_id (predecessor_attempt_id h) (current :: visited) (chain ++ [h]) s
      end
  end.
(** One more iteration than there are files is always enough. *)
Definition chain_fuel (s : disk) : nat := S (size (files s)).
Definition reconstruct_lineage_chain (task_id attempt_id : string) (s : disk) : result (list HandoffLineage) :=
  default (raise RuntimeError "the loop does not terminate")
    (chain_loop (chain_fuel s) task_id attempt_id [] [] s).

Definition operation_of (handoff : HandoffLineage) : string :=
  str_or (py_get (successor_binding handoff) "operation_id") ("op_" +:+ successor_attempt_id handoff).
Definition same_keys (declared actual : list string) : bool :=
  match declared with [] => true | _ => same_set declared actual end.

Definition cannot_bind {A} (msg : string) : result A :=
  raise HandoffLineageError ("cannot bind successor checkpoint: " +:+ msg).
(** The checks of [bind_successor_checkpoint] and the record it makes, before it writes. *)
Definition successor_checkpoint (handoff : HandoffLineage) (current_identity : IdentityBinding)
    (facts : fence_facts) (initial_status phase : string) (s : disk) : result WorkflowCheckpoint :=
  predecessor_cp ← read (h_task_id handoff) (predecessor_attempt_id handoff) s;
  predecessor ← match predecessor_cp with
    | Some cp => Ok cp
    | None => cannot_bind ("canonical predecessor checkpoint for attempt "
                      +:+ repr_str (predecessor_attempt_id handoff) +:+ " is missing")
    end;
  ancestry ← reconstruct_lineage_chain (h_task_id handoff) (predecessor_attempt_id handoff) s;
  let ancestry_attempts := predecessor_attempt_id handoff ::
    flat_map (λ edge, [predecessor_attempt_id edge; successor_attempt_id edge]) ancestry in
  _ ← (if text_in (successor_attempt_id handoff) ancestry_attempts
       then cannot_bind ("successor " +:+ repr_str (successor_attempt_id handoff) +:+ " creates a lineage cycle")
       else Ok ());
  eval_result ← evaluate_handoff_lineage handoff current_identity (Some predecessor) facts;
  _ ← (if negb (is_text (py_get eval_result "disposition") DISPOSITION_SAFE)
       then cannot_bind ("disposition is " +:+ py_str (py_get eval_result "disposition") +:+ " ("
                    +:+ py_str (py_get eval_result "reason") +:+ ")")
       else Ok ());
  let effects := completed_effects predecessor in
  _ ← raise_if (negb (same_keys (completed_effect_keys handoff) (map effect_key effects)))
        HandoffLineageError
        "completed_effect_keys must exactly match canonical predecessor completed effects";
  _ ← raise_if (negb (same_keys (completed_effect_refs handoff) (map receipt_ref effects)))
        HandoffLineageError
        "completed_effect_refs must exactly match canonical predecessor effect receipts";
  inherited ← mapM_result (λ e, new_effect (effect_key e) (receipt_ref e) (effect_hash e)) effects;
  new_checkpoint {|
    a_task_id := h_task_id handoff; a_operation_id := operation_of handoff;
    a_attempt_id := successor_attempt_id handoff; a_identity := current_identity;
    a_revision := PInt 1; a_status := initial_status; a_phase := phase;
    a_next_gate := h_next_gate handoff; a_external_operation_ids := PDict []; a_leases := [];
    a_evidence_refs := map PStr (inherited_evidence_refs handoff); a_completed_effects := inherited;
    a_pending_steps := [];
    a_retry_history := [PStr ("handoff:" +:+ predecessor_attempt_id handoff +:+ "->"
      +:+ successor_attempt_id handoff +:+ ":" +:+ handoff_reason handoff)];
    a_blocked_reason := EmptyString; a_schema := WORKFLOW_CHECKPOINT_SCHEMA;
    a_claim_ceiling := WORKFLOW_CHECKPOINT_CLAIM_CEILING |}.
Definition bind_successor_checkpoint (handoff : HandoffLineage) (current_identity : IdentityBinding)
    (facts : fence_facts) (initial_status phase : string) : prog disk WorkflowCheckpoint :=
  s ← get_state;
  successor ← lift (successor_checkpoint handoff current_identity facts initial_status phase s);
  _ ← write_handoff handoff;
  _ ← write successor None;
  mret successor.

(** ** Read-backs *)
Definition readback (task_id attempt_id : string) (s : disk) : result dict :=
  checkpoint ← read task_id attempt_id s;
  match checkpoint with
  | None => Ok [
      ("schema", PStr WORKFLOW_CHECKPOINT_SCHEMA); ("task_id", PStr task_id);
      ("attempt_id", PStr attempt_id); ("found", PBool false); ("status", PStr EmptyString);
      ("next_gate", PStr EmptyString); ("completed_effect_keys", PList []);
      ("claim_ceiling", PStr WORKFLOW_CHECKPOINT_CLAIM_CEILING)]
  | Some c =>
      h ← checkpoint_hash c;
      Ok [
      ("schema", PStr WORKFLOW_CHECKPOINT_SCHEMA); ("task_id", PStr (WorkflowCheckpoint.task_id c));
      ("attempt_id", PStr (WorkflowCheckpoint.attempt_id c)); ("operation_id", PStr (operation_id c));
      ("found", PBool true); ("revision", PInt (revision c)); ("status", PStr (status c));
      ("phase", PStr (phase c)); ("next_gate", PStr (next_gate c));
      ("identity", PDict (identity_to_dict (identity c)));
      ("external_operation_ids",
       PDict (sort_items (map (λ kv, (kv.1, PStr kv.2)) (external_operation_ids c))));
      ("leases", str_list (leases c));
      ("completed_effect_keys", str_list (map effect_key (completed_effects c)));
      ("pending_steps", str_list (pending_steps c)); ("retry_history", str_list (retry_history c));
      ("checkpoint_hash", PStr h); ("claim_ceiling", PStr WORKFLOW_CHECKPOINT_CLAIM_CEILING)]
  end.

(** [{effect.effect_key: effect for effect in effects}]. *)
Definition effects_by_key (l : list CompletedEffect) : list (string * CompletedEffect) :=
  dict_of (map (λ e, (effect_key e, e)) l).
(** The predecessor's effects the successor lacks or has otherwise. *)
Definition missing_or_changed (predecessor successor : list (string * CompletedEffect)) : list string :=
  keys (List.filter (λ kv, negb (bool_decide (dict_get kv.1 successor = Some kv.2))) predecessor).

(** What the successor's checkpoint makes of a handoff that evaluated SAFE: [None] keeps the
    evaluation, [Some] replaces these members of it. *)
Definition successor_override (immediate : HandoffLineage) (current_identity : IdentityBinding)
    (checkpoint predecessor : option WorkflowCheckpoint) : result (option dict) :=
  let reconcile reason extra :=
    Ok (Some ([("disposition", PStr DISPOSITION_RECONCILE); ("reason", PStr reason)] ++ extra)) in
  match checkpoint with
  | None => reconcile "MISSING_SUCCESSOR_CHECKPOINT" []
  | Some cp =>
      if negb (String.eqb (task_id cp) (h_task_id immediate))
         || negb (String.eqb (attempt_id cp) (successor_attempt_id immediate)) then
        reconcile "SUCCESSOR_IDENTITY_MISMATCH" []
      else if negb (String.eqb (operation_id cp) (operation_of immediate)) then
        reconcile "SUCCESSOR_OPERATION_ID_MISMATCH" []
      else if negb (bool_decide (identity cp = current_identity)) then
        reconcile "SUCCESSOR_SOURCE_IDENTITY_MISMATCH" []
      else match predecessor with
      | None => Ok None
      | Some pred =>
          let predecessor_effects := effects_by_key (completed_effects pred) in
          let successor_effects := effects_by_key (completed_effects cp) in
          match missing_or_changed predecessor_effects successor_effects with
          | (_ :: _) as missing =>
              reconcile "SUCCESSOR_EFFECT_LINEAGE_MISMATCH" [("effect_keys", str_list missing)]
          | [] =>
              if negb (same_keys (completed_effect_keys immediate) (keys predecessor_effects)) then
                reconcile "HANDOFF_EFFECT_KEYS_MISMATCH" []
              else if negb (same_keys (completed_effect_refs immediate)
                         (map (λ kv, receipt_ref kv.2) predecessor_effects)) then
                reconcile "HANDOFF_EFFECT_REFS_MISMATCH" []
              else
                resume ← resume_disposition cp current_identity;
                let resume :=
                  if negb (String.eqb (blocked_reason cp) EmptyString)
                     && is_text (py_get resume "disposition") DISPOSITION_SAFE
                  then dict_merge resume [("disposition", PStr DISPOSITION_RECONCILE);
                                          ("reason", PStr (blocked_reason cp))]
                  else resume in
                if is_text (py_get resume "disposition") DISPOSITION_SAFE then Ok None
                else Ok (Some [
                  ("disposition", py_get resume "disposition");
                  ("reason", PStr ("SUCCESSOR_" +:+ py_str (py_get resume "reason")));
                  ("successor_resume", PDict resume)])
          end
      end
  end.

Definition readback_handoff_lineage (task_id attempt_id : string)
    (current_identity : option IdentityBinding) (facts : fence_facts) (s : disk) : result dict :=
  chain ← reconstruct_lineage_chain task_id attempt_id s;
  immediate ← read_handoff task_id attempt_id s;
  checkpoint ← read task_id attempt_id s;
  eval_result ← match immediate, current_identity with
    | Some h, Some current =>
        pred_cp ← read task_id (predecessor_attempt_id h) s;
        eval_result ← evaluate_handoff_lineage h current pred_cp facts;
        if is_text (py_get eval_result "disposition") DISPOSITION_SAFE then
          override ← successor_override h current checkpoint pred_cp;
          Ok (PDict match override with
            | None => eval_result
            | Some more => dict_merge eval_result more
            end)
        else Ok (PDict eval_result)
    | _, _ => Ok PNone
    end;
  edges ← mapM_result (λ h, PDict <$> handoff_to_dict h) chain;
  immediate_doc ← match immediate with
    | Some h => PDict <$> handoff_to_dict h
    | None => Ok PNone
    end;
  Ok [
    ("schema", PStr HANDOFF_LINEAGE_SCHEMA); ("claim_ceiling", PStr HANDOFF_LINEAGE_CLAIM_CEILING);
    ("task_id", PStr task_id); ("attempt_id", PStr attempt_id);
    ("found", PBool (bool_decide (is_Some immediate)));
    ("chain_length", PInt (Z.of_nat (length chain))); ("chain", PList edges);
    ("immediate_handoff", immediate_doc); ("evaluation", eval_result);
    ("completed_effect_keys", str_list match checkpoint with
      | Some c => map effect_key (completed_effects c)
      | None => []
      end);
    ("next_gate", PStr match checkpoint, immediate with
      | Some c, _ => next_gate c
      | None, Some h => h_next_gate h
      | None, None => EmptyString
      end)].
End store.

(** * Lemmas *)

(** ** Crashes *)
Definition redo (w : list (path * string)) (s : disk) : disk :=
  foldl (λ s pw, replace_file pw.1 pw.2 s) s w.
(** [s'] is what an interrupted run of [m] from [s] leaves: some of its writes, in order. *)
Definition crashed {A} (m : prog disk A) (s s' : disk) : Prop :=
  ∃ done_ lost, (m s).2 = redo (done_ ++ lost) s ∧ s' = redo done_ s.

Lemma redo_app w w' s : redo (w ++ w') s = redo w' (redo w s).
Proof. apply foldl_app. Qed.
Lemma redo_cons p t w s : redo ((p, t) :: w) s = redo w (replace_file p t s).
Proof. reflexivity. Qed.
Lemma redo_log w s : log (redo w s) = log s ++ w.
Proof.
  revert s. induction w as [|[p t] w IH]; intros s; [cbn; by rewrite app_nil_r|].
  rewrite redo_cons, IH. cbn. by rewrite <- app_assoc.
Qed.
Lemma redo_links w s : links (redo w s) = links s.
Proof. revert s. induction w as [|[p t] w IH]; intros s; [done|]. by rewrite redo_cons, IH. Qed.
(** The writes of a run are determined by the disks before and after it. *)
Lemma redo_inj w w' s : redo w s = redo w' s → w = w'.
Proof. intros E%(f_equal log). rewrite !redo_log in E. by apply app_inv_head in E. Qed.
Lemma crashed_iff {A} (m : prog disk A) w s s' :
  (m s).2 = redo w s → crashed m s s' ↔ ∃ done_ lost, w = done_ ++ lost ∧ s' = redo done_ s.
Proof.
  intros Hm. split.
  - intros (d & l & E & ->). rewrite Hm in E. apply redo_inj in E. eauto.
  - intros (d & l & -> & ->). exists d, l. done.
Qed.

(** ** Paths *)
Definition segment (s : string) : bool :=
  stripped_key s && negb (has_char "/" s || has_char "\" s || text_in s ["."; ".."] || has_char "000" s).
Lemma safe_segment_Ok v name s : _safe_segment v name = Ok s ↔ s = strip v ∧ segment s = true.
Proof.
  unfold _safe_segment, segment. split.
  - intros (t & Ht & Hs)%bind_Ok_inv. destruct (_ || _) eqn:E; [done|]. injection Hs as <-.
    rewrite E, andb_true_r. split; [|by eapply req_text_key].
    by apply req_text_Ok in Ht as (? & [= <-] & ? & ?).
  - intros (-> & [Hk Hc]%andb_true_iff). apply negb_true_iff in Hc.
    unfold _text. rewrite (proj2 (req_text_Ok _ _ _ (strip v))).
    + cbn [mbind result_bind]. by rewrite Hc.
    + exists v. split_and!; try done. rewrite <- blank_strip. by apply key_blank.
Qed.
Lemma segment_key s : segment s = true → stripped_key s = true.
Proof. by intros [? _]%andb_true_iff. Qed.
Lemma safe_segment_id s name : segment s = true → _safe_segment s name = Ok s.
Proof.
  intros Hs. apply safe_segment_Ok. split; [|done].
  by apply segment_key, stripped_key_spec in Hs as [-> _].
Qed.

Lemma current_path_Ok t a p :
  _current_path t a = Ok p ↔
  p = [strip t; strip a; "current.json"] ∧ segment (strip t) = true ∧ segment (strip a) = true.
Proof.
  unfold _current_path, _attempt_dir. split.
  - intros (d & (? & [-> ?]%safe_segment_Ok & (? & [-> ?]%safe_segment_Ok & [= <-])%bind_Ok_inv)%bind_Ok_inv & [= <-])%bind_Ok_inv.
    done.
  - intros (-> & Ht & Ha). rewrite (proj2 (safe_segment_Ok t _ _) (conj eq_refl Ht)).
    cbn [mbind result_bind]. by rewrite (proj2 (safe_segment_Ok a _ _) (conj eq_refl Ha)).
Qed.
Lemma handoff_path_Ok t a p :
  _handoff_path t a = Ok p ↔
  p = [strip t; "handoffs"; strip a +:+ ".json"] ∧ segment (strip t) = true ∧ segment (strip a) = true.
Proof.
  unfold _handoff_path, _handoffs_dir. split.
  - intros (d & (? & [-> ?]%safe_segment_Ok & [= <-])%bind_Ok_inv & (? & [-> ?]%safe_segment_Ok & [= <-])%bind_Ok_inv)%bind_Ok_inv.
    done.
  - intros (-> & Ht & Ha). rewrite (proj2 (safe_segment_Ok t _ _) (conj eq_refl Ht)).
    cbn [mbind result_bind]. by rewrite (proj2 (safe_segment_Ok a _ _) (conj eq_refl Ha)).
Qed.
Lemma history_path_Ok t a rev :
  segment (strip t) = true → segment (strip a) = true →
  _history_path t a rev = Ok [strip t; strip a; "history"; padded rev +:+ ".json"].
Proof.
  intros Ht Ha. unfold _history_path, _attempt_dir.
  rewrite (proj2 (safe_segment_Ok t _ _) (conj eq_refl Ht)). cbn [mbind result_bind].
  by rewrite (proj2 (safe_segment_Ok a _ _) (conj eq_refl Ha)).
Qed.
Lemma str_app_inj_r s s' t : s +:+ t = s' +:+ t → s = s'.
Proof.
  revert s'. induction s as [|c s IH]; intros [|c' s'] E; [done| | |].
  - apply (f_equal String.length) in E. rewrite str_app_cons in E. cbn [String.length] in E.
    rewrite !str_app_length in E. cbn [String.length] in E. lia.
  - apply (f_equal String.length) in E. rewrite str_app_cons in E. cbn [String.length] in E.
    rewrite !str_app_length in E. cbn [String.length] in E. lia.
  - rewrite !str_app_cons in E. injection E as -> E. f_equal. by apply IH.
Qed.

(** ** Reading *)
Section reading.
Context `{FloatText} `{Digest}.

Lemma read_at_replaced {A} (load : string → result A) p text s :
  read_at load p (replace_file p text s) = (v ← load text; Ok (Some v)).
Proof. unfold read_at. cbn. by rewrite lookup_insert_eq. Qed.
Lemma read_at_other {A} (load : string → result A) p q text s :
  p ≠ q → read_at load p (replace_file q text s) = read_at load p s.
Proof. intros Hne. unfold read_at. cbn. by rewrite lookup_insert_ne. Qed.
Lemma read_at_file {A} (load : string → result A) p s v :
  read_at load p s = Ok (Some v) → is_Some (files s !! p).
Proof. unfold read_at. destruct (files s !! p); [eauto|done]. Qed.
Lemma read_at_loaded {A} (load : string → result A) p s v :
  read_at load p s = Ok (Some v) → ∃ text, files s !! p = Some text ∧ load text = Ok v.
Proof.
  unfold read_at. destruct (files s !! p) as [t|]; [|done].
  intros (v' & ? & [= ->])%bind_Ok_inv. eauto.
Qed.

Lemma load_checkpoint_readable text c : load_checkpoint text = Ok c → checkpoint_readable c.
Proof. intros (v & _ & Hc)%bind_Ok_inv. by apply checkpoint_from_dict_Ok in Hc as [? _]. Qed.
Lemma read_Ok t a s r :
  read t a s = Ok r →
  ∃ p, _current_path t a = Ok p ∧ read_at load_checkpoint p s = Ok r ∧
    match r with Some c => checkpoint_readable c | None => True end.
Proof.
  unfold read. intros (p & Hp & Hr)%bind_Ok_inv. exists p. split_and!; try done.
  destruct r as [c|]; [|done]. apply read_at_loaded in Hr as (text & _ & Hl).
  by eapply load_checkpoint_readable.
Qed.
Lemma load_handoff_facts text h :
  load_handoff text = Ok h →
  handoff_wf h ∧ identity_readable (source_identity h) ∧
  Forall (λ s, stripped_key s = true)
    [h_task_id h; predecessor_attempt_id h; successor_attempt_id h; predecessor_operation_id h;
     predecessor_checkpoint_hash h; handoff_reason h; terminal_state h; fence_evidence_ref h] ∧
  is_ok (lineage_hash h) = true.
Proof.
  intros (v & _ & Hh)%bind_Ok_inv.
  apply handoff_from_dict_Ok in Hh as (? & ? & ? & d & g & _ & Hg & _). by rewrite Hg.
Qed.
Lemma read_handoff_Ok t a s h :
  read_handoff t a s = Ok (Some h) →
  ∃ p, _handoff_path t a = Ok p ∧ is_Some (files s !! p) ∧
    stripped_key (successor_attempt_id h) = true ∧ stripped_key (predecessor_attempt_id h) = true.
Proof.
  unfold read_handoff. intros (p & Hp & Hr)%bind_Ok_inv. exists p.
  apply read_at_loaded in Hr as (text & Hf & (_ & _ & Hk & _)%load_handoff_facts).
  repeat (apply Forall_cons in Hk as [? Hk]). split_and!; try done; by rewrite Hf.
Qed.
End reading.

(** ** Ancestry *)
Section ancestry.
Context `{FloatText} `{Digest}.

(** The edges from a first attempt, which no handoff leads to, to [attempt], oldest first:
    each is the stored handoff of its successor, and names the task. *)
Inductive lineage_path (t : string) (s : disk) : string → list HandoffLineage → Prop :=
| path_root a : read_handoff t a s = Ok None → lineage_path t s a []
| path_edge h chain :
    read_handoff t (successor_attempt_id h) s = Ok (Some h) → h_task_id h = t →
    lineage_path t s (predecessor_attempt_id h) chain →
    lineage_path t s (successor_attempt_id h) (chain ++ [h]).
Definition predecessors (chain : list HandoffLineage) : list string := map predecessor_attempt_id chain.

Lemma lineage_path_inv t s a chain :
  lineage_path t s a chain →
  (chain = [] ∧ read_handoff t a s = Ok None) ∨
  ∃ h rest, chain = rest ++ [h] ∧ a = successor_attempt_id h ∧ read_handoff t a s = Ok (Some h) ∧
    h_task_id h = t ∧ lineage_path t s (predecessor_attempt_id h) rest.
Proof. intros [a' Hr|h rest Hr Ht Hp]; [by left|right]. exists h, rest. done. Qed.
Lemma lineage_path_functional t s a chain chain' :
  lineage_path t s a chain → lineage_path t s a chain' → chain = chain'.
Proof.
  intros Hp. revert chain'.
  induction Hp as [a Hr|h rest Hr Ht Hp IH]; intros chain' Hp'; apply lineage_path_inv in Hp';
    destruct Hp' as [[-> Hr']|(h' & rest' & -> & E & Hr' & _ & Hp')].
  - done.
  - congruence.
  - congruence.
  - rewrite Hr in Hr'. injection Hr' as ->. by rewrite (IH _ Hp').
Qed.
Lemma lineage_path_shorter t s a chain x :
  lineage_path t s a chain → x ∈ predecessors chain →
  ∃ chain', lineage_path t s x chain' ∧ length chain' < length chain.
Proof.
  intros Hp. revert x. induction Hp as [a Hr|h rest Hr Ht Hp IH]; intros x; [by intros []%elem_of_nil|].
  unfold predecessors. rewrite map_app, length_app. cbn [map length].
  intros [Hx|[->|[]%elem_of_nil]%elem_of_cons]%elem_of_app.
  - destruct (IH x Hx) as (chain' & ? & ?). exists chain'. split; [done|lia].
  - exists rest. split; [done|lia].
Qed.
Lemma lineage_path_NoDup t s a chain : lineage_path t s a chain → NoDup (a :: predecessors chain).
Proof.
  induction 1 as [a Hr|h rest Hr Ht Hp IH]; [apply NoDup_singleton|].
  assert (lineage_path t s (successor_attempt_id h) (rest ++ [h])) as Hp' by by apply path_edge.
  apply NoDup_cons. split.
  - intros Hx. destruct (lineage_path_shorter _ _ _ _ _ Hp' Hx) as (chain' & Hc & Hl).
    rewrite (lineage_path_functional _ _ _ _ _ Hc Hp') in Hl. lia.
  - unfold predecessors in *. rewrite map_app. cbn [map].
    by rewrite <- Permutation_cons_append.
Qed.

Lemma chain_loop_Ok fuel t current visited acc s r :
  chain_loop fuel t current visited acc s = Some (Ok r) →
  ∃ chain, lineage_path t s current chain ∧ r = chain ++ reverse acc.
Proof.
  revert current visited acc. induction fuel as [|fuel IH]; intros current visited acc; [done|].
  cbn [chain_loop]. destruct (text_in current visited); [done|].
  destruct (read_handoff t current s) as [[h|]|] eqn:Hr; [| |done].
  - destruct (String.eqb_spec (h_task_id h) t) as [Ht|]; [|done].
    destruct (String.eqb_spec (successor_attempt_id h) current) as [<-|]; [|done]. cbn [negb].
    destruct (String.eqb _ _); [done|].
    intros (chain & Hp & ->)%IH. exists (chain ++ [h]). split; [by apply path_edge|].
    by rewrite reverse_app, app_assoc.
  - intros [= <-]. exists []. split; [by apply path_root|done].
Qed.
Lemma chain_loop_path fuel t current visited acc s chain :
  lineage_path t s current chain → (∀ x, x ∈ current :: predecessors chain → x ∉ visited) →
  length chain < fuel →
  chain_loop fuel t current visited acc s = Some (Ok (chain ++ reverse acc)).
Proof.
  intros Hp. revert fuel visited acc.
  induction Hp as [a Hr|h rest Hr Ht Hp IH]; intros [|fuel] visited acc Hv Hf; try (cbn in Hf; lia);
    cbn [chain_loop]; rewrite (proj2 (text_in_false _ visited)) by (apply Hv; left); rewrite Hr; [done|].
  rewrite Ht, !String.eqb_refl. cbn [negb].
  assert (lineage_path t s (successor_attempt_id h) (rest ++ [h])) as Hp' by by apply path_edge.
  pose proof (lineage_path_NoDup _ _ _ _ Hp') as Hn. unfold predecessors in Hn, Hv.
  rewrite map_app in Hn, Hv. cbn [map] in Hn, Hv.
  destruct (String.eqb_spec (predecessor_attempt_id h) (successor_attempt_id h)) as [E|_].
  - apply NoDup_cons in Hn as [[] _]. rewrite <- E. apply elem_of_app. right. left.
  - rewrite IH.
    + by rewrite reverse_app, <- app_assoc.
    + assert (predecessor_attempt_id h :: map predecessor_attempt_id rest ≡ₚ
              map predecessor_attempt_id rest ++ [predecessor_attempt_id h]) as Ep
        by apply Permutation_cons_append.
      intros x Hx. unfold predecessors in Hx. rewrite Ep in Hx.
      intros [->|Hxv]%elem_of_cons; [by apply NoDup_cons in Hn as [Hn _]|].
      revert Hxv. apply Hv. by right.
    + rewrite length_app in Hf. cbn in Hf. lia.
Qed.

(** A visited attempt has a handoff of its own, so the loop ends. *)
Lemma keyed_files (l : list path) (m : gmap path string) :
  NoDup l → Forall (λ p, is_Some (m !! p)) l → length l ≤ size m.
Proof.
  intros Hn Hl. rewrite <- size_dom, <- (size_list_to_set (C := gset path) l) by done.
  apply subseteq_size. intros p Hp%elem_of_list_to_set. apply elem_of_dom.
  by apply (proj1 (Forall_forall _ _) Hl).
Qed.
Definition edge_file (t a : string) : path := [strip t; "handoffs"; a +:+ ".json"].
Lemma chain_loop_total fuel t current visited acc s :
  NoDup visited → Forall (λ a, is_Some (files s !! edge_file t a)) visited →
  size (files s) < fuel + length visited →
  chain_loop fuel t current visited acc s ≠ None.
Proof.
  revert current visited acc. induction fuel as [|fuel IH]; intros current visited acc Hn Hv Hf.
  - assert (length (map (edge_file t) visited) ≤ size (files s)) as Hl; [|rewrite length_map in Hl; lia].
    apply keyed_files; [|by rewrite Forall_map].
    apply NoDup_fmap_2; [|done]. intros a b [= E]. by apply str_app_inj_r in E.
  - cbn [chain_loop]. destruct (text_in current visited) eqn:Hin; [done|].
    destruct (read_handoff t current s) as [[h|]|] eqn:Hr; [|done..].
    destruct (negb _); [done|].
    destruct (String.eqb_spec (successor_attempt_id h) current) as [Hs|]; [|done]. cbn [negb].
    destruct (String.eqb _ _); [done|]. apply IH.
    + apply NoDup_cons. split; [by apply text_in_false|done].
    + constructor; [|done]. apply read_handoff_Ok in Hr as (p & Hp & Hfile & Hk & _).
      apply handoff_path_Ok in Hp as (-> & _). rewrite Hs in Hk.
      by apply stripped_key_spec in Hk as [<- _].
    + cbn. lia.
Qed.
Lemma chain_loop_err fuel t current visited acc s e :
  chain_loop fuel t current visited acc s = Some (Err e) →
  exn_type e = HandoffLineageError ∨ ∃ a, read_handoff t a s = Err e.
Proof.
  revert current visited acc. induction fuel as [|fuel IH]; intros current visited acc; [done|].
  cbn [chain_loop]. destruct (text_in current visited); [intros [= <-]; by left|].
  destruct (read_handoff t current s) as [[h|]|] eqn:Hr; [|done|intros [= <-]; right; eauto].
  destruct (negb _); [intros [= <-]; by left|]. destruct (negb _); [intros [= <-]; by left|].
  destruct (String.eqb _ _); [intros [= <-]; by left|]. apply IH.
Qed.
(** More fuel does not change an answer. *)
Lemma chain_loop_more fuel more t current visited acc s r :
  fuel ≤ more → chain_loop fuel t current visited acc s = Some r →
  chain_loop more t current visited acc s = Some r.
Proof.
  revert more current visited acc.
  induction fuel as [|fuel IH]; intros [|more] current visited acc Hle; try (done || lia).
  cbn [chain_loop]. destruct (text_in current visited); [done|].
  destruct (read_handoff t current s) as [[h|]|]; [|done..].
  destruct (negb _); [done|]. destruct (negb _); [done|]. destruct (String.eqb _ _); [done|].
  apply IH. lia.
Qed.
Lemma chain_fuel_enough t a s : chain_loop (chain_fuel s) t a [] [] s ≠ None.
Proof. apply chain_loop_total; [constructor|constructor|unfold chain_fuel; cbn; lia]. Qed.
Lemma reconstruct_iff t a s chain :
  reconstruct_lineage_chain t a s = Ok chain ↔ lineage_path t s a chain.
Proof.
  unfold reconstruct_lineage_chain. pose proof (chain_fuel_enough t a s) as Hf.
  destruct (chain_loop (chain_fuel s) t a [] [] s) as [r|] eqn:Hr; [|done]. cbn [default from_option id].
  split.
  - intros ->. apply chain_loop_Ok in Hr as (chain' & Hp & ->). by rewrite app_nil_r.
  - intros Hp. pose proof (chain_loop_path (S (length chain)) t a [] [] s chain Hp) as Hc.
    rewrite app_nil_r in Hc.
    destruct (Nat.le_ge_cases (chain_fuel s) (S (length chain))) as [Hle|Hge].
    + apply (chain_loop_more _ _ _ _ _ _ _ _ Hle) in Hr. rewrite Hc in Hr; [by injection Hr as <-| |lia].
      intros x _ []%elem_of_nil.
    + rewrite (chain_loop_more _ _ _ _ _ _ _ _ Hge (Hc ltac:(intros x _ []%elem_of_nil) ltac:(lia))) in Hr.
      by injection Hr as <-.
Qed.
End ancestry.

(** ** Writing *)
Definition locked_ok (t a : string) (s : disk) : Prop :=
  ¬ ([strip t; strip a] ∈ links s) ∧ ¬ ([strip t] ∈ links s).
(** The same checkpoint with other effects and another revision. *)
Definition with_effects (c : WorkflowCheckpoint) (rev : Z) (effects : list CompletedEffect) : WorkflowCheckpoint :=
  {| task_id := task_id c; operation_id := operation_id c; attempt_id := attempt_id c;
     identity := identity c; revision := rev; status := status c; phase := phase c;
     next_gate := next_gate c; external_operation_ids := external_operation_ids c;
     leases := leases c; evidence_refs := evidence_refs c; completed_effects := effects;
     pending_steps := pending_steps c; retry_history := retry_history c;
     blocked_reason := blocked_reason c; schema := schema c; claim_ceiling := claim_ceiling c |}.
Lemma with_effects_id c : with_effects c (revision c) (completed_effects c) = c.
Proof. by destruct c. Qed.
Lemma canon_canon c : NoDup (keys (external_operation_ids c)) → canon (canon c) = canon c.
Proof.
  intros Hn. unfold canon, with_external. cbn. f_equal.
  apply sort_items_id; [by rewrite keys_sort_items|apply sort_items_sorted].
Qed.

(** One pass over the control of a stateful program. *)
Section writing.
Context `{FloatText} `{Digest}.

Lemma locked_run t a s :
  segment (strip t) = true → segment (strip a) = true →
  (locked_ok t a s ∧ _locked t a s = (Ok (), s)) ∨
  (¬ locked_ok t a s ∧ ∃ err, exn_type err = CheckpointError ∧ _locked t a s = (Err err, s)).
Proof.
  intros Ht Ha. unfold _locked, _attempt_dir.
  rewrite (proj2 (safe_segment_Ok t _ _) (conj eq_refl Ht)). cbn [mbind result_bind].
  rewrite (proj2 (safe_segment_Ok a _ _) (conj eq_refl Ha)).
  cbn [mbind result_bind]. run_prog. cbn [removelast]. unfold locked_ok.
  destruct (bool_decide_reflect ([strip t; strip a] ∈ links s)) as [|H1]; cbn [orb].
  - right. split; [tauto|]. eexists. split; [|reflexivity]. reflexivity.
  - destruct (bool_decide_reflect ([strip t] ∈ links s)) as [|H2].
    + right. split; [tauto|]. eexists. split; [|reflexivity]. reflexivity.
    + by left.
Qed.
(** The tail of every operation that saves a checkpoint. *)
Lemma save_run p q c s :
  checkpoint_wf c →
  ∃ text, (d ← checkpoint_to_dict c; durable_text d) = Ok text ∧
    ((payload ← lift (checkpoint_to_dict c); _ ← _atomic_write p payload; h ← lift (Ok q);
     _ ← _atomic_write h payload; mret c) : prog disk WorkflowCheckpoint) s =
    (Ok c, redo [(p, text); (q, text)] s).
Proof.
  intros Hwf. destruct (durable_checkpoint c Hwf) as [text Ht]. exists text. split; [done|].
  apply bind_Ok_inv in Ht as (d & Hd & Ht). rewrite Hd. unfold _atomic_write.
  run_prog. rewrite Ht. reflexivity.
Qed.

Lemma read_saved t a s text c done_ q :
  segment (strip t) = true → segment (strip a) = true → checkpoint_readable c →
  (d ← checkpoint_to_dict c; durable_text d) = Ok text →
  q = [strip t; strip a; "history"; padded (revision c) +:+ ".json"] →
  (∃ lost, done_ ++ lost = [([strip t; strip a; "current.json"], text); (q, text)]) → done_ ≠ [] →
  read t a (redo done_ s) = Ok (Some (canon c)).
Proof.
  intros Ht Ha Hc Hd -> [lost Hl] Hne. unfold read.
  rewrite (proj2 (current_path_Ok t a _) (conj eq_refl (conj Ht Ha))). cbn [mbind result_bind].
  pose proof (load_durable c text Hc Hd) as Hload.
  destruct done_ as [|x [|y [|z done_]]]; [done|..]; cbn [app] in Hl.
  - injection Hl as -> _. rewrite redo_cons. unfold redo. cbn [foldl]. rewrite read_at_replaced, Hload. done.
  - injection Hl as -> -> _. rewrite !redo_cons. unfold redo. cbn [foldl].
    rewrite read_at_other, read_at_replaced, Hload by done. done.
  - done.
Qed.

Lemma record_effect_run t a e n s c :
  read t a s = Ok (Some c) → effect_readable e →
  segment (strip t) = true ∧ segment (strip a) = true ∧
  ((∃ err, record_effect t a e n s = (Err err, s)) ∨
   (revision c = n ∧ locked_ok t a s ∧
    if has_effect (effect_key e) c then record_effect t a e n s = (Ok c, s)
    else ∃ c' text, with_effect c e = Ok c' ∧ checkpoint_readable c' ∧
      (d ← checkpoint_to_dict c'; durable_text d) = Ok text ∧
      record_effect t a e n s = (Ok c',
        redo [([strip t; strip a; "current.json"], text);
              ([strip t; strip a; "history"; padded (revision c') +:+ ".json"], text)] s))).
Proof.
  intros (p & Hp & Hr & Hc)%read_Ok He. pose proof Hp as Hp'.
  apply current_path_Ok in Hp' as (-> & Ht & Ha). split_and!; [done..|].
  unfold record_effect. run_prog.
  destruct (locked_run t a s Ht Ha) as [[Hl ->]|(_ & err & _ & ->)]; [|left; eauto].
  rewrite Hp. run_prog. rewrite Hr.
  destruct (Z.eqb_spec (revision c) n) as [->|]; [|left; cbn [raise_if negb]; unfold raise; eauto].
  cbn [negb raise_if]. destruct (has_effect (effect_key e) c) eqn:Eh; [right; done|].
  right. split; [done|]. split; [done|].
  destruct (with_effect c e) as [c'|] eqn:Ew.
  2: { pose proof Hc as (Hwf & Hcl & _). rewrite with_effect_spec in Ew by done. done. }
  pose proof (with_effect_readable _ _ _ Hc He Ew) as Hc'. pose proof Hc' as (Hwf' & _).
  destruct (save_run [strip t; strip a; "current.json"]
    [strip t; strip a; "history"; padded (revision c') +:+ ".json"] c' s Hwf') as (text & Htext & Hrun).
  exists c', text. split_and!; try done. rewrite <- Hrun. rewrite history_path_Ok by done. reflexivity.
Qed.

(** Any number of sessions recording effects of one attempt, one after the other, each call
    with its own view of the revision, any of them interrupted: [issued] are the effects of
    the calls, [acked] those of the calls that returned. *)
Inductive recording (t a : string) : disk → list CompletedEffect → list CompletedEffect → disk → Prop :=
| recording_end s : recording t a s [] [] s
| recording_call s e n r s1 issued acked s' :
    effect_readable e → record_effect t a e n s = (r, s1) →
    recording t a s1 issued acked s' →
    recording t a s (e :: issued) (match r with Ok _ => e :: acked | Err _ => acked end) s'
| recording_crash s e n s1 issued acked s' :
    effect_readable e → crashed (record_effect t a e n) s s1 →
    recording t a s1 issued acked s' → recording t a s (e :: issued) acked s'.

(** What one call, whole or interrupted, makes of the persisted checkpoint. *)
Definition recorded (e : CompletedEffect) (c c' : WorkflowCheckpoint) : Prop :=
  (c' = c ∨ (has_effect (effect_key e) c = false ∧
             canon c' = with_effects (canon c) (revision c + 1) (sort_by effect_key (completed_effects c ++ [e])))).
Lemma with_effect_recorded c e c' :
  checkpoint_readable c → has_effect (effect_key e) c = false → with_effect c e = Ok c' →
  recorded e c (canon c').
Proof.
  intros (Hwf & Hcl & _) Hno. rewrite with_effect_spec, Hno by done. intros [= <-]. right. split; [done|].
  pose proof Hwf as (_&_&_&_&_&_&Hn&_). by rewrite canon_canon.
Qed.
Lemma record_effect_step t a e n s c r s1 :
  read t a s = Ok (Some c) → effect_readable e → record_effect t a e n s = (r, s1) →
  ∃ c', read t a s1 = Ok (Some c') ∧ recorded e c c' ∧
    (is_ok r = true → has_effect (effect_key e) c' = true).
Proof.
  intros Hr He Hrun. destruct (record_effect_run t a e n s c Hr He) as (Ht & Ha & [[err Hx]|(_ & _ & Hx)]).
  - rewrite Hx in Hrun. apply pair_equal_spec in Hrun as [<- <-]. exists c. split_and!; try done. by left.
  - destruct (has_effect (effect_key e) c) eqn:Eh.
    + rewrite Hx in Hrun. apply pair_equal_spec in Hrun as [<- <-]. exists c. split_and!; try done. by left.
    + destruct Hx as (c' & text & Hw & Hc' & Htext & Hx). rewrite Hx in Hrun. apply pair_equal_spec in Hrun as [<- <-].
      apply read_Ok in Hr as (p & _ & _ & Hc).
      exists (canon c'). split; [by eapply read_saved; try done; exists []|].
      split; [by apply with_effect_recorded|]. intros _.
      rewrite with_effect_spec, Eh in Hw by apply Hc. injection Hw as <-.
      apply has_effect_spec. cbn. rewrite sort_by_perm, map_app. apply elem_of_app. right. left.
Qed.
Lemma record_effect_crash t a e n s c s1 :
  read t a s = Ok (Some c) → effect_readable e → crashed (record_effect t a e n) s s1 →
  ∃ c', read t a s1 = Ok (Some c') ∧ recorded e c c'.
Proof.
  intros Hr He Hcr. destruct (record_effect_run t a e n s c Hr He) as (Ht & Ha & [[err Hx]|(_ & _ & Hx)]).
  - assert (s1 = s) as ->; [|exists c; split; [done|by left]].
    rewrite (crashed_iff _ []) in Hcr by by rewrite Hx. destruct Hcr as ([|] & ? & ? & ->); done.
  - destruct (has_effect (effect_key e) c) eqn:Eh.
    + assert (s1 = s) as ->; [|exists c; split; [done|by left]].
      rewrite (crashed_iff _ []) in Hcr by by rewrite Hx. destruct Hcr as ([|] & ? & ? & ->); done.
    + destruct Hx as (c' & text & Hw & Hc' & Htext & Hx).
      rewrite crashed_iff in Hcr by by rewrite Hx. destruct Hcr as (done_ & lost & Hl & ->).
      pose proof Hr as (p & _ & _ & Hc)%read_Ok.
      destruct (decide (done_ = [])) as [->|Hne]; [exists c; split; [done|by left]|].
      exists (canon c'). split; [|by apply with_effect_recorded].
      eapply read_saved; try done. by exists lost.
Qed.
End writing.

(** ** What recording effects makes of a checkpoint *)
Definition grown (issued acked : list CompletedEffect) (c c' : WorkflowCheckpoint) : Prop :=
  canon c' = with_effects (canon c) (revision c') (completed_effects c') ∧
  (∀ e, e ∈ completed_effects c → e ∈ completed_effects c') ∧
  (∀ e, e ∈ completed_effects c' → e ∈ completed_effects c ∨ e ∈ issued) ∧
  (revision c' - revision c = Z.of_nat (length (completed_effects c')) - Z.of_nat (length (completed_effects c)))%Z ∧
  Forall (λ e, has_effect (effect_key e) c' = true) acked.

Lemma grown_refl c : grown [] [] c c.
Proof. split_and!; [done|done|by left|lia|constructor]. Qed.
Lemma grown_keeps issued acked c c' k : grown issued acked c c' → has_effect k c = true → has_effect k c' = true.
Proof.
  intros (_ & Hkeep & _) [e [-> He]]%has_effect_spec%list_elem_of_fmap.
  apply has_effect_spec, list_elem_of_fmap. exists e. split; [done|]. by apply Hkeep.
Qed.
Lemma grown_step e issued acked c c1 c' :
  recorded e c c1 → grown issued acked c1 c' → grown (e :: issued) acked c c'.
Proof.
  intros Hr (Hc & Hk & Hi & Hn & Ha).
  assert (completed_effects c1 ≡ₚ completed_effects c ∨ completed_effects c1 ≡ₚ completed_effects c ++ [e]) as Hp.
  { destruct Hr as [->|[_ E]]; [by left|right]. apply (f_equal completed_effects) in E. cbn in E.
    rewrite E. apply sort_by_perm. }
  assert (canon c1 = with_effects (canon c) (revision c1) (completed_effects c1) ∧
          (revision c1 - revision c = Z.of_nat (length (completed_effects c1))
            - Z.of_nat (length (completed_effects c)))%Z) as [Hc1 Hn1].
  { destruct Hr as [->|[_ E]]; [split; [done|lia]|].
    pose proof (f_equal completed_effects E) as Ee. pose proof (f_equal revision E) as Er. cbn in Ee, Er.
    split; [by rewrite E, Ee, Er|]. rewrite Ee, Er.
    rewrite (Permutation_length (sort_by_perm effect_key (completed_effects c ++ [e]))), length_app.
    cbn. lia. }
  split_and!.
  - rewrite Hc, Hc1. done.
  - intros x Hx. apply Hk. destruct Hp as [-> | ->]; [done|]. apply elem_of_app. by left.
  - intros x [Hx|Hx]%Hi; [|by right; right]. destruct Hp as [Hp|Hp]; rewrite Hp in Hx; [by left|].
    apply elem_of_app in Hx as [?|[->|[]%elem_of_nil]%elem_of_cons]; [by left|right; left].
  - lia.
  - done.
Qed.

Section recording_lemmas.
Context `{FloatText} `{Digest}.
Lemma recording_grown t a s issued acked s' c :
  recording t a s issued acked s' → read t a s = Ok (Some c) →
  ∃ c', read t a s' = Ok (Some c') ∧ grown issued acked c c'.
Proof.
  intros Hrec. revert c.
  induction Hrec as [s|s e n r s1 issued acked s' He Hrun _ IH|s e n s1 issued acked s' He Hcr _ IH];
    intros c Hr.
  - exists c. split; [done|apply grown_refl].
  - destruct (record_effect_step _ _ _ _ _ _ _ _ Hr He Hrun) as (c1 & Hr1 & Hst & Hack).
    destruct (IH c1 Hr1) as (c' & Hr' & Hg). exists c'. split; [done|].
    destruct (grown_step _ _ _ _ _ _ Hst Hg) as (? & ? & ? & ? & ?). split_and!; try done.
    destruct r; [|done]. constructor; [|done]. by eapply grown_keeps, Hack.
  - destruct (record_effect_crash _ _ _ _ _ _ _ Hr He Hcr) as (c1 & Hr1 & Hst).
    destruct (IH c1 Hr1) as (c' & Hr' & Hg). exists c'. split; [done|]. by eapply grown_step.
Qed.
End recording_lemmas.

(** ** What a read-back calls safe *)
Definition matches_actual (declared actual : list string) : Prop :=
  declared = [] ∨ ∀ x, x ∈ declared ↔ x ∈ actual.
Lemma same_keys_spec declared actual : same_keys declared actual = true ↔ matches_actual declared actual.
Proof.
  unfold same_keys, matches_actual. destruct declared as [|x l].
  - split; [by left|done].
  - rewrite same_set_spec. split; [by right|by intros [|]].
Qed.
Lemma effects_by_key_id l : NoDup (map effect_key l) → effects_by_key l = map (λ e, (effect_key e, e)) l.
Proof. intros Hn. apply dict_of_id. unfold keys. by rewrite map_map. Qed.
Lemma effects_by_key_get l e :
  NoDup (map effect_key l) → dict_get (effect_key e) (effects_by_key l) = Some e ↔ e ∈ l.
Proof.
  intros Hn. rewrite effects_by_key_id by done. split.
  - intros Hg%dict_get_In%list_elem_of_fmap. destruct Hg as (e' & [= _ <-] & He). done.
  - intros He. apply dict_get_NoDup; [unfold keys; by rewrite map_map|].
    apply list_elem_of_fmap. by exists e.
Qed.
Lemma missing_nil l k :
  NoDup (map effect_key l) → NoDup (map effect_key k) →
  missing_or_changed (effects_by_key l) (effects_by_key k) = [] ↔ ∀ e, e ∈ l → e ∈ k.
Proof.
  intros Hl Hk. rewrite (effects_by_key_id l) by done. unfold missing_or_changed. clear Hl.
  induction l as [|e l IH]; [split; [by intros _ e []%elem_of_nil|done]|]. cbn [map List.filter fst snd].
  destruct (bool_decide_reflect (dict_get (effect_key e) (effects_by_key k) = Some e)) as [Hg|Hg];
    rewrite effects_by_key_get in Hg by done; cbn [negb].
  - rewrite IH. split; [|intros Hx x Hx'; apply Hx; by right].
    intros Hx x [->|Hx']%elem_of_cons; [done|by apply Hx].
  - split; [done|]. intros Hx. destruct Hg. apply Hx. left.
Qed.

(** The successor's checkpoint continues the predecessor's under the handoff. *)
Definition successor_ready `{FloatText} (h : HandoffLineage) (current : IdentityBinding)
    (cp pred : WorkflowCheckpoint) : Prop :=
  (task_id cp = h_task_id h ∧ attempt_id cp = successor_attempt_id h ∧
   operation_id cp = operation_of h ∧ identity cp = current) ∧
  ((∀ e, e ∈ completed_effects pred → e ∈ completed_effects cp) ∧
   matches_actual (completed_effect_keys h) (map effect_key (completed_effects pred)) ∧
   matches_actual (completed_effect_refs h) (map receipt_ref (completed_effects pred))) ∧
  (status cp = STATUS_RUNNING ∧ blocked_reason cp = EmptyString).

Ltac overridden :=
  eexists; split; [reflexivity|]; split; [|eexists; split; [reflexivity|discriminate]];
  intros ((? & ? & ? & ?) & (Hkeep & Hkeys & Hrefs) & (Hrun & Hblock)).

Section readback_lemmas.
Context `{FloatText} `{Digest}.

(** Either the successor is ready and the evaluation stands, or its disposition is
    replaced by another one. *)
Lemma override_cases h current cp pred :
  checkpoint_wf cp → checkpoint_wf pred →
  ∃ o, successor_override h current (Some cp) (Some pred) = Ok o ∧
    match o with
    | None => successor_ready h current cp pred
    | Some more => ¬ successor_ready h current cp pred ∧
        ∃ v, dict_get "disposition" (dict_of more) = Some v ∧ v ≠ PStr DISPOSITION_SAFE
    end.
Proof.
  intros Hwf Hwf'. pose proof Hwf as (_&_&_&_&_&_&_&_&_&_&_&Hn&_). pose proof Hwf' as (_&_&_&_&_&_&_&_&_&_&_&Hn'&_).
  unfold successor_override. cbv zeta.
  destruct (String.eqb_spec (task_id cp) (h_task_id h)); cbn [negb orb]; [|overridden; done].
  destruct (String.eqb_spec (attempt_id cp) (successor_attempt_id h)); cbn [negb]; [|overridden; done].
  destruct (String.eqb_spec (operation_id cp) (operation_of h)); cbn [negb]; [|overridden; done].
  destruct (bool_decide_reflect (identity cp = current)) as [Hid|]; cbn [negb]; [|overridden; done].
  pose proof (missing_nil _ _ Hn' Hn) as Hm.
  destruct (missing_or_changed _ _) as [|x l] eqn:Em; [|overridden; by apply Hm in Hkeep].
  assert (keys (effects_by_key (completed_effects pred)) = map effect_key (completed_effects pred)) as ->
    by (rewrite effects_by_key_id by done; unfold keys; by rewrite map_map).
  assert (map (λ kv, receipt_ref kv.2) (effects_by_key (completed_effects pred)) =
          map receipt_ref (completed_effects pred)) as ->
    by (rewrite effects_by_key_id by done; by rewrite map_map).
  destruct (same_keys (completed_effect_keys h) _) eqn:Ek; cbn [negb].
  2: { overridden. apply same_keys_spec in Hkeys. congruence. }
  destruct (same_keys (completed_effect_refs h) _) eqn:Er; cbn [negb].
  2: { overridden. apply same_keys_spec in Hrefs. congruence. }
  destruct (resume_table cp current Hwf) as (r & -> & _ & _ & Hsafe & _). cbn [mbind result_bind].
  destruct (is_text (py_get r "disposition") DISPOSITION_SAFE) eqn:Ed.
  - apply is_text_spec in Ed. destruct (proj1 Hsafe Ed) as [_ Hst].
    destruct (String.eqb_spec (blocked_reason cp) EmptyString) as [Hb|Hb]; cbn [negb andb].
    + rewrite (proj2 (is_text_spec _ _) Ed). eexists. split; [reflexivity|].
      split_and!; try done; [by apply Hm|by apply same_keys_spec|by apply same_keys_spec].
    + assert (py_get (dict_merge r [("disposition", PStr DISPOSITION_RECONCILE);
                                    ("reason", PStr (blocked_reason cp))]) "disposition"
              = PStr DISPOSITION_RECONCILE) as -> by (unfold py_get; by rewrite dict_get_merge).
      change (is_text (PStr DISPOSITION_RECONCILE) DISPOSITION_SAFE) with false.
      overridden. done.
  - rewrite andb_false_r, Ed. eexists. split; [reflexivity|]. split.
    + intros (_ & _ & Hrun & _).
      assert (py_get r "disposition" = PStr DISPOSITION_SAFE) as E; [|apply is_text_spec in E; rewrite E in Ed; discriminate Ed].
      apply Hsafe. split; [|done]. unfold same_runtime. by rewrite Hid.
    + eexists. split; [reflexivity|]. intros E. cbn [snd] in E. apply is_text_spec in E. rewrite E in Ed. discriminate Ed.
Qed.
End readback_lemmas.

Definition evaluation_safe (r : dict) : Prop :=
  ∃ ev, py_get r "evaluation" = PDict ev ∧ py_get ev "disposition" = PStr DISPOSITION_SAFE.

Definition evaluated_safe (r : dict) : bool :=
  match py_get r "evaluation" with PDict ev => is_text (py_get ev "disposition") DISPOSITION_SAFE | _ => false end.
Lemma evaluated_safe_spec r : evaluated_safe r = true → evaluation_safe r.
Proof.
  unfold evaluated_safe, evaluation_safe. destruct (py_get r "evaluation") as [| | | | | | |ev|]; try done.
  intros Hd%is_text_spec. by exists ev.
Qed.

Section readback_run.
Context `{FloatText} `{Digest}.

Lemma read_handoff_hash t a s h : read_handoff t a s = Ok (Some h) → ∃ digest, lineage_hash h = Ok digest.
Proof.
  intros (p & _ & (text & _ & Hl)%read_at_loaded)%bind_Ok_inv.
  apply load_handoff_facts in Hl as (_ & _ & _ & Hh). destruct (lineage_hash h); [eauto|done].
Qed.
Lemma chain_documents t s a chain :
  lineage_path t s a chain → ∃ docs, mapM_result (λ h, PDict <$> handoff_to_dict h) chain = Ok docs.
Proof.
  assert (∀ h t a, read_handoff t a s = Ok (Some h) → ∃ d, PDict <$> handoff_to_dict h = Ok d) as Hone.
  { intros h t' a' [g Hg]%read_handoff_hash. unfold handoff_to_dict. rewrite Hg. by eexists. }
  induction 1 as [a Hr|h rest Hr Ht Hp [docs IH]]; [by eexists|].
  destruct (Hone _ _ _ Hr) as [d Hd]. exists (docs ++ [d]).
  apply mapM_result_Forall2, Forall2_app; [by apply mapM_result_Ok_inv|]. by repeat constructor.
Qed.
Lemma read_wf t a s c : read t a s = Ok (Some c) → checkpoint_wf c.
Proof. by intros (_ & _ & _ & [? _])%read_Ok. Qed.

(** The evaluation, when there is a handoff and its files load. *)
Lemma evaluated t h current facts s cp pred :
  is_Some (match lineage_hash h with Ok g => Some g | Err _ => None end) →
  read t (successor_attempt_id h) s = Ok cp → read t (predecessor_attempt_id h) s = Ok pred →
  ∃ r, evaluate_handoff_lineage h current pred facts = Ok r ∧
    ((py_get r "disposition" = PStr DISPOSITION_SAFE ∧ ∃ p, pred = Some p ∧ lineage_safe h current p facts ∧
        ∃ o, successor_override h current cp pred = Ok o ∧
        match o with
        | None => ∃ c, cp = Some c ∧ successor_ready h current c p
        | Some more => (∀ c, cp = Some c → ¬ successor_ready h current c p) ∧
            ∃ v, dict_get "disposition" (dict_of more) = Some v ∧ v ≠ PStr DISPOSITION_SAFE
        end) ∨
     (py_get r "disposition" ≠ PStr DISPOSITION_SAFE ∧
      ∀ p, pred = Some p → ¬ lineage_safe h current p facts)).
Proof.
  intros [g Hg] Hcp Hpred. destruct (lineage_hash h) as [g'|] eqn:Eh; [|done].
  destruct (evaluate_cases h current pred facts g' Eh) as (r & Hr & _ & _ & [[(p & -> & Hs) Hd]|[Hs Hd]]);
    exists r; (split; [done|]); [left|right; done].
  split; [done|]. exists p. split; [done|]. split; [done|].
  destruct cp as [c|].
  - destruct (override_cases h current c p (read_wf _ _ _ _ Hcp) (read_wf _ _ _ _ Hpred)) as (o & Ho & Hm).
    exists o. split; [done|]. destruct o as [more|].
    + destruct Hm as [Hno Hv]. split; [|done]. by intros ? [= <-].
    + by exists c.
  - eexists. split; [reflexivity|]. split; [done|]. eexists. split; [reflexivity|discriminate].
Qed.

Lemma readback_run t a current facts s chain h cp pred :
  lineage_path t s a chain → read_handoff t a s = Ok (Some h) → successor_attempt_id h = a →
  read t a s = Ok cp → read t (predecessor_attempt_id h) s = Ok pred →
  ∃ r, readback_handoff_lineage t a (Some current) facts s = Ok r ∧
    (evaluation_safe r ↔ ∃ c p, cp = Some c ∧ pred = Some p ∧
       lineage_safe h current p facts ∧ successor_ready h current c p).
Proof.
  intros Hp Hr <- Hcp Hpred. unfold readback_handoff_lineage.
  pose proof (proj2 (reconstruct_iff _ _ _ _) Hp) as ->. cbn [mbind result_bind]. rewrite Hr, Hcp.
  cbn [mbind result_bind]. rewrite Hpred. cbn [mbind result_bind].
  destruct (read_handoff_hash _ _ _ _ Hr) as [g Hg].
  destruct (evaluated t h current facts s cp pred) as (ev & -> & Hcases); [by rewrite Hg|done|done|].
  cbn [mbind result_bind]. destruct (chain_documents _ _ _ _ Hp) as [docs Hdocs].
  assert (∃ d, handoff_to_dict h = Ok d) as [d Hdoc] by (unfold handoff_to_dict; rewrite Hg; by eexists).
  destruct Hcases as [(Hd & p & -> & Hs & o & Ho & Hm)|[Hd Hs]].
  - rewrite (proj2 (is_text_spec _ _) Hd), Ho. cbn [mbind result_bind]. rewrite Hdocs.
    cbn [mbind result_bind]. rewrite Hdoc. cbn [mbind result_bind fmap result_fmap]. eexists. split; [reflexivity|].
    unfold evaluation_safe. destruct o as [more|].
    + destruct Hm as [Hno (v & Hv & Hne)]. split.
      * intros (ev' & [= <-] & Hd'). unfold py_get in Hd'. rewrite dict_get_merge, Hv in Hd'. by cbn in Hd'.
      * intros (c & p' & -> & [= <-] & _ & Hy). by destruct (Hno c).
    + destruct Hm as (c & -> & Hy). split; [|intros _; by eexists].
      intros _. exists c, p. done.
  - destruct (is_text _ _) eqn:E; [by apply is_text_spec in E|]. cbn [mbind result_bind]. rewrite Hdocs.
    cbn [mbind result_bind]. rewrite Hdoc. cbn [mbind result_bind fmap result_fmap]. eexists. split; [reflexivity|]. split.
    + intros (ev' & [= <-] & Hd'). done.
    + intros (c & p & _ & -> & Hy & _). by destruct (Hs p).
Qed.
End readback_run.

(** ** Binding a successor *)
Section binding.
Context `{FloatText} `{Digest}.

(** What [bind_successor_checkpoint] has established before it writes anything. *)
Record bindable (h : HandoffLineage) (current : IdentityBinding) (facts : fence_facts) (s : disk)
    (c p : WorkflowCheckpoint) (chain : list HandoffLineage) : Prop := {
  bind_predecessor : read (h_task_id h) (predecessor_attempt_id h) s = Ok (Some p);
  bind_ancestry : lineage_path (h_task_id h) s (predecessor_attempt_id h) chain;
  bind_acyclic : successor_attempt_id h ∉ predecessor_attempt_id h :: predecessors chain;
  bind_safe : lineage_safe h current p facts;
  bind_keys : matches_actual (completed_effect_keys h) (map effect_key (completed_effects p));
  bind_refs : matches_actual (completed_effect_refs h) (map receipt_ref (completed_effects p));
  bind_wf : checkpoint_wf c;
  bind_ids : task_id c = h_task_id h ∧ attempt_id c = successor_attempt_id h ∧
    operation_id c = operation_of h ∧ identity c = current;
  bind_revision : revision c = 1%Z;
  bind_effects : completed_effects c = completed_effects p;
  bind_unblocked : blocked_reason c = EmptyString;
  bind_ceiling : claim_ceiling c = WORKFLOW_CHECKPOINT_CLAIM_CEILING
}.

Lemma new_effects_same l :
  Forall effect_readable l →
  mapM_result (λ e, new_effect (effect_key e) (receipt_ref e) (effect_hash e)) l = Ok l.
Proof. intros Hl. apply mapM_result_id. eapply Forall_impl; [exact Hl|]. apply new_effect_Ok. Qed.

Lemma new_checkpoint_reason a c : new_checkpoint a = Ok c → blocked_reason c = a_blocked_reason a.
Proof.
  unfold new_checkpoint. cbv zeta. intros Hc.
  repeat (apply bind_Ok_inv in Hc as (? & _ & Hc)). by injection Hc as <-.
Qed.
Lemma successor_checkpoint_Ok h current facts status phase s c :
  successor_checkpoint h current facts status phase s = Ok c →
  WorkflowCheckpoint.status c = status ∧ ∃ p chain, bindable h current facts s c p chain.
Proof.
  unfold successor_checkpoint. cbv zeta. intros (po & Hp & (p & Hpo & Hc)%bind_Ok_inv)%bind_Ok_inv.
  destruct po as [p'|]; [|done]. injection Hpo as ->.
  apply bind_Ok_inv in Hc as (chain & Hchain%reconstruct_iff & (? & Hcyc & Hc)%bind_Ok_inv).
  apply bind_Ok_inv in Hc as (ev & Hev & (? & Hsafe & Hc)%bind_Ok_inv).
  apply bind_Ok_inv in Hc as (? & Hkeys%raise_if_Ok_inv & (? & Hrefs%raise_if_Ok_inv & Hc)%bind_Ok_inv).
  apply bind_Ok_inv in Hc as (inherited & Hinh & Hc).
  apply negb_false_iff, same_keys_spec in Hkeys, Hrefs.
  pose proof Hp as (_ & _ & _ & Hpr)%read_Ok. pose proof Hpr as (Hpwf & _ & _ & _ & _ & _ & Hpe).
  rewrite new_effects_same in Hinh by done. injection Hinh as <-.
  destruct (text_in _ _) eqn:Eanc in Hcyc; [done|]. apply text_in_false in Eanc.
  destruct (is_text _ _) eqn:Esafe in Hsafe; [|done]. apply is_text_spec in Esafe.
  pose proof (new_checkpoint_reason _ _ Hc) as Hreason.
  apply new_checkpoint_wf in Hc as (Hwf & E1 & E2 & E3 & E4 & [= E5] & E6 & E7 & E8).
  cbn in E1, E2, E3, E4, E6, E7, E8. split; [done|]. exists p, chain. split; try done.
  - intros Hin. apply Eanc. apply elem_of_cons in Hin as [->|Hin]; [by left|right].
    apply list_elem_of_fmap in Hin as (edge & -> & He).
    apply list_elem_of_In, in_flat_map. exists edge. split; [by apply list_elem_of_In|]. by left.
  - pose proof Hev as Hev'. unfold evaluate_handoff_lineage in Hev'.
    apply bind_Ok_inv in Hev' as (g & Hg & _).
    destruct (evaluate_cases h current (Some p) facts g Hg) as (r & Hr & _ & _ & [[(? & [= <-] & ?) _]|[_ Hd]]); [done|].
    rewrite Hev in Hr. injection Hr as <-. done.
  - pose proof Hwf as (_&_&_&_&_&_&_&_&_&_&_&Hn&Hsorted&_).
    pose proof Hpwf as (_&_&_&_&_&_&_&_&_&_&_&Hn'&Hsorted'&_).
    by apply (sorted_perm_unique effect_key).
Qed.

Lemma bind_readable h current facts s c p chain :
  handoff_readable h → stripped_key (operation_of h) = true →
  bindable h current facts s c p chain → checkpoint_readable c.
Proof.
  intros (_ & Hk & _) Hop Hb. repeat (apply Forall_cons in Hk as [? Hk]).
  destruct Hb as [Hp _ _ ((Hsrc & _) & _ & (_ & _ & _ & Hid) & _) _ _ Hwf (E1 & E2 & E3 & E4) _ Eeff _ Ecl].
  apply read_Ok in Hp as (_ & _ & _ & (_ & _ & _ & _ & _ & Hpi & Hpe)).
  unfold checkpoint_readable. rewrite E1, E2, E3, E4, Eeff. split_and!; try done.
  by rewrite <- Hsrc, <- Hid.
Qed.

(** The handoffs directory and the attempts' directories are apart, unless an attempt is
    named [handoffs]. *)
Definition handoff_file (h : HandoffLineage) : path :=
  [h_task_id h; "handoffs"; successor_attempt_id h +:+ ".json"].
Definition checkpoint_files (h : HandoffLineage) (c : WorkflowCheckpoint) (text : string) : list (path * string) :=
  [([h_task_id h; successor_attempt_id h; "current.json"], text);
   ([h_task_id h; successor_attempt_id h; "history"; padded (revision c) +:+ ".json"], text)].

Lemma readable_segments h :
  handoff_readable h → strip (h_task_id h) = h_task_id h ∧
  strip (successor_attempt_id h) = successor_attempt_id h ∧
  strip (predecessor_attempt_id h) = predecessor_attempt_id h.
Proof.
  intros (_ & Hk & _). repeat (apply Forall_cons in Hk as [? Hk]).
  split_and!; by apply stripped_key_spec.
Qed.

Lemma locked_state t a s : (_locked t a s).2 = s.
Proof. unfold _locked. run_prog. by destruct (_attempt_dir t a). Qed.
(** Writing a handoff where there is none, or the same one. *)
Lemma write_handoff_run h s r s' :
  handoff_readable h → write_handoff h s = (Ok r, s') →
  read_handoff (h_task_id h) (successor_attempt_id h) s = Ok None ∨
  read_handoff (h_task_id h) (successor_attempt_id h) s = Ok (Some (hcanon h)) →
  segment (h_task_id h) = true ∧ segment (successor_attempt_id h) = true ∧
  _locked (h_task_id h) ("handoff_" +:+ successor_attempt_id h) s = (Ok (), s) ∧
  ∃ w text, s' = redo w s ∧ load_handoff text = Ok (hcanon h) ∧
    (w = [] ∧ read_handoff (h_task_id h) (successor_attempt_id h) s = Ok (Some (hcanon h)) ∨
     w = [(handoff_file h, text)] ∧ (d ← handoff_to_dict h; durable_text d) = Ok text).
Proof.
  intros Hh Hw Hold. destruct (readable_segments h Hh) as (Et & Es & _).
  destruct (durable_handoff h Hh) as [text Htext]. pose proof (load_handoff_durable h text Hh Htext) as Hload.
  assert (∃ o, read_handoff (h_task_id h) (successor_attempt_id h) s = Ok o) as (o & Ho) by (destruct Hold; eauto).
  pose proof Ho as Ho'. unfold read_handoff in Ho'.
  apply bind_Ok_inv in Ho' as (p & Hp & Ho'). pose proof Hp as Hp'.
  apply handoff_path_Ok in Hp' as (-> & Ht & Hs). rewrite Et, Es in *. split; [done|]. split; [done|].
  revert Hw. unfold write_handoff. run_prog. pose proof (locked_state (h_task_id h) ("handoff_" +:+ successor_attempt_id h) s) as El.
  destruct (_locked _ _ s) as [[[]|] s1]; [|done]. cbn in El. subst s1. intros Hw. split; [done|]. revert Hw.
  rewrite Hp, Ho'. destruct o as [h'|].
  - assert (h' = hcanon h) as -> by (destruct Hold as [E|E]; rewrite Ho in E; congruence).
    destruct (lineage_hash (hcanon h)); [|done]. destruct (lineage_hash h); [|done].
    destruct (String.eqb _ _); [|done]. intros [= _ <-]. exists [], text. split; [done|]. split; [done|]. by left.
  - pose proof Htext as (d & Hd & Hdt)%bind_Ok_inv. rewrite Hd. unfold _atomic_write. run_prog.
    rewrite Hdt. intros [= _ <-]. exists [(handoff_file h, text)], text.
    split; [done|]. split; [done|]. by right.
Qed.
End binding.

Section bound.
Context `{FloatText} `{Digest}.

Lemma read_at_redo {A} (load : string → result A) p w s :
  p ∉ map fst w → read_at load p (redo w s) = read_at load p s.
Proof.
  revert s. induction w as [|[q text] w IH]; intros s Hp; [done|]. cbn in Hp.
  apply not_elem_of_cons in Hp as [Hq Hp]. rewrite redo_cons, IH by done. by apply read_at_other.
Qed.
Lemma read_redo t a w s :
  [strip t; strip a; "current.json"] ∉ map fst w → read t a (redo w s) = read t a s.
Proof.
  intros Hp. unfold read. destruct (_current_path t a) as [p|] eqn:Ep; [|done].
  apply current_path_Ok in Ep as (-> & _). by apply read_at_redo.
Qed.
Lemma read_handoff_redo t a w s :
  [strip t; "handoffs"; strip a +:+ ".json"] ∉ map fst w → read_handoff t a (redo w s) = read_handoff t a s.
Proof.
  intros Hp. unfold read_handoff. destruct (_handoff_path t a) as [p|] eqn:Ep; [|done].
  apply handoff_path_Ok in Ep as (-> & _). by apply read_at_redo.
Qed.
Lemma lineage_path_frame t s s' a chain :
  (∀ x, x ∈ a :: predecessors chain → read_handoff t x s' = read_handoff t x s) →
  lineage_path t s a chain → lineage_path t s' a chain.
Proof.
  intros Hf Hp. induction Hp as [a Hr|h rest Hr Ht Hp IH].
  - apply path_root. rewrite Hf by left. done.
  - apply path_edge; [|done|].
    + rewrite Hf by left. done.
    + apply IH. intros x Hx. apply Hf. unfold predecessors in *. rewrite map_app. cbn [map].
      right. apply elem_of_app. apply elem_of_cons in Hx as [->|Hx]; [right; left|by left].
Qed.

(** A first checkpoint is written where there is none, and only there. *)
Lemma write_first_run c s r s' :
  checkpoint_wf c → revision c = 1%Z → strip (task_id c) = task_id c → strip (attempt_id c) = attempt_id c →
  write c None s = (Ok r, s') →
  segment (task_id c) = true ∧ segment (attempt_id c) = true ∧ locked_ok (task_id c) (attempt_id c) s ∧
  read (task_id c) (attempt_id c) s = Ok None.
Proof.
  intros Hwf Hrev Et Ea. unfold write. run_prog.
  pose proof (locked_state (task_id c) (attempt_id c) s) as Hs.
  destruct (_locked _ _ s) as [r1 s1] eqn:El. cbn in Hs. subst s1. destruct r1 as [[]|]; [|done].
  destruct (_current_path _ _) as [p|] eqn:Ep; [|done]. pose proof Ep as Ep'.
  apply current_path_Ok in Ep' as (_ & Ht & Ha).
  destruct (locked_run _ _ s Ht Ha) as [[Hlk _]|(_ & ? & _ & Hbad)]; [|rewrite El in Hbad; done].
  rewrite Et in Ht. rewrite Ea in Ha.
  unfold read. rewrite Ep. cbn [mbind result_bind].
  destruct (read_at load_checkpoint p s) as [[c'|]|] eqn:Er; [|intros _; split; [exact Ht|split; [exact Ha|split; [exact Hlk|done]]]|done].
  pose proof Er as (text & _ & ((_&_&_&_&Hr1&_) & _)%load_checkpoint_readable)%read_at_loaded.
  rewrite Hrev. destruct (Z.leb_spec 1 (revision c')); [done|lia].
Qed.
Lemma write_first c s :
  checkpoint_wf c → strip (task_id c) = task_id c → strip (attempt_id c) = attempt_id c →
  segment (task_id c) = true → segment (attempt_id c) = true → locked_ok (task_id c) (attempt_id c) s →
  read (task_id c) (attempt_id c) s = Ok None →
  ∃ text, (d ← checkpoint_to_dict c; durable_text d) = Ok text ∧
    write c None s = (Ok c, redo [
      ([task_id c; attempt_id c; "current.json"], text);
      ([task_id c; attempt_id c; "history"; padded (revision c) +:+ ".json"], text)] s).
Proof.
  intros Hwf Et Ea Ht Ha Hlk Hr. pose proof Ht as Ht'. pose proof Ha as Ha'.
  rewrite <- Et in Ht'. rewrite <- Ea in Ha'.
  destruct (save_run [task_id c; attempt_id c; "current.json"]
    [task_id c; attempt_id c; "history"; padded (revision c) +:+ ".json"] c s Hwf) as (text & Htext & Hrun).
  exists text. split; [done|]. rewrite <- Hrun. unfold write, read in *.
  pose proof (history_path_Ok _ _ (revision c) Ht' Ha') as Hh. rewrite Et, Ea in Hh.
  assert (_current_path (task_id c) (attempt_id c) = Ok [task_id c; attempt_id c; "current.json"]) as Hp
    by (apply current_path_Ok; by rewrite Et, Ea).
  rewrite Hp, Hh in *. cbn [mbind result_bind] in Hr. run_prog.
  destruct (locked_run _ _ s Ht' Ha') as [[_ ->]|[[] _]]; [|done]. by rewrite Hr.
Qed.

(** A run that binds: what it wrote, in order. *)
Lemma bind_successor_run h current facts status phase s c s' :
  bind_successor_checkpoint h current facts status phase s = (Ok c, s') →
  handoff_readable h → stripped_key (operation_of h) = true →
  read_handoff (h_task_id h) (successor_attempt_id h) s = Ok None ∨
  read_handoff (h_task_id h) (successor_attempt_id h) s = Ok (Some (hcanon h)) →
  successor_checkpoint h current facts status phase s = Ok c ∧
  segment (h_task_id h) = true ∧ segment (successor_attempt_id h) = true ∧
  locked_ok (h_task_id h) (successor_attempt_id h) s ∧
  _locked (h_task_id h) ("handoff_" +:+ successor_attempt_id h) s = (Ok (), s) ∧
  ∃ w htext text, s' = redo (w ++ checkpoint_files h c text) s ∧
    load_handoff htext = Ok (hcanon h) ∧ (d ← checkpoint_to_dict c; durable_text d) = Ok text ∧
    read (h_task_id h) (successor_attempt_id h) (redo w s) = Ok None ∧
    (w = [] ∧ read_handoff (h_task_id h) (successor_attempt_id h) s = Ok (Some (hcanon h)) ∨
     w = [(handoff_file h, htext)] ∧ (d ← handoff_to_dict h; durable_text d) = Ok htext).
Proof.
  intros Hb Hh Hop Hold. destruct (readable_segments h Hh) as (Et & Es & _).
  revert Hb. unfold bind_successor_checkpoint. run_prog.
  destruct (successor_checkpoint _ _ _ _ _ s) as [c0|] eqn:Esc; [|done].
  destruct (write_handoff h s) as [[hr|] s1] eqn:Ewh; [|done].
  destruct (write c0 None s1) as [[cr|] s2] eqn:Ew; [|done]. intros [= -> ->].
  destruct (successor_checkpoint_Ok _ _ _ _ _ _ _ Esc) as (_ & p & chain & Hbind).
  pose proof (bind_wf _ _ _ _ _ _ _ Hbind) as Hwf. pose proof (bind_revision _ _ _ _ _ _ _ Hbind) as Hrev.
  destruct (bind_ids _ _ _ _ _ _ _ Hbind) as (E1 & E2 & _).
  destruct (write_handoff_run h s hr s1 Hh Ewh Hold) as (Ht & Hs & Hhl & w & htext & -> & Hload & Hw).
  destruct (write_first_run c _ _ _ Hwf Hrev ltac:(by rewrite E1) ltac:(by rewrite E2) Ew) as (_ & _ & Hlk & Hnone).
  destruct (write_first c (redo w s) Hwf) as (text & Htext & Hrun); rewrite ?E1, ?E2; try done.
  { by rewrite <- E1, <- E2. } { by rewrite <- E1, <- E2. }
  rewrite Ew in Hrun. apply pair_equal_spec in Hrun as [_ ->]. rewrite E1, E2 in *.
  split; [done|]. split; [done|]. split; [done|].
  split; [unfold locked_ok in *; by rewrite redo_links in Hlk|].
  split; [done|].
  exists w, htext, text. split_and!; try done. rewrite redo_app. done.
Qed.
End bound.

(** ** The bound successor *)
Section bound_states.
Context `{FloatText} `{Digest}.

(** The successor's checkpoint and its ancestry are persisted, and another session that
    reads them back may resume. *)
Definition bound (h : HandoffLineage) (current : IdentityBinding) (facts : fence_facts)
    (c : WorkflowCheckpoint) (chain : list HandoffLineage) (s : disk) : Prop :=
  read (h_task_id h) (successor_attempt_id h) s = Ok (Some (canon c)) ∧
  reconstruct_lineage_chain (h_task_id h) (successor_attempt_id h) s = Ok (chain ++ [hcanon h]) ∧
  ∃ r, readback_handoff_lineage (h_task_id h) (successor_attempt_id h) (Some current) facts s = Ok r ∧
    evaluation_safe r.
(** Handoffs the store keeps apart from attempts, and whose texts its readers leave alone. *)
Definition storable (h : HandoffLineage) : Prop :=
  handoff_readable h ∧ stripped_key (operation_of h) = true ∧ operation_of (hcanon h) = operation_of h ∧
  successor_attempt_id h ≠ "handoffs" ∧ predecessor_attempt_id h ≠ "handoffs".

Lemma readable_distinct h : handoff_readable h → predecessor_attempt_id h ≠ successor_attempt_id h.
Proof. by intros ((_ & _ & _ & Hne & _) & _). Qed.
Lemma file_name_inj a b : a +:+ ".json" = b +:+ ".json" → a = b.
Proof. apply str_app_inj_r. Qed.

(** Writing the handoff and part of the checkpoint leaves the ancestry alone. *)
Lemma read_handoff_key t a s h :
  read_handoff t a s = Ok (Some h) → successor_attempt_id h = a → strip a = a.
Proof. intros (_ & _ & _ & Hk & _)%read_handoff_Ok <-. by apply stripped_key_spec. Qed.
Lemma ancestry_apart t s a chain x :
  lineage_path t s a chain → x ∈ a :: predecessors chain → strip a = a → strip x = x.
Proof.
  intros Hp. revert x. induction Hp as [a Hr|h rest Hr Ht Hp IH]; intros x Hx Ha.
  - by apply list_elem_of_singleton in Hx as ->.
  - apply read_handoff_Ok in Hr as (_ & _ & _ & _ & Hk). apply stripped_key_spec in Hk as [Hk _].
    apply elem_of_cons in Hx as [->|Hx]; [done|]. apply IH; [|done].
    unfold predecessors in *. rewrite map_app in Hx. cbn [map] in Hx.
    apply elem_of_app in Hx as [Hx|[->|[]%elem_of_nil]%elem_of_cons]; [by right|left].
Qed.
Lemma ancestry_frame h current facts s c p chain w :
  storable h → bindable h current facts s c p chain →
  (∀ q, q ∈ map fst w → q = handoff_file h ∨
     ∃ rest, q = h_task_id h :: successor_attempt_id h :: rest) →
  read (h_task_id h) (predecessor_attempt_id h) (redo w s) = Ok (Some p) ∧
  lineage_path (h_task_id h) (redo w s) (predecessor_attempt_id h) chain.
Proof.
  intros (Hh & _ & _ & Hns & Hnp) Hb Hw. destruct (readable_segments h Hh) as (Et & Es & Ep).
  pose proof (readable_distinct h Hh) as Hne. split.
  - rewrite read_redo; [apply Hb|]. rewrite Et, Ep.
    intros [E|(rest & E)]%Hw; [by injection E|by injection E].
  - eapply lineage_path_frame; [|apply Hb]. intros x Hx.
    rewrite read_handoff_redo; [done|]. rewrite Et, (ancestry_apart _ _ _ _ x (bind_ancestry _ _ _ _ _ _ _ Hb) Hx Ep).
    intros [E|(rest & E)]%Hw; [|injection E; intros; congruence].
    injection E as ->%file_name_inj. by apply (bind_acyclic _ _ _ _ _ _ _ Hb).
Qed.

Lemma bound_after h current facts s c p chain w htext text done_ lost :
  storable h → bindable h current facts s c p chain → status c = STATUS_RUNNING →
  segment (h_task_id h) = true → segment (successor_attempt_id h) = true →
  load_handoff htext = Ok (hcanon h) → (d ← checkpoint_to_dict c; durable_text d) = Ok text →
  (w = [] ∧ read_handoff (h_task_id h) (successor_attempt_id h) s = Ok (Some (hcanon h)) ∨
   w = [(handoff_file h, htext)]) →
  done_ ++ lost = checkpoint_files h c text → done_ ≠ [] →
  bound h current facts c chain (redo (w ++ done_) s).
Proof.
  intros Hst Hb Hrun Ht Hs Hload Htext Hw Hdone Hne.
  pose proof Hst as (Hh & Hop & Hops & Hns & Hnp). destruct (readable_segments h Hh) as (Et & Es & Ep).
  pose proof (bind_readable _ _ _ _ _ _ _ Hh Hop Hb) as Hc.
  destruct (bind_ids _ _ _ _ _ _ _ Hb) as (E1 & E2 & E3 & E4).
  assert (∀ q, q ∈ map fst done_ → ∃ rest, q = h_task_id h :: successor_attempt_id h :: rest) as Hd.
  { intros q Hq. assert (q ∈ map fst (checkpoint_files h c text)) as Hq'.
    { rewrite <- Hdone, map_app. apply elem_of_app. by left. }
    cbn in Hq'. rewrite !elem_of_cons, elem_of_nil in Hq'. destruct Hq' as [->|[->|[]]]; by eexists. }
  assert (read_handoff (h_task_id h) (successor_attempt_id h) (redo w s) = Ok (Some (hcanon h))) as Hstored.
  { destruct Hw as [[-> Hw]| ->]; [done|]. unfold read_handoff.
    assert (_handoff_path (h_task_id h) (successor_attempt_id h) = Ok (handoff_file h)) as ->.
    { apply handoff_path_Ok. by rewrite Et, Es. }
    cbn [mbind result_bind]. rewrite redo_cons. unfold redo. cbn [foldl fst snd]. by rewrite read_at_replaced, Hload. }
  destruct (ancestry_frame h current facts s c p chain (w ++ done_) Hst Hb) as [Hread Hchain].
  { intros q. rewrite map_app, elem_of_app. intros [Hq|Hq]; [left|right; by apply Hd].
    destruct Hw as [[-> _]| ->]; [by apply elem_of_nil in Hq|by apply list_elem_of_singleton in Hq]. }
  assert (read_handoff (h_task_id h) (successor_attempt_id h) (redo (w ++ done_) s) = Ok (Some (hcanon h))) as Hedge.
  { rewrite redo_app, read_handoff_redo; [done|]. rewrite Et. intros (rest & E)%Hd. injection E as E _. done. }
  assert (lineage_path (h_task_id h) (redo (w ++ done_) s) (successor_attempt_id h) (chain ++ [hcanon h])) as Hpath.
  { by apply (path_edge _ _ (hcanon h)). }
  assert (read (h_task_id h) (successor_attempt_id h) (redo (w ++ done_) s) = Ok (Some (canon c))) as Hcp.
  { rewrite redo_app. eapply read_saved; try done; rewrite ?Et, ?Es; try done. by exists lost. }
  split; [done|]. split; [by apply reconstruct_iff|].
  destruct (readback_run (h_task_id h) (successor_attempt_id h) current facts _ _ (hcanon h) _ _
    Hpath Hedge eq_refl Hcp Hread) as (r & Hr & Hsafe).
  exists r. split; [done|]. apply Hsafe. exists (canon c), p. split; [done|]. split; [done|].
  split; [apply Hb|]. split; [|split].
  - rewrite Hops. done.
  - split; [|split; apply Hb]. intros e He. cbn [canon with_external completed_effects].
    by rewrite (bind_effects _ _ _ _ _ _ _ Hb).
  - split; [done|]. apply Hb.
Qed.

(** Running the operation again after the handoff alone was written. *)
Lemma write_handoff_again h s :
  handoff_readable h → segment (h_task_id h) = true → segment (successor_attempt_id h) = true →
  _locked (h_task_id h) ("handoff_" +:+ successor_attempt_id h) s = (Ok (), s) →
  read_handoff (h_task_id h) (successor_attempt_id h) s = Ok (Some (hcanon h)) →
  write_handoff h s = (Ok (hcanon h), s).
Proof.
  intros Hh Ht Hs Hl Hr. destruct (readable_segments h Hh) as (Et & Es & _).
  pose proof Hh as (_ & _ & _ & _ & Hbw & Hbc).
  unfold write_handoff. run_prog. rewrite Hl. unfold read_handoff in Hr.
  assert (_handoff_path (h_task_id h) (successor_attempt_id h) = Ok (handoff_file h)) as Hp.
  { apply handoff_path_Ok. by rewrite Et, Es. }
  rewrite Hp in *. cbn [mbind result_bind] in Hr. rewrite Hr.
  rewrite (lineage_hash_Ok (hcanon h)), (lineage_hash_Ok h) by
    (done || (cbn [hcanon with_binding successor_binding]; rewrite document_binding_eq; by apply json_check_jnorm)).
  by rewrite hcanon_hash, String.eqb_refl.
Qed.
Lemma locked_links t a s s' : links s' = links s → (_locked t a s').1 = (_locked t a s).1.
Proof. intros E. unfold _locked. run_prog. destruct (_attempt_dir t a); [|done]. by rewrite E. Qed.
Lemma locked_redo t a s w : _locked t a s = (Ok (), s) → _locked t a (redo w s) = (Ok (), redo w s).
Proof.
  intros Hl. pose proof (locked_links t a s (redo w s) (redo_links w s)) as E1.
  pose proof (locked_state t a (redo w s)) as E2. rewrite Hl in E1.
  destruct (_locked t a (redo w s)). cbn in E1, E2. by subst.
Qed.
Lemma bind_again h current facts status phase s c htext text :
  storable h → successor_checkpoint h current facts status phase s = Ok c →
  segment (h_task_id h) = true → segment (successor_attempt_id h) = true →
  locked_ok (h_task_id h) (successor_attempt_id h) s →
  _locked (h_task_id h) ("handoff_" +:+ successor_attempt_id h) s = (Ok (), s) →
  load_handoff htext = Ok (hcanon h) → (d ← checkpoint_to_dict c; durable_text d) = Ok text →
  read (h_task_id h) (successor_attempt_id h) (redo [(handoff_file h, htext)] s) = Ok None →
  bind_successor_checkpoint h current facts status phase (redo [(handoff_file h, htext)] s) =
  (Ok c, redo ((handoff_file h, htext) :: checkpoint_files h c text) s).
Proof.
  intros Hst Hc Ht Hs Hlk Hhl Hload Htext Hnone. pose proof Hst as (Hh & _).
  destruct (readable_segments h Hh) as (Et & Es & Ep).
  destruct (successor_checkpoint_Ok _ _ _ _ _ _ _ Hc) as (_ & p & chain & Hb).
  destruct (ancestry_frame h current facts s c p chain [(handoff_file h, htext)] Hst Hb) as [Hread Hchain].
  { intros q ->%list_elem_of_singleton. by left. }
  unfold bind_successor_checkpoint. run_prog.
  assert (successor_checkpoint h current facts status phase (redo [(handoff_file h, htext)] s) = Ok c) as ->.
  { rewrite <- Hc. unfold successor_checkpoint. rewrite Hread, (bind_predecessor _ _ _ _ _ _ _ Hb).
    cbn [mbind result_bind].
    by rewrite (proj2 (reconstruct_iff _ _ _ _) Hchain),
      (proj2 (reconstruct_iff _ _ _ _) (bind_ancestry _ _ _ _ _ _ _ Hb)). }
  rewrite write_handoff_again; try done.
  - destruct (bind_ids _ _ _ _ _ _ _ Hb) as (E1 & E2 & _).
    destruct (write_first c (redo [(handoff_file h, htext)] s) (bind_wf _ _ _ _ _ _ _ Hb)) as (text' & Htext' & ->);
      rewrite ?E1, ?E2; try done.
    rewrite Htext in Htext'. by injection Htext' as <-.
  - by apply locked_redo.
  - unfold read_handoff.
    assert (_handoff_path (h_task_id h) (successor_attempt_id h) = Ok (handoff_file h)) as ->.
    { apply handoff_path_Ok. by rewrite Et, Es. }
    cbn [mbind result_bind]. unfold redo. cbn [foldl fst snd]. by rewrite read_at_replaced, Hload.
Qed.
End bound_states.

(** * Properties *)
Section properties.
Context `{FloatText} `{Digest}.

(** C9: an effect is recorded exactly once.  Whatever sequence of [record_effect] calls
    runs on an attempt (stale views of the revision, repeated keys, calls that raise, runs
    interrupted between their writes), the attempt stays readable; the effects it had are
    kept with their receipts; each recorded effect was issued by a call; no key is recorded
    twice; every call that returned has its key recorded; the revision counts the effects
    recorded; and nothing else in the checkpoint changes.  The effects issued are ones the
    reader takes back as written ([effect_readable], a premise of every call of
    [recording]): a key with blanks around it would make the file unreadable. *)
Theorem effects_recorded_once t a s issued acked s' c
    (Hc : read t a s = Ok (Some c)) (Hrun : recording t a s issued acked s') :
  ∃ c', read t a s' = Ok (Some c') ∧ NoDup (map effect_key (completed_effects c')) ∧
    (∀ e, e ∈ completed_effects c → e ∈ completed_effects c') ∧
    (∀ e, e ∈ completed_effects c' → e ∈ completed_effects c ∨ e ∈ issued) ∧
    (∀ e, e ∈ acked → effect_key e ∈ map effect_key (completed_effects c')) ∧
    (revision c' - revision c =
     Z.of_nat (length (completed_effects c')) - Z.of_nat (length (completed_effects c)))%Z ∧
    canon c' = with_effects (canon c) (revision c') (completed_effects c').
Proof.
  destruct (recording_grown t a s issued acked s' c Hrun Hc) as (c' & Hr & Hg & Hk & Hi & Hn & Ha).
  exists c'. split; [done|]. split; [by apply read_wf in Hr as (_&_&_&_&_&_&_&_&_&_&_&?&_)|].
  split_and!; try done. intros e He. apply has_effect_spec. by apply (proj1 (Forall_forall _ _) Ha).
Qed.

(** C29: the ancestry of an attempt is always found or refused.  The loop that follows the
    stored handoffs back ends within as many steps as there are files, whatever the files
    hold; it returns a list exactly when that list is the path of the stored handoffs of
    this task from a first attempt to this one, oldest first; such a path never meets an
    attempt twice; and every other outcome is a [HandoffLineageError] or the error of a
    file that does not load. *)
Theorem chain_found_or_refused t a s :
  chain_loop (chain_fuel s) t a [] [] s ≠ None ∧
  (∀ chain, reconstruct_lineage_chain t a s = Ok chain ↔ lineage_path t s a chain) ∧
  (∀ chain, lineage_path t s a chain → NoDup (a :: predecessors chain)) ∧
  (∀ e, reconstruct_lineage_chain t a s = Err e →
     exn_type e = HandoffLineageError ∨ ∃ x, read_handoff t x s = Err e).
Proof.
  split_and!.
  - apply chain_fuel_enough.
  - intros chain. apply reconstruct_iff.
  - intros chain. apply lineage_path_NoDup.
  - unfold reconstruct_lineage_chain. pose proof (chain_fuel_enough t a s) as Hf.
    destruct (chain_loop _ _ _ _ _ _) as [r|] eqn:Hr; [|done]. cbn [default from_option id]. intros e ->. by eapply chain_loop_err.
Qed.

(** C8: a bound successor continues its predecessor.  When [bind_successor_checkpoint]
    returns, the handoff was safe for the persisted predecessor, the successor appears
    nowhere in the ancestry, its checkpoint has revision 1, the handoff's ids, the current
    identity and exactly the predecessor's completed effects; and when it starts RUNNING,
    the successor's checkpoint and its whole ancestry are persisted and another session's
    read-back evaluates to SAFE.  This is for a [storable] handoff (no blanks around its
    texts, its operation and its attempt ids, no attempt called "handoffs") and a successor
    of which no other handoff is stored; for a padded id it fails
    ([padded_binding_is_lost]). *)
Theorem bind_continues_predecessor h current facts status phase s c s'
    (Hb : bind_successor_checkpoint h current facts status phase s = (Ok c, s')) (Hst : storable h)
    (Hold : read_handoff (h_task_id h) (successor_attempt_id h) s = Ok None ∨
            read_handoff (h_task_id h) (successor_attempt_id h) s = Ok (Some (hcanon h))) :
  ∃ p chain, bindable h current facts s c p chain ∧
    (status = STATUS_RUNNING → bound h current facts c chain s').
Proof.
  pose proof Hst as (Hh & Hop & _).
  destruct (bind_successor_run _ _ _ _ _ _ _ _ Hb Hh Hop Hold)
    as (Hc & Ht & Hs & _ & _ & w & htext & text & -> & Hload & Htext & _ & Hw).
  destruct (successor_checkpoint_Ok _ _ _ _ _ _ _ Hc) as (<- & p & chain & Hbind).
  exists p, chain. split; [done|]. intros Hrun.
  eapply bound_after with (lost := []); try done.
  destruct Hw as [Hw|[-> _]]; [by left|by right].
Qed.

(** C10: an interrupted binding can be completed.  If a run of [bind_successor_checkpoint]
    with status RUNNING that would have returned dies after any number of its writes, then
    either the successor is already bound (and reads back as SAFE), or running the same call
    again returns the same checkpoint and leaves the very files the uninterrupted run would
    have left.  As for [bind_continues_predecessor] the handoff is [storable] and no other
    one is stored for the successor. *)
Theorem interrupted_bind_completes h current facts phase s c s' s1
    (Hb : bind_successor_checkpoint h current facts STATUS_RUNNING phase s = (Ok c, s')) (Hst : storable h)
    (Hold : read_handoff (h_task_id h) (successor_attempt_id h) s = Ok None ∨
            read_handoff (h_task_id h) (successor_attempt_id h) s = Ok (Some (hcanon h)))
    (Hcrash : crashed (bind_successor_checkpoint h current facts STATUS_RUNNING phase) s s1) :
  bind_successor_checkpoint h current facts STATUS_RUNNING phase s1 = (Ok c, s') ∨
  ∃ chain, bound h current facts c chain s1.
Proof.
  pose proof Hst as (Hh & Hop & _).
  destruct (bind_successor_run _ _ _ _ _ _ _ _ Hb Hh Hop Hold)
    as (Hc & Ht & Hs & Hlk & Hhl & w & htext & text & Es' & Hload & Htext & Hnone & Hw).
  rewrite (crashed_iff _ (w ++ checkpoint_files h c text)) in Hcrash by by rewrite Hb.
  destruct Hcrash as (done_ & lost & Hsplit & ->).
  destruct (successor_checkpoint_Ok _ _ _ _ _ _ _ Hc) as (Hrun & p & chain & Hbind).
  destruct Hw as [[-> Hsame]|[-> Hht]].
  - destruct (decide (done_ = [])) as [->|Hne]; [by left|right]. exists chain.
    by apply (bound_after h current facts s c p chain [] htext text done_ lost); auto.
  - destruct done_ as [|x done_]; [by left|]. cbn [app] in Hsplit. injection Hsplit as <- Hsplit.
    destruct (decide (done_ = [])) as [->|Hne].
    + left. rewrite Es'. by apply bind_again.
    + right. exists chain.
      by apply (bound_after h current facts s c p chain [(handoff_file h, htext)] htext text done_ lost); auto.
Qed.

(** C11: the read-back never calls an unsafe successor safe.  Its evaluation is SAFE exactly
    when the attempt's handoff, its checkpoint and its predecessor's are on disk, the
    handoff is safe for the predecessor as it is now, and the successor's checkpoint is the
    one the handoff binds: its ids, its operation and the current identity, every effect of
    the predecessor with the same receipt, effect lists that match when declared, RUNNING
    and not blocked. *)
Theorem readback_safe_iff t a current facts s r
    (Hr : readback_handoff_lineage t a (Some current) facts s = Ok r) :
  evaluation_safe r ↔
  ∃ h c p, read_handoff t a s = Ok (Some h) ∧ read t a s = Ok (Some c) ∧
    read t (predecessor_attempt_id h) s = Ok (Some p) ∧
    lineage_safe h current p facts ∧ successor_ready h current c p.
Proof.
  pose proof Hr as Hrun. unfold readback_handoff_lineage in Hrun.
  apply bind_Ok_inv in Hrun as (chain & Hchain%reconstruct_iff & (o & Ho & (cp & Hcp & Hrun)%bind_Ok_inv)%bind_Ok_inv).
  destruct o as [h|].
  - apply bind_Ok_inv in Hrun as (ev & (pred & Hpred & _)%bind_Ok_inv & _).
    assert (successor_attempt_id h = a) as Ha.
    { destruct (lineage_path_inv _ _ _ _ Hchain) as [[_ E]|(h' & _ & _ & -> & E & _)]; congruence. }
    destruct (readback_run t a current facts s chain h cp pred Hchain Ho Ha Hcp Hpred) as (r' & Hr' & Hiff).
    rewrite Hr in Hr'. injection Hr' as <-. rewrite Hiff. split.
    + intros (c & p & -> & -> & ?). exists h, c, p. done.
    + intros (h' & c & p & Hh' & Hc' & Hp' & ?). rewrite Ho in Hh'. injection Hh' as <-.
      exists c, p. split_and!; try tauto; congruence.
  - split; [|intros (h & c & p & Hh' & _); congruence].
    cbn [mbind result_bind] in Hrun. apply bind_Ok_inv in Hrun as (docs & _ & [= <-]).
    by intros (ev & [= E] & _).
Qed.
End properties.

(** * Witnesses *)
#[local] Existing Instance Sha256_Digest.
#[local] Existing Instance Dyadic_FloatText.

Module Witness.
Import HandoffLineage.Witness.
Definition empty_disk : disk := {| files := ∅; links := ∅; log := [] |}.
Definition start : disk := (write predecessor None empty_disk).2.
Definition commit : CompletedEffect :=
  {| effect_key := "commit"; receipt_ref := "receipt:1"; effect_hash := EmptyString |}.
(** The predecessor's checkpoint with the revision a caller saw. *)
Definition recorded_disk : disk := (record_effect "t-1" "at-1" commit 2 start).2.
Definition updated : WorkflowCheckpoint :=
  match (record_effect "t-1" "at-1" commit 2 start).1 with Ok c => c | Err _ => predecessor end.
Definition facts : fence_facts := VerifiedRefs ["fence:9"].
Definition bind (s : disk) : result WorkflowCheckpoint * disk :=
  bind_successor_checkpoint handoff here facts STATUS_RUNNING "phase-2" s.
Definition successor : WorkflowCheckpoint :=
  match (bind start).1 with Ok c => c | Err _ => predecessor end.
Definition bound_disk : disk := (bind start).2.
(** The disk after a crash that followed the write of the handoff. *)
Definition half_bound : disk := redo (firstn 1 (skipn 2 (log bound_disk))) start.
End Witness.
Import HandoffLineage.Witness Witness.

Lemma witness_storable : storable handoff.
Proof.
  unfold storable. split; [exact witness_readable|].
  split; [vm_compute; reflexivity|]. split; [vm_compute; reflexivity|]. split; discriminate.
Qed.

Lemma effects_recorded_once_witness : ∃ c',
  read "t-1" "at-1" recorded_disk = Ok (Some c') ∧ NoDup (map effect_key (completed_effects c')) ∧
  (∀ e, e ∈ completed_effects predecessor → e ∈ completed_effects c') ∧
  (∀ e, e ∈ completed_effects c' → e ∈ completed_effects predecessor ∨ e ∈ [commit]) ∧
  (∀ e, e ∈ [commit] → effect_key e ∈ map effect_key (completed_effects c')) ∧
  (revision c' - revision predecessor =
   Z.of_nat (length (completed_effects c')) - Z.of_nat (length (completed_effects predecessor)))%Z ∧
  canon c' = with_effects (canon predecessor) (revision c') (completed_effects c').
Proof.
  apply (effects_recorded_once "t-1" "at-1" start [commit] [commit] recorded_disk predecessor).
  - vm_compute. reflexivity.
  - assert (record_effect "t-1" "at-1" commit 2 start = (Ok updated, recorded_disk)) as E
      by (vm_compute; reflexivity).
    refine (recording_call "t-1" "at-1" start commit 2 (Ok updated) recorded_disk [] [] recorded_disk _ E _);
      [split; [reflexivity|split; [reflexivity|by left]]|apply recording_end].
Defined.
Lemma bind_continues_predecessor_witness : ∃ p chain,
  bindable handoff here facts start successor p chain ∧
  (STATUS_RUNNING = STATUS_RUNNING → bound handoff here facts successor chain bound_disk).
Proof.
  apply (bind_continues_predecessor handoff here facts STATUS_RUNNING "phase-2" start successor bound_disk).
  - vm_compute. reflexivity.
  - exact witness_storable.
  - left. vm_compute. reflexivity.
Defined.
Lemma interrupted_bind_completes_witness :
  bind_successor_checkpoint handoff here facts STATUS_RUNNING "phase-2" half_bound = (Ok successor, bound_disk) ∨
  ∃ chain, bound handoff here facts successor chain half_bound.
Proof.
  apply (interrupted_bind_completes handoff here facts "phase-2" start successor bound_disk half_bound).
  - vm_compute. reflexivity.
  - exact witness_storable.
  - left. vm_compute. reflexivity.
  - exists (firstn 1 (skipn 2 (log bound_disk))), (skipn 3 (log bound_disk)).
    split; [vm_compute; reflexivity|reflexivity].
Defined.
Lemma readback_safe_iff_witness : ∃ r,
  readback_handoff_lineage "t-1" "at-2" (Some here) facts bound_disk = Ok r ∧
  ∃ h c p, read_handoff "t-1" "at-2" bound_disk = Ok (Some h) ∧ read "t-1" "at-2" bound_disk = Ok (Some c) ∧
    read "t-1" (predecessor_attempt_id h) bound_disk = Ok (Some p) ∧
    lineage_safe h here p facts ∧ successor_ready h here c p.
Proof.
  assert (match readback_handoff_lineage "t-1" "at-2" (Some here) facts bound_disk with
          | Ok r => evaluated_safe r | Err _ => false end = true) as Hs by (vm_compute; reflexivity).
  destruct (readback_handoff_lineage "t-1" "at-2" (Some here) facts bound_disk) as [r|e] eqn:Hr; [|discriminate Hs].
  exists r. split; [reflexivity|].
  apply (readback_safe_iff "t-1" "at-2" here facts bound_disk r Hr).
  apply evaluated_safe_spec. exact Hs.
Defined.

(** ** What the store does not protect *)
(** An attempt may be named [handoffs]: its checkpoint is then listed among the handoffs. *)
Definition named_handoffs : WorkflowCheckpoint :=
  {| task_id := "t-1"; operation_id := "op-1"; attempt_id := "handoffs"; identity := here; revision := 1;
     status := STATUS_RUNNING; phase := EmptyString; next_gate := EmptyString;
     external_operation_ids := []; leases := []; evidence_refs := []; completed_effects := [];
     pending_steps := []; retry_history := []; blocked_reason := EmptyString;
     schema := WORKFLOW_CHECKPOINT_SCHEMA; claim_ceiling := WORKFLOW_CHECKPOINT_CLAIM_CEILING |}.
Example attempt_named_handoffs :
  is_ok (list_handoffs "t-1" empty_disk) = true ∧
  is_ok (write named_handoffs None empty_disk).1 = true ∧
  list_handoffs "t-1" (write named_handoffs None empty_disk).2
  = raise HandoffLineageError "unsupported handoff lineage schema".
Proof. vm_compute. split_and!; reflexivity. Qed.

(** A run interrupted between its two writes has advanced the checkpoint but left its
    revision out of the history, and writing the checkpoint again is a conflict. *)
Example interrupted_write_loses_history :
  let s := redo (firstn 1 (log start)) empty_disk in
  read "t-1" "at-1" s = Ok (Some predecessor) ∧ history "t-1" "at-1" s = Ok [] ∧
  (write predecessor None s).1
  = raise CheckpointConflict "checkpoint revision must advance beyond the persisted revision".
Proof. vm_compute. split_and!; reflexivity. Qed.

(** With [expected_revision], a write may put any revision, even an older one. *)
Example compare_and_set_may_go_back :
  (revision <$> (write (with_effects predecessor 1 []) (Some 2%Z) start).1) = Ok 1%Z.
Proof. vm_compute. reflexivity. Qed.

(** The handoff is written before the successor's checkpoint turns out to conflict. *)
Definition already_there : disk := (write (with_effects successor 1 []) None start).2.
Example conflicting_bind_leaves_handoff :
  (bind already_there).1
    = raise CheckpointConflict "checkpoint revision must advance beyond the persisted revision" ∧
  read_handoff "t-1" "at-2" already_there = Ok None ∧
  read_handoff "t-1" "at-2" (bind already_there).2 = Ok (Some (hcanon handoff)).
Proof. vm_compute. split_and!; reflexivity. Qed.

(** A padded operation id in the binding: the successor is bound, and cannot be read. *)
Example padded_binding_is_lost :
  let h := with_binding handoff [("operation_id", PStr " op-2")] in
  let '(r, s) := bind_successor_checkpoint h here facts STATUS_RUNNING "phase-2" start in
  is_ok r = true ∧
  read "t-1" "at-2" s = raise CheckpointError "checkpoint_hash mismatch: payload has been tampered".
Proof. vm_compute. split; reflexivity. Qed.
