(* ===== verification/EffectAuthorization.v ===== *)
(** * Effect authorization
    ([src/src/nexus_runtime/execution_coordination/effect_authorization.py])

    A ceiling of effects granted by an external authority, content-addressed, and the
    projection of it that one provider and backend may use: the projection may narrow the
    ceiling and never widen it.

    Mappings are values here: the defensive copies ([copy.deepcopy]) of the code are the
    identity. *)
From Stdlib Require Import Ascii String SpecFloat.
From S2P Require Import Prelude PyValue Json Digest Contract DateTime Instances.

Definition EFFECT_AUTHORIZATION_SCHEMA := "nexus.runtime.effect_authorization.v1".
Definition TOOL_PROJECTION_SCHEMA := "nexus.runtime.tool_projection_manifest.v1".
Definition _EFFECT_AUTHORIZATION_FIELDS : list string :=
  ["schema"; "authority_id"; "authority_ref"; "operation_id"; "attempt_id"; "repository";
   "source_revision"; "base_revision"; "workspace_id"; "target_id"; "expires_at"; "effects";
   "authorization_hash"].
Definition _TOOL_PROJECTION_FIELDS : list string :=
  ["schema"; "authorization_hash"; "operation_id"; "attempt_id"; "provider"; "backend_id";
   "selected_tools"; "selected_effects"; "authority_kind"; "projection_hash"].

Definition canonical_message := "effect contract must be canonical JSON data".
Definition _required_text : pyval → string → result string := req_text EffectAuthorizationError.
Definition _optional_text (v : pyval) (field : string) : result (option string) :=
  match v with PNone => Ok None | _ => s ← _required_text v field; Ok (Some s) end.

Record EffectAuthorization : Type := {
  authority_id : string;
  authority_ref : string;
  operation_id : string;
  attempt_id : string;
  repository : string;
  effects : dict;
  source_revision : option string;
  base_revision : option string;
  workspace_id : option string;
  target_id : option string;
  expires_at : option string;
  authorization_hash : string
}.
(** The keyword arguments of [build]. *)
Record authorization_args : Type := {
  b_authority_id : pyval;
  b_authority_ref : pyval;
  b_operation_id : pyval;
  b_attempt_id : pyval;
  b_repository : pyval;
  b_effects : pyval;
  b_source_revision : pyval;
  b_base_revision : pyval;
  b_workspace_id : pyval;
  b_target_id : pyval;
  b_expires_at : pyval
}.
(** The keyword arguments of [assert_identity]. *)
Record expected_identity : Type := {
  x_attempt_id : option string;
  x_operation_id : option string;
  x_repository : option string;
  x_source_revision : option string;
  x_base_revision : option string;
  x_workspace_id : option string;
  x_target_id : option string
}.
Record ToolProjectionManifest : Type := {
  m_authorization_hash : string;
  m_operation_id : string;
  m_attempt_id : string;
  provider : string;
  backend_id : string;
  selected_tools : list string;
  selected_effects : dict;
  projection_hash : string
}.

Section authorization.
Context `{FloatText} `{Digest} `{DateTimes}.

Definition _canonical_json : pyval → result string := canonical_json EffectAuthorizationError canonical_message.
Definition _content_hash (payload : dict) : result string :=
  canonical_sha256 EffectAuthorizationError canonical_message (PDict payload).
Definition _normalize_json_value : pyval → string → result pyval :=
  norm_json EffectAuthorizationError canonical_message.
Definition _normalize_effects (v : pyval) (field : string) : result dict :=
  match v with
  | PDict ((_ :: _) as d) =>
      kvs ← mapM_result (λ kv,
        name ← _required_text (PStr kv.1) (field +:+ ".domain");
        x ← _normalize_json_value kv.2 (field +:+ "." +:+ name);
        Ok (name, x)) d;
      let normalized := dict_of kvs in
      _ ← _canonical_json (PDict normalized);
      Ok normalized
  | _ => raise EffectAuthorizationError (field +:+ " must be a non-empty mapping")
  end.
Definition _normalize_tools (v : pyval) : result (list string) :=
  match as_array v with
  | None => raise EffectAuthorizationError "selected_tools must be a sequence"
  | Some l =>
      items ← mapM_result (λ x, _required_text x "selected_tools.item") l;
      let tools := sort_unique items in
      _ ← raise_if (bool_decide (tools = [])) EffectAuthorizationError "selected_tools must be non-empty";
      Ok tools
  end.

Fixpoint _is_subset (selected ceiling : pyval) : result bool :=
  match selected with
  | PDict d =>
      match ceiling with
      | PDict c =>
          (fix all (d : dict) : result bool :=
            match d with
            | [] => Ok true
            | (key, value) :: d =>
                match dict_get key c with
                | Some w => match _is_subset value w with Ok true => all d | r => r end
                | None => Ok false
                end
            end) d
      | _ => Ok false
      end
  | PList l =>
      match ceiling with
      | PList c =>
          ceiling_items ← mapM_result _canonical_json c;
          (fix all (l : list pyval) : result bool :=
            match l with
            | [] => Ok true
            | item :: l => t ← _canonical_json item; if text_in t ceiling_items then all l else Ok false
            end) l
      | _ => Ok false
      end
  | _ => Ok (py_eq selected ceiling)
  end.

Definition _parse_expiry (value : string) : result Z :=
  parsed ← catch (fromisoformat value) ValueError
    (λ _, raise EffectAuthorizationError "expires_at must be ISO-8601");
  _ ← raise_if (negb (aware parsed)) EffectAuthorizationError "expires_at must include timezone";
  utc_instant parsed.

(** [EffectAuthorityPort.verify] with the host's verifier. *)
Definition verify (verifier : EffectAuthorization → result pyval) (a : EffectAuthorization) : result bool :=
  r ← verifier a;
  match r with
  | PBool true => Ok true
  | _ => raise EffectAuthorizationError "effect authorization authority rejected the authorization"
  end.

(** The mapping that is hashed. *)
Definition authorization_body (a : EffectAuthorization) : dict := [
  ("schema", PStr EFFECT_AUTHORIZATION_SCHEMA); ("authority_id", PStr (authority_id a));
  ("authority_ref", PStr (authority_ref a)); ("operation_id", PStr (operation_id a));
  ("attempt_id", PStr (attempt_id a)); ("repository", PStr (repository a));
  ("source_revision", opt_str (source_revision a)); ("base_revision", opt_str (base_revision a));
  ("workspace_id", opt_str (workspace_id a)); ("target_id", opt_str (target_id a));
  ("expires_at", opt_str (expires_at a)); ("effects", PDict (effects a))].
Definition authorization_to_dict (a : EffectAuthorization) : dict :=
  authorization_body a ++ [("authorization_hash", PStr (authorization_hash a))].

(** [EffectAuthorization.build]. *)
Definition build_authorization (b : authorization_args) : result EffectAuthorization :=
  authority ← _required_text (b_authority_id b) "authority_id";
  ref ← _required_text (b_authority_ref b) "authority_ref";
  operation ← _required_text (b_operation_id b) "operation_id";
  attempt ← _required_text (b_attempt_id b) "attempt_id";
  repo ← _required_text (b_repository b) "repository";
  source ← _optional_text (b_source_revision b) "source_revision";
  base ← _optional_text (b_base_revision b) "base_revision";
  workspace ← _optional_text (b_workspace_id b) "workspace_id";
  target ← _optional_text (b_target_id b) "target_id";
  expires ← _optional_text (b_expires_at b) "expires_at";
  granted ← _normalize_effects (b_effects b) "effects";
  _ ← match expires with Some t => _ ← _parse_expiry t; Ok () | None => Ok () end;
  let sealed h := {| authority_id := authority; authority_ref := ref; operation_id := operation;
    attempt_id := attempt; repository := repo; effects := granted; source_revision := source;
    base_revision := base; workspace_id := workspace; target_id := target; expires_at := expires;
    authorization_hash := h |} in
  h ← _content_hash (authorization_body (sealed EmptyString));
  Ok (sealed h).

Definition authorization_from_mapping (v : pyval) : result EffectAuthorization :=
  match v with
  | PDict payload =>
      _ ← raise_if (negb (keys_are _EFFECT_AUTHORIZATION_FIELDS payload)) EffectAuthorizationError
            "effect authorization fields mismatch";
      _ ← raise_if (negb (is_text (py_get payload "schema") EFFECT_AUTHORIZATION_SCHEMA))
            EffectAuthorizationError "effect authorization schema mismatch";
      built ← build_authorization {| b_authority_id := py_get payload "authority_id";
        b_authority_ref := py_get payload "authority_ref"; b_operation_id := py_get payload "operation_id";
        b_attempt_id := py_get payload "attempt_id"; b_repository := py_get payload "repository";
        b_effects := py_get payload "effects"; b_source_revision := py_get payload "source_revision";
        b_base_revision := py_get payload "base_revision"; b_workspace_id := py_get payload "workspace_id";
        b_target_id := py_get payload "target_id"; b_expires_at := py_get payload "expires_at" |};
      observed ← _required_text (py_get payload "authorization_hash") "authorization_hash";
      _ ← raise_if (negb (String.eqb observed (authorization_hash built))) EffectAuthorizationError
            "effect authorization hash mismatch";
      Ok built
  | _ => raise EffectAuthorizationError "effect_authorization must be a mapping"
  end.

Definition assert_integrity (a : EffectAuthorization) : result unit :=
  h ← _content_hash (authorization_body a);
  raise_if (negb (String.eqb h (authorization_hash a))) EffectAuthorizationError
    "effect authorization content mutated after hashing".

(** [clock] is [datetime.now(UTC)]. *)
Definition assert_fresh (a : EffectAuthorization) (now : option datetime) (clock : datetime) : result unit :=
  match expires_at a with
  | None => Ok ()
  | Some expiry =>
      let current := default clock now in
      let current := if aware current then current else replace_utc current in
      t ← utc_instant current;
      limit ← _parse_expiry expiry;
      raise_if (limit <=? t)%Z EffectAuthorizationError "effect authorization expired"
  end.

(** The fields [assert_identity] compares, in its order, with the expected values; [None]
    skips a comparison. *)
Definition identity_pairs (a : EffectAuthorization) (x : expected_identity) :
    list (string * (option string * option string)) := [
  ("attempt_id", (Some (attempt_id a), x_attempt_id x));
  ("operation_id", (Some (operation_id a), x_operation_id x));
  ("repository", (Some (repository a), x_repository x));
  ("source_revision", (source_revision a, x_source_revision x));
  ("base_revision", (base_revision a, x_base_revision x));
  ("workspace_id", (workspace_id a, x_workspace_id x));
  ("target_id", (target_id a, x_target_id x))].
Definition assert_identity (a : EffectAuthorization) (x : expected_identity) : result unit :=
  _ ← mapM_result (λ p,
    match p.2.2 with
    | None => Ok ()
    | Some value => raise_if (negb (bool_decide (p.2.1 = Some value))) EffectAuthorizationError
                      ("effect authorization identity mismatch: " +:+ p.1)
    end) (identity_pairs a x);
  Ok ().

(** ** The derived projection *)
Definition projection_body (m : ToolProjectionManifest) : dict := [
  ("schema", PStr TOOL_PROJECTION_SCHEMA); ("authorization_hash", PStr (m_authorization_hash m));
  ("operation_id", PStr (m_operation_id m)); ("attempt_id", PStr (m_attempt_id m));
  ("provider", PStr (provider m)); ("backend_id", PStr (backend_id m));
  ("selected_tools", str_list (selected_tools m)); ("selected_effects", PDict (selected_effects m));
  ("authority_kind", PStr "DERIVED_PROJECTION_ONLY")].
Definition projection_to_dict (m : ToolProjectionManifest) : dict :=
  projection_body m ++ [("projection_hash", PStr (projection_hash m))].

(** [ToolProjectionManifest.build]. *)
Definition build_projection (a : EffectAuthorization) (provider backend tools selected : pyval)
    (clock : datetime) : result ToolProjectionManifest :=
  _ ← assert_integrity a;
  _ ← assert_fresh a None clock;
  provider_value ← _required_text provider "provider";
  backend_value ← _required_text backend "backend_id";
  tools ← _normalize_tools tools;
  granted ← _normalize_effects selected "selected_effects";
  within ← _is_subset (PDict granted) (PDict (effects a));
  _ ← raise_if (negb within) EffectAuthorizationError "tool projection widens authorized effects";
  let sealed h := {| m_authorization_hash := authorization_hash a; m_operation_id := operation_id a;
    m_attempt_id := attempt_id a; provider := provider_value; backend_id := backend_value;
    selected_tools := tools; selected_effects := granted; projection_hash := h |} in
  h ← _content_hash (projection_body (sealed EmptyString));
  Ok (sealed h).

Definition projection_from_mapping (v : pyval) (a : EffectAuthorization) (clock : datetime) :
    result ToolProjectionManifest :=
  match v with
  | PDict payload =>
      let bad b msg := raise_if b EffectAuthorizationError msg in
      _ ← bad (negb (keys_are _TOOL_PROJECTION_FIELDS payload)) "tool projection fields mismatch";
      _ ← bad (negb (is_text (py_get payload "schema") TOOL_PROJECTION_SCHEMA)) "tool projection schema mismatch";
      _ ← bad (negb (is_text (py_get payload "authority_kind") "DERIVED_PROJECTION_ONLY"))
            "tool projection cannot become authority";
      _ ← bad (negb (is_text (py_get payload "authorization_hash") (authorization_hash a)))
            "tool projection authorization hash mismatch";
      built ← build_projection a (py_get payload "provider") (py_get payload "backend_id")
                (py_get payload "selected_tools") (py_get payload "selected_effects") clock;
      _ ← bad (negb (is_text (py_get payload "operation_id") (operation_id a)))
            "tool projection operation identity mismatch";
      _ ← bad (negb (is_text (py_get payload "attempt_id") (attempt_id a)))
            "tool projection attempt identity mismatch";
      observed ← _required_text (py_get payload "projection_hash") "projection_hash";
      _ ← bad (negb (String.eqb observed (projection_hash built))) "tool projection hash mismatch";
      Ok built
  | _ => raise EffectAuthorizationError "tool projection manifest must be a mapping"
  end.
End authorization.

(** * Lemmas *)

(** ** Normalised effects *)
Section normalisation.
Context `{FloatText} `{Digest} `{DateTimes}.

Definition effect_member (field : string) (kv : string * pyval) : result (string * pyval) :=
  name ← _required_text (PStr kv.1) (field +:+ ".domain");
  x ← _normalize_json_value kv.2 (field +:+ "." +:+ name); Ok (name, x).
Lemma dict_set_nonempty {A} k (v : A) d : dict_set k v d ≠ [].
Proof. destruct d as [|[k' w] d]; cbn; [done|]. by destruct (String.eqb k k'). Qed.
Lemma dict_of_nonempty {A} (l : list (string * A)) : l ≠ [] → dict_of l ≠ [].
Proof.
  induction l as [|x l _] using rev_ind; [done|]. intros _. unfold dict_of. rewrite foldl_app. cbn.
  apply dict_set_nonempty.
Qed.
Lemma normalize_effects_Ok v field d :
  py_wf v = true → _normalize_effects v field = Ok d → normal (PDict d) = true ∧ d ≠ [].
Proof.
  unfold _normalize_effects. intros Hwf. destruct v as [| | | | | | |[|kv l]|]; try done. fold effect_member.
  intros (kvs & Hk & (? & _ & [= <-])%bind_Ok_inv)%bind_Ok_inv. split.
  - apply normal_dict. split; [apply NoDup_dict_of|]. apply dict_of_Forall.
    cbn [py_wf] in Hwf. apply andb_true_iff in Hwf as [_ Hwf]. apply Forall_forallb in Hwf.
    apply mapM_result_Ok_inv in Hk. revert Hwf.
    induction Hk as [|[key value] y l' k' Hx _ IH]; intros Hwf; constructor; inversion Hwf; subst; [|by apply IH].
    apply bind_Ok_inv in Hx as (name & Hn & (x' & Hx' & [= <-])%bind_Ok_inv).
    split; [by eapply req_text_key|]. by eapply norm_json_normal.
  - apply dict_of_nonempty. apply mapM_result_length in Hk. by destruct kvs.
Qed.
Lemma normalize_effects_id d field :
  normal (PDict d) = true → d ≠ [] → _normalize_effects (PDict d) field = Ok d.
Proof.
  intros Hn Hne. pose proof Hn as [Hnd Hd]%normal_dict. unfold _normalize_effects.
  destruct d as [|kv d]; [done|]. rewrite mapM_result_id.
  - cbn [mbind result_bind]. rewrite dict_of_id by done.
    unfold _canonical_json. by rewrite normal_canonical.
  - eapply Forall_impl; [exact Hd|]. intros [k x] [Hk Hx]. cbn in *. unfold _required_text.
    rewrite req_text_of_key by done. cbn [mbind result_bind]. unfold _normalize_json_value.
    by rewrite norm_json_id.
Qed.
Lemma normalize_tools_Ok v tools :
  _normalize_tools v = Ok tools → string_set tools = true ∧ tools ≠ [].
Proof.
  unfold _normalize_tools. destruct (as_array v) as [l|]; [|done].
  intros (items & Hi%mapM_req_text_keys & (? & Hne%raise_if_Ok_inv & [= <-])%bind_Ok_inv)%bind_Ok_inv.
  split; [by apply sort_unique_string_set|]. by apply bool_decide_eq_false in Hne.
Qed.
Lemma normalize_tools_id tools :
  string_set tools = true → tools ≠ [] → _normalize_tools (str_list tools) = Ok tools.
Proof.
  intros [Hs Hk]%string_set_spec Hne. unfold _normalize_tools.
  change (as_array (str_list tools)) with (Some (map PStr tools)). cbv iota beta.
  unfold _required_text. rewrite mapM_req_text_of_keys by done. cbn [mbind result_bind].
  rewrite Hs. by rewrite bool_decide_false.
Qed.
Lemma optional_text_Ok v field o :
  _optional_text v field = Ok o → match o with Some s => stripped_key s = true | None => True end.
Proof.
  destruct o as [s|]; [|done]. unfold _optional_text.
  destruct v; try done; intros (? & Hs%req_text_key & [= <-])%bind_Ok_inv; done.
Qed.
Lemma optional_text_id o field :
  match o with Some s => stripped_key s = true | None => True end →
  _optional_text (opt_str o) field = Ok o.
Proof.
  destruct o as [s|]; [|done]. intros Hs. cbn [opt_str _optional_text]. unfold _required_text.
  by rewrite req_text_of_key.
Qed.
End normalisation.

(** ** What a projection may hold *)

(** The value at a path of keys. *)
Fixpoint at_path (path : list string) (v : pyval) : option pyval :=
  match path with
  | [] => Some v
  | k :: path => match v with PDict d => x ← dict_get k d; at_path path x | _ => None end
  end.
(** A selected value against what the ceiling has at the same place: a mapping needs a
    mapping, a list may only repeat items of the ceiling's list, any other value equals. *)
Definition allowed `{FloatText} (v : pyval) (w : option pyval) : Prop :=
  match w with
  | None => False
  | Some w =>
      match v with
      | PDict _ => is_mapping w = true
      | PList l => ∃ l', w = PList l' ∧ ∀ x, x ∈ l → ∃ y, y ∈ l' ∧ jnorm x = jnorm y
      | _ => py_eq v w = true
      end
  end.
Definition within `{FloatText} (v w : pyval) : Prop :=
  ∀ path x, at_path path v = Some x → allowed x (at_path path w).

Section subset.
Context `{FloatText}.

Lemma is_subset_dict d c :
  _is_subset (PDict d) (PDict c) = Ok true ↔
  Forall (λ kv, ∃ w, dict_get kv.1 c = Some w ∧ _is_subset kv.2 w = Ok true) d.
Proof.
  cbn. induction d as [|[k v] d IH]; [done|]. rewrite Forall_cons, <- IH. cbn. clear IH.
  destruct (dict_get k c) as [w|].
  - destruct (_is_subset v w) as [[]|] eqn:E.
    + split; [|by intros [_ ?]]. intros ?. split; [|done]. by exists w.
    + split; [done|]. intros [(w' & [= <-] & ?) _]. congruence.
    + split; [done|]. intros [(w' & [= <-] & ?) _]. congruence.
  - split; [done|]. by intros [(? & ? & _) _].
Qed.
Lemma is_subset_list l c :
  _is_subset (PList l) (PList c) = Ok true ↔
  ∃ texts, mapM_result _canonical_json c = Ok texts ∧
    Forall (λ x, ∃ t, _canonical_json x = Ok t ∧ t ∈ texts) l.
Proof.
  cbn. destruct (mapM_result _canonical_json c) as [texts|]; cbn [mbind result_bind].
  2: { split; [done|]. by intros (? & ? & _). }
  assert ((fix all (l : list pyval) : result bool :=
      match l with
      | [] => Ok true
      | item :: l => t ← _canonical_json item; if text_in t texts then all l else Ok false
      end) l = Ok true ↔ Forall (λ x, ∃ t, _canonical_json x = Ok t ∧ t ∈ texts) l) as ->.
  { induction l as [|x l IH]; [done|]. rewrite Forall_cons, <- IH. clear IH.
    destruct (_canonical_json x) as [t|] eqn:E; cbn [mbind result_bind].
    - destruct (text_in t texts) eqn:Et.
      + apply text_in_spec in Et. split; [|by intros [_ ?]]. intros ?. split; [|done]. by exists t.
      + apply text_in_false in Et. split; [done|]. intros [(? & [= <-] & ?) _]. done.
    - split; [done|]. by intros [(? & ? & _) _]. }
  split; [by exists texts|]. by intros (? & [= <-] & ?).
Qed.
Lemma canonical_same x y t :
  py_wf x = true → py_wf y = true → _canonical_json x = Ok t → _canonical_json y = Ok t → jnorm x = jnorm y.
Proof. intros Hx Hy Ex%canonical_json_Ok Ey%canonical_json_Ok. by eapply json_dumps_inj. Qed.

Lemma is_subset_within v w :
  py_wf v = true → py_wf w = true → _is_subset v w = Ok true → within v w.
Proof.
  revert w. induction v as [|b|z|f|s|l IH|l IH|d IH|t s] using pyval_ind'; intros w Hv Hw Hs path x Hx;
    try (destruct path; [|done]; injection Hx as <-; cbn; cbn in Hs; by injection Hs).
  - destruct path; [|done]. injection Hx as <-. cbn [at_path allowed].
    destruct w as [| | | | |c| | |]; try done. exists c. split; [done|]. intros item Hitem.
    apply is_subset_list in Hs as (texts & Hc & Hl). rewrite Forall_forall in Hl.
    destruct (Hl item Hitem) as (t & Ht & Hin). apply mapM_result_Ok_inv in Hc.
    apply list_elem_of_lookup in Hin as [i Hi].
    destruct (Forall2_lookup_r _ _ _ _ _ Hc Hi) as (y & Hy & Hyt). apply list_elem_of_lookup_2 in Hy.
    exists y. split; [done|]. cbn [py_wf] in Hv, Hw. apply Forall_forallb in Hv, Hw.
    rewrite Forall_forall in Hv, Hw. apply (canonical_same _ _ t); auto.
  - destruct w as [| | | | | | |c|]; try done.
    destruct path as [|k path]; [by injection Hx as <-|]. cbn [at_path] in *.
    apply is_subset_dict in Hs. rewrite Forall_forall in Hs.
    destruct (dict_get k d) as [v|] eqn:Ek; [|done]. cbn in Hx.
    destruct (Hs (k, v)) as (w & Hg & Hsub); [by apply dict_get_In|]. cbn in Hg, Hsub. rewrite Hg.
    cbn. rewrite Forall_forall in IH.
    apply (IH (k, v) (dict_get_In _ _ _ Ek) w); [exact (py_wf_get _ _ _ Hv Ek)|exact (py_wf_get _ _ _ Hw Hg)|done|done].
Qed.
Lemma within_is_subset v w :
  normal v = true → normal w = true → within v w → _is_subset v w = Ok true.
Proof.
  revert w. induction v as [|b|z|f|s|l IH|l IH|d IH|t s] using pyval_ind'; intros w Hv Hw Hin;
    pose proof (Hin [] _ eq_refl) as H0; cbn [at_path allowed] in H0;
    try (match goal with |- _is_subset ?v ?w = _ => change (Ok (py_eq v w) = Ok true); by rewrite H0 end).
  - destruct H0 as (c & -> & Hl). apply is_subset_list.
    cbn [normal] in Hv, Hw. apply Forall_forallb in Hv, Hw.
    exists (map (λ y, json_print false (jnorm y)) c). split.
    + apply mapM_result_Forall2. clear - Hw. induction Hw as [|y c Hy _ IHc]; constructor; [|done].
      unfold _canonical_json. by rewrite normal_canonical.
    + apply Forall_forall. intros x Hx. destruct (Hl x Hx) as (y & Hy & E).
      rewrite Forall_forall in Hv. exists (json_print false (jnorm x)).
      split; [unfold _canonical_json; by rewrite normal_canonical by auto|].
      rewrite E. apply list_elem_of_fmap. by exists y.
  - destruct w as [| | | | | | |c|]; try done. apply is_subset_dict.
    apply normal_dict in Hv as [Hn Hd], Hw as [Hn' Hc]. rewrite Forall_forall in *.
    intros [k v] Hk. pose proof (dict_get_NoDup _ _ _ Hn Hk) as Hg.
    pose proof (Hin [k] v) as Hk1. cbn [at_path] in Hk1. rewrite Hg in Hk1. specialize (Hk1 eq_refl).
    cbn. destruct (dict_get k c) as [w|] eqn:Ec; [|done]. exists w. split; [done|].
    apply (IH (k, v) Hk); [by apply Hd|by apply (Hc (k, w)), dict_get_In|].
    intros path x Hx. pose proof (Hin (k :: path) x) as Hp. cbn [at_path] in Hp.
    rewrite Hg, Ec in Hp. by apply Hp.
Qed.
End subset.

(** ** Sealed authorizations *)
Definition same_authorization (a b : EffectAuthorization) : Prop :=
  [authority_id a; authority_ref a; operation_id a; attempt_id a; repository a] =
  [authority_id b; authority_ref b; operation_id b; attempt_id b; repository b] ∧
  [source_revision a; base_revision a; workspace_id a; target_id a; expires_at a] =
  [source_revision b; base_revision b; workspace_id b; target_id b; expires_at b] ∧
  jnorm (PDict (effects a)) = jnorm (PDict (effects b)).
Lemma py_wf_opt_str o : py_wf (opt_str o) = true.
Proof. by destruct o. Qed.
Lemma authorization_body_wf a :
  py_wf (PDict (effects a)) = true → py_wf (PDict (authorization_body a)) = true.
Proof.
  intros He. cbn [py_wf authorization_body forallb keys map fst snd]. rewrite !py_wf_opt_str.
  cbn [py_wf] in He. by rewrite He.
Qed.
Lemma authorization_body_inj a b :
  jnorm (PDict (authorization_body a)) = jnorm (PDict (authorization_body b)) → same_authorization a b.
Proof.
  intros E. apply jnorm_members in E; [|by apply (bool_decide_eq_true_1 _)|done].
  cbn [authorization_body map fst snd] in E. rewrite !jnorm_opt_str in E.
  injection E as E1 E2 E3 E4 E5 E6 E7 E8 E9 E10 E11.
  apply opt_str_inj in E6, E7, E8, E9, E10. unfold same_authorization. split; [congruence|].
  split; [congruence|]. cbn [jnorm]. by f_equal.
Qed.
#[export] Instance Sealed_authorization : Sealed EffectAuthorization :=
  {| sealed_doc a := PDict (authorization_body a);
     sealed_ok a := py_wf (PDict (effects a)) = true;
     sealed_same := same_authorization;
     sealed_wf := authorization_body_wf;
     sealed_inj a b _ _ E := authorization_body_inj a b E |}.

Section authorizations.
Context `{FloatText} `{Digest} `{DateTimes}.

Definition optional_key (o : option string) : Prop :=
  match o with Some s => stripped_key s = true | None => True end.
(** A built authorization: stripped texts, normal effects, an expiry that can be read. *)
Record authorization_wf (a : EffectAuthorization) : Prop := {
  wf_texts : Forall (λ s, stripped_key s = true)
    [authority_id a; authority_ref a; operation_id a; attempt_id a; repository a];
  wf_optional : Forall optional_key
    [source_revision a; base_revision a; workspace_id a; target_id a; expires_at a];
  wf_effects : normal (PDict (effects a)) = true ∧ effects a ≠ [];
  wf_expiry : match expires_at a with Some t => is_ok (_parse_expiry t) = true | None => True end;
  wf_hash : _content_hash (authorization_body a) = Ok (authorization_hash a)
}.
Lemma content_hash_hex d h : _content_hash d = Ok h → is_hex64 h = true.
Proof. intros (t & _ & [= <-])%bind_Ok_inv. apply sha256_hex_wf. Qed.

Lemma build_authorization_wf b a :
  py_wf (b_effects b) = true → build_authorization b = Ok a → authorization_wf a.
Proof.
  intros Hwf. unfold build_authorization. cbv zeta.
  intros (? & T1%req_text_key & (? & T2%req_text_key & (? & T3%req_text_key & (? & T4%req_text_key & Ha)%bind_Ok_inv)%bind_Ok_inv)%bind_Ok_inv)%bind_Ok_inv.
  apply bind_Ok_inv in Ha as (? & T5%req_text_key & (? & O1%optional_text_Ok & (? & O2%optional_text_Ok & Ha)%bind_Ok_inv)%bind_Ok_inv).
  apply bind_Ok_inv in Ha as (? & O3%optional_text_Ok & (? & O4%optional_text_Ok & (? & O5%optional_text_Ok & Ha)%bind_Ok_inv)%bind_Ok_inv).
  apply bind_Ok_inv in Ha as (? & [He Hne]%(normalize_effects_Ok _ _ _ Hwf) & (? & Hx & (h & Hh & [= <-])%bind_Ok_inv)%bind_Ok_inv).
  split; cbn [authority_id authority_ref operation_id attempt_id repository source_revision base_revision
    workspace_id target_id expires_at effects authorization_hash].
  - by repeat constructor.
  - by repeat constructor.
  - done.
  - destruct x8; [|done]. by apply bind_Ok_inv in Hx as (? & -> & _).
  - exact Hh.
Qed.
(** A well-formed authorization's own document builds it again. *)
Lemma rebuild a :
  authorization_wf a →
  build_authorization {| b_authority_id := PStr (authority_id a); b_authority_ref := PStr (authority_ref a);
    b_operation_id := PStr (operation_id a); b_attempt_id := PStr (attempt_id a);
    b_repository := PStr (repository a); b_effects := PDict (effects a);
    b_source_revision := opt_str (source_revision a); b_base_revision := opt_str (base_revision a);
    b_workspace_id := opt_str (workspace_id a); b_target_id := opt_str (target_id a);
    b_expires_at := opt_str (expires_at a) |} = Ok a.
Proof.
  intros [Ht Ho [He Hne] Hx Hh]. unfold build_authorization. cbv zeta.
  cbn [b_authority_id b_authority_ref b_operation_id b_attempt_id b_repository b_effects
    b_source_revision b_base_revision b_workspace_id b_target_id b_expires_at].
  repeat (apply Forall_cons in Ht as [? Ht]). repeat (apply Forall_cons in Ho as [? Ho]).
  unfold _required_text. do 5 (rewrite req_text_of_key by done; cbn [mbind result_bind]).
  do 5 (rewrite optional_text_id by done; cbn [mbind result_bind]).
  rewrite normalize_effects_id by done. cbn [mbind result_bind].
  assert (match expires_at a with Some t => _ ← _parse_expiry t; Ok () | None => Ok () end = Ok ()) as ->.
  { destruct (expires_at a) as [t|]; [|done]. by destruct (_parse_expiry t). }
  cbn [mbind result_bind]. unfold authorization_body in Hh |- *.
  cbn [authority_id authority_ref operation_id attempt_id repository source_revision base_revision
    workspace_id target_id expires_at effects authorization_hash]. rewrite Hh. cbn [mbind result_bind].
  by destruct a.
Qed.
Lemma authorization_roundtrip a :
  authorization_wf a → authorization_from_mapping (PDict (authorization_to_dict a)) = Ok a.
Proof.
  intros Ha. unfold authorization_from_mapping.
  change (keys_are _EFFECT_AUTHORIZATION_FIELDS (authorization_to_dict a)) with
    (keys_are _EFFECT_AUTHORIZATION_FIELDS (map (λ k, (k, PNone)) _EFFECT_AUTHORIZATION_FIELDS)).
  assert (keys_are _EFFECT_AUTHORIZATION_FIELDS (map (λ k, (k, PNone)) _EFFECT_AUTHORIZATION_FIELDS) = true) as ->
    by (vm_compute; reflexivity).
  cbn [negb raise_if mbind result_bind].
  change (is_text (py_get (authorization_to_dict a) "schema") EFFECT_AUTHORIZATION_SCHEMA) with true.
  cbn [negb raise_if mbind result_bind].
  pose proof (rebuild a Ha) as Hr. unfold authorization_to_dict, authorization_body, py_get.
  cbn [app dict_get String.eqb Ascii.eqb Bool.eqb default from_option id].
  rewrite Hr. cbn [mbind result_bind]. unfold _required_text.
  rewrite req_text_of_key by (eapply hex64_key, content_hash_hex, wf_hash, Ha).
  cbn [mbind result_bind]. by rewrite String.eqb_refl.
Qed.
Lemma authorization_from_mapping_wf v a :
  py_wf v = true → authorization_from_mapping v = Ok a → authorization_wf a.
Proof.
  intros Hv. unfold authorization_from_mapping. destruct v as [| | | | | | |d|]; try done.
  intros (? & _ & (? & _ & (b & Hb & (? & _ & (? & _ & [= <-])%bind_Ok_inv)%bind_Ok_inv)%bind_Ok_inv)%bind_Ok_inv)%bind_Ok_inv.
  eapply build_authorization_wf; [|exact Hb]. by apply py_wf_py_get.
Qed.
(** Well-formed authorizations with one hash grant the same, or their texts collide. *)
Lemma same_hash_same_grant a b :
  authorization_wf a → authorization_wf b → authorization_hash a = authorization_hash b →
  same_authorization a b ∨
  ∃ s t, _canonical_json (PDict (authorization_body a)) = Ok s ∧
    _canonical_json (PDict (authorization_body b)) = Ok t ∧ collision (utf8 s) (utf8 t).
Proof.
  intros Ha Hb E. pose proof (wf_hash a Ha) as Hh. rewrite E in Hh.
  destruct (seal_binds EffectAuthorizationError canonical_message a b (authorization_hash b)) as [E'|E'];
    [by apply normal_facts, Ha|by apply normal_facts, Hb|exact Hh|apply Hb|left; exact E'|right; exact E'].
Qed.
Lemma integrity_iff a :
  assert_integrity a = Ok () ↔ _content_hash (authorization_body a) = Ok (authorization_hash a).
Proof.
  unfold assert_integrity. destruct (_content_hash _) as [h|]; cbn [mbind result_bind]; [|done].
  split; [|by intros [= ->]; rewrite String.eqb_refl].
  intros Hh%raise_if_Ok_inv%negb_false_iff%String.eqb_eq. by rewrite Hh.
Qed.
(** The authorization has no expiry, or one after the time of the clock. *)
Definition unexpired (a : EffectAuthorization) (clock : datetime) : Prop :=
  match expires_at a with
  | None => True
  | Some expiry =>
      ∃ t limit, utc_instant (if aware clock then clock else replace_utc clock) = Ok t ∧
        _parse_expiry expiry = Ok limit ∧ (t < limit)%Z
  end.
Lemma fresh_iff a clock : assert_fresh a None clock = Ok () ↔ unexpired a clock.
Proof.
  unfold assert_fresh, unexpired. destruct (expires_at a) as [expiry|]; [|done]. cbn [default from_option id]. split.
  - intros (t & Ht & (limit & Hl & Hle%raise_if_Ok_inv)%bind_Ok_inv)%bind_Ok_inv. exists t, limit. split_and!; [done..|lia].
  - intros (t & limit & -> & -> & Hlt). cbn [mbind result_bind]. by rewrite (proj2 (Z.leb_gt _ _) Hlt).
Qed.
End authorizations.

#[export] Instance Sealed_projection : Sealed ToolProjectionManifest.
Proof.
  refine {| sealed_doc m := PDict (projection_body m);
     sealed_ok m := py_wf (PDict (selected_effects m)) = true;
     sealed_same m n := provider m = provider n ∧ backend_id m = backend_id n ∧
       selected_tools m = selected_tools n ∧
       jnorm (PDict (selected_effects m)) = jnorm (PDict (selected_effects n)) |}.
  - intros m He. cbn [py_wf projection_body forallb keys map fst snd]. rewrite str_list_wf.
    cbn [py_wf] in He. by rewrite He.
  - intros m n _ _ E. apply jnorm_members in E; [|by apply (bool_decide_eq_true_1 _)|done].
    cbn [projection_body map fst snd] in E. rewrite !jnorm_of_str_list in E.
    injection E as E1 E2 E3 E4 E5 E6 E7. split_and!; [done|done|exact (str_list_inj _ _ (f_equal PList E6))|]. cbn [jnorm]. by f_equal.
Defined.

(** ** The projection *)
Section projections.
Context `{FloatText} `{Digest} `{DateTimes}.

(** What stands in a manifest built for [a]. *)
Definition projects (a : EffectAuthorization) (prov backend tools selected : pyval)
    (m : ToolProjectionManifest) : Prop :=
  (m_authorization_hash m = authorization_hash a ∧ m_operation_id m = operation_id a ∧
   m_attempt_id m = attempt_id a) ∧
  (_required_text prov "provider" = Ok (provider m) ∧
   _required_text backend "backend_id" = Ok (backend_id m) ∧
   _normalize_tools tools = Ok (selected_tools m) ∧
   _normalize_effects selected "selected_effects" = Ok (selected_effects m)) ∧
  within (PDict (selected_effects m)) (PDict (effects a)) ∧
  _content_hash (projection_body m) = Ok (projection_hash m).
Lemma build_projection_iff a prov backend tools selected clock m :
  normal (PDict (effects a)) = true → py_wf selected = true →
  build_projection a prov backend tools selected clock = Ok m ↔
  assert_integrity a = Ok () ∧ assert_fresh a None clock = Ok () ∧ projects a prov backend tools selected m.
Proof.
  intros Hn Hsel. pose proof (normal_facts _ Hn) as (Hw & _). unfold build_projection, projects. cbv zeta. split.
  - intros ([] & Hi & ([] & Hf & (p & Hp & (b & Hb & Hm)%bind_Ok_inv)%bind_Ok_inv)%bind_Ok_inv)%bind_Ok_inv.
    apply bind_Ok_inv in Hm as (t & Ht & (g & Hg & ([] & Hs & (? & Hwi & (h & Hh & [= <-])%bind_Ok_inv)%bind_Ok_inv)%bind_Ok_inv)%bind_Ok_inv).
    2: discriminate Hwi.
    split_and!; try done. cbn [selected_effects]. apply is_subset_within; [|done|done].
    by apply (normalize_effects_Ok _ _ _ Hsel), proj1, normal_facts in Hg as (? & _).
  - intros (Hi & Hf & (E1 & E2 & E3) & (Hp & Hb & Ht & Hg) & Hs & Hh).
    rewrite Hi, Hf, Hp, Hb, Ht, Hg. cbn [mbind result_bind].
    rewrite within_is_subset; [|exact (proj1 (normalize_effects_Ok _ _ _ Hsel Hg))|done|done]. cbn [negb raise_if mbind result_bind].
    rewrite <- E1, <- E2, <- E3. unfold projection_body in Hh |- *. cbn [m_authorization_hash m_operation_id
      m_attempt_id provider backend_id selected_tools selected_effects projection_hash].
    rewrite Hh. cbn [mbind result_bind]. by destruct m.
Qed.
Lemma projection_from_mapping_built v a clock m :
  projection_from_mapping v a clock = Ok m →
  ∃ payload, v = PDict payload ∧ build_projection a (py_get payload "provider") (py_get payload "backend_id")
    (py_get payload "selected_tools") (py_get payload "selected_effects") clock = Ok m.
Proof.
  unfold projection_from_mapping. destruct v as [| | | | | | |d|]; try done. cbv zeta.
  intros (? & _ & (? & _ & (? & _ & (? & _ & (b & Hb & Hm)%bind_Ok_inv)%bind_Ok_inv)%bind_Ok_inv)%bind_Ok_inv)%bind_Ok_inv.
  apply bind_Ok_inv in Hm as (? & _ & (? & _ & (? & _ & (? & _ & [= <-])%bind_Ok_inv)%bind_Ok_inv)%bind_Ok_inv).
  by exists d.
Qed.
Lemma projection_roundtrip a prov backend tools selected clock m :
  normal (PDict (effects a)) = true → py_wf selected = true →
  build_projection a prov backend tools selected clock = Ok m →
  projection_from_mapping (PDict (projection_to_dict m)) a clock = Ok m.
Proof.
  intros Hn Hsel Hb. pose proof (proj1 (build_projection_iff _ _ _ _ _ _ _ Hn Hsel) Hb)
    as (Hi & Hf & (E1 & E2 & E3) & (Hp & Hbk & Ht & Hg) & Hs & Hh).
  destruct (normalize_effects_Ok _ _ _ Hsel Hg) as [Hgn Hgne].
  destruct (normalize_tools_Ok _ _ Ht) as [Hts Htne].
  assert (build_projection a (PStr (provider m)) (PStr (backend_id m)) (str_list (selected_tools m))
            (PDict (selected_effects m)) clock = Ok m) as Hagain.
  { apply build_projection_iff; [done|by apply normal_facts|]. unfold projects. split_and!; try done.
    - by eapply req_text_of_key, req_text_key.
    - by eapply req_text_of_key, req_text_key.
    - by apply normalize_tools_id.
    - by apply normalize_effects_id. }
  unfold projection_from_mapping.
  change (keys_are _TOOL_PROJECTION_FIELDS (projection_to_dict m)) with
    (keys_are _TOOL_PROJECTION_FIELDS (map (λ k, (k, PNone)) _TOOL_PROJECTION_FIELDS)).
  assert (keys_are _TOOL_PROJECTION_FIELDS (map (λ k, (k, PNone)) _TOOL_PROJECTION_FIELDS) = true) as ->
    by (vm_compute; reflexivity).
  cbv zeta. cbn [negb raise_if mbind result_bind].
  change (is_text (py_get (projection_to_dict m) "schema") TOOL_PROJECTION_SCHEMA) with true.
  change (is_text (py_get (projection_to_dict m) "authority_kind") "DERIVED_PROJECTION_ONLY") with true.
  change (py_get (projection_to_dict m) "authorization_hash") with (PStr (m_authorization_hash m)).
  change (py_get (projection_to_dict m) "operation_id") with (PStr (m_operation_id m)).
  change (py_get (projection_to_dict m) "attempt_id") with (PStr (m_attempt_id m)).
  change (py_get (projection_to_dict m) "projection_hash") with (PStr (projection_hash m)).
  change (py_get (projection_to_dict m) "provider") with (PStr (provider m)).
  change (py_get (projection_to_dict m) "backend_id") with (PStr (backend_id m)).
  change (py_get (projection_to_dict m) "selected_tools") with (str_list (selected_tools m)).
  change (py_get (projection_to_dict m) "selected_effects") with (PDict (selected_effects m)).
  rewrite Hagain, E1, E2, E3, !(proj2 (is_text_spec _ _) eq_refl).
  cbn [negb raise_if mbind result_bind]. unfold _required_text.
  rewrite req_text_of_key by (by eapply hex64_key, content_hash_hex).
  cbn [mbind result_bind]. by rewrite String.eqb_refl.
Qed.
End projections.

(** * Properties *)
Section properties.
Context `{FloatText} `{Digest} `{DateTimes}.

(** An authorization survives the wire and cannot be edited.  What [build] returns is
    read back from its own mapping as itself and passes the integrity check; and any other
    authorization that passes the check with the same hash grants the same thing to the same
    operation, attempt and repository until the same time, or the two canonical texts are a
    SHA-256 collision. *)
Theorem authorization_sealed b a (Hb : build_authorization b = Ok a) (Hwf : py_wf (b_effects b) = true) :
  authorization_from_mapping (PDict (authorization_to_dict a)) = Ok a ∧
  assert_integrity a = Ok () ∧
  ∀ a', py_wf (PDict (effects a')) = true → assert_integrity a' = Ok () →
    authorization_hash a' = authorization_hash a →
    same_authorization a' a ∨
    ∃ s t, _canonical_json (PDict (authorization_body a')) = Ok s ∧
      _canonical_json (PDict (authorization_body a)) = Ok t ∧ collision (utf8 s) (utf8 t).
Proof.
  pose proof (build_authorization_wf b a Hwf Hb) as Ha.
  split; [by apply authorization_roundtrip|]. split; [apply integrity_iff, Ha|].
  intros a' Hwf' Hi%integrity_iff Hh. rewrite Hh in Hi.
  destruct (seal_binds EffectAuthorizationError canonical_message a' a (authorization_hash a)) as [E|E];
    [exact Hwf'|by apply normal_facts, Ha|exact Hi|apply Ha|left; exact E|right; exact E].
Qed.

(** C24: a projection never widens its authorization.  For any authorization record whose
    effects are JSON data as [build] leaves them (whoever made or changed the record, and
    whatever hash it carries), a manifest is built exactly when the record's content still
    has the hash it carries, it has not expired at the clock, the provider, backend, tools
    and effects are well formed, and at every path of keys the selected effects hold only
    what the authorized effects hold there (a mapping under a mapping, items of the
    authorized list, a value equal under Python's [==], which lets 1 pass for true); it
    carries the authorization's hash, operation and attempt; and its own mapping is read
    back as the same manifest. *)
Theorem projection_never_widens a prov backend tools selected clock m
    (Hn : normal (PDict (effects a)) = true) (Hsel : py_wf selected = true) :
  (build_projection a prov backend tools selected clock = Ok m ↔
   _content_hash (authorization_body a) = Ok (authorization_hash a) ∧ unexpired a clock ∧
   projects a prov backend tools selected m) ∧
  (build_projection a prov backend tools selected clock = Ok m →
   projection_from_mapping (PDict (projection_to_dict m)) a clock = Ok m).
Proof.
  split; [|by apply projection_roundtrip].
  by rewrite build_projection_iff, integrity_iff, fresh_iff.
Qed.
End properties.

(** * Witnesses *)
#[local] Existing Instance Sha256_Digest.
#[local] Existing Instance Dyadic_FloatText.
(** Times written as the decimal number of their instant. *)
#[local] Existing Instance Decimal_DateTimes.

Module Witness.
Definition args (granted : pyval) : authorization_args :=
  {| b_authority_id := PStr "owner"; b_authority_ref := PStr " ref-1"; b_operation_id := PStr "op-1";
     b_attempt_id := PStr "at-1"; b_repository := PStr "repo"; b_effects := granted;
     b_source_revision := PStr "abc"; b_base_revision := PNone; b_workspace_id := PNone;
     b_target_id := PNone; b_expires_at := PStr "100+00:00" |}.
Definition granted : pyval :=
  PDict [("fs", PDict [("paths", PTuple [PStr "src"; PStr "docs"]); ("write", PBool true)]);
         ("net", PDict [("hosts", PList [])])].
Definition wanted : pyval := PDict [("fs", PDict [("paths", PList [PStr "src"])])].
Definition nothing : EffectAuthorization :=
  {| authority_id := EmptyString; authority_ref := EmptyString; operation_id := EmptyString;
     attempt_id := EmptyString; repository := EmptyString; effects := []; source_revision := None;
     base_revision := None; workspace_id := None; target_id := None; expires_at := None;
     authorization_hash := EmptyString |}.
Definition authorization : EffectAuthorization :=
  match build_authorization (args granted) with Ok a => a | Err _ => nothing end.
Definition tools : pyval := PList [PStr "read"; PStr "edit"].
Definition now : @datetime Decimal_DateTimes := (true, 7%Z).
Definition project (clock : @datetime Decimal_DateTimes) (wanted : pyval) : result ToolProjectionManifest :=
  build_projection authorization (PStr "provider") (PStr "backend") tools wanted clock.
Definition manifest : ToolProjectionManifest :=
  match project now wanted with
  | Ok m => m
  | Err _ => {| m_authorization_hash := EmptyString; m_operation_id := EmptyString;
      m_attempt_id := EmptyString; provider := EmptyString; backend_id := EmptyString;
      selected_tools := []; selected_effects := []; projection_hash := EmptyString |}
  end.
End Witness.
Import Witness.

Lemma authorization_sealed_witness :
  authorization_from_mapping (PDict (authorization_to_dict authorization)) = Ok authorization ∧
  assert_integrity authorization = Ok () ∧
  ∀ a', py_wf (PDict (effects a')) = true → assert_integrity a' = Ok () →
    authorization_hash a' = authorization_hash authorization →
    same_authorization a' authorization ∨
    ∃ s t, _canonical_json (PDict (authorization_body a')) = Ok s ∧
      _canonical_json (PDict (authorization_body authorization)) = Ok t ∧ collision (utf8 s) (utf8 t).
Proof. apply (authorization_sealed (args granted) authorization); vm_compute; reflexivity. Defined.
Lemma projection_never_widens_witness :
  build_projection authorization (PStr "provider") (PStr "backend") tools wanted now = Ok manifest ∧
  _content_hash (authorization_body authorization) = Ok (authorization_hash authorization) ∧
  unexpired authorization now ∧
  projects authorization (PStr "provider") (PStr "backend") tools wanted manifest ∧
  projection_from_mapping (PDict (projection_to_dict manifest)) authorization now = Ok manifest.
Proof.
  assert (build_projection authorization (PStr "provider") (PStr "backend") tools wanted now = Ok manifest) as Hm
    by (vm_compute; reflexivity).
  destruct (projection_never_widens authorization (PStr "provider") (PStr "backend")
    tools wanted now manifest) as [[Hiff _] Hback]; [vm_compute; reflexivity|vm_compute; reflexivity|].
  split; [exact Hm|]. destruct (Hiff Hm) as (Hi & Hf & Hp).
  split; [exact Hi|]. split; [exact Hf|]. split; [exact Hp|exact (Hback Hm)].
Defined.
(** Effects changed after the hash was taken are refused, also where the selection is within them. *)
Definition edited : EffectAuthorization :=
  {| authority_id := authority_id authorization; authority_ref := authority_ref authorization;
     operation_id := operation_id authorization; attempt_id := attempt_id authorization;
     repository := repository authorization; effects := [("exec", PBool true)];
     source_revision := source_revision authorization; base_revision := base_revision authorization;
     workspace_id := workspace_id authorization; target_id := target_id authorization;
     expires_at := expires_at authorization; authorization_hash := authorization_hash authorization |}.
Example edited_authorization_refused :
  build_projection edited (PStr "provider") (PStr "backend") tools (PDict [("exec", PBool true)]) now
    = raise EffectAuthorizationError "effect authorization content mutated after hashing".
Proof. vm_compute. reflexivity. Qed.

(** A wider selection, or an expired authorization, is refused. *)
Example widening_is_refused :
  project now (PDict [("fs", PDict [("paths", PList [PStr "etc"])])])
    = raise EffectAuthorizationError "tool projection widens authorized effects" ∧
  project now (PDict [("exec", PBool true)])
    = raise EffectAuthorizationError "tool projection widens authorized effects" ∧
  project (true, 100%Z) wanted = raise EffectAuthorizationError "effect authorization expired".
Proof. vm_compute. split_and!; reflexivity. Qed.
(** Scalars are compared with [==], so the number 1 is allowed where [true] is granted,
    although as items of a list the two differ. *)
Example one_passes_for_true :
  is_ok (project now (PDict [("fs", PDict [("write", PInt 1)])])) = true ∧
  _is_subset (PList [PInt 1]) (PList [PBool true]) = Ok false.
Proof. vm_compute. split; reflexivity. Qed.
