(* ===== verification/DeveloperFeedback.v ===== *)
(** * Developer feedback decisions
    ([src/src/nexus_runtime/kernel/feedback/contracts.py] and the store
    [DeveloperFeedbackDecisionStore] of [src/src/nexus_runtime/kernel/events/log_store.py])

    A validated, non-authoritative decision about a task, and the append-only JSON-lines
    stream that keeps them: the records of a task form a hash chain.

    A stream is the text of its file ([None]: no file); its size is that of the UTF-8
    bytes.  Bytes that are not UTF-8 and lock time-outs are not represented: operations
    hold the file lock and are run one after the other. *)
From Stdlib Require Import Ascii String SpecFloat.
From S2P Require Import Prelude PyValue Json Lines Digest Instances Contract.

(** ** Tokens *)
(** The pattern [^A B{0,n}$] of a first character and at most [n] others. *)
Record pattern : Type := { first : ascii → bool; rest : ascii → bool; most : nat }.
Definition fullmatch (p : pattern) (s : string) : bool :=
  match s with
  | EmptyString => false
  | String c r => first p c && str_forallb (rest p) r && (String.length r <=? most p)%nat
  end.
Definition upper_ascii (c : ascii) : bool := let n := code c in ((65 <=? n) && (n <=? 90))%N.
Definition alnum_ascii (c : ascii) : bool :=
  upper_ascii c || is_digit c || (let n := code c in ((97 <=? n) && (n <=? 122))%N).
Definition char_in (l : list ascii) (c : ascii) : bool := existsb (Ascii.eqb c) l.
Definition _CODE_RE : pattern := {|
  first := upper_ascii; most := 63;
  rest c := upper_ascii c || is_digit c || char_in ["_"; "."; ":"; "-"]%char c |}.
Definition _REF_RE : pattern := {|
  first := alnum_ascii; most := 127;
  rest c := alnum_ascii c || char_in ["_"; "."; ":"; "/"; "-"]%char c |}.
(** Control characters (the bidirectional overrides lie beyond the modelled range). *)
Definition _FORBIDDEN (c : ascii) : bool := ((code c <? 32) || (code c =? 127))%N.
Definition AUTHORITY_FLAG_KEYS : list string := ["approval"; "production"; "route"].

Definition token (p : pattern) (name : string) (v : pyval) : result string :=
  match v with
  | PStr s =>
      _ ← raise_if (String.eqb s EmptyString || (128 <? String.length s)%nat
                    || negb (str_forallb (λ c, negb (_FORBIDDEN c)) s) || negb (fullmatch p s))
            ValueError ("invalid " +:+ name +:+ " token");
      _ ← raise_if (existsb (λ x, str_contains x s) ["?"; "#"; "\"; "//"; "@"])
            ValueError ("invalid " +:+ name +:+ " token");
      Ok s
  | _ => raise ValueError ("invalid " +:+ name +:+ " token")
  end.
Definition _tokens (values : pyval) (p : pattern) (name : string) : result (list string) :=
  match as_array values with
  | None => raise ValueError (name +:+ " must be a sequence")
  | Some l =>
      _ ← raise_if (32 <? length l)%nat ValueError (name +:+ " exceeds stream ceiling");
      mapM_result (token p name) l
  end.

(** ** Decisions *)
Inductive FeedbackDecision : Set := KEEP | REVISE | REJECT | INVESTIGATE.
Definition decision_value (d : FeedbackDecision) : string :=
  match d with KEEP => "KEEP" | REVISE => "REVISE" | REJECT => "REJECT" | INVESTIGATE => "INVESTIGATE" end.
Definition ALL_DECISIONS : list FeedbackDecision := [KEEP; REVISE; REJECT; INVESTIGATE].
(** [FeedbackDecision(v)]. *)
Definition to_decision `{FloatText} (v : pyval) : result FeedbackDecision :=
  match List.find (λ d, is_text v (decision_value d)) ALL_DECISIONS with
  | Some d => Ok d
  | None => raise ValueError (py_repr v +:+ " is not a valid FeedbackDecision")
  end.

Record FailurePattern : Type := { pattern_code : string; description : string; severity : spec_float }.
Record FeedbackDirective : Type := {
  identified_patterns : list FailurePattern; retry_hints : list string; is_actionable : bool }.

Definition DECISION_SCHEMA := "nexus.developer_feedback_decision.v1".
Record DeveloperFeedbackDecision : Type := {
  task_id : string; decision_id : string; decision : FeedbackDecision;
  reason_codes : list string; evidence_refs : list string; request_digest : string;
  authority_flags : list (string * bool) }.
Definition NO_AUTHORITY : list (string * pyval) :=
  map (λ k, (k, PBool false)) AUTHORITY_FLAG_KEYS.

(** [_REF_RE.fullmatch] of an identifier. *)
Definition ref_id (v : pyval) (name : string) : result string :=
  match v with
  | PStr s => _ ← raise_if (negb (fullmatch _REF_RE s)) ValueError ("invalid " +:+ name); Ok s
  | _ => raise ValueError ("invalid " +:+ name)
  end.
Definition as_bool (v : pyval) : option bool := match v with PBool b => Some b | _ => None end.
(** The flags of a decision: the fixed keys, each a [bool], all false. *)
Definition check_flags (flags : list (string * pyval)) : result (list (string * bool)) :=
  _ ← raise_if (has_dups (keys flags) || negb (same_set (keys flags) AUTHORITY_FLAG_KEYS))
        ValueError "authority flags must use the fixed key set";
  _ ← raise_if (existsb (λ kv, match as_bool kv.2 with None => true | Some _ => false end) flags
                || existsb (λ kv, truthy kv.2) flags)
        ValueError "developer feedback cannot assert authority";
  Ok (map (λ kv, (kv.1, truthy kv.2)) flags).

(** [DeveloperFeedbackDecision(...)] with [__post_init__]. *)
Definition new_decision `{FloatText} (task decision_id decision reasons refs digest : pyval)
    (flags : list (string * pyval)) (schema : pyval) : result DeveloperFeedbackDecision :=
  _ ← raise_if (negb (is_text schema DECISION_SCHEMA)) ValueError "unsupported developer feedback schema";
  task ← ref_id task "task_id";
  decision_id ← ref_id decision_id "decision_id";
  decision ← to_decision decision;
  reasons ← _tokens reasons _CODE_RE "reason_codes";
  refs ← _tokens refs _REF_RE "evidence_refs";
  _ ← raise_if (negb (is_str digest)) ValueError "request_digest must be a string";
  _ ← raise_if (truthy digest && negb (is_hex64 (text_of digest))) ValueError "request_digest must be sha256";
  flags ← check_flags flags;
  Ok {| task_id := task; decision_id := decision_id; decision := decision; reason_codes := reasons;
        evidence_refs := refs; request_digest := text_of digest; authority_flags := flags |}.

Definition flags_dict (d : DeveloperFeedbackDecision) : dict :=
  dict_of (map (λ kv, (kv.1, PBool kv.2)) (authority_flags d)).
Definition to_record (d : DeveloperFeedbackDecision) (sequence parent : pyval) : dict := [
  ("schema", PStr DECISION_SCHEMA); ("task_id", PStr (task_id d)); ("decision_id", PStr (decision_id d));
  ("decision", PStr (decision_value (decision d))); ("reason_codes", str_list (reason_codes d));
  ("evidence_refs", str_list (evidence_refs d)); ("request_digest", PStr (request_digest d));
  ("authority_flags", PDict (flags_dict d)); ("sequence", sequence); ("parent_digest", parent)].

(** The double [0.9]. *)
Definition REJECT_SEVERITY : spec_float := S754_finite false 8106479329266893 (-53).
Definition directive_decision (dir : FeedbackDirective) : FeedbackDecision :=
  if is_actionable dir then REVISE
  else match identified_patterns dir with
  | [] => KEEP
  | ps => if existsb (λ p, SFleb REJECT_SEVERITY (severity p)) ps then REJECT else INVESTIGATE
  end.
Definition from_directive `{FloatText} (task id : pyval) (dir : FeedbackDirective) (refs : list string) :
    result DeveloperFeedbackDecision :=
  new_decision task id (PStr (decision_value (directive_decision dir)))
    (PTuple (map (λ p, PStr (pattern_code p)) (identified_patterns dir)))
    (PTuple (map PStr refs)) (PStr EmptyString) NO_AUTHORITY (PStr DECISION_SCHEMA).

(** ** The stream *)
(** [not raw.strip()], for bytes. *)
Definition blank_bytes (s : string) : bool :=
  str_forallb (λ c, let n := code c in ((n =? 32) || (9 <=? n) && (n <=? 13))%N) s.

Definition MAX_RECORDS : Z := 10000.
Definition MAX_BYTES : Z := 8 * 1024 * 1024.
Definition NO_PARENT : string := "0000000000000000000000000000000000000000000000000000000000000000".
Definition record_fields : list string :=
  ["schema"; "task_id"; "decision_id"; "decision"; "reason_codes"; "evidence_refs"; "request_digest";
   "authority_flags"; "sequence"; "parent_digest"; "record_digest"].

Record append_result : Type := { entry : dict; replayed : bool }.

(** [task_tails]: number of records and last digest, by task. *)
Abbreviation tails := (gmap string (Z * string)).

Section stream.
Context `{FloatText} `{Digest}.

Definition _canonical (v : dict) : result string := json_dumps false true (PDict v).
Definition record_hash (v : dict) : result string := t ← _canonical v; Ok (text_sha256 t).

Definition stored_flags_ok (v : pyval) : bool :=
  match v with
  | PDict flags =>
      same_set (keys flags) AUTHORITY_FLAG_KEYS
      && forallb (λ kv, match as_bool kv.2 with Some _ => true | None => false end) flags
      && negb (existsb (λ kv, truthy kv.2) flags)
  | _ => false
  end.
Definition is_str_list (v : pyval) : bool := match v with PList l => forallb is_str l | _ => false end.
Definition field_types_ok (obj : dict) : bool :=
  is_str (py_get obj "task_id") && is_str (py_get obj "decision_id")
  && is_str_list (py_get obj "reason_codes") && is_str_list (py_get obj "evidence_refs")
  && is_str (py_get obj "request_digest")
  && match py_get obj "sequence" with PInt _ => true | _ => false end
  && is_str (py_get obj "parent_digest") && is_str (py_get obj "record_digest")
  && (negb (truthy (py_get obj "request_digest")) || is_hex64 (text_of (py_get obj "request_digest")))
  && is_hex64 (text_of (py_get obj "parent_digest")) && is_hex64 (text_of (py_get obj "record_digest")).
Definition check_tokens (obj : dict) : result unit :=
  catch (_ ← _tokens (PTuple [py_get obj "task_id"]) _REF_RE "task_id";
         _ ← _tokens (PTuple [py_get obj "decision_id"]) _REF_RE "decision_id";
         _ ← _tokens (py_get obj "reason_codes") _CODE_RE "reason_codes";
         _ ← _tokens (py_get obj "evidence_refs") _REF_RE "evidence_refs"; Ok ())
    ValueError (λ _, raise ValueError "invalid decision token grammar").

Definition check_record (obj : dict) : result unit :=
  _ ← raise_if (negb (is_text (py_get obj "schema") DECISION_SCHEMA)) ValueError "invalid decision record";
  _ ← raise_if (negb (keys_are record_fields obj)) ValueError "invalid decision fields";
  known ← in_text_set (py_get obj "decision") (map decision_value ALL_DECISIONS);
  _ ← raise_if (negb known) ValueError "invalid decision fields";
  _ ← raise_if (negb (stored_flags_ok (py_get obj "authority_flags"))) ValueError "invalid authority flags";
  _ ← raise_if (negb (field_types_ok obj)) ValueError "invalid decision field types";
  check_tokens obj.
Definition _parse (line : string) : result dict :=
  v ← json_loads_unique line;
  match v with
  | PDict obj => _ ← check_record obj; Ok obj
  | _ => raise ValueError "invalid decision record"
  end.

Definition tail_of (m : tails) (task : string) : Z * string := default (0%Z, NO_PARENT) (m !! task).
Definition task_of (r : dict) : string := text_of (py_get r "task_id").
Definition unsigned (r : dict) : dict := dict_del "record_digest" r.
(** One record against the tails so far. *)
Definition link (m : tails) (r : dict) : result string :=
  let '(sequence, parent) := tail_of m (task_of r) in
  _ ← raise_if (negb (is_text (py_get r "parent_digest") parent)
                || negb (py_eq (py_get r "sequence") (PInt (sequence + 1))))
        ValueError "broken decision chain";
  digest ← record_hash (unsigned r);
  _ ← raise_if (negb (is_text (py_get r "record_digest") digest)) ValueError "tampered decision record";
  Ok digest.
Definition advance (m : tails) (r : dict) (digest : string) : tails :=
  <[task_of r := ((tail_of m (task_of r)).1 + 1, digest)%Z]> m.
Fixpoint scan_lines (m : tails) (lines : list string) : result (list dict) :=
  match lines with
  | [] => Ok []
  | line :: lines =>
      record ← _parse line;
      digest ← link m record;
      records ← scan_lines (advance m record digest) lines;
      Ok (record :: records)
  end.
Definition size_of (raw : string) : Z := Z.of_nat (String.length (utf8 raw)).
(** [records[-1]["record_digest"]], zeros for no record. *)
Definition chain_tail (records : list dict) : string :=
  match last records with Some r => text_of (py_get r "record_digest") | None => NO_PARENT end.
Definition _scan (stream : option string) : result (list dict * string * Z) :=
  match stream with
  | None | Some EmptyString => Ok ([], NO_PARENT, 0%Z)
  | Some raw =>
      _ ← raise_if ((MAX_BYTES <? size_of raw)%Z || negb (ends_with_newline raw) || blank_bytes raw)
            ValueError "corrupt decision stream";
      records ← scan_lines ∅ (bytes_splitlines raw);
      _ ← raise_if (MAX_RECORDS <? Z.of_nat (length records))%Z ValueError "decision stream ceiling exceeded";
      Ok (records, chain_tail records, size_of raw)
  end.

(** The records of one task. *)
Definition task_records (task : string) (records : list dict) : list dict :=
  List.filter (λ r, is_text (py_get r "task_id") task) records.

(** [append], with the lock held. *)
Definition append_locked (d : DeveloperFeedbackDecision) (expected_tail : option string) :
    prog (option string) append_result :=
  stream ← get_state;
  '(records, _, size) ← lift (_scan stream);
  let mine := task_records (task_id d) records in
  let sequence := (Z.of_nat (length mine) + 1)%Z in
  let tail := chain_tail mine in
  _ ← lift (raise_if (match expected_tail with Some t => negb (String.eqb t tail) | None => false end)
        ValueError "stale expected tail");
  match List.find (λ old, is_text (py_get old "decision_id") (decision_id d)) records with
  | Some old =>
      candidate ← lift (_canonical (to_record d (py_get old "sequence") (py_get old "parent_digest")));
      stored ← lift (_canonical (unsigned old));
      if String.eqb candidate stored then mret {| entry := old; replayed := true |}
      else lift (raise ValueError "idempotency conflict")
  | None =>
      let record := to_record d (PInt sequence) (PStr tail) in
      digest ← lift (record_hash record);
      let record := record ++ [("record_digest", PStr digest)] in
      text ← lift (_canonical record);
      let encoded := text +:+ newline in
      _ ← lift (raise_if ((MAX_BYTES <? size + size_of encoded)%Z || (MAX_RECORDS <=? Z.of_nat (length records))%Z)
            ValueError "decision stream ceiling exceeded");
      _ ← put_state (Some (default EmptyString stream +:+ encoded));
      mret {| entry := record; replayed := false |}
  end.
(** ** The store: the configured stream among the files *)
Record store : Type := { path : option string; streams : gmap string string }.
Definition stream_path (root : string) : string :=
  root +:+ "/.nexus/events/developer_feedback_decision.v1.jsonl".
Definition configure (root : string) (s : store) : store :=
  {| path := Some (stream_path root); streams := streams s |}.
Definition with_stream (p : string) (f : option string) (s : store) : store :=
  match f with
  | Some t => {| path := path s; streams := <[p := t]> (streams s) |}
  | None => s
  end.
Definition append (d : DeveloperFeedbackDecision) (expected_tail : option string) :
    prog store append_result := λ s,
  match path s with
  | None => (raise RuntimeError "store is not configured", s)
  | Some p => let '(r, f) := append_locked d expected_tail (streams s !! p) in (r, with_stream p f s)
  end.
Definition read_recent (limit : Z) (s : store) : result (list dict) :=
  match path s with
  | None => raise RuntimeError "store is not configured"
  | Some p => '(records, _, _) ← _scan (streams s !! p); Ok (last_items limit records)
  end.
End stream.

(** * Lines *)
Lemma size_of_app s t : size_of (s +:+ t) = (size_of s + size_of t)%Z.
Proof. unfold size_of. rewrite utf8_app, str_app_length. lia. Qed.

(** * Tokens *)
Lemma token_Ok p name v s : token p name v = Ok s → v = PStr s.
Proof. destruct v; try done. cbn. intros H. run_ok H. congruence. Qed.
Lemma _tokens_Ok p name v l : _tokens v p name = Ok l →
  length l ≤ 32 ∧ Forall (λ s, token p name (PStr s) = Ok s) l.
Proof.
  unfold _tokens. destruct (as_array v) as [k|]; [|done]. intros (u & Hk%raise_if_Ok_inv & Hl)%bind_Ok_inv.
  apply Nat.ltb_ge in Hk. split; [by rewrite (mapM_result_length _ _ _ Hl)|].
  apply mapM_result_Ok_inv in Hl. clear Hk. induction Hl as [|x s k l Hx _ IH]; constructor; [|done].
  by rewrite <- (token_Ok _ _ _ _ Hx) at 1.
Qed.
Lemma _tokens_again p name l : length l ≤ 32 → Forall (λ s, token p name (PStr s) = Ok s) l →
  _tokens (str_list l) p name = Ok l.
Proof.
  intros Hl Hs. unfold _tokens, str_list. cbn [as_array]. rewrite length_map.
  rewrite (proj2 (Nat.ltb_ge _ _)) by lia. cbn [raise_if mbind result_bind].
  apply mapM_result_Forall2. clear Hl. induction Hs; constructor; auto.
Qed.
Definition ref_char (c : ascii) : bool := alnum_ascii c || char_in ["_"; "."; ":"; "/"; "-"]%char c.
Lemma ref_chars s : fullmatch _REF_RE s = true → str_forallb ref_char s = true.
Proof.
  destruct s as [|c r]; [done|]. cbn. rewrite !andb_true_iff. intros [[Hc Hr] _].
  unfold ref_char at 1. by rewrite Hc.
Qed.
Lemma ref_char_safe c : ref_char c = true →
  _FORBIDDEN c = false ∧ Ascii.eqb "?" c = false ∧ Ascii.eqb "#" c = false ∧ Ascii.eqb "\" c = false ∧
  Ascii.eqb "@" c = false.
Proof. destruct c as [[] [] [] [] [] [] [] []]; try done. Qed.
(** An identifier of the constructor is a token unless it contains a double slash. *)
Lemma ref_token name s : fullmatch _REF_RE s = true →
  is_ok (token _REF_RE name (PStr s)) = negb (str_contains "//" s) ∧
  (str_contains "//" s = false → token _REF_RE name (PStr s) = Ok s) ∧
  (str_contains "//" s = true → token _REF_RE name (PStr s) = raise ValueError ("invalid " +:+ name +:+ " token")).
Proof.
  intros Hm. pose proof (ref_chars s Hm) as Hc. unfold token.
  assert ((s =? "")%string = false) as -> by by destruct s.
  assert ((128 <? String.length s)%nat = false) as ->.
  { apply Nat.ltb_ge. destruct s as [|c r]; [done|]. cbn in Hm |- *.
    rewrite !andb_true_iff, Nat.leb_le in Hm. lia. }
  rewrite Hm. assert (str_forallb (λ c, negb (_FORBIDDEN c)) s = true) as ->.
  { apply (str_forallb_impl ref_char); [|done]. intros c H%ref_char_safe. by destruct H as [-> _]. }
  cbn [negb orb raise_if mbind result_bind existsb].
  assert (∀ a, (∀ c, ref_char c = true → Ascii.eqb a c = false) → str_contains (String a "") s = false) as Hno.
  { intros a Ha. apply str_contains_char. apply (str_forallb_impl ref_char); [|done].
    intros c Hcc. by rewrite Ha. }
  rewrite (Hno "?"%char), (Hno "#"%char), (Hno "\"%char), (Hno "@"%char)
    by (intros c Hcc; apply ref_char_safe in Hcc; tauto).
  cbn [orb]. rewrite orb_false_r. by destruct (str_contains "//" s).
Qed.

(** * What the constructor guarantees *)
Definition decision_ok (d : DeveloperFeedbackDecision) : Prop :=
  fullmatch _REF_RE (task_id d) = true ∧ fullmatch _REF_RE (decision_id d) = true ∧
  (length (reason_codes d) ≤ 32 ∧ Forall (λ s, token _CODE_RE "reason_codes" (PStr s) = Ok s) (reason_codes d)) ∧
  (length (evidence_refs d) ≤ 32 ∧ Forall (λ s, token _REF_RE "evidence_refs" (PStr s) = Ok s) (evidence_refs d)) ∧
  (request_digest d = EmptyString ∨ is_hex64 (request_digest d) = true) ∧
  NoDup (keys (authority_flags d)) ∧ same_set (keys (authority_flags d)) AUTHORITY_FLAG_KEYS = true ∧
  Forall (λ kv, kv.2 = false) (authority_flags d).
Section constructor.
Context `{FloatText} `{Digest}.
Lemma new_decision_ok t i dn rs es dg fl sc d : new_decision t i dn rs es dg fl sc = Ok d → decision_ok d.
Proof.
  unfold new_decision. intros Hd. 
  apply bind_Ok_inv in Hd as (? & _ & (t' & Ht & (i' & Hi & (dn' & _ & (rs' & Hrs & (es' & Hes & (? & Hs & (? & Hdg & (fl' & Hfl & [= <-])%bind_Ok_inv)%bind_Ok_inv)%bind_Ok_inv)%bind_Ok_inv)%bind_Ok_inv)%bind_Ok_inv)%bind_Ok_inv)%bind_Ok_inv).
  unfold decision_ok. cbn.
  assert (∀ v n s, ref_id v n = Ok s → fullmatch _REF_RE s = true) as Hid.
  { intros v n s. destruct v; try done. cbn. intros (? & Hn%raise_if_Ok_inv & [= <-])%bind_Ok_inv.
    by apply negb_false_iff. }
  split; [by eapply Hid|]. split; [by eapply Hid|].
  split; [by eapply _tokens_Ok|]. split; [by eapply _tokens_Ok|]. split.
  { apply raise_if_Ok_inv in Hdg, Hs. destruct dg; try done. cbn in *.
    apply andb_false_iff in Hdg as [Hg|Hg]; apply negb_false_iff in Hg; [left|by right].
    by apply String.eqb_eq in Hg. }
  unfold check_flags in Hfl. apply bind_Ok_inv in Hfl as (? & Hk%raise_if_Ok_inv & (? & Hb%raise_if_Ok_inv & [= <-])%bind_Ok_inv).
  apply orb_false_iff in Hk as [Hn%has_dups_false Hk%negb_false_iff]. apply orb_false_iff in Hb as [_ Hb].
  unfold keys in *. rewrite map_map. cbn. split; [done|]. split; [done|]. rewrite Forall_map. cbn.
  clear -Hb. induction fl as [|kv fl IH]; [constructor|]. cbn in Hb. apply orb_false_iff in Hb as [H1 H2].
  constructor; [done|by apply IH].
Qed.
End constructor.

(** * Scanning *)
Section scanning.
Context `{FloatText} `{Digest}.

Definition after (m : tails) (rs : list dict) : tails :=
  foldl (λ m r, advance m r (text_of (py_get r "record_digest"))) m rs.
Definition parsed (r : dict) : Prop := check_record r = Ok () ∧ doc_ok (PDict r).

Lemma link_digest m r h : link m r = Ok h → py_get r "record_digest" = PStr h.
Proof.
  unfold link. destruct (tail_of _ _). intros (? & _ & (h' & _ & (? & Hd%raise_if_Ok_inv & [= <-])%bind_Ok_inv)%bind_Ok_inv)%bind_Ok_inv.
  apply negb_false_iff in Hd. by apply is_text_spec.
Qed.
Lemma scan_lines_app m l1 l2 :
  scan_lines m (l1 ++ l2) = (r1 ← scan_lines m l1; r2 ← scan_lines (after m r1) l2; Ok (r1 ++ r2)).
Proof.
  revert m. induction l1 as [|line l1 IH]; intros m; cbn.
  - by destruct (scan_lines m l2).
  - destruct (_parse line) as [r|]; cbn; [|done]. destruct (link m r) as [h|] eqn:Hl; cbn; [|done].
    rewrite IH. destruct (scan_lines _ l1) as [r1|]; cbn; [|done].
    rewrite (link_digest _ _ _ Hl). cbn. by destruct (scan_lines _ l2).
Qed.
Lemma parse_parsed line r : _parse line = Ok r → parsed r.
Proof.
  unfold _parse. intros (v & Hv & Hr)%bind_Ok_inv. destruct v; try done.
  apply bind_Ok_inv in Hr as ([] & Hc & [= <-]). split; [done|]. apply loads_with_doc in Hv.
  by apply json_doc_wf.
Qed.
Lemma scan_lines_parsed m lines rs : scan_lines m lines = Ok rs → Forall parsed rs.
Proof.
  revert m rs. induction lines as [|line lines IH]; intros m rs; cbn; [by intros [= <-]|].
  intros (r & Hr%parse_parsed & (h & _ & (rs' & Hrs & [= <-])%bind_Ok_inv)%bind_Ok_inv)%bind_Ok_inv.
  constructor; [done|by eapply IH].
Qed.

Lemma check_record_inv r : check_record r = Ok () →
  is_text (py_get r "schema") DECISION_SCHEMA = true ∧ keys_are record_fields r = true ∧
  stored_flags_ok (py_get r "authority_flags") = true ∧ field_types_ok r = true ∧ check_tokens r = Ok ().
Proof.
  unfold check_record. intros (? & H1%raise_if_Ok_inv & (? & H2%raise_if_Ok_inv & (? & H3 & (? & _ & (? & H4%raise_if_Ok_inv &
    (? & H5%raise_if_Ok_inv & H6)%bind_Ok_inv)%bind_Ok_inv)%bind_Ok_inv)%bind_Ok_inv)%bind_Ok_inv)%bind_Ok_inv.
  by rewrite negb_false_iff in H1, H2, H4, H5.
Qed.
Lemma parsed_task r : parsed r → py_get r "task_id" = PStr (task_of r).
Proof.
  intros [(_ & _ & _ & Ht & _)%check_record_inv _]. unfold field_types_ok in Ht.
  repeat (apply andb_true_iff in Ht as [Ht _]). unfold task_of. by destruct (py_get r "task_id").
Qed.
Lemma parsed_is_task t r : parsed r → is_text (py_get r "task_id") t = (t =? task_of r)%string.
Proof.
  intros Hr%parsed_task. rewrite Hr. destruct (String.eqb_spec t (task_of r)) as [->|Hne]; [by apply is_text_spec|].
  destruct (is_text _ _) eqn:E; [|done]. apply is_text_spec in E. congruence.
Qed.
Lemma task_records_app t rs rs' : task_records t (rs ++ rs') = task_records t rs ++ task_records t rs'.
Proof. apply List.filter_app. Qed.
Lemma task_records_single t r : parsed r → task_records t [r] = if (t =? task_of r)%string then [r] else [].
Proof. intros Hr. cbn. by rewrite parsed_is_task. Qed.

Lemma after_app m rs rs' : after m (rs ++ rs') = after (after m rs) rs'.
Proof. apply foldl_app. Qed.
Lemma tail_advance m r h t :
  tail_of (advance m r h) t = if (t =? task_of r)%string then ((tail_of m t).1 + 1, h)%Z else tail_of m t.
Proof.
  unfold tail_of, advance. destruct (String.eqb_spec t (task_of r)) as [->|Hne].
  - rewrite lookup_insert_eq. done.
  - by rewrite lookup_insert_ne.
Qed.
(** The tails kept while scanning are the records of each task so far. *)
Lemma tail_after rs t : Forall parsed rs →
  tail_of (after ∅ rs) t = (Z.of_nat (length (task_records t rs)), chain_tail (task_records t rs)).
Proof.
  induction rs as [|r rs IH] using rev_ind; intros Hp.
  - unfold tail_of, after. cbn [foldl]. by rewrite lookup_empty.
  - apply Forall_app in Hp as [Hp Hr]. apply (proj1 (Forall_singleton parsed r)) in Hr. rewrite after_app, task_records_app.
    specialize (IH Hp). rewrite (task_records_single t r Hr). unfold after in *. cbn [foldl]. rewrite tail_advance, IH.
    destruct (t =? task_of r)%string; [|by rewrite app_nil_r].
    rewrite length_app. unfold chain_tail. rewrite last_snoc. cbn. f_equal. lia.
Qed.

(** What a scan that returns has read. *)
Lemma scan_spec f rs t n : _scan f = Ok (rs, t, n) ↔
  let raw := default EmptyString f in
  scan_lines ∅ (bytes_splitlines raw) = Ok rs ∧ n = size_of raw ∧ t = chain_tail rs ∧
  (n ≤ MAX_BYTES)%Z ∧ (Z.of_nat (length rs) ≤ MAX_RECORDS)%Z ∧
  (raw = EmptyString ∨ ends_with_newline raw = true ∧ blank_bytes raw = false).
Proof.
  cbv zeta. destruct f as [raw|]; cbn [default from_option id].
  2: { split; [intros [= <- <- <-]; repeat split; try done; by left|]. by intros ([= <-] & -> & -> & _). }
  destruct raw as [|c s].
  { split; [intros [= <- <- <-]; repeat split; try done; by left|]. by intros ([= <-] & -> & -> & _). }
  change (_scan (Some (String c s))) with (
      _ ← raise_if ((MAX_BYTES <? size_of (String c s))%Z || negb (ends_with_newline (String c s)) || blank_bytes (String c s))
            ValueError "corrupt decision stream";
      records ← scan_lines ∅ (bytes_splitlines (String c s));
      _ ← raise_if (MAX_RECORDS <? Z.of_nat (length records))%Z ValueError "decision stream ceiling exceeded";
      Ok (records, chain_tail records, size_of (String c s))).
  generalize (String c s) (eq_refl : negb (String.eqb (String c s) "") = true). clear c s.
  intros raw Hne. split.
  - intros (? & Hb%raise_if_Ok_inv & (rs' & -> & (? & Hc%raise_if_Ok_inv & [= <- <- <-])%bind_Ok_inv)%bind_Ok_inv)%bind_Ok_inv.
    rewrite !orb_false_iff in Hb. destruct Hb as [[Hb%Z.ltb_ge He%negb_false_iff] Hs].
    apply Z.ltb_ge in Hc. eauto 10.
  - intros (-> & -> & -> & Hb & Hc & [->|[He Hs]]); [done|].
    rewrite He, Hs, (proj2 (Z.ltb_ge _ _) Hb). cbn. by rewrite (proj2 (Z.ltb_ge _ _) Hc).
Qed.
Lemma scan_parsed f rs t n : _scan f = Ok (rs, t, n) → Forall parsed rs.
Proof. intros (Hs & _)%scan_spec. by eapply scan_lines_parsed. Qed.
End scanning.
(** * One record, written and read *)
Section record.
Context `{FloatText} `{Digest}.

Definition no_slashes (d : DeveloperFeedbackDecision) : bool :=
  negb (str_contains "//" (task_id d)) && negb (str_contains "//" (decision_id d)).
Definition signed (d : DeveloperFeedbackDecision) (n : Z) (parent h : string) : dict :=
  to_record d (PInt n) (PStr parent) ++ [("record_digest", PStr h)].

Lemma flags_dict_eq d : decision_ok d → flags_dict d = map (λ kv, (kv.1, PBool kv.2)) (authority_flags d).
Proof.
  intros (_ & _ & _ & _ & _ & Hn & _). unfold flags_dict. apply dict_of_id.
  unfold keys in *. by rewrite map_map.
Qed.
Lemma flags_dict_ok d : decision_ok d → doc_ok (PDict (flags_dict d)).
Proof.
  intros Hd. rewrite flags_dict_eq by done. destruct Hd as (_ & _ & _ & _ & _ & Hn & _).
  split; cbn.
  - rewrite bool_decide_true by (unfold keys in *; by rewrite map_map). cbn.
    rewrite forallb_map. cbn. clear Hn. by induction (authority_flags d).
  - rewrite forallb_map. cbn. clear Hn. by induction (authority_flags d).
Qed.
Lemma to_record_ok d n parent : decision_ok d → doc_ok (PDict (to_record d (PInt n) (PStr parent))).
Proof.
  intros [Hw Hp]%flags_dict_ok. pose proof (str_list_wf (reason_codes d)). pose proof (str_list_wf (evidence_refs d)).
  pose proof (str_list_plain (reason_codes d)). pose proof (str_list_plain (evidence_refs d)).
  unfold to_record. revert Hw Hp. generalize (PDict (flags_dict d)). intros v Hw Hp.
  split; cbn; rewrite ?Hw, ?Hp; by repeat match goal with E : _ = true |- _ => rewrite E end.
Qed.
Lemma signed_ok d n parent h : decision_ok d → doc_ok (PDict (signed d n parent h)).
Proof.
  intros [Hw Hp]%flags_dict_ok. pose proof (str_list_wf (reason_codes d)). pose proof (str_list_wf (evidence_refs d)).
  pose proof (str_list_plain (reason_codes d)). pose proof (str_list_plain (evidence_refs d)).
  unfold signed, to_record. revert Hw Hp. generalize (PDict (flags_dict d)). intros v Hw Hp.
  split; cbn; rewrite ?Hw, ?Hp; by repeat match goal with E : _ = true |- _ => rewrite E end.
Qed.
Lemma canonical_ok v : doc_ok (PDict v) → _canonical v = Ok (json_print false (jnorm (PDict v))).
Proof. intros [_ Hp]. unfold _canonical, json_dumps. by rewrite json_check_jnorm by by apply json_check_ok. Qed.
Lemma record_hash_jnorm v w : jnorm (PDict v) = jnorm (PDict w) → record_hash v = record_hash w.
Proof. intros E. unfold record_hash, _canonical. by rewrite (json_dumps_jnorm _ _ _ _ E). Qed.
Lemma canonical_jnorm v w : jnorm (PDict v) = jnorm (PDict w) → _canonical v = _canonical w.
Proof. intros E. unfold _canonical. by rewrite (json_dumps_jnorm _ _ _ _ E). Qed.

(** Removing a member commutes with writing and reading back. *)
Lemma jnorm_del k d d' : py_wf (PDict d) = true → jnorm (PDict d) = PDict d' →
  jnorm (PDict (dict_del k d')) = jnorm (PDict (dict_del k d)).
Proof.
  intros Hwf Hd. pose proof (py_wf_nodup _ Hwf) as Hn.
  assert (py_wf (PDict d') = true) as Hwf' by by rewrite <- Hd, py_wf_jnorm.
  pose proof (py_wf_nodup _ Hwf') as Hn'.
  apply jnorm_members_ext; [by apply py_wf_del..|]. intros q. rewrite !dict_get_del by done.
  destruct (q =? k)%string; [done|]. apply jnorm_dict_get; [done..|].
  rewrite <- Hd. by apply jnorm_idem.
Qed.
Lemma unsigned_signed d n parent h : unsigned (signed d n parent h) = to_record d (PInt n) (PStr parent).
Proof. done. Qed.

(** Written as the same document. *)
Definition same_doc (r r' : dict) : Prop := jnorm (PDict r) = jnorm (PDict r').
Definition bad_tokens : exn := Exn ValueError "invalid decision token grammar".
(** The checks a record meets when it is read: only double slashes fail. *)
Lemma check_signed d n parent h r : decision_ok d → is_hex64 parent = true → is_hex64 h = true →
  jnorm (PDict (signed d n parent h)) = PDict r →
  check_record r = if no_slashes d then Ok () else Err bad_tokens.
Proof.
  intros Hd Hp Hh Hr. pose proof (py_wf_nodup _ (proj1 (signed_ok d n parent h Hd))) as Hn.
  assert (∀ k, py_get r k = jnorm (py_get (signed d n parent h) k)) as G by (intros; by apply py_get_jnorm).
  assert (keys_are record_fields r = true) as Hk.
  { apply same_set_spec. intros x. assert (keys r ≡ₚ keys (signed d n parent h)) as ->; [|done].
    apply (f_equal (λ v, match v with PDict x => x | _ => [] end)) in Hr. cbn [jnorm] in Hr.
    rewrite <- Hr. apply keys_jnorm. }
  assert (py_get r "authority_flags" = jnorm (PDict (flags_dict d))) as Hf by (rewrite G; done).
  assert (py_get r "reason_codes" = str_list (reason_codes d)) as Hrs by (rewrite G; apply jnorm_of_str_list).
  assert (py_get r "evidence_refs" = str_list (evidence_refs d)) as Hes by (rewrite G; apply jnorm_of_str_list).
  assert (∀ l, is_str_list (str_list l) = true) as Hstr by (intros l; unfold str_list; cbn; by induction l).
  assert (stored_flags_ok (jnorm (PDict (flags_dict d))) = true) as Hfl.
  { rewrite flags_dict_eq by done. destruct Hd as (_ & _ & _ & _ & _ & Hnf & Hs & Hall). cbn [jnorm stored_flags_ok].
    apply andb_true_iff; split; [apply andb_true_iff; split|].
    - rewrite same_set_spec in *. intros x. rewrite <- Hs, keys_jnorm. unfold keys. by rewrite map_map.
    - rewrite (forallb_perm _ _ _ (sort_items_perm _)), !forallb_map. cbn. clear. by induction (authority_flags d).
    - apply negb_true_iff, not_true_iff_false. rewrite existsb_exists. intros ([k v] & Hin & Hv).
      apply list_elem_of_In in Hin. rewrite sort_items_perm in Hin.
      apply list_elem_of_In, in_map_iff in Hin as ([k1 v1] & [= -> <-] & Hin).
      apply in_map_iff in Hin as ([k2 b] & [= -> <-] & Hin%list_elem_of_In).
      rewrite Forall_forall in Hall. specialize (Hall _ Hin). cbn in *. congruence. }
  unfold check_record. rewrite Hk, Hf, Hfl, (G "schema"), (G "decision"). 
  assert (in_text_set (jnorm (py_get (signed d n parent h) "decision")) (map decision_value ALL_DECISIONS) = Ok true) as ->
    by (cbn; by destruct (decision d)).
  assert (field_types_ok r = true) as ->.
  { unfold field_types_ok. rewrite Hrs, Hes, !Hstr, !G. cbn [py_get dict_get signed to_record app jnorm].
    destruct Hd as (_ & _ & _ & _ & Hdg & _). cbn. rewrite Hp, Hh.
    destruct Hdg as [->| ->]; [done|]. by rewrite orb_true_r. }
  cbn [negb raise_if mbind result_bind]. replace (is_text _ _) with true by (by symmetry; apply is_text_spec).
  cbn [negb raise_if mbind result_bind]. unfold check_tokens. rewrite Hrs, Hes, (G "task_id"), (G "decision_id").
  destruct Hd as (Ht & Hi & [Hl1 H1] & [Hl2 H2] & _). rewrite (_tokens_again _ _ _ Hl1 H1), (_tokens_again _ _ _ Hl2 H2).
  unfold no_slashes. change (jnorm (py_get (signed d n parent h) "task_id")) with (PStr (task_id d)).
  change (jnorm (py_get (signed d n parent h) "decision_id")) with (PStr (decision_id d)).
  destruct (ref_token "task_id" _ Ht) as (_ & T0 & T1). destruct (ref_token "decision_id" _ Hi) as (_ & I0 & I1).
  unfold _tokens. cbn [as_array length raise_if mbind result_bind mapM_result Nat.ltb Nat.leb].
  destruct (str_contains "//" (task_id d)); [by rewrite T1|]. rewrite T0 by done.
  destruct (str_contains "//" (decision_id d)); [by rewrite I1|]. by rewrite I0.
Qed.
(** The line of a record, read back. *)
Lemma parse_signed d n parent h : decision_ok d → is_hex64 parent = true → is_hex64 h = true →
  ∃ r, jnorm (PDict (signed d n parent h)) = PDict r ∧
    _parse (json_print false (jnorm (PDict (signed d n parent h))))
    = if no_slashes d then Ok r else Err bad_tokens.
Proof.
  intros Hd Hp Hh. pose proof (signed_ok d n parent h Hd) as Hok.
  assert (∃ r, jnorm (PDict (signed d n parent h)) = PDict r) as [r Hr] by (cbn [jnorm]; eauto).
  exists r. split; [done|]. unfold _parse, json_loads_unique.
  pose proof (loads_with_dumps true false true _ _ EmptyString (proj1 Hok) (canonical_ok _ Hok) eq_refl eq_refl) as E.
  rewrite str_app_nil_r in E. rewrite E, Hr. cbn [mbind result_bind].
  rewrite (check_signed d n parent h r) by done. by destruct (no_slashes d).
Qed.
End record.

(** * Appending *)
Section appending.
Context `{FloatText} `{Digest}.

Lemma record_hash_ok v : doc_ok (PDict v) →
  ∃ h, record_hash v = Ok h ∧ is_hex64 h = true.
Proof.
  intros Hv%canonical_ok. unfold record_hash. rewrite Hv. cbn. eexists. split; [done|]. apply sha256_hex_wf.
Qed.
Lemma parsed_hex r : parsed r → is_hex64 (text_of (py_get r "record_digest")) = true.
Proof.
  intros [(_ & _ & _ & Ht & _)%check_record_inv _]. unfold field_types_ok in Ht.
  by apply andb_true_iff in Ht as [_ ?].
Qed.
Lemma chain_tail_hex rs : Forall parsed rs → is_hex64 (chain_tail rs) = true.
Proof.
  intros Hp. unfold chain_tail. destruct (last rs) as [r|] eqn:E; [|done].
  apply last_Some_elem_of in E. rewrite Forall_forall in Hp. by apply parsed_hex, Hp.
Qed.
Lemma task_records_parsed t rs : Forall parsed rs → Forall parsed (task_records t rs).
Proof.
  unfold task_records. induction 1 as [|r rs Hr _ IH]; cbn; [done|]. case_match; [by constructor|done].
Qed.

Definition next_record (d : DeveloperFeedbackDecision) (rs : list dict) : dict :=
  to_record d (PInt (Z.of_nat (length (task_records (task_id d) rs)) + 1))
    (PStr (chain_tail (task_records (task_id d) rs))).
Definition same_id (d : DeveloperFeedbackDecision) (old : dict) : bool :=
  is_text (py_get old "decision_id") (decision_id d).

(** What an acknowledged append has done. *)
Definition replays (d : DeveloperFeedbackDecision) (rs : list dict) (res : append_result) : Prop :=
  replayed res = true ∧ List.find (same_id d) rs = Some (entry res) ∧
  ∃ text, _canonical (to_record d (py_get (entry res) "sequence") (py_get (entry res) "parent_digest")) = Ok text ∧
    _canonical (unsigned (entry res)) = Ok text.
Definition extends_by (d : DeveloperFeedbackDecision) (f : option string) (rs : list dict) (n : Z)
    (res : append_result) (f' : option string) : Prop :=
  replayed res = false ∧ List.find (same_id d) rs = None ∧
  ∃ h text, record_hash (next_record d rs) = Ok h ∧ entry res = next_record d rs ++ [("record_digest", PStr h)] ∧
    _canonical (entry res) = Ok text ∧
    (n + size_of (text +:+ newline) ≤ MAX_BYTES)%Z ∧ (Z.of_nat (length rs) < MAX_RECORDS)%Z ∧
    f' = Some (default EmptyString f +:+ (text +:+ newline)).

Lemma append_locked_inv d e f res f' : append_locked d e f = (Ok res, f') →
  ∃ rs t n, _scan f = Ok (rs, t, n) ∧
    (∀ x, e = Some x → x = chain_tail (task_records (task_id d) rs)) ∧
    (replays d rs res ∧ f' = f ∨ extends_by d f rs n res f').
Proof.
  unfold append_locked. run_prog. destruct (_scan f) as [[[rs t] n]|] eqn:Es; [|done].
  destruct (raise_if _ _ "stale expected tail") eqn:Et; [|done]. apply raise_if_Ok_inv in Et.
  intros Hr. exists rs, t, n. split; [done|]. split.
  { intros x ->. apply negb_false_iff in Et. by apply String.eqb_eq in Et. }
  change (λ old : dict, is_text (py_get old "decision_id") (decision_id d)) with (same_id d) in Hr.
  destruct (List.find (same_id d) rs) as [old|] eqn:Ef.
  - left. destruct (_canonical (to_record d _ _)) as [c|] eqn:Ec; [|done].
    destruct (_canonical (unsigned old)) as [c'|] eqn:Ec'; [|done].
    destruct (String.eqb_spec c c') as [->|]; [|done]. apply pair_equal_spec in Hr as [[= <-] <-].
    split; [|done]. repeat split; [done|]. cbn. eauto.
  - right. fold (next_record d rs) in Hr. destruct (record_hash (next_record d rs)) as [h|] eqn:Eh; [|done].
    destruct (_canonical (next_record d rs ++ _)) as [text|] eqn:Ec; [|done].
    destruct (raise_if _ _ _) eqn:Eb; [|done]. apply raise_if_Ok_inv, orb_false_iff in Eb as [H1 H2].
    apply Z.ltb_ge in H1. apply Z.leb_gt in H2.
    apply pair_equal_spec in Hr as [[= <-] <-]. repeat split; [done|]. exists h, text. cbn. eauto 10.
Qed.
Lemma scan_nonempty raw : raw ≠ EmptyString → _scan (Some raw) = (
      _ ← raise_if ((MAX_BYTES <? size_of raw)%Z || negb (ends_with_newline raw) || blank_bytes raw)
            ValueError "corrupt decision stream";
      records ← scan_lines ∅ (bytes_splitlines raw);
      _ ← raise_if (MAX_RECORDS <? Z.of_nat (length records))%Z ValueError "decision stream ceiling exceeded";
      Ok (records, chain_tail records, size_of raw)).
Proof. by destruct raw. Qed.

(** The new record is linked to the records of its task. *)
Lemma link_next d rs h r : decision_ok d → Forall parsed rs →
  record_hash (next_record d rs) = Ok h →
  jnorm (PDict (next_record d rs ++ [("record_digest", PStr h)])) = PDict r →
  link (after ∅ rs) r = Ok h.
Proof.
  intros Hd Hp Hh Hr. set (n := (Z.of_nat (length (task_records (task_id d) rs)) + 1)%Z).
  set (parent := chain_tail (task_records (task_id d) rs)).
  change (jnorm (PDict (signed d n parent h)) = PDict r) in Hr.
  pose proof (signed_ok d n parent h Hd) as [Hwf _].
  assert (∀ k, py_get r k = jnorm (py_get (signed d n parent h) k)) as G
    by (intros; by apply py_get_jnorm; [apply py_wf_nodup|]).
  unfold link. replace (task_of r) with (task_id d) by (unfold task_of; by rewrite G).
  rewrite tail_after by done. fold parent. rewrite (G "parent_digest"), (G "sequence"), (G "record_digest").
  change (py_eq (jnorm (py_get (signed d n parent h) "sequence")) _) with (n =? n)%Z. rewrite Z.eqb_refl.
  assert (∀ s, is_text (PStr s) s = true) as Ht by (intros; by apply is_text_spec).
  change (jnorm (py_get (signed d n parent h) "parent_digest")) with (PStr parent).
  change (jnorm (py_get (signed d n parent h) "record_digest")) with (PStr h). rewrite Ht. cbn [negb orb raise_if mbind result_bind].
  assert (record_hash (unsigned r) = Ok h) as ->; [|cbn; by rewrite Ht].
  rewrite <- Hh. apply record_hash_jnorm. unfold unsigned. by rewrite (jnorm_del _ _ _ Hwf Hr).
Qed.

(** The stream after a record has been written. *)
Lemma scan_extended d f rs t n res f' : decision_ok d →
  _scan f = Ok (rs, t, n) → extends_by d f rs n res f' →
  ∃ r, jnorm (PDict (entry res)) = PDict r ∧
    _scan f' = if no_slashes d
               then Ok (rs ++ [r], chain_tail (rs ++ [r]), size_of (default EmptyString f'))
               else Err bad_tokens.
Proof.
  intros Hd Hs (_ & _ & h & text & Hh & -> & Htext & Hsize & Hlen & ->).
  pose proof (scan_parsed _ _ _ _ Hs) as Hp. apply scan_spec in Hs. cbv zeta in Hs.
  set (raw := default EmptyString f) in *. destruct Hs as (Hs & -> & _ & _ & _ & Hraw).
  set (k := (Z.of_nat (length (task_records (task_id d) rs)) + 1)%Z).
  set (parent := chain_tail (task_records (task_id d) rs)).
  assert (is_hex64 parent = true) as Hpar by by apply chain_tail_hex, task_records_parsed.
  assert (is_hex64 h = true) as Hhex.
  { destruct (record_hash_ok (next_record d rs)) as (h' & Hh' & ?); [by apply to_record_ok|]. congruence. }
  destruct (parse_signed d k parent h Hd Hpar Hhex) as (r & Hr & Hparse). exists r. split; [exact Hr|].
  pose proof (signed_ok d k parent h Hd) as Hok. pose proof (canonical_ok _ Hok) as Hc.
  change (_canonical (signed d k parent h) = Ok text) in Htext. rewrite Htext in Hc.
  assert (text = json_print false (jnorm (PDict (signed d k parent h)))) as Ht by congruence. clear Hc.
  rewrite <- Ht in Hparse. assert (str_forallb printable text = true) as Hprint.
  { rewrite Ht. apply json_write_printable; [done|]. rewrite jnorm_doc. apply andb_true_iff. apply Hok. }
  assert (text +:+ newline ≠ EmptyString) as Hne by by destruct text.
  rewrite scan_nonempty by (by destruct raw). cbn [default from_option id].
  rewrite size_of_app, (proj2 (Z.ltb_ge _ _) Hsize), (ends_with_newline_app raw), ends_with_newline_app by done.
  assert (blank_bytes (raw +:+ (text +:+ newline)) = false) as ->.
  { rewrite Hr in Ht. unfold blank_bytes. rewrite !str_forallb_app, Ht. cbn [json_write].
    rewrite str_forallb_app. cbn [str_forallb]. by rewrite andb_false_l, andb_false_r. }
  cbn [ends_with_newline newline negb orb raise_if mbind result_bind].
  rewrite split_lines_app by (unfold whole; tauto). rewrite split_lines_line by (eapply str_forallb_impl; [exact printable_inner|done]).
  rewrite scan_lines_app, Hs. cbn [mbind result_bind scan_lines]. rewrite Hparse.
  destruct (no_slashes d); [|done]. cbn [mbind result_bind].
  rewrite (link_next d rs h r) by done. cbn [mbind result_bind]. rewrite length_app. cbn [length].
  rewrite (proj2 (Z.ltb_ge _ _)) by lia. done.
Qed.
End appending.

Section theorems.
Context `{FloatText} `{Digest}.
Implicit Types d : DeveloperFeedbackDecision.

Lemma replay_again d f rs t n old : _scan f = Ok (rs, t, n) → List.find (same_id d) rs = Some old →
  (∃ text, _canonical (to_record d (py_get old "sequence") (py_get old "parent_digest")) = Ok text ∧
    _canonical (unsigned old) = Ok text) →
  append_locked d None f = (Ok {| entry := old; replayed := true |}, f).
Proof.
  intros Hs Hf (text & Hc & Hu). unfold append_locked.
  run_prog.
  rewrite Hs. cbn [raise_if]. change (λ old : dict, is_text (py_get old "decision_id") (decision_id d)) with (same_id d).
  rewrite Hf, Hc, Hu, String.eqb_refl. done.
Qed.

Lemma append_scan_err d e f x : _scan f = Err x → append_locked d e f = (Err x, f).
Proof.
  intros Hs. unfold append_locked.
  run_prog. by rewrite Hs.
Qed.
(** What a crash during the write leaves of a line does not end it. *)
Lemma ends_proper_prefix text p q : str_forallb printable text = true → text +:+ newline = p +:+ q →
  q ≠ EmptyString → ends_with_newline p = false.
Proof.
  intros Ht E Hq. apply ends_printable. revert p E. induction text as [|c text IH]; intros [|c' p] E; try done.
  - rewrite str_app_cons in E. cbn in E. injection E as <- E. symmetry in E. by destruct p, q.
  - rewrite !str_app_cons in E. injection E as <- E. cbn in *. apply andb_true_iff in Ht as [-> Ht]. by apply IH.
Qed.
Lemma written_printable d f rs n res f' : decision_ok d → extends_by d f rs n res f' →
  ∃ text, f' = Some (default EmptyString f +:+ (text +:+ newline)) ∧ str_forallb printable text = true.
Proof.
  intros Hd (_ & _ & h & text & _ & He & Htext & _ & _ & ->). exists text. split; [done|].
  assert (doc_ok (PDict (entry res))) as Hok by (rewrite He; by apply signed_ok).
  rewrite canonical_ok in Htext by done.
  assert (text = json_print false (jnorm (PDict (entry res)))) as -> by congruence.
  apply json_write_printable; [done|]. rewrite jnorm_doc. by apply andb_true_iff.
Qed.

Lemma append_locked_kept d e f res f' :
  decision_ok d → no_slashes d = true → append_locked d e f = (Ok res, f') →
  ∃ records records' tl tl' n n' r,
    _scan f = Ok (records, tl, n) ∧ _scan f' = Ok (records', tl', n') ∧
    same_doc r (entry res) ∧
    (if replayed res then f' = f ∧ r ∈ records else records' = records ++ [r]) ∧
    append_locked d None f' = (Ok {| entry := r; replayed := true |}, f').
Proof.
  intros Hd Hslash (records & tl & n & Hs & _ & Hr)%append_locked_inv.
  destruct Hr as [[(Hrep & Hfind & Htext) ->]|Hx].
  - exists records, records, tl, tl, n, n, (entry res). rewrite Hrep. split_and!; try done.
    + by apply find_some in Hfind as [?%list_elem_of_In _].
    + by eapply replay_again.
  - destruct (scan_extended d f records tl n res f' Hd Hs Hx) as (r & Hr & Hs'). rewrite Hslash in Hs'.
    destruct Hx as (Hrep & Hfind & h & text & Hh & He & _). exists records, (records ++ [r]). do 4 eexists. exists r.
    rewrite Hrep. split_and!; try done.
    { unfold same_doc. rewrite <- Hr. apply jnorm_idem. rewrite He. by apply signed_ok. }
    rewrite He in Hr.
    set (k := (Z.of_nat (length (task_records (task_id d) records)) + 1)%Z) in *.
    set (parent := chain_tail (task_records (task_id d) records)) in *.
    change (jnorm (PDict (signed d k parent h)) = PDict r) in Hr.
    pose proof (signed_ok d k parent h Hd) as [Hwf Hpl].
    assert (∀ k', py_get r k' = jnorm (py_get (signed d k parent h) k')) as G
      by (intros; by apply py_get_jnorm; [apply py_wf_nodup|]).
    eapply replay_again; [exact Hs'|apply find_app_none; [done|]|].
    + unfold same_id. rewrite G. by apply is_text_spec.
    + rewrite (G "sequence"), (G "parent_digest").
      change (to_record d (jnorm (py_get (signed d k parent h) "sequence")) (jnorm (py_get (signed d k parent h) "parent_digest")))
        with (unsigned (signed d k parent h)).
      unfold unsigned at 2. rewrite (canonical_jnorm _ _ (jnorm_del _ _ _ Hwf Hr)).
      eexists. split; [apply canonical_ok; by apply to_record_ok|apply canonical_ok; by apply to_record_ok].
Qed.

(** The call at the level of the store. *)
Lemma append_inv d e s res s' : append d e s = (Ok res, s') →
  ∃ p f', path s = Some p ∧ append_locked d e (streams s !! p) = (Ok res, f') ∧ s' = with_stream p f' s.
Proof.
  unfold append. destruct (path s) as [p|]; [|done]. destruct (append_locked _ _ _) as [r f'] eqn:E.
  intros [-> <-]%pair_equal_spec. eauto.
Qed.
Lemma with_stream_lookup p f' s : (f' = None → streams s !! p = None) →
  path (with_stream p f' s) = path s ∧ streams (with_stream p f' s) !! p = f' ∧
  ∀ q, q ≠ p → streams (with_stream p f' s) !! q = streams s !! q.
Proof.
  destruct f' as [t|]; cbn; intros Hn; [|by rewrite Hn].
  split; [done|]. rewrite lookup_insert_eq. split; [done|]. intros q Hq. by rewrite lookup_insert_ne.
Qed.
Lemma with_stream_id p s : with_stream p (streams s !! p) s = s.
Proof.
  destruct (streams s !! p) as [t|] eqn:E; [|done]. destruct s as [pt st]. cbn in *. f_equal. by apply insert_id.
Qed.
Lemma append_keeps_file d e f res : append_locked d e f = (Ok res, None) → f = None.
Proof. intros (? & ? & ? & _ & _ & [[_ ->]|(_ & _ & ? & ? & _ & _ & _ & _ & _ & [=])])%append_locked_inv. done. Qed.

(** An acknowledged append of a decision whose ids hold no double slash leaves a readable stream: the
    records found before, followed (unless the decision was already stored) by the acknowledged one; no
    other stream changes, and repeating the call returns that record, marked as replayed, and writes nothing. *)
Theorem acknowledged_append_kept t i dn rs es dg fl sc d e s res s' :
  new_decision t i dn rs es dg fl sc = Ok d → no_slashes d = true →
  append d e s = (Ok res, s') →
  ∃ p records records' tl tl' n n' r,
    path s = Some p ∧ path s' = Some p ∧ (∀ q, q ≠ p → streams s' !! q = streams s !! q) ∧
    _scan (streams s !! p) = Ok (records, tl, n) ∧ _scan (streams s' !! p) = Ok (records', tl', n') ∧
    same_doc r (entry res) ∧
    (if replayed res then s' = s ∧ r ∈ records else records' = records ++ [r]) ∧
    append d None s' = (Ok {| entry := r; replayed := true |}, s').
Proof.
  intros Hd%new_decision_ok Hslash (p & f' & Hp & Hl & ->)%append_inv.
  destruct (append_locked_kept d e _ res f' Hd Hslash Hl)
    as (records & records' & tl & tl' & n & n' & r & Hs & Hs' & Hr & Hrep & Hagain).
  destruct (with_stream_lookup p f' s) as (Hp' & Hl' & Hq); [intros ->; by eapply append_keeps_file|].
  exists p, records, records', tl, tl', n, n', r. rewrite Hp', Hl'. split_and!; try done.
  - destruct (replayed res); [|done]. destruct Hrep as [-> ?]. by rewrite with_stream_id.
  - unfold append. rewrite Hp', Hp, Hl', Hagain. by rewrite <- Hl', with_stream_id at 1.
Qed.

(** After a decision has been appended, the stream can be read if and only if neither of its ids
    contains a double slash (which the constructor accepts and the reader refuses); otherwise every later append
    is refused. *)
Theorem stream_readable_iff t i dn rs es dg fl sc d e f res f' :
  new_decision t i dn rs es dg fl sc = Ok d → append_locked d e f = (Ok res, f') → replayed res = false →
  (is_ok (_scan f') = true ↔ str_contains "//" (task_id d) = false ∧ str_contains "//" (decision_id d) = false) ∧
  (is_ok (_scan f') = false → ∀ d' e', append_locked d' e' f' = (Err bad_tokens, f')).
Proof.
  intros Hd%new_decision_ok (records & tl & n & Hs & _ & Hr)%append_locked_inv Hrep.
  destruct Hr as [[(Hrep' & _) _]|Hx]; [congruence|].
  destruct (scan_extended d f records tl n res f' Hd Hs Hx) as (r & Hr & Hs').
  unfold no_slashes in Hs'. split.
  - rewrite Hs', <- !negb_true_iff, <- andb_true_iff. by destruct (_ && _).
  - rewrite Hs'. intros Hbad d' e'. apply append_scan_err. rewrite Hs'. by destruct (_ && _).
Qed.

(** A write of a record cut short anywhere (a non-empty proper prefix of its line) makes every later
    scan and append fail with the corrupt-stream error; nothing is ever read from or added to a torn stream. *)
Theorem torn_append_detected t i dn rs es dg fl sc d e f res f' written p q :
  new_decision t i dn rs es dg fl sc = Ok d → append_locked d e f = (Ok res, f') → replayed res = false →
  f' = Some (default EmptyString f +:+ written) → written = p +:+ q → p ≠ EmptyString → q ≠ EmptyString →
  let torn := Some (default EmptyString f +:+ p) in
  _scan torn = raise ValueError "corrupt decision stream" ∧
  ∀ d' e', append_locked d' e' torn = (raise ValueError "corrupt decision stream", torn).
Proof.
  intros Hd%new_decision_ok (records & tl & n & Hs & _ & Hr)%append_locked_inv Hrep Hw Hpq Hp Hq torn.
  destruct Hr as [[(Hrep' & _) _]|Hx]; [congruence|].
  destruct (written_printable _ _ _ _ _ _ Hd Hx) as (text & -> & Hprint).
  injection Hw as Hw%str_app_inj_l. rewrite <- Hw in Hpq.
  assert (_scan torn = raise ValueError "corrupt decision stream") as Hscan.
  { subst torn. rewrite scan_nonempty by (destruct (default "" f); [by destruct p|done]).
    rewrite ends_with_newline_app by done. rewrite (ends_proper_prefix text p q) by done.
    by rewrite orb_true_r. }
  split; [done|]. intros d' e'. by apply append_scan_err.
Qed.
End theorems.

(** * The hash chain of a task *)
Section chains.
Context `{FloatText} `{Digest}.

Inductive chain : list dict → string → Prop :=
| chain_nil : chain [] NO_PARENT
| chain_snoc l p r h :
    chain l p → parsed r → py_get r "sequence" = PInt (Z.of_nat (length l) + 1) →
    py_get r "parent_digest" = PStr p → record_hash (unsigned r) = Ok h → py_get r "record_digest" = PStr h →
    chain (l ++ [r]) h.

Lemma link_inv m r h n p : parsed r → tail_of m (task_of r) = (n, p) → link m r = Ok h →
  py_get r "sequence" = PInt (n + 1) ∧ py_get r "parent_digest" = PStr p ∧
  record_hash (unsigned r) = Ok h ∧ py_get r "record_digest" = PStr h.
Proof.
  intros Hp Ht Hl. pose proof (link_digest _ _ _ Hl) as Hd. unfold link in Hl. rewrite Ht in Hl.
  apply bind_Ok_inv in Hl as (? & Hc%raise_if_Ok_inv & (h' & Hh & (? & _ & [= <-])%bind_Ok_inv)%bind_Ok_inv).
  apply orb_false_iff in Hc as [Hc1%negb_false_iff%is_text_spec Hc2%negb_false_iff].
  split_and!; try done. destruct Hp as [(_ & _ & _ & Hty & _)%check_record_inv _].
  unfold field_types_ok in Hty. repeat rewrite andb_true_iff in Hty.
  destruct (py_get r "sequence") as [|b|z| | | | | |]; try (destruct Hty; naive_solver).
  cbn in Hc2. apply Z.eqb_eq in Hc2. by subst.
Qed.
(** Every task's records in a scanned stream form a chain. *)
Lemma scan_lines_chain pre lines rs : Forall parsed pre →
  (∀ t, chain (task_records t pre) (chain_tail (task_records t pre))) →
  scan_lines (after ∅ pre) lines = Ok rs →
  ∀ t, chain (task_records t (pre ++ rs)) (chain_tail (task_records t (pre ++ rs))).
Proof.
  revert pre rs. induction lines as [|line lines IH]; intros pre rs Hp Hc; cbn.
  { intros [= <-]. by rewrite app_nil_r. }
  intros (r & Hr%parse_parsed & (h & Hl & (rs' & Hrs & [= <-])%bind_Ok_inv)%bind_Ok_inv)%bind_Ok_inv.
  pose proof (tail_after pre (task_of r) Hp) as Ht.
  destruct (link_inv _ _ _ _ _ Hr Ht Hl) as (Hseq & Hpar & Hhash & Hdig).
  replace (pre ++ r :: rs') with ((pre ++ [r]) ++ rs') by by rewrite <- app_assoc.
  apply IH; [apply Forall_app; by rewrite Forall_singleton| |].
  - intros t. rewrite task_records_app, task_records_single by done.
    destruct (String.eqb_spec t (task_of r)) as [->|]; [|by rewrite app_nil_r].
    replace (chain_tail (_ ++ [r])) with h by (unfold chain_tail; by rewrite last_snoc, Hdig).
    by eapply chain_snoc.
  - rewrite after_app. unfold after at 1. cbn [foldl]. by rewrite Hdig.
Qed.
Lemma scan_chain f rs tl n t : _scan f = Ok (rs, tl, n) →
  chain (task_records t rs) (chain_tail (task_records t rs)).
Proof.
  intros (Hs & _)%scan_spec. apply (scan_lines_chain [] (bytes_splitlines (default "" f)) rs); [constructor|intros; constructor|exact Hs].
Qed.

Definition colliding (r r' : dict) : Prop := ∃ s s',
  _canonical (unsigned r) = Ok s ∧ _canonical (unsigned r') = Ok s' ∧ collision (utf8 s) (utf8 s').

Lemma unsigned_same r r' h : parsed r → parsed r' →
  jnorm (PDict (unsigned r)) = jnorm (PDict (unsigned r')) →
  py_get r "record_digest" = PStr h → py_get r' "record_digest" = PStr h → same_doc r r'.
Proof.
  intros [_ [Hw _]] [_ [Hw' _]] E Hr Hr'. apply jnorm_members_ext; [done..|]. intros k.
  assert (∀ d, py_get d "record_digest" = PStr h → dict_get "record_digest" d = Some (PStr h)) as Hg.
  { intros d. unfold py_get. destruct (dict_get "record_digest" d) as [v|]; cbn; [by intros ->|done]. }
  destruct (String.eqb_spec k "record_digest") as [->|Hne]; [by rewrite (Hg r), (Hg r')|].
  rewrite <- (dict_get_del_ne k "record_digest" r), <- (dict_get_del_ne k "record_digest" r') by done.
  by apply jnorm_dict_get; [apply NoDup_dict_del, py_wf_nodup..|].
Qed.
Lemma unsigned_get r k : k ≠ "record_digest" → py_get (unsigned r) k = py_get r k.
Proof. intros Hk. unfold py_get, unsigned. by rewrite dict_get_del_ne. Qed.

Lemma chain_same l l' h : chain l h → chain l' h → l ≠ [] → l' ≠ [] →
  Forall2 same_doc l l' ∨ ∃ r r', r ∈ l ∧ r' ∈ l' ∧ colliding r r'.
Proof.
  intros Hc. revert l'. induction Hc as [|l p r h Hc IH Hp Hseq Hpar Hh Hd]; [done|].
  intros l' Hc' _ Hne. destruct Hc' as [|l' p' r' h Hc' Hp' Hseq' Hpar' Hh' Hd']; [done|].
  apply bind_Ok_inv in Hh as (s & Hs & [= Eh]). apply bind_Ok_inv in Hh' as (s' & Hs' & [= Eh']).
  assert (text_sha256 s = text_sha256 s') as E by congruence.
  apply text_sha256_inj in E as [<-|Hcol].
  2: { right. exists r, r'. rewrite !elem_of_app, !list_elem_of_singleton. unfold colliding. eauto 10. }
  assert (jnorm (PDict (unsigned r)) = jnorm (PDict (unsigned r'))) as E.
  { eapply json_dumps_inj; [apply py_wf_del, Hp|apply py_wf_del, Hp'|exact Hs|exact Hs']. }
  assert (∀ k, k ≠ "record_digest" → jnorm (py_get r k) = jnorm (py_get r' k)) as G.
  { intros k Hk. rewrite <- (unsigned_get r k), <- (unsigned_get r' k) by done.
    unfold py_get. pose proof (jnorm_dict_get _ _ k (NoDup_dict_del "record_digest" _ (py_wf_nodup _ (proj1 (proj2 Hp))))
      (NoDup_dict_del "record_digest" _ (py_wf_nodup _ (proj1 (proj2 Hp')))) E) as Hk'. unfold unsigned.
    destruct (dict_get k (dict_del _ r)), (dict_get k (dict_del _ r')); cbn in *; congruence. }
  pose proof (G "sequence" ltac:(done)) as Gs. rewrite Hseq, Hseq' in Gs. injection Gs as Gs.
  pose proof (G "parent_digest" ltac:(done)) as Gp. rewrite Hpar, Hpar' in Gp. injection Gp as <-.
  assert (same_doc r r') as Hrr' by (by eapply unsigned_same).
  destruct l as [|x l]; destruct l' as [|x' l']; try (rewrite ?length_cons in Gs; cbn in Gs; lia).
  { left. by repeat constructor. }
  destruct (IH (x' :: l')) as [Hl|(q & q' & Hq & Hq' & Hcol)]; [done..| |].
  - left. apply Forall2_app; [done|by constructor].
  - right. exists q, q'. rewrite !elem_of_app. auto.
Qed.
Lemma task_records_subset t rs r : r ∈ task_records t rs → r ∈ rs.
Proof. unfold task_records. rewrite !list_elem_of_In. by intros [? _]%filter_In. Qed.

(** In two readable streams, equal last digests of a task mean the same records of that task, one by
    one, or two records whose canonical texts collide under SHA-256. *)
Theorem equal_tails_equal_histories f f' rs rs' tl tl' n n' task :
  _scan f = Ok (rs, tl, n) → _scan f' = Ok (rs', tl', n') →
  task_records task rs ≠ [] → task_records task rs' ≠ [] →
  chain_tail (task_records task rs) = chain_tail (task_records task rs') →
  Forall2 same_doc (task_records task rs) (task_records task rs') ∨
  ∃ r r', r ∈ rs ∧ r' ∈ rs' ∧ colliding r r'.
Proof.
  intros Hs Hs' Hne Hne' E. pose proof (scan_chain _ _ _ _ task Hs) as Hc.
  pose proof (scan_chain _ _ _ _ task Hs') as Hc'. rewrite <- E in Hc'.
  destruct (chain_same _ _ _ Hc Hc' Hne Hne') as [?|(r & r' & Hr & Hr' & Hcol)]; [by left|].
  right. exists r, r'. eauto using task_records_subset.
Qed.
End chains.

(** * Refusals *)
Section refusals.
Context `{FloatText} `{Digest}.

Definition refusal (x : exn) : Prop := exn_type x = ValueError ∨ exn_type x = TypeError.
Lemma refusal_raise_if b msg x : raise_if b ValueError msg = Err x → refusal x.
Proof. intros Hx%raise_if_err. by left. Qed.
Lemma refusal_bind {A B} (m : result A) (f : A → result B) x :
  (∀ y, m = Err y → refusal y) → (∀ a y, f a = Err y → refusal y) → (m ≫= f) = Err x → refusal x.
Proof. intros Hm Hf [?|(a & _ & ?)]%bind_Err_inv; eauto. Qed.
Lemma refusal_loads u s x : loads_with u s = Err x → refusal x.
Proof. unfold loads_with. repeat case_match; intros [= <-]; by left. Qed.
Lemma refusal_canonical v x : _canonical v = Err x → refusal x.
Proof.
  unfold _canonical, json_dumps. intros [Hc|(? & _ & [=])]%bind_Err_inv.
  apply json_check_err in Hc as [?|?]; [by right|by left].
Qed.
Lemma refusal_record_hash v x : record_hash v = Err x → refusal x.
Proof. apply refusal_bind; [apply refusal_canonical|done]. Qed.
Ltac refuse :=
  repeat match goal with
    | |- ∀ _ : exn, _ => intros ?
    | |- (_ ≫= _) = Err _ → _ => apply refusal_bind; [|intros ?]
    | |- Ok _ = Err _ → _ => discriminate
    end;
  eauto using refusal_raise_if, refusal_record_hash, refusal_canonical.
Lemma refusal_token p name v x : token p name v = Err x → refusal x.
Proof. destruct v; try (intros [= <-]; by left). unfold token. by refuse. Qed.
Lemma refusal_tokens v p name x : _tokens v p name = Err x → refusal x.
Proof.
  unfold _tokens. destruct (as_array v); [|intros [= <-]; by left]. refuse.
  apply mapM_result_err. apply refusal_token.
Qed.
Lemma refusal_check_tokens r x : check_tokens r = Err x → refusal x.
Proof.
  unfold check_tokens, catch. destruct (_ ≫= _) as [|z] eqn:E; [done|].
  destruct (exn_is ValueError z); [intros [= <-]; by left|]. intros [= <-]. revert E.
  refuse; eauto using refusal_tokens, refusal_token.
Qed.
Lemma refusal_in_text_set v l x : in_text_set v l = Err x → refusal x.
Proof. unfold in_text_set. repeat case_match; try done; intros [= <-]; by right. Qed.
Lemma refusal_check r x : check_record r = Err x → refusal x.
Proof. unfold check_record. refuse; eauto using refusal_check_tokens, refusal_in_text_set. Qed.
Lemma refusal_parse line x : _parse line = Err x → refusal x.
Proof.
  unfold _parse. apply refusal_bind; [intros ?; apply refusal_loads|].
  intros v y. destruct v; try (intros [= <-]; by left). 
  apply refusal_bind; [intros ?; apply refusal_check|done].
Qed.
Lemma refusal_link m r x : link m r = Err x → refusal x.
Proof. unfold link. destruct (tail_of _ _). by refuse. Qed.
Lemma refusal_scan f x : _scan f = Err x → refusal x.
Proof.
  assert (∀ lines m y, scan_lines m lines = Err y → refusal y) as Hl.
  { induction lines as [|line lines IH]; intros m y; [done|]. cbn [scan_lines]. refuse; eauto using refusal_parse, refusal_link. }
  destruct f as [raw|]; [|done]. destruct raw as [|c s]; [done|]. rewrite scan_nonempty by done.
  by refuse.
Qed.
Lemma refusal_append_locked d e f x f' : append_locked d e f = (Err x, f') → f' = f ∧ refusal x.
Proof.
  unfold append_locked.
  run_prog.
  destruct (_scan f) as [[[rs t] n]|] eqn:Es.
  2: { intros [= <- <-]. eauto using refusal_scan. }
  destruct (raise_if _ _ _) eqn:Et; [|intros [= <- <-]; eauto using refusal_raise_if].
  destruct (List.find _ rs) as [old|].
  - destruct (_canonical (to_record d _ _)) eqn:E1; [|intros [= <- <-]; eauto using refusal_canonical].
    destruct (_canonical (unsigned _)) eqn:E2; [|intros [= <- <-]; eauto using refusal_canonical].
    destruct (String.eqb _ _); [done|]. intros [= <- <-]. split; [done|by left].
  - destruct (record_hash _) eqn:E1; [|intros [= <- <-]; eauto using refusal_record_hash].
    destruct (_canonical (_ ++ _)) eqn:E2; [|intros [= <- <-]; eauto using refusal_canonical].
    destruct (raise_if _ _ "decision stream ceiling exceeded") eqn:E3; [done|].
    intros [= <- <-]; eauto using refusal_raise_if.
Qed.

(** An append that raises changes no file, and raises ValueError, TypeError, or RuntimeError when the
    store is not configured. *)
Theorem refused_append_writes_nothing d e s x s' : append d e s = (Err x, s') →
  s' = s ∧ (path s = None ∧ exn_type x = RuntimeError ∨ exn_type x = ValueError ∨ exn_type x = TypeError).
Proof.
  unfold append. destruct (path s) as [p|] eqn:Hp.
  - destruct (append_locked d e (streams s !! p)) as [r f'] eqn:E. intros [-> <-]%pair_equal_spec.
    apply refusal_append_locked in E as [-> Hx]. split; [apply with_stream_id|by right].
  - intros [= <- <-]. auto.
Qed.
End refusals.

(** * No record claims authority *)
Section authority.
Context `{FloatText} `{Digest}.

Lemma stored_flags_spec v : stored_flags_ok v = true ↔
  ∃ flags, v = PDict flags ∧ (∀ k, k ∈ keys flags ↔ k ∈ AUTHORITY_FLAG_KEYS) ∧
    ∀ k x, (k, x) ∈ flags → x = PBool false.
Proof.
  destruct v as [| | | | | | |flags|]; try (split; [done|by intros (? & [=] & _)]).
  cbn [stored_flags_ok]. rewrite !andb_true_iff, same_set_spec, forallb_forall, negb_true_iff.
  split.
  - intros [[Hk Hb] Ht]. exists flags. split_and!; [done..|]. intros k x Hin.
    assert (In (k, x) flags) as Hin' by by apply list_elem_of_In.
    specialize (Hb _ Hin'). destruct x as [|[]| | | | | | |]; try done.
    apply not_true_iff_false in Ht. destruct Ht. apply existsb_exists. by exists (k, PBool true).
  - intros (flags' & [= <-] & Hk & Hf). split; [split; [done|]|].
    + intros [k x] Hin%list_elem_of_In. by rewrite (Hf k x Hin).
    + apply not_true_iff_false. rewrite existsb_exists. intros ([k x] & Hin%list_elem_of_In & Hx).
      by rewrite (Hf k x Hin) in Hx.
Qed.

(** C40: a constructed decision carries exactly the three authority flags, all false, and so does every
    record of every readable stream. *)
Theorem feedback_claims_no_authority :
  (∀ t i dn rs es dg fl sc d, new_decision t i dn rs es dg fl sc = Ok d →
     (∀ k, k ∈ keys (authority_flags d) ↔ k ∈ AUTHORITY_FLAG_KEYS) ∧
     ∀ k b, (k, b) ∈ authority_flags d → b = false) ∧
  ∀ f records tl n r, _scan f = Ok (records, tl, n) → r ∈ records →
    ∃ flags, py_get r "authority_flags" = PDict flags ∧ (∀ k, k ∈ keys flags ↔ k ∈ AUTHORITY_FLAG_KEYS) ∧
      ∀ k x, (k, x) ∈ flags → x = PBool false.
Proof.
  split.
  - intros t i dn rs es dg fl sc d (_ & _ & _ & _ & _ & _ & Hs & Hf)%new_decision_ok.
    split; [by apply same_set_spec|]. intros k b Hin. rewrite Forall_forall in Hf. by apply (Hf (k, b)).
  - intros f records tl n r Hs%scan_parsed Hr. rewrite Forall_forall in Hs.
    destruct (Hs r Hr) as [(_ & _ & Hf & _)%check_record_inv _]. by apply stored_flags_spec.
Qed.
End authority.

(** * Examples and witnesses *)
Section examples.
#[local] Existing Instance Dyadic_FloatText.
#[local] Existing Instance Sha256_Digest.

Definition example_call (task id why : string) : result DeveloperFeedbackDecision :=
  new_decision (PStr task) (PStr id) (PStr "REVISE") (PList [PStr why]) (PTuple [PStr "run/1"]) (PStr EmptyString)
    NO_AUTHORITY (PStr DECISION_SCHEMA).
Definition example_decision (task id why : string) : DeveloperFeedbackDecision := {|
  task_id := task; decision_id := id; decision := REVISE; reason_codes := [why]; evidence_refs := ["run/1"];
  request_digest := EmptyString;
  authority_flags := [("approval", false); ("production", false); ("route", false)] |}.
Definition fresh_store : store := configure "/w" {| path := None; streams := ∅ |}.
Definition result_of {A} (x : result A * store) (d : A) : A := match x.1 with Ok a => a | Err _ => d end.
Definition nothing : append_result := {| entry := []; replayed := false |}.
Definition decision_1 : DeveloperFeedbackDecision := example_decision "t-1" "d-1" "FLAKY".
Definition decision_2 : DeveloperFeedbackDecision := example_decision "t-1" "d-2" "SLOW".
Definition after_first : append_result * store :=
  Eval vm_compute in (let x := append decision_1 None fresh_store in (result_of x nothing, x.2)).
Definition after_second : append_result * store :=
  Eval vm_compute in (let x := append decision_2 None after_first.2 in (result_of x nothing, x.2)).
Definition stream_text (s : store) : option string := streams s !! stream_path "/w".

Example first_appended : append decision_1 None fresh_store = (Ok after_first.1, after_first.2).
Proof. vm_compute. reflexivity. Qed.
Example second_appended : append decision_2 None after_first.2 = (Ok after_second.1, after_second.2).
Proof. vm_compute. reflexivity. Qed.

Lemma acknowledged_append_kept_witness : ∃ p records records' tl tl' n n' r,
  path after_first.2 = Some p ∧ path after_second.2 = Some p ∧
  (∀ q, q ≠ p → streams after_second.2 !! q = streams after_first.2 !! q) ∧
  _scan (streams after_first.2 !! p) = Ok (records, tl, n) ∧ _scan (streams after_second.2 !! p) = Ok (records', tl', n') ∧
  same_doc r (entry after_second.1) ∧
  (if replayed after_second.1 then after_second.2 = after_first.2 ∧ r ∈ records else records' = records ++ [r]) ∧
  append decision_2 None after_second.2 = (Ok {| entry := r; replayed := true |}, after_second.2).
Proof.
  apply (acknowledged_append_kept (PStr "t-1") (PStr "d-2") (PStr "REVISE") (PList [PStr "SLOW"]) (PTuple [PStr "run/1"])
    (PStr EmptyString) NO_AUTHORITY (PStr DECISION_SCHEMA) decision_2 None).
  - vm_compute. reflexivity.
  - vm_compute. reflexivity.
  - vm_compute. reflexivity.
Defined.

(** A task named [a//b] passes the constructor and is appended; the stream can then never
    be read again. *)
Definition poison : DeveloperFeedbackDecision := example_decision "a//b" "d-3" "FLAKY".
Definition poisoned : append_result * store :=
  Eval vm_compute in (let x := append poison None after_first.2 in (result_of x nothing, x.2)).
Example double_slash_poisons_the_stream :
  example_call "a//b" "d-3" "FLAKY" = Ok poison ∧
  append poison None after_first.2 = (Ok poisoned.1, poisoned.2) ∧ replayed poisoned.1 = false ∧
  read_recent 50 poisoned.2 = Err bad_tokens ∧ (append decision_2 None poisoned.2).1 = Err bad_tokens.
Proof. vm_compute. done. Qed.
Lemma stream_readable_iff_witness :
  (is_ok (_scan (stream_text poisoned.2)) = true ↔
   str_contains "//" (task_id poison) = false ∧ str_contains "//" (decision_id poison) = false) ∧
  (is_ok (_scan (stream_text poisoned.2)) = false → ∀ d' e',
     append_locked d' e' (stream_text poisoned.2) = (Err bad_tokens, stream_text poisoned.2)).
Proof.
  apply (stream_readable_iff (PStr "a//b") (PStr "d-3") (PStr "REVISE") (PList [PStr "FLAKY"]) (PTuple [PStr "run/1"])
    (PStr EmptyString) NO_AUTHORITY (PStr DECISION_SCHEMA) poison None (stream_text after_first.2) poisoned.1).
  - vm_compute. reflexivity.
  - vm_compute. reflexivity.
  - vm_compute. reflexivity.
Defined.
(** A retry that repeats the tail it was issued with is refused before its decision is
    looked up. *)
Example retry_with_old_tail_is_stale :
  (append decision_1 (Some NO_PARENT) fresh_store).1 = Ok after_first.1 ∧
  (append decision_1 (Some NO_PARENT) after_first.2).1 = raise ValueError "stale expected tail".
Proof. vm_compute. done. Qed.
Lemma refused_append_writes_nothing_witness :
  after_first.2 = after_first.2 ∧
  (path after_first.2 = None ∧ ValueError = RuntimeError ∨ ValueError = ValueError ∨ ValueError = TypeError).
Proof.
  apply (refused_append_writes_nothing decision_1 (Some NO_PARENT) after_first.2
    (Exn ValueError "stale expected tail") after_first.2).
  vm_compute. reflexivity.
Defined.
Lemma feedback_claims_no_authority_witness :
  (∀ k, k ∈ keys (authority_flags decision_1) ↔ k ∈ AUTHORITY_FLAG_KEYS) ∧
  ∀ k b, (k, b) ∈ authority_flags decision_1 → b = false.
Proof.
  apply (proj1 feedback_claims_no_authority (PStr "t-1") (PStr "d-1") (PStr "REVISE") (PList [PStr "FLAKY"])
    (PTuple [PStr "run/1"]) (PStr EmptyString) NO_AUTHORITY (PStr DECISION_SCHEMA)).
  vm_compute. reflexivity.
Defined.
(** [read_recent(0)] answers the whole stream. *)
Example recent_none_is_all : length <$> (match read_recent 0 after_second.2 with Ok l => Some l | _ => None end) = Some 2.
Proof. vm_compute. done. Qed.

Definition first_line : string := Eval vm_compute in default EmptyString (stream_text after_first.2).
Lemma torn_append_detected_witness :
  let torn := Some (default EmptyString None +:+ str_take 20 first_line) in
  _scan torn = raise ValueError "corrupt decision stream" ∧
  ∀ d' e', append_locked d' e' torn = (raise ValueError "corrupt decision stream", torn).
Proof.
  apply (torn_append_detected (PStr "t-1") (PStr "d-1") (PStr "REVISE") (PList [PStr "FLAKY"]) (PTuple [PStr "run/1"])
    (PStr EmptyString) NO_AUTHORITY (PStr DECISION_SCHEMA) decision_1 None None after_first.1 (Some first_line) first_line
    (str_take 20 first_line) (str_drop 20 first_line)); vm_compute; (reflexivity || discriminate).
Defined.
Definition first_stream : option string := Eval vm_compute in stream_text after_first.2.
Lemma equal_tails_equal_histories_witness :
  ∃ rs tl n, _scan first_stream = Ok (rs, tl, n) ∧
  (Forall2 same_doc (task_records "t-1" rs) (task_records "t-1" rs) ∨ ∃ r r', r ∈ rs ∧ r' ∈ rs ∧ colliding r r').
Proof.
  assert (match _scan first_stream with Ok (rs, _, _) => negb (length (task_records "t-1" rs) =? 0)%nat | _ => false end = true)
    as Hs by (vm_compute; reflexivity).
  destruct (_scan first_stream) as [[[rs tl] n]|] eqn:E; [|discriminate Hs].
  exists rs, tl, n. split; [reflexivity|].
  apply (equal_tails_equal_histories first_stream first_stream rs rs tl tl n n "t-1"); [exact E|exact E| | |reflexivity];
    intros E0; rewrite E0 in Hs; discriminate Hs.
Defined.

(** A directive becomes a decision by its strongest pattern. *)
Definition example_pattern (s : spec_float) : FailurePattern :=
  {| pattern_code := "FLAKY"; description := EmptyString; severity := s |}.
Example severity_decides :
  map (λ s, directive_decision {| identified_patterns := [example_pattern s]; retry_hints := []; is_actionable := false |})
    [REJECT_SEVERITY; S754_finite false 8106479329266892 (-53); S754_nan] = [REJECT; INVESTIGATE; INVESTIGATE].
Proof. reflexivity. Qed.
End examples.
