(* ===== verification/Placement.v ===== *)
(** * Host placement ([src/src/nexus_runtime/placement.py])

    [place] chooses a host for a request among the snapshots of an inventory: hard
    constraints decide which hosts are eligible, the request's preferences rank them, and
    ties go to the least host id.  [place_with_lease] binds the choice to the snapshot it was
    made from for a limited time; [revalidate_lease] tells whether it still stands.

    A snapshot is a mapping as it comes from the wire.  [datetime] is an interface
    ([DateTimes], [LeaseTimes]). *)
From Stdlib Require Import Ascii String SpecFloat.
From S2P Require Import Prelude PyValue Json Digest Contract DateTime SortBy Instances.

Definition DEVSPACE_HOST_CAPABILITY_SNAPSHOT_SCHEMA := "devspace.host_capability_snapshot.v1".
Definition PLACEMENT_REQUEST_SCHEMA := "nexus.runtime.placement_request.v1".
Definition PLACEMENT_DECISION_SCHEMA := "nexus.runtime.placement_decision.v1".
Definition HOST_PLACEMENT_LEASE_SCHEMA := "nexus.runtime.host_placement_lease.v1".
Definition PLACEMENT_LEASE_REVALIDATION_SCHEMA := "nexus.runtime.placement_lease_revalidation.v1".
Definition PRIOR_OUTCOME_NONE := "NONE".
Definition PRIOR_OUTCOME_TERMINAL_SUCCESS := "TERMINAL_SUCCESS".
Definition PRIOR_OUTCOME_TERMINAL_FAILURE := "TERMINAL_FAILURE".
Definition PRIOR_OUTCOME_UNKNOWN := "OUTCOME_UNKNOWN".
Definition _PRIOR_OPERATION_OUTCOMES : list string :=
  [PRIOR_OUTCOME_NONE; PRIOR_OUTCOME_TERMINAL_SUCCESS; PRIOR_OUTCOME_TERMINAL_FAILURE; PRIOR_OUTCOME_UNKNOWN].
Definition PREFER_HOST_ORDER := "PREFERRED_HOST_ORDER".
Definition PREFER_MORE_AVAILABLE_MEMORY := "MORE_AVAILABLE_MEMORY".
Definition PREFER_LOWER_NORMALIZED_LOAD := "LOWER_NORMALIZED_LOAD".
Definition _SOFT_PREFERENCE_CRITERIA : list string :=
  [PREFER_HOST_ORDER; PREFER_MORE_AVAILABLE_MEMORY; PREFER_LOWER_NORMALIZED_LOAD].

(** [_SHA256], [_HOST_ID] and the commit pattern, as [fullmatch]. *)
Definition _SHA256 : string → bool := is_hex64.
Definition host_char (c : ascii) : bool :=
  let n := code c in
  ((65 <=? n) && (n <=? 90) || (97 <=? n) && (n <=? 122) || (48 <=? n) && (n <=? 57))%N.
Definition _HOST_ID (s : string) : bool :=
  match s with
  | EmptyString => false
  | String c r =>
      host_char c && str_forallb (λ c, host_char c || existsb (Ascii.eqb c) ["."; "_"; "-"]%char) r
      && (String.length r <=? 63)%nat
  end.
Definition git_hex (s : string) : bool := Nat.eqb (String.length s) 40 && str_forallb hex_char s.

(** ** Requests *)
Record PlacementRequirements : Type := {
  platform : option string; architecture : option string;
  min_total_memory_bytes : Z; required_capabilities : list string }.
Definition new_requirements (r : PlacementRequirements) : result PlacementRequirements :=
  _ ← raise_if (min_total_memory_bytes r <? 0)%Z ValueError "min_total_memory_bytes must be non-negative";
  _ ← raise_if (existsb (String.eqb EmptyString) (required_capabilities r))
        ValueError "required_capabilities cannot contain empty values";
  _ ← raise_if (has_dups (required_capabilities r)) ValueError "required_capabilities must be unique";
  Ok r.

Record PlacementPreferences : Type := { criteria : list string; preferred_host_ids : list string }.
Definition new_preferences (p : PlacementPreferences) : result PlacementPreferences :=
  _ ← raise_if (has_dups (criteria p)) ValueError "placement preference criteria must be unique";
  let unsupported := sort_unique (List.filter (λ c, negb (text_in c _SOFT_PREFERENCE_CRITERIA)) (criteria p)) in
  _ ← raise_if (bool_decide (unsupported ≠ []))
        ValueError ("unsupported placement preference criteria:" +:+ str_join "," unsupported);
  _ ← raise_if (has_dups (preferred_host_ids p)) ValueError "preferred_host_ids must be unique";
  _ ← raise_if (existsb (λ h, negb (_HOST_ID h)) (preferred_host_ids p))
        ValueError "preferred_host_ids contains invalid hostId";
  _ ← raise_if (bool_decide (preferred_host_ids p ≠ []) && negb (text_in PREFER_HOST_ORDER (criteria p)))
        ValueError "preferred_host_ids requires PREFERRED_HOST_ORDER criterion";
  Ok p.

Record PlacementRequest : Type := {
  request_id : string; requirements : PlacementRequirements; preferences : PlacementPreferences }.
Definition new_request (id : string) (r : PlacementRequirements) (schema : string) (p : PlacementPreferences) :
    result PlacementRequest :=
  _ ← raise_if (negb (String.eqb schema PLACEMENT_REQUEST_SCHEMA)) ValueError "unsupported PlacementRequest schema";
  _ ← raise_if (blank id) ValueError "request_id is required";
  Ok {| request_id := id; requirements := r; preferences := p |}.

(** ** Snapshots, decisions, leases *)
Record HostSnapshotView : Type := {
  host_id : string; snapshot_id : string; host_platform : string; host_architecture : string;
  total_memory_bytes : Z; available_memory_bytes : Z; normalized_load_1m : spec_float;
  connectivity_state : string; verified_capabilities : list string; missing_capabilities : list string;
  capability_manifest_sha256 : string; observed_at : string }.

Record PlacementDecision : Type := {
  decision_id : string; d_request_id : string; d_requirements_sha256 : string; d_host_id : string;
  d_snapshot_id : string; d_reason_code : string; d_reason_details : list string;
  d_schema : string; d_runtime_is_planner_authority : bool }.
Definition decision_to_dict (d : PlacementDecision) : dict := [
  ("schema", PStr (d_schema d)); ("decision_id", PStr (decision_id d)); ("request_id", PStr (d_request_id d));
  ("requirements_sha256", PStr (d_requirements_sha256 d)); ("host_id", PStr (d_host_id d));
  ("snapshot_id", PStr (d_snapshot_id d)); ("reason_code", PStr (d_reason_code d));
  ("reason_details", str_list (d_reason_details d));
  ("runtime_is_planner_authority", PBool (d_runtime_is_planner_authority d))].

Record HostPlacementLease : Type := {
  lease_id : string; l_decision_id : string; l_request_id : string; l_requirements_sha256 : string;
  l_host_id : string; l_snapshot_id : string; snapshot_observed_at : string; valid_until : string;
  l_schema : string; l_runtime_is_planner_authority : bool;
  grants_execution_authority : bool; grants_retry_or_failover_authority : bool }.
Definition lease_to_dict (l : HostPlacementLease) : dict := [
  ("schema", PStr (l_schema l)); ("lease_id", PStr (lease_id l)); ("decision_id", PStr (l_decision_id l));
  ("request_id", PStr (l_request_id l)); ("requirements_sha256", PStr (l_requirements_sha256 l));
  ("host_id", PStr (l_host_id l)); ("snapshot_id", PStr (l_snapshot_id l));
  ("snapshot_observed_at", PStr (snapshot_observed_at l)); ("valid_until", PStr (valid_until l));
  ("runtime_is_planner_authority", PBool (l_runtime_is_planner_authority l));
  ("grants_execution_authority", PBool (grants_execution_authority l));
  ("grants_retry_or_failover_authority", PBool (grants_retry_or_failover_authority l))].

Record PlacementLeaseRevalidation : Type := {
  status : string; reason_code : string; reason_details : list string; v_lease_id : string;
  v_decision_id : string; v_request_id : string; v_requirements_sha256 : string; v_host_id : string;
  v_snapshot_id : string; v_schema : string; v_runtime_is_planner_authority : bool;
  v_grants_execution_authority : bool; v_grants_retry_or_failover_authority : bool }.
Definition placement_current (v : PlacementLeaseRevalidation) : bool := String.eqb (status v) "VALID".
Definition revalidation_to_dict (v : PlacementLeaseRevalidation) : dict := [
  ("schema", PStr (v_schema v)); ("status", PStr (status v)); ("reason_code", PStr (reason_code v));
  ("reason_details", str_list (reason_details v)); ("lease_id", PStr (v_lease_id v));
  ("decision_id", PStr (v_decision_id v)); ("request_id", PStr (v_request_id v));
  ("requirements_sha256", PStr (v_requirements_sha256 v)); ("host_id", PStr (v_host_id v));
  ("snapshot_id", PStr (v_snapshot_id v)); ("placement_current", PBool (placement_current v));
  ("runtime_is_planner_authority", PBool (v_runtime_is_planner_authority v));
  ("grants_execution_authority", PBool (v_grants_execution_authority v));
  ("grants_retry_or_failover_authority", PBool (v_grants_retry_or_failover_authority v))].

(** ** Numbers as the producer of snapshots writes them *)
Fixpoint str_repeat (s : string) (n : nat) : string :=
  match n with O => EmptyString | S n => s +:+ str_repeat s n end.
(** [s.endswith(p)]; [s[:-len(p)]]. *)
Definition ends_with (p s : string) : bool :=
  (String.length p <=? String.length s)%nat && String.eqb (str_drop (String.length s - String.length p) s) p.
Definition drop_suffix (p s : string) : string :=
  if ends_with p s then str_take (String.length s - String.length p) s else s.
(** [s.partition(sep)], without the separator. *)
Definition partition (sep s : string) : string * string :=
  let head := before_first sep s in (head, str_drop (String.length head + String.length sep) s).
(** The doubles [1e-6] and [1e21]. *)
Definition ONE_MILLIONTH : spec_float := S754_finite false 4722366482869645 (-72).
Definition TEN_TO_21 : spec_float := S754_finite false 7629394531250000 17.

Section placement.
Context `{FloatText} `{Digest} `{DateTimes} `{!LeaseTimes}.

Definition _sha256 (v : pyval) : result string := json_sha256 true true v.
Definition requirements_sha256 (r : PlacementRequest) : result string :=
  _sha256 (PDict [
    ("platform", opt_str (platform (requirements r))); ("architecture", opt_str (architecture (requirements r)));
    ("min_total_memory_bytes", PInt (min_total_memory_bytes (requirements r)));
    ("required_capabilities", str_list (sort_strings (required_capabilities (requirements r))))]).
Definition preferences_sha256 (r : PlacementRequest) : result string :=
  _sha256 (PDict [
    ("criteria", str_list (criteria (preferences r)));
    ("preferred_host_ids", str_list (preferred_host_ids (preferences r)))]).

(** The spelling of a float with an exponent. *)
Definition exponent_text (f : spec_float) (text : string) : result string :=
  let '(mantissa, exponent_text) := partition "e" text in
  exponent ← py_int (PStr exponent_text);
  let absolute := SFabs f in
  if SFleb ONE_MILLIONTH absolute && SFltb absolute TEN_TO_21 then
    let '(sign, mantissa) := if starts_with "-" mantissa then ("-", str_drop 1 mantissa) else (EmptyString, mantissa) in
    let '(integer_part, fractional_part) := partition "." mantissa in
    let digits := integer_part +:+ fractional_part in
    let decimal_position := (Z.of_nat (String.length integer_part) + exponent)%Z in
    if (decimal_position <=? 0)%Z then
      Ok (sign +:+ "0." +:+ str_repeat "0" (Z.to_nat (- decimal_position)) +:+ digits)
    else if (Z.of_nat (String.length digits) <=? decimal_position)%Z then
      Ok (sign +:+ digits +:+ str_repeat "0" (Z.to_nat decimal_position - String.length digits))
    else
      let n := Z.to_nat decimal_position in
      Ok (sign +:+ str_take n digits +:+ "." +:+ str_drop n digits)
  else
    Ok (drop_suffix ".0" mantissa +:+ "e" +:+
        if (0 <=? exponent)%Z then "+" +:+ int_text exponent else int_text exponent).
Definition _javascript_number (v : pyval) : result string :=
  match v with
  | PBool _ => raise TypeError "bool is not a JSON number here"
  | PInt n => Ok (int_text n)
  | PFloat f =>
      if negb (float_finite f) then raise InvalidHostSnapshot "DevSpace snapshot numbers must be finite"
      else match f with
      | S754_zero _ => Ok "0"
      | _ =>
          let text := lower (py_repr v) in
          if negb (str_contains "e" text) then Ok (drop_suffix ".0" text) else exponent_text f text
      end
  | _ => raise TypeError "must be real number"
  end.
Fixpoint _devspace_json_stringify (v : pyval) : result string :=
  match v with
  | PNone => Ok "null"
  | PBool true => Ok "true"
  | PBool false => Ok "false"
  | PInt _ | PFloat _ => _javascript_number v
  | PStr s => Ok (json_string false s)
  | PList l | PTuple l =>
      items ← mapM_result id (map _devspace_json_stringify l);
      Ok ("[" +:+ str_join "," items +:+ "]")
  | PDict d =>
      items ← mapM_result (λ kv : string * result string, t ← kv.2; Ok (json_string false kv.1 +:+ ":" +:+ t))
                (sort_items (map (λ kv, (kv.1, _devspace_json_stringify kv.2)) d));
      Ok ("{" +:+ str_join "," items +:+ "}")
  | PObj _ _ => raise InvalidHostSnapshot "DevSpace snapshot contains unsupported JSON value"
  end.
Definition _devspace_sha256 (v : pyval) : result string :=
  t ← _devspace_json_stringify v; Ok (text_sha256 t).

(** ** Reading a snapshot *)
Definition _mapping (v : pyval) (field : string) : result dict :=
  match v with PDict d => Ok d | _ => raise InvalidHostSnapshot (field +:+ " must be an object") end.
Definition _string (v : pyval) (field : string) : result string :=
  match v with
  | PStr (String c s) => Ok (String c s)
  | _ => raise InvalidHostSnapshot (field +:+ " must be a non-empty string")
  end.
Definition _sha (v : pyval) (field : string) : result string :=
  text ← _string v field;
  _ ← raise_if (negb (_SHA256 text)) InvalidHostSnapshot (field +:+ " must be lowercase sha256 hex");
  Ok text.
Definition _string_set (v : pyval) (field : string) : result (list string) :=
  match as_array v with
  | None => raise InvalidHostSnapshot (field +:+ " must be a string array")
  | Some l =>
      _ ← raise_if (existsb (λ x, negb (is_str x) || negb (truthy x)) l)
            InvalidHostSnapshot (field +:+ " must contain non-empty strings");
      Ok (from_keys (map text_of l))
  end.
Definition _iso_timestamp (v : pyval) (field : string) : result string :=
  text ← _string v field;
  _ ← catch (fromisoformat (z_to_offset text)) ValueError
        (λ _, raise InvalidHostSnapshot (field +:+ " must be an ISO timestamp"));
  Ok text.
(** [math.isfinite(v)] and [v < 0] for a number. *)
Definition isfinite (v : pyval) : result bool :=
  match v with
  | PInt n =>
      if float_finite (float_of_int n) then Ok true
      else raise OverflowError "int too large to convert to float"
  | PFloat f => Ok (float_finite f)
  | _ => raise TypeError "must be real number"
  end.
Definition negative (v : pyval) : bool :=
  match v with PInt n => (n <? 0)%Z | PFloat f => SFltb f (S754_zero false) | _ => false end.
Definition metric (d : dict) (field : string) : result pyval :=
  let v := py_get d field in
  let bad := raise InvalidHostSnapshot ("dynamic." +:+ field +:+ " must be a finite non-negative number") in
  match v with
  | PInt _ | PFloat _ =>
      finite ← isfinite v;
      if negb finite || negative v then bad else Ok v
  | _ => bad
  end.
Definition positive_int (v : pyval) (least : Z) (message : string) : result Z :=
  match v with
  | PInt n => _ ← raise_if (n <? least)%Z InvalidHostSnapshot message; Ok n
  | _ => raise InvalidHostSnapshot message
  end.
(** [int(v)] and [float(v)] of a metric. *)
Definition number_int (v : pyval) : Z :=
  match v with PInt n => n | PFloat f => float_trunc f | _ => 0%Z end.
Definition number_float (v : pyval) : spec_float :=
  match v with PInt n => float_of_int n | PFloat f => f | _ => S754_nan end.

(** The parts of a snapshot, each checked in the order of the code. *)
Record static_facts : Type := { s_host : string; s_platform : string; s_architecture : string; s_memory : Z }.
Definition read_static (static : dict) : result static_facts :=
  host ← _string (py_get static "hostId") "static.hostId";
  _ ← raise_if (negb (_HOST_ID host)) InvalidHostSnapshot "static.hostId is invalid";
  platform ← _string (py_get static "platform") "static.platform";
  architecture ← _string (py_get static "architecture") "static.architecture";
  _ ← _string (py_get static "memoryClass") "static.memoryClass";
  _ ← positive_int (py_get static "logicalCpuCount") 1 "static.logicalCpuCount must be a positive integer";
  memory ← positive_int (py_get static "totalMemoryBytes") 0 "static.totalMemoryBytes must be a non-negative integer";
  Ok {| s_host := host; s_platform := platform; s_architecture := architecture; s_memory := memory |}.
Record dynamic_facts : Type := { m_memory : pyval; m_load : pyval; m_connectivity : string }.
Definition read_dynamic (dynamic : dict) : result dynamic_facts :=
  memory ← metric dynamic "availableMemoryBytes";
  _ ← metric dynamic "loadAverage1m";
  load ← metric dynamic "normalizedLoad1m";
  connectivity ← _string (py_get dynamic "connectivityState") "dynamic.connectivityState";
  _ ← raise_if (negb (String.eqb connectivity "LOCAL_OBSERVED"))
        InvalidHostSnapshot "dynamic.connectivityState must equal LOCAL_OBSERVED";
  Ok {| m_memory := memory; m_load := load; m_connectivity := connectivity |}.
Definition read_devspace (devspace : dict) (host : string) : result unit :=
  commit ← _string (py_get devspace "sourceCommit") "verified.devspace.sourceCommit";
  _ ← raise_if (negb (git_hex commit)) InvalidHostSnapshot "verified.devspace.sourceCommit must be git hex";
  _ ← raise_if (match py_get devspace "sourceDirty" with PBool _ => false | _ => true end)
        InvalidHostSnapshot "verified.devspace.sourceDirty must be bool";
  _ ← _string (py_get devspace "buildId") "verified.devspace.buildId";
  server ← _string (py_get devspace "serverInstanceId") "verified.devspace.serverInstanceId";
  _ ← _iso_timestamp (py_get devspace "startedAt") "verified.devspace.startedAt";
  raise_if (String.eqb host server) InvalidHostSnapshot "physical hostId must differ from serverInstanceId".
Record manifest_facts : Type := { c_verified : list string; c_missing : list string; c_sha : string }.
Definition read_manifest (manifest : dict) : result manifest_facts :=
  _ ← _string (py_get manifest "schema") "verified.capabilityManifest.schema";
  capabilities ← _string_set (py_get manifest "capabilities") "verified.capabilityManifest.capabilities";
  missing ← _string_set (py_get manifest "missing") "verified.capabilityManifest.missing";
  sha ← _sha (py_get manifest "manifestSha256") "verified.capabilityManifest.manifestSha256";
  Ok {| c_verified := capabilities; c_missing := missing; c_sha := sha |}.

Definition parse_devspace_host_snapshot (value : dict) : result HostSnapshotView :=
  _ ← raise_if (negb (is_text (py_get value "schema") DEVSPACE_HOST_CAPABILITY_SNAPSHOT_SCHEMA))
        InvalidHostSnapshot "unsupported DevSpace host capability snapshot schema";
  snapshot_id ← _sha (py_get value "snapshotId") "snapshotId";
  static ← _mapping (py_get value "static") "static";
  dynamic ← _mapping (py_get value "dynamic") "dynamic";
  verified ← _mapping (py_get value "verified") "verified";
  devspace ← _mapping (py_get verified "devspace") "verified.devspace";
  manifest ← _mapping (py_get verified "capabilityManifest") "verified.capabilityManifest";
  freshness ← _mapping (py_get value "freshness") "freshness";
  facts ← read_static static;
  metrics ← read_dynamic dynamic;
  _ ← read_devspace devspace (s_host facts);
  capabilities ← read_manifest manifest;
  telemetry ← _sha (py_get freshness "telemetrySha256") "freshness.telemetrySha256";
  observed ← _iso_timestamp (py_get freshness "observedAt") "freshness.observedAt";
  digest ← _devspace_sha256 (PDict dynamic);
  _ ← raise_if (negb (String.eqb digest telemetry)) InvalidHostSnapshot "host capability telemetry digest mismatch";
  core ← _devspace_sha256 (PDict [
    ("schema", py_get value "schema"); ("static", PDict static); ("dynamic", PDict dynamic);
    ("verified", PDict verified); ("freshness", PDict freshness)]);
  _ ← raise_if (negb (String.eqb core snapshot_id)) InvalidHostSnapshot "host capability snapshotId mismatch";
  Ok {| host_id := s_host facts; snapshot_id := snapshot_id; host_platform := s_platform facts;
        host_architecture := s_architecture facts; total_memory_bytes := s_memory facts;
        available_memory_bytes := number_int (m_memory metrics); normalized_load_1m := number_float (m_load metrics);
        connectivity_state := m_connectivity metrics; verified_capabilities := c_verified capabilities;
        missing_capabilities := c_missing capabilities; capability_manifest_sha256 := c_sha capabilities;
        observed_at := observed |}.

(** ** Choosing a host *)
Definition _hard_constraint_failures (r : PlacementRequirements) (h : HostSnapshotView) : list string :=
  (if String.eqb (connectivity_state h) "LOCAL_OBSERVED" then [] else ["connectivity"]) ++
  match platform r with
  | Some p => if String.eqb (host_platform h) p then [] else ["platform"]
  | None => []
  end ++
  match architecture r with
  | Some a => if String.eqb (host_architecture h) a then [] else ["architecture"]
  | None => []
  end ++
  (if (total_memory_bytes h <? min_total_memory_bytes r)%Z then ["memory"] else []) ++
  map (λ c, "capability:" +:+ c)
    (List.filter (λ c, negb (text_in c (verified_capabilities h)) || text_in c (missing_capabilities h))
      (sort_strings (required_capabilities r))).

(** A score is a tuple of integers and floats; a criterion gives one kind of number. *)
Inductive number : Type := NInt (n : Z) | NFloat (f : spec_float).
Definition number_value (x : number) : pyval := match x with NInt n => PInt n | NFloat f => PFloat f end.
(** [list.index(x)]. *)
Fixpoint index_of (x : string) (l : list string) : option nat :=
  match l with
  | [] => None
  | y :: l => if String.eqb x y then Some 0 else S <$> index_of x l
  end.
Definition criterion_score (p : PlacementPreferences) (h : HostSnapshotView) (criterion : string) : result number :=
  if String.eqb criterion PREFER_HOST_ORDER then
    Ok (NInt match index_of (host_id h) (preferred_host_ids p) with
             | None => 0
             | Some i => Z.of_nat (length (preferred_host_ids p)) - Z.of_nat i
             end)
  else if String.eqb criterion PREFER_MORE_AVAILABLE_MEMORY then Ok (NInt (available_memory_bytes h))
  else if String.eqb criterion PREFER_LOWER_NORMALIZED_LOAD then Ok (NFloat (SFopp (normalized_load_1m h)))
  else raise (OtherException "AssertionError") ("unsupported preference criterion: " +:+ criterion).
Definition _preference_score (p : PlacementPreferences) (h : HostSnapshotView) : result (list number) :=
  mapM_result (criterion_score p h) (criteria p).
(** [a == b] and [a > b] on numbers, [a > b] on tuples. *)
Definition int_float_compare (n : Z) (f : spec_float) : option comparison :=
  match f with
  | S754_nan => None
  | S754_infinity s => Some (if s then Gt else Lt)
  | S754_zero _ => Some (n ?= 0)%Z
  | S754_finite s m e =>
      let v := if s then Z.neg m else Z.pos m in
      Some (if (0 <=? e)%Z then n ?= v * 2 ^ e else n * 2 ^ (- e) ?= v)%Z
  end.
Definition number_compare (a b : number) : option comparison :=
  match a, b with
  | NInt m, NInt n => Some (m ?= n)%Z
  | NFloat f, NFloat g => SFcompare f g
  | NInt n, NFloat f => int_float_compare n f
  | NFloat f, NInt n => CompOpp <$> int_float_compare n f
  end.
Definition number_eq (a b : number) : bool := match number_compare a b with Some Eq => true | _ => false end.
Definition number_gt (a b : number) : bool := match number_compare a b with Some Gt => true | _ => false end.
Fixpoint tuple_gt (a b : list number) : bool :=
  match a, b with
  | x :: a, y :: b => if number_eq x y then tuple_gt a b else number_gt x y
  | _ :: _, [] => true
  | [], _ => false
  end.
(** [max(hosts, key=...)]: the first of the greatest. *)
Fixpoint max_from {A} (best : A * list number) (l : list (A * list number)) : A :=
  match l with
  | [] => best.1
  | x :: l => max_from (if tuple_gt x.2 best.2 then x else best) l
  end.

Definition count_text (name : string) (n : nat) : string := name +:+ "=" +:+ int_text (Z.of_nat n).
(** [failures_by_host], in the order of [sorted(failures_by_host)]. *)
Definition failures_by_host (r : PlacementRequest) (hosts : list HostSnapshotView) : list (string * list string) :=
  sort_items (map (λ h, (host_id h, _hard_constraint_failures (requirements r) h)) hosts).
Definition rejected_details (failures : list (string * list string)) : list string :=
  map (λ hf, "ineligible[" +:+ hf.1 +:+ "]=" +:+ str_join "," hf.2)
    (List.filter (λ hf, bool_decide (hf.2 ≠ [])) failures).
Definition score_detail (x : HostSnapshotView * list number) : result string :=
  t ← json_dumps true true (PList (map number_value x.2));
  Ok ("score[" +:+ host_id x.1 +:+ "]=" +:+ t).

(** The choice among the eligible hosts: the host, the reason code and its details. *)
Definition choose (r : PlacementRequest) (hosts eligible : list HostSnapshotView) :
    result (HostSnapshotView * string * list string) :=
  let failures := failures_by_host r hosts in
  match eligible with
  | [] =>
      match hosts with
      | [h] => raise NoEligibleHost ("HARD_CONSTRAINTS_FAILED:" +:+
                 str_join "," (_hard_constraint_failures (requirements r) h))
      | _ => raise NoEligibleHost ("NO_ELIGIBLE_HOST:HARD_CONSTRAINTS_FAILED:" +:+
               str_join ";" (map (λ hf, hf.1 +:+ "=" +:+ str_join "," hf.2) failures))
      end
  | [selected] =>
      match hosts with
      | [_] => Ok (selected, "SOLE_ELIGIBLE_HOST",
                 ["inventory_size=1"; "hard_constraints=pass"; "selection=sole_eligible_host"])
      | _ =>
          prefs ← preferences_sha256 r;
          Ok (selected, "SOLE_ELIGIBLE_AFTER_FILTER",
            [count_text "inventory_size" (length hosts); "eligible_hosts=1"; "selected_hard_constraints=pass"] ++
            rejected_details failures ++
            ["preferences_sha256=" +:+ prefs; "selection=" +:+ host_id selected])
      end
  | _ =>
      let ordered := sort_by host_id eligible in
      scored ← mapM_result (λ h, s ← _preference_score (preferences r) h; Ok (h, s)) ordered;
      match scored with
      | [] => raise ValueError "max() iterable argument is empty"
      | best :: others =>
          let selected := max_from best others in
          score_details ← mapM_result score_detail scored;
          prefs ← preferences_sha256 r;
          let stated := bool_decide (criteria (preferences r) ≠ []) in
          Ok (selected, if stated then "SOFT_PREFERENCE_SCORE" else "DETERMINISTIC_TIE_BREAK",
            [count_text "inventory_size" (length hosts); count_text "eligible_hosts" (length eligible)] ++
            rejected_details failures ++
            ["soft_preference_criteria=" +:+ (if stated then str_join "," (criteria (preferences r)) else "none");
             "preferences_sha256=" +:+ prefs] ++
            score_details ++
            ["tie_break=host_id_ascending"; "selection=" +:+ host_id selected])
      end
  end.

(** What a decision's id is the hash of. *)
Definition decision_core (request_id requirements_sha host snapshot reason : string) (details : list string) : dict := [
  ("request_id", PStr request_id); ("requirements_sha256", PStr requirements_sha); ("host_id", PStr host);
  ("snapshot_id", PStr snapshot); ("reason_code", PStr reason); ("reason_details", str_list details);
  ("runtime_is_planner_authority", PBool false)].

Definition parse_inventory (inventory : list dict) : result (list HostSnapshotView) :=
  hosts ← mapM_result parse_devspace_host_snapshot inventory;
  _ ← raise_if (has_dups (map host_id hosts)) InvalidHostSnapshot "host inventory contains duplicate hostId";
  Ok hosts.
Definition _evaluate (r : PlacementRequest) (inventory : list dict) : result (PlacementDecision * HostSnapshotView) :=
  _ ← raise_if (bool_decide (inventory = [])) NoEligibleHost "HOST_INVENTORY_EMPTY";
  hosts ← parse_inventory inventory;
  let eligible := List.filter (λ h, bool_decide (_hard_constraint_failures (requirements r) h = [])) hosts in
  '(selected, reason, details) ← choose r hosts eligible;
  requirements_sha ← requirements_sha256 r;
  id ← _sha256 (PDict (decision_core (request_id r) requirements_sha (host_id selected) (snapshot_id selected)
                        reason details));
  Ok ({| decision_id := id; d_request_id := request_id r; d_requirements_sha256 := requirements_sha;
         d_host_id := host_id selected; d_snapshot_id := snapshot_id selected; d_reason_code := reason;
         d_reason_details := details; d_schema := PLACEMENT_DECISION_SCHEMA;
         d_runtime_is_planner_authority := false |}, selected).

Definition DEFAULT_LEASE_TTL_SECONDS : Z := 30.
(** [PlacementEngine(lease_ttl_seconds=v)]: the engine is its time to live. *)
Definition new_engine (v : pyval) : result Z :=
  match v with
  | PInt n => _ ← raise_if (n <=? 0)%Z ValueError "lease_ttl_seconds must be a positive integer"; Ok n
  | _ => raise ValueError "lease_ttl_seconds must be a positive integer"
  end.
Definition place (r : PlacementRequest) (inventory : list dict) : result PlacementDecision :=
  '(decision, _) ← _evaluate r inventory; Ok decision.

(** ** Leases *)
(** What a lease's id is the hash of. *)
Definition lease_core (decision_id request_id requirements_sha host snapshot observed until : string) : dict := [
  ("decision_id", PStr decision_id); ("request_id", PStr request_id); ("requirements_sha256", PStr requirements_sha);
  ("host_id", PStr host); ("snapshot_id", PStr snapshot); ("snapshot_observed_at", PStr observed);
  ("valid_until", PStr until); ("runtime_is_planner_authority", PBool false);
  ("grants_execution_authority", PBool false); ("grants_retry_or_failover_authority", PBool false)].
Definition _issue_lease (ttl : Z) (r : PlacementRequest) (d : PlacementDecision) (selected : HostSnapshotView) :
    result HostPlacementLease :=
  observed ← fromisoformat (observed_at selected);
  limit ← plus_seconds observed ttl;
  let until := offset_to_z (iso_millis limit) in
  requirements_sha ← requirements_sha256 r;
  id ← _sha256 (PDict (lease_core (decision_id d) (request_id r) requirements_sha (host_id selected)
                        (snapshot_id selected) (observed_at selected) until));
  Ok {| lease_id := id; l_decision_id := decision_id d; l_request_id := request_id r;
        l_requirements_sha256 := requirements_sha; l_host_id := host_id selected;
        l_snapshot_id := snapshot_id selected; snapshot_observed_at := observed_at selected; valid_until := until;
        l_schema := HOST_PLACEMENT_LEASE_SCHEMA; l_runtime_is_planner_authority := false;
        grants_execution_authority := false; grants_retry_or_failover_authority := false |}.
Definition place_with_lease (ttl : Z) (r : PlacementRequest) (inventory : list dict) :
    result (PlacementDecision * HostPlacementLease) :=
  '(decision, selected) ← _evaluate r inventory;
  lease ← _issue_lease ttl r decision selected;
  Ok (decision, lease).

Definition _validate_lease_identity (r : PlacementRequest) (d : PlacementDecision) (l : HostPlacementLease) :
    result unit :=
  let bad b msg := raise_if b InvalidPlacementLease msg in
  _ ← bad (negb (String.eqb (l_schema l) HOST_PLACEMENT_LEASE_SCHEMA)) "unsupported HostPlacementLease schema";
  _ ← bad (negb (String.eqb (d_schema d) PLACEMENT_DECISION_SCHEMA)) "unsupported PlacementDecision schema";
  _ ← bad (l_runtime_is_planner_authority l || grants_execution_authority l
           || grants_retry_or_failover_authority l || d_runtime_is_planner_authority d)
        "placement authority flags must remain false";
  _ ← bad (negb (String.eqb (d_request_id d) (request_id r)) || negb (String.eqb (l_request_id l) (request_id r)))
        "LEASE_REQUEST_MISMATCH";
  requirements_sha ← requirements_sha256 r;
  _ ← bad (negb (String.eqb (d_requirements_sha256 d) requirements_sha)
           || negb (String.eqb (l_requirements_sha256 l) requirements_sha)) "LEASE_REQUIREMENTS_MISMATCH";
  _ ← bad (negb (String.eqb (l_decision_id l) (decision_id d))) "LEASE_DECISION_MISMATCH";
  _ ← bad (negb (String.eqb (l_host_id l) (d_host_id d)) || negb (String.eqb (l_snapshot_id l) (d_snapshot_id d)))
        "LEASE_SELECTION_MISMATCH";
  expected_decision ← _sha256 (PDict (decision_core (d_request_id d) (d_requirements_sha256 d) (d_host_id d)
    (d_snapshot_id d) (d_reason_code d) (d_reason_details d)));
  _ ← bad (negb (String.eqb (decision_id d) expected_decision)) "PLACEMENT_DECISION_ID_MISMATCH";
  expected_lease ← _sha256 (PDict (lease_core (l_decision_id l) (l_request_id l) (l_requirements_sha256 l)
    (l_host_id l) (l_snapshot_id l) (snapshot_observed_at l) (valid_until l)));
  _ ← bad (negb (String.eqb (lease_id l) expected_lease)) "HOST_PLACEMENT_LEASE_ID_MISMATCH";
  '(observed, until) ← catch
    (o ← fromisoformat (z_to_offset (snapshot_observed_at l)); u ← fromisoformat (z_to_offset (valid_until l)); Ok (o, u))
    ValueError (λ _, raise InvalidPlacementLease "lease freshness timestamps are invalid");
  _ ← bad (negb (aware observed) || negb (aware until)) "lease freshness timestamps must be offset-aware";
  bad (instant until <=? instant observed)%Z "lease validity window is invalid".

Definition _revalidation (l : HostPlacementLease) (status code : string) (details : list string) :
    PlacementLeaseRevalidation :=
  {| status := status; reason_code := code; reason_details := details; v_lease_id := lease_id l;
     v_decision_id := l_decision_id l; v_request_id := l_request_id l;
     v_requirements_sha256 := l_requirements_sha256 l; v_host_id := l_host_id l; v_snapshot_id := l_snapshot_id l;
     v_schema := PLACEMENT_LEASE_REVALIDATION_SCHEMA; v_runtime_is_planner_authority := false;
     v_grants_execution_authority := false; v_grants_retry_or_failover_authority := false |}.
(** The current snapshot of the lease's host against the lease. *)
Definition revalidate_host (r : PlacementRequest) (l : HostPlacementLease) (outcome : string)
    (hosts : list HostSnapshotView) : PlacementLeaseRevalidation :=
  match List.find (λ h, String.eqb (host_id h) (l_host_id l)) hosts with
  | None => _revalidation l "REPLACEMENT_REQUIRED" "SELECTED_HOST_UNAVAILABLE"
      ["host_id=" +:+ l_host_id l; "state=missing_offline_or_drained"; "next_action=fresh_placement"]
  | Some selected =>
      let hard_failures := _hard_constraint_failures (requirements r) selected in
      if bool_decide (hard_failures ≠ []) then
        _revalidation l "REPLACEMENT_REQUIRED" "HARD_CONSTRAINTS_CHANGED"
          ["host_id=" +:+ host_id selected; "failures=" +:+ str_join "," hard_failures; "next_action=fresh_placement"]
      else if negb (String.eqb (snapshot_id selected) (l_snapshot_id l))
           || negb (String.eqb (observed_at selected) (snapshot_observed_at l)) then
        _revalidation l "REPLACEMENT_REQUIRED" "HOST_SNAPSHOT_CHANGED"
          ["host_id=" +:+ host_id selected; "lease_snapshot_id=" +:+ l_snapshot_id l;
           "current_snapshot_id=" +:+ snapshot_id selected; "lease_observed_at=" +:+ snapshot_observed_at l;
           "current_observed_at=" +:+ observed_at selected; "next_action=fresh_placement"]
      else
        _revalidation l "VALID" "LEASE_REVALIDATED"
          ["host_id=" +:+ host_id selected; "snapshot_id=" +:+ snapshot_id selected;
           "prior_operation_outcome=" +:+ outcome; "placement_current=true"; "execution_authority=not_granted"]
  end.
Definition revalidate_lease (r : PlacementRequest) (d : PlacementDecision) (l : HostPlacementLease)
    (inventory : list dict) (now : datetime) (outcome : string) : result PlacementLeaseRevalidation :=
  _ ← _validate_lease_identity r d l;
  _ ← raise_if (negb (text_in outcome _PRIOR_OPERATION_OUTCOMES)) ValueError "unsupported prior_operation_outcome";
  _ ← raise_if (negb (aware now)) ValueError "now must be an offset-aware datetime";
  if String.eqb outcome PRIOR_OUTCOME_UNKNOWN then
    Ok (_revalidation l "RECONCILIATION_REQUIRED" "PRIOR_OPERATION_OUTCOME_UNKNOWN"
         ["same_logical_operation_must_be_reconciled"; "same_host_retry=forbidden";
          "replacement_host_replay=forbidden"])
  else
    until ← fromisoformat (z_to_offset (valid_until l));
    if (instant until <=? instant now)%Z then
      Ok (_revalidation l "REPLACEMENT_REQUIRED" "LEASE_EXPIRED"
           ["valid_until=" +:+ valid_until l; "prior_operation_outcome=" +:+ outcome; "next_action=fresh_placement"])
    else
      hosts ← parse_inventory inventory;
      Ok (revalidate_host r l outcome hosts).
End placement.

(** * Comparing scores *)
(** A score as integers in lexicographic order. *)
Fixpoint lex (a b : list Z) : comparison :=
  match a, b with
  | x :: a, y :: b => match (x ?= y)%Z with Eq => lex a b | c => c end
  | [], [] => Eq
  | [], _ => Lt
  | _, [] => Gt
  end.
Lemma lex_refl a : lex a a = Eq.
Proof. induction a as [|x a IH]; cbn; [done|]. by rewrite Z.compare_refl. Qed.
Lemma lex_opp a b : lex b a = CompOpp (lex a b).
Proof.
  revert b. induction a as [|x a IH]; intros [|y b]; cbn; try done.
  rewrite (Z.compare_antisym x y). destruct (x ?= y)%Z; cbn; auto.
Qed.
Lemma lex_trans a b c : lex a b ≠ Gt → lex b c ≠ Gt → lex a c ≠ Gt.
Proof.
  revert b c. induction a as [|x a IH]; intros [|y b] [|z c]; cbn; try done.
  destruct (Z.compare_spec x y), (Z.compare_spec y z), (Z.compare_spec x z); subst; try done; try lia; eauto.
Qed.
Lemma lex_gt_trans a b c : lex a b = Gt → lex b c ≠ Lt → lex a c = Gt.
Proof.
  revert b c. induction a as [|x a IH]; intros [|y b] [|z c]; cbn; try done.
  destruct (Z.compare_spec x y), (Z.compare_spec y z), (Z.compare_spec x z); subst; try done; try lia; eauto.
Qed.
Lemma lex_app a b a' b' : length a = length b →
  lex (a ++ a') (b ++ b') = match lex a b with Eq => lex a' b' | c => c end.
Proof.
  revert b. induction a as [|x a IH]; intros [|y b]; cbn; try done. intros [= Hl].
  destruct (x ?= y)%Z; auto.
Qed.

Definition float_rank (f : spec_float) : list Z :=
  match f with
  | S754_zero _ | S754_nan => [0; 0; 0]
  | S754_infinity s => [if s then -2 else 2; 0; 0]
  | S754_finite false m e => [1; e; Z.pos m]
  | S754_finite true m e => [-1; - e; Z.neg m]
  end%Z.
Definition number_rank (x : number) : list Z := match x with NInt n => [n] | NFloat f => float_rank f end.
Definition alike (x y : number) : Prop :=
  match x, y with
  | NInt _, NInt _ => True
  | NFloat f, NFloat g => f ≠ S754_nan ∧ g ≠ S754_nan
  | _, _ => False
  end.
Lemma float_compare f g : f ≠ S754_nan → g ≠ S754_nan →
  SFcompare f g = Some (lex (float_rank f) (float_rank g)).
Proof.
  destruct f as [|[]| |[] m e], g as [|[]| |[] m' e']; try done; intros _ _; cbn.
  - f_equal. rewrite Z.compare_opp, (Z.compare_antisym e e').
    change (Pos.compare_cont Eq m m') with (m ?= m')%positive.
    destruct (e ?= e')%Z; cbn; try done. by destruct (m ?= m')%positive.
  - f_equal. change (Pos.compare_cont Eq m m') with (m ?= m')%positive.
    destruct (e ?= e')%Z; cbn; try done. by destruct (m ?= m')%positive.
Qed.
Lemma alike_compare x y : alike x y →
  length (number_rank x) = length (number_rank y) ∧
  number_compare x y = Some (lex (number_rank x) (number_rank y)).
Proof.
  destruct x as [m|f], y as [n|g]; try done; cbn.
  - intros _. split; [done|]. by destruct (m ?= n)%Z.
  - intros [Hf Hg]. split; [|by apply float_compare]. by destruct f as [|?| |[] ? ?], g as [|?| |[] ? ?].
Qed.
Definition score_rank (l : list number) : list Z := mjoin (map number_rank l).
Lemma tuple_gt_rank a b : Forall2 alike a b →
  tuple_gt a b = match lex (score_rank a) (score_rank b) with Gt => true | _ => false end.
Proof.
  unfold score_rank. induction 1 as [|x y a b Hxy _ IH]; [done|]. cbn.
  destruct (alike_compare x y Hxy) as [Hl Hc]. rewrite lex_app by done.
  unfold number_eq, number_gt. rewrite Hc, IH. by destruct (lex (number_rank x) (number_rank y)).
Qed.

Lemma tuple_gt_Gt a b : Forall2 alike a b → tuple_gt a b = true ↔ lex (score_rank a) (score_rank b) = Gt.
Proof. intros Hab. rewrite tuple_gt_rank by done. by destruct (lex _ _). Qed.

(** [max] takes the first of the greatest. *)
Definition all_alike {A} (l : list (A * list number)) : Prop :=
  ∀ x y, x ∈ l → y ∈ l → Forall2 alike x.2 y.2.
Lemma all_alike_sub {A} (l k : list (A * list number)) : all_alike l → k ⊆ l → all_alike k.
Proof. intros Hl Hk x y Hx Hy. apply Hl; by apply Hk. Qed.
Lemma max_from_spec {A} (best : A * list number) l : all_alike (best :: l) →
  ∃ before c after, best :: l = before ++ c :: after ∧ max_from best l = c.1 ∧
    (∀ x, x ∈ before → tuple_gt c.2 x.2 = true) ∧ (∀ x, x ∈ after → tuple_gt x.2 c.2 = false).
Proof.
  revert best. induction l as [|x l IH]; intros best Ha.
  { exists [], best, []. split_and!; try done; intros x Hx; by apply elem_of_nil in Hx. }
  cbn [max_from]. destruct (tuple_gt x.2 best.2) eqn:E.
  - destruct (IH x) as (b & c & a & Hl & Hm & Hb & Hafter); [apply (all_alike_sub _ _ Ha); set_solver|].
    exists (best :: b), c, a. split_and!; [by rewrite Hl|exact Hm| |exact Hafter].
    intros y [->|Hy]%elem_of_cons; [|by apply Hb].
    assert (c ∈ x :: l) as Hc by (rewrite Hl; set_solver).
    destruct b as [|x' b]; [by injection Hl as <- _|]. injection Hl as <- Hl.
    specialize (Hb x ltac:(set_solver)). rewrite tuple_gt_Gt in * by (apply Ha; set_solver).
    eapply lex_gt_trans; [exact Hb|congruence].
  - destruct (IH best) as (b & c & a & Hl & Hm & Hb & Hafter); [apply (all_alike_sub _ _ Ha); set_solver|].
    assert (c ∈ best :: l) as Hc by (rewrite Hl; set_solver).
    destruct b as [|best' b]; injection Hl as -> Hl.
    + exists [], c, (x :: l). split_and!; [done|done|intros y Hy; by apply elem_of_nil in Hy|].
      subst a. intros y [->|Hy]%elem_of_cons; [done|by apply Hafter].
    + exists (best' :: x :: b), c, a. split_and!; [by rewrite Hl|exact Hm| |exact Hafter].
      intros y [->|[->|Hy]%elem_of_cons]%elem_of_cons; [by apply Hb; left| |by apply Hb; right].
      specialize (Hb best' ltac:(by left)). rewrite tuple_gt_Gt in * by (apply Ha; set_solver).
      eapply lex_gt_trans; [exact Hb|]. rewrite (lex_opp (score_rank x.2)). intros Hlt.
      destruct (lex (score_rank x.2) (score_rank best'.2)) eqn:Ex; try done.
      rewrite <- tuple_gt_Gt in Ex by (apply Ha; set_solver). congruence.
Qed.

(** * Snapshots and inventories *)
Section placement_lemmas.
Context `{FloatText} `{Digest} `{DateTimes} `{!LeaseTimes}.

Lemma parse_finite value h : parse_devspace_host_snapshot value = Ok h → float_finite (normalized_load_1m h) = true.
Proof.
  unfold parse_devspace_host_snapshot. intros Hp. run_ok Hp. subst h. cbn.
  match goal with E : read_dynamic _ = Ok ?m |- _ => revert E; generalize m end.
  clear. intros m Hm. unfold read_dynamic in Hm. run_ok Hm. subst m. cbn.
  match goal with E : metric _ "normalizedLoad1m" = Ok ?v |- _ => revert E; generalize v end.
  clear. intros v Hv. unfold metric in Hv. destruct (py_get _ _) as [| |n|f| | | | |]; try done.
  - cbn in Hv. destruct (float_finite (float_of_int n)) eqn:E; [|done]. cbn in Hv.
    destruct (n <? 0)%Z; [done|]. by injection Hv as <-.
  - cbn in Hv. destruct (float_finite f) eqn:E; [|done]. cbn in Hv.
    destruct (SFltb _ _); [done|]. by injection Hv as <-.
Qed.
Lemma parse_inventory_inv inv hosts : parse_inventory inv = Ok hosts →
  Forall2 (λ v h, parse_devspace_host_snapshot v = Ok h) inv hosts ∧ NoDup (map host_id hosts).
Proof.
  unfold parse_inventory. intros (hs & Hm%mapM_result_Ok_inv & (? & Hd%raise_if_Ok_inv & [= <-])%bind_Ok_inv)%bind_Ok_inv.
  split; [done|]. by apply has_dups_false.
Qed.
Lemma inventory_finite inv hosts h : parse_inventory inv = Ok hosts → h ∈ hosts →
  float_finite (normalized_load_1m h) = true.
Proof.
  intros [Hm _]%parse_inventory_inv Hh. apply list_elem_of_lookup in Hh as [i Hi].
  destruct (Forall2_lookup_r _ _ _ _ _ Hm Hi) as (v & _ & Hv). by eapply parse_finite.
Qed.

(** The hard constraints, spelled out. *)
Definition meets (r : PlacementRequirements) (h : HostSnapshotView) : Prop :=
  connectivity_state h = "LOCAL_OBSERVED" ∧ (∀ p, platform r = Some p → host_platform h = p) ∧
  (∀ a, architecture r = Some a → host_architecture h = a) ∧
  (min_total_memory_bytes r ≤ total_memory_bytes h)%Z ∧
  ∀ c, c ∈ required_capabilities r → c ∈ verified_capabilities h ∧ c ∉ missing_capabilities h.
Lemma if_nil {A} (b : bool) (x : A) : (if b then [] else [x]) = [] ↔ b = true.
Proof. by destruct b. Qed.
Lemma option_nil {A} (o : option A) (f : A → list string) :
  match o with Some p => f p | None => [] end = [] ↔ ∀ p, o = Some p → f p = [].
Proof. destruct o as [p|]; [|done]. split; [by intros Hp ? [= <-]|auto]. Qed.
Lemma meets_spec r h : _hard_constraint_failures r h = [] ↔ meets r h.
Proof.
  unfold _hard_constraint_failures, meets. rewrite !app_nil, if_nil, !option_nil, String.eqb_eq.
  setoid_rewrite if_nil. setoid_rewrite String.eqb_eq.
  assert ((if (total_memory_bytes h <? min_total_memory_bytes r)%Z then ["memory"] else []) = [] ↔
    (min_total_memory_bytes r ≤ total_memory_bytes h)%Z) as ->.
  { destruct (Z.ltb_spec (total_memory_bytes h) (min_total_memory_bytes r)); split; try done; lia. }
  assert (∀ l : list string, map (λ c, "capability:" +:+ c) l = [] ↔ l = []) as -> by (by intros []).
  rewrite filter_nil. setoid_rewrite sort_strings_perm. setoid_rewrite orb_false_iff.
  setoid_rewrite negb_false_iff. setoid_rewrite text_in_spec. by setoid_rewrite text_in_false.
Qed.

(** Scores of two hosts for the same preferences can be compared. *)
Lemma scores_alike p a b s s' :
  float_finite (normalized_load_1m a) = true → float_finite (normalized_load_1m b) = true →
  _preference_score p a = Ok s → _preference_score p b = Ok s' → Forall2 alike s s'.
Proof.
  intros Ha Hb Hs%mapM_result_Ok_inv Hs'%mapM_result_Ok_inv. revert s' Hs'.
  induction Hs as [|c x l s Hx _ IH]; intros s' Hs'; inversion Hs' as [|? y ? s'' Hy Hs'']; subst; constructor; [|auto].
  unfold criterion_score in Hx, Hy. repeat case_match; simplify_eq; try done. cbn.
  by destruct (normalized_load_1m a), (normalized_load_1m b).
Qed.

(** ** What the choice is *)
Definition eligible_hosts (r : PlacementRequest) (hosts : list HostSnapshotView) : list HostSnapshotView :=
  List.filter (λ h, bool_decide (_hard_constraint_failures (requirements r) h = [])) hosts.
Lemma elem_of_eligible r hosts h : h ∈ eligible_hosts r hosts ↔ h ∈ hosts ∧ meets (requirements r) h.
Proof. unfold eligible_hosts. by rewrite !list_elem_of_In, filter_In, bool_decide_eq_true, meets_spec. Qed.

Definition preferred (p : PlacementPreferences) (a b : HostSnapshotView) : Prop :=
  ∃ s s', _preference_score p a = Ok s ∧ _preference_score p b = Ok s' ∧
    (tuple_gt s s' = true ∨ tuple_gt s' s = false ∧ String.le (host_id a) (host_id b)).

Lemma choose_best r hosts eligible selected reason details :
  (∀ h, h ∈ eligible → float_finite (normalized_load_1m h) = true) →
  choose r hosts eligible = Ok (selected, reason, details) →
  selected ∈ eligible ∧ ∀ h, h ∈ eligible → h = selected ∨ preferred (preferences r) selected h.
Proof.
  intros Hfin. unfold choose. destruct eligible as [|e [|e' rest]].
  - destruct hosts as [|h [|h' hs]]; done.
  - intros Hc. assert (selected = e) as ->.
    { destruct hosts as [|h [|h' hs]]; [|by injection Hc|]; run_ok Hc; by simplify_eq. }
    split; [by left|]. intros h ->%list_elem_of_singleton. by left.
  - set (el := e :: e' :: rest) in *. clearbody el. intros Hc. apply bind_Ok_inv in Hc as (scored & Hs & Hc).
    destruct scored as [|best others]; [done|].
    assert (selected = max_from best others) as -> by (run_ok Hc; by simplify_eq). clear Hc.
    apply mapM_result_Ok_inv in Hs.
    assert (∀ x, x ∈ best :: others → x.1 ∈ el ∧ _preference_score (preferences r) x.1 = Ok x.2) as Hin.
    { intros x Hx. apply list_elem_of_lookup in Hx as [i Hi].
      destruct (Forall2_lookup_r _ _ _ _ _ Hs Hi) as (h & Hh & Hx).
      apply bind_Ok_inv in Hx as (s & Hsc & [= <-]). split; [|done].
      rewrite <- (sort_by_perm host_id el). by eapply list_elem_of_lookup_2. }
    destruct (max_from_spec best others) as (before & c & after & Hl & Hm & Hb & Ha).
    { intros x y Hx Hy. destruct (Hin x Hx), (Hin y Hy). apply (scores_alike (preferences r) x.1 y.1); auto. }
    rewrite Hm. assert (c ∈ best :: others) as Hc by (rewrite Hl; set_solver).
    split; [by apply Hin|]. intros h Hh. rewrite <- (sort_by_perm host_id el) in Hh.
    apply list_elem_of_lookup in Hh as [i Hi]. destruct (Forall2_lookup_l _ _ _ _ _ Hs Hi) as (x & Hx & Hxh).
    apply bind_Ok_inv in Hxh as (s & Hsc & [= <-]).
    assert ((h, s) ∈ best :: others) as Hx' by by eapply list_elem_of_lookup_2.
    rewrite Hl, elem_of_app, elem_of_cons in Hx'. unfold preferred. destruct Hx' as [Hx'|[<-|Hx']]; [| by left|].
    + right. exists c.2, s. split; [by apply Hin|]. split; [done|]. left. apply (Hb (h, s) Hx').
    + right. exists c.2, s. split; [by apply Hin|]. split; [done|]. right. split; [apply (Ha (h, s) Hx')|].
      assert (map fst (best :: others) = sort_by host_id el) as Hsort.
      { clear -Hs. induction Hs as [|h' x l k Hx _ IH]; [done|]. cbn. rewrite IH. f_equal.
        by apply bind_Ok_inv in Hx as (? & _ & [= <-]). }
      pose proof (sort_by_sorted host_id el) as Hss. rewrite <- Hsort, Hl, map_app in Hss. cbn in Hss.
      apply StronglySorted_app_1_r in Hss. apply StronglySorted_inv in Hss as [_ Hf].
      rewrite Forall_forall in Hf. apply (Hf h). apply list_elem_of_In, in_map_iff. exists (h, s).
      split; [done|by apply list_elem_of_In].
Qed.

Lemma evaluate_inv r inv d selected : _evaluate r inv = Ok (d, selected) →
  ∃ hosts reason details,
    inv ≠ [] ∧ parse_inventory inv = Ok hosts ∧ choose r hosts (eligible_hosts r hosts) = Ok (selected, reason, details) ∧
    requirements_sha256 r = Ok (d_requirements_sha256 d) ∧
    _sha256 (PDict (decision_core (request_id r) (d_requirements_sha256 d) (host_id selected) (snapshot_id selected)
      reason details)) = Ok (decision_id d) ∧
    d = {| decision_id := decision_id d; d_request_id := request_id r; d_requirements_sha256 := d_requirements_sha256 d;
           d_host_id := host_id selected; d_snapshot_id := snapshot_id selected; d_reason_code := reason;
           d_reason_details := details; d_schema := PLACEMENT_DECISION_SCHEMA;
           d_runtime_is_planner_authority := false |}.
Proof.
  unfold _evaluate. intros (? & Hne%raise_if_Ok_inv & (hosts & Hp & ([[sel reason] details] & Hc & (sha & Hr & (id & Hi & [= <- <-])%bind_Ok_inv)%bind_Ok_inv)%bind_Ok_inv)%bind_Ok_inv)%bind_Ok_inv.
  exists hosts, reason, details. split_and!; try done. by apply bool_decide_eq_false in Hne.
Qed.

(** C38: the host that is chosen is in the inventory and meets every hard constraint, and of any other host that
    does either its score is greater, or the other's is not greater and its id is not after the other's. *)
Theorem placement_selects_best r inv d selected : _evaluate r inv = Ok (d, selected) →
  d_host_id d = host_id selected ∧ d_snapshot_id d = snapshot_id selected ∧
  ∃ hosts, parse_inventory inv = Ok hosts ∧ selected ∈ hosts ∧ meets (requirements r) selected ∧
    ∀ h, h ∈ hosts → meets (requirements r) h → h = selected ∨ preferred (preferences r) selected h.
Proof.
  intros (hosts & reason & details & _ & Hp & Hc & _ & _ & ->)%evaluate_inv. split; [done|]. split; [done|].
  exists hosts. split; [done|]. apply choose_best in Hc as [Hin Hbest].
  - apply elem_of_eligible in Hin as [??]. split; [done|]. split; [done|]. intros h Hh Hm.
    apply Hbest. by apply elem_of_eligible.
  - intros h [Hh _]%elem_of_eligible. by eapply inventory_finite.
Qed.

(** ** The order of the inventory *)
Lemma choose_perm r hosts hosts' el el' : NoDup (map host_id hosts) → NoDup (map host_id el) →
  hosts ≡ₚ hosts' → el ≡ₚ el' → choose r hosts el = choose r hosts' el'.
Proof.
  intros Hn Hne Hh He.
  assert (failures_by_host r hosts = failures_by_host r hosts') as Hf.
  { unfold failures_by_host. apply sort_items_unique; [|by apply Permutation_map].
    unfold keys. rewrite map_map. done. }
  assert (length hosts = length hosts') as Hl by by rewrite Hh.
  destruct el as [|e [|e' rest]].
  - apply Permutation_nil in He as ->. unfold choose. rewrite Hf.
    destruct hosts as [|h [|h2 hs]], hosts' as [|h' [|h2' hs']]; try done; try (exfalso; cbn in Hl; lia).
    apply Permutation_length_1 in Hh as ->. done.
  - apply Permutation_length_1_inv in He as ->. unfold choose. rewrite Hf, Hl.
    destruct hosts as [|h [|h2 hs]], hosts' as [|h' [|h2' hs']]; try done; try (exfalso; cbn in Hl; lia).
  - destruct el' as [|x [|x' rest']]; [symmetry in He; by apply Permutation_nil in He|by apply Permutation_length in He|].
    unfold choose. rewrite (sort_by_unique host_id _ _ Hne He), Hf, Hl, (Permutation_length He). done.
Qed.

(** For an inventory of readable snapshots, the decision with its id, the selected host or the error do
    not depend on the order of the inventory. *)
Theorem placement_ignores_order r inv inv' : inv ≡ₚ inv' →
  Forall (λ v, is_ok (parse_devspace_host_snapshot v) = true) inv → _evaluate r inv = _evaluate r inv'.
Proof.
  intros Hp Ha. unfold _evaluate. destruct inv as [|v inv].
  { by apply Permutation_nil in Hp as ->. }
  destruct inv' as [|v' inv']; [symmetry in Hp; by apply Permutation_nil in Hp|]. 
  rewrite !bool_decide_false by done. cbn [raise_if mbind result_bind]. unfold parse_inventory.
  destruct (mapM_result_permutes _ _ _ Hp Ha) as (k & k' & -> & -> & Hk). cbn [mbind result_bind].
  assert (has_dups (map host_id k) = has_dups (map host_id k')) as Hd.
  { unfold has_dups. apply bool_decide_ext. by rewrite Hk. }
  rewrite Hd. destruct (has_dups (map host_id k')) eqn:E; [done|]. cbn [raise_if mbind result_bind].
  apply has_dups_false in Hd, E. 
  by rewrite (choose_perm r k k' _ (List.filter (λ h, bool_decide (_hard_constraint_failures (requirements r) h = [])) k'))
    by (try apply NoDup_map_filter; try apply filter_perm; done).
Qed.

(** ** When a host is found *)
Lemma sha_ok v : json_plain v = true → ∃ h, _sha256 v = Ok h.
Proof.
  intros Hv. unfold _sha256, json_sha256, json_dumps. rewrite json_check_jnorm by by apply json_check_ok. cbn. eauto.
Qed.
Lemma requirements_sha_ok r : ∃ h, requirements_sha256 r = Ok h.
Proof.
  apply sha_ok. cbn. rewrite str_list_plain. by destruct (platform _), (architecture _).
Qed.
Lemma preferences_sha_ok r : ∃ h, preferences_sha256 r = Ok h.
Proof. apply sha_ok. cbn. by rewrite !str_list_plain. Qed.
Lemma new_preferences_criteria p q : new_preferences p = Ok q → ∀ c, c ∈ criteria q → c ∈ _SOFT_PREFERENCE_CRITERIA.
Proof.
  unfold new_preferences. intros Hp. run_ok Hp. subst q. intros c Hc.
  match goal with E : bool_decide (sort_unique _ ≠ []) = false |- _ => apply bool_decide_eq_false in E; rename E into Hu end.
  apply dec_stable in Hu. rewrite sort_unique_nil in Hu. rewrite filter_nil in Hu. specialize (Hu c Hc).
  by apply negb_false_iff, text_in_spec in Hu.
Qed.
Lemma score_ok p q h : new_preferences p = Ok q → ∃ s, _preference_score q h = Ok s.
Proof.
  intros Hp. destruct (mapM_result_total (criterion_score q h) (criteria q)) as (s & Hs & _); [|eauto].
  intros c Hc%(new_preferences_criteria _ _ Hp). unfold criterion_score.
  apply elem_of_cons in Hc as [->|Hc]; [cbn; eauto|]. apply elem_of_cons in Hc as [->|Hc]; [cbn; eauto|].
  apply list_elem_of_singleton in Hc as ->. cbn. eauto.
Qed.
Lemma score_detail_ok x : ∃ t, score_detail x = Ok t.
Proof.
  unfold score_detail, json_dumps. assert (json_plain (PList (map number_value x.2)) = true) as Hp.
  { cbn. rewrite forallb_map. apply forallb_forall. by intros [] _. }
  rewrite json_check_jnorm by by apply json_check_ok. cbn. eauto.
Qed.
Lemma choose_ok p r hosts el : new_preferences p = Ok (preferences r) → el ≠ [] → ∃ x, choose r hosts el = Ok x.
Proof.
  intros Hp Hne. destruct (preferences_sha_ok r) as [sha Hsha]. unfold choose. rewrite Hsha.
  destruct el as [|e [|e' rest]]; [done|destruct hosts as [|? []]; cbn; eauto|].
  destruct (mapM_result_total (λ h, s ← _preference_score (preferences r) h; Ok (h, s)) (sort_by host_id (e :: e' :: rest)))
    as (scored & -> & Hl).
  { intros h _. destruct (score_ok p _ h Hp) as [s ->]. cbn. eauto. }
  cbn [mbind result_bind]. rewrite (Permutation_length (sort_by_perm host_id _)) in Hl.
  destruct scored as [|best others]; [done|].
  destruct (mapM_result_total score_detail (best :: others)) as (ds & -> & _); [intros; apply score_detail_ok|].
  cbn. eauto.
Qed.
Lemma choose_none r hosts : ∃ m, choose r hosts [] = raise NoEligibleHost m.
Proof. unfold choose. destruct hosts as [|? []]; eauto. Qed.

(** With valid preferences and a readable, non-empty inventory, [place] returns a decision when some
    host meets the hard constraints, and raises NoEligibleHost when none does. *)
Theorem placement_succeeds_iff p r inv hosts :
  new_preferences p = Ok (preferences r) → inv ≠ [] → parse_inventory inv = Ok hosts →
  ((∃ h, h ∈ hosts ∧ meets (requirements r) h) → ∃ d, place r inv = Ok d) ∧
  ((∀ h, h ∈ hosts → ¬ meets (requirements r) h) → ∃ message, place r inv = raise NoEligibleHost message).
Proof.
  intros Hp Hne Hi. unfold place, _evaluate. rewrite bool_decide_false by done. cbn [raise_if mbind result_bind].
  rewrite Hi. cbn [mbind result_bind]. fold (eligible_hosts r hosts). split.
  - intros (h & Hh & Hm). assert (eligible_hosts r hosts ≠ []) as Hel.
    { intros E. assert (h ∈ eligible_hosts r hosts) as Hin by by apply elem_of_eligible. rewrite E in Hin. by apply elem_of_nil in Hin. }
    destruct (choose_ok p r hosts _ Hp Hel) as [[[sel reason] details] ->]. cbn [mbind result_bind].
    destruct (requirements_sha_ok r) as [sha ->]. cbn [mbind result_bind].
    destruct (sha_ok (PDict (decision_core (request_id r) sha (host_id sel) (snapshot_id sel) reason details)))
      as [id ->]; [cbn; by rewrite str_list_plain|]. cbn. eauto.
  - intros Hno. assert (eligible_hosts r hosts = []) as ->.
    { destruct (eligible_hosts r hosts) as [|h l] eqn:E; [done|].
      assert (h ∈ eligible_hosts r hosts) as [Hh Hm]%elem_of_eligible by (rewrite E; by left). by destruct (Hno h). }
    destruct (choose_none r hosts) as [m ->]. cbn. eauto.
Qed.

(** ** Leases *)
Lemma issue_lease_inv ttl r d h l : _issue_lease ttl r d h = Ok l →
  ∃ observed limit sha,
    fromisoformat (observed_at h) = Ok observed ∧ plus_seconds observed ttl = Ok limit ∧ requirements_sha256 r = Ok sha ∧
    _sha256 (PDict (lease_core (decision_id d) (request_id r) sha (host_id h) (snapshot_id h) (observed_at h)
      (offset_to_z (iso_millis limit)))) = Ok (lease_id l) ∧
    l = {| lease_id := lease_id l; l_decision_id := decision_id d; l_request_id := request_id r;
           l_requirements_sha256 := sha; l_host_id := host_id h; l_snapshot_id := snapshot_id h;
           snapshot_observed_at := observed_at h; valid_until := offset_to_z (iso_millis limit);
           l_schema := HOST_PLACEMENT_LEASE_SCHEMA; l_runtime_is_planner_authority := false;
           grants_execution_authority := false; grants_retry_or_failover_authority := false |}.
Proof.
  unfold _issue_lease. intros (o & Ho & (u & Hu & (sha & Hr & (id & Hi & [= <-])%bind_Ok_inv)%bind_Ok_inv)%bind_Ok_inv)%bind_Ok_inv.
  eauto 10.
Qed.
Lemma find_host hosts h id : NoDup (map host_id hosts) → h ∈ hosts → host_id h = id →
  List.find (λ h, String.eqb (host_id h) id) hosts = Some h.
Proof.
  intros Hn Hh Hid. destruct (List.find _ hosts) as [h'|] eqn:E.
  - apply find_some in E as [Hh' He%String.eqb_eq]. f_equal.
    apply (NoDup_key_inj host_id hosts); [done|by apply list_elem_of_In|done|congruence].
  - exfalso. apply list_elem_of_In in Hh. pose proof (find_none _ _ E h Hh) as Hf. cbn in Hf.
    by rewrite Hid, String.eqb_refl in Hf.
Qed.

(** What an accepted lease is. *)
Definition core_of_decision (d : PlacementDecision) : pyval :=
  PDict (decision_core (d_request_id d) (d_requirements_sha256 d) (d_host_id d) (d_snapshot_id d) (d_reason_code d)
    (d_reason_details d)).
Definition core_of_lease (l : HostPlacementLease) : pyval :=
  PDict (lease_core (l_decision_id l) (l_request_id l) (l_requirements_sha256 l) (l_host_id l) (l_snapshot_id l)
    (snapshot_observed_at l) (valid_until l)).
Record lease_accepted (r : PlacementRequest) (d : PlacementDecision) (l : HostPlacementLease) : Prop := {
  accepted_schemas : l_schema l = HOST_PLACEMENT_LEASE_SCHEMA ∧ d_schema d = PLACEMENT_DECISION_SCHEMA;
  accepted_flags : l_runtime_is_planner_authority l = false ∧ grants_execution_authority l = false ∧
    grants_retry_or_failover_authority l = false ∧ d_runtime_is_planner_authority d = false;
  accepted_request : d_request_id d = request_id r ∧ l_request_id l = request_id r;
  accepted_requirements : requirements_sha256 r = Ok (d_requirements_sha256 d) ∧
    l_requirements_sha256 l = d_requirements_sha256 d;
  accepted_selection : l_decision_id l = decision_id d ∧ l_host_id l = d_host_id d ∧ l_snapshot_id l = d_snapshot_id d;
  accepted_decision : _sha256 (core_of_decision d) = Ok (decision_id d);
  accepted_lease : _sha256 (core_of_lease l) = Ok (lease_id l);
  accepted_window : ∃ o u, fromisoformat (z_to_offset (snapshot_observed_at l)) = Ok o ∧
    fromisoformat (z_to_offset (valid_until l)) = Ok u ∧ aware o = true ∧ aware u = true ∧ (instant o < instant u)%Z }.
Lemma validate_iff r d l : _validate_lease_identity r d l = Ok () ↔ lease_accepted r d l.
Proof.
  unfold _validate_lease_identity. split.
  - intros Hv. run_ok Hv.
    match goal with E : catch _ _ _ = Ok _ |- _ => apply catch_Ok_inv in E as [Hw|(? & _ & _ & [=])] end.
    run_ok Hw. 
    repeat match goal with
      | E : _ || _ = false |- _ => apply orb_false_iff in E as [? ?]
      | E : negb _ = false |- _ => apply negb_false_iff in E
      | E : String.eqb _ _ = true |- _ => apply String.eqb_eq in E
      end.
    subst a11. apply bind_Ok_inv in Hv as (? & [Ho%negb_false_iff Hu%negb_false_iff]%raise_if_Ok_inv%orb_false_iff & Hv).
    apply raise_if_Ok_inv, Z.leb_gt in Hv. subst. constructor; unfold core_of_decision, core_of_lease; eauto 10 with congruence.
  - intros [[E1 E2] (E3 & E4 & E5 & E6) [E7 E8] [E9 E10] (E11 & E12 & E13) E14 E15 (o & u & E16 & E17 & E18 & E19 & E20)].
    rewrite E1, E2, E3, E4, E5, E6, E7, E8. rewrite !String.eqb_refl. cbn [negb orb raise_if mbind result_bind].
    rewrite E9. cbn [mbind result_bind]. rewrite E10, E11, E12, E13, !String.eqb_refl. cbn [negb orb raise_if mbind result_bind].
    unfold core_of_decision in E14. rewrite E7 in E14. rewrite E14. cbn [mbind result_bind]. rewrite String.eqb_refl.
    cbn [negb raise_if mbind result_bind].
    unfold core_of_lease in E15. rewrite E8, E10, E11, E12, E13 in E15. rewrite E15. cbn [mbind result_bind].
    rewrite String.eqb_refl. cbn [negb raise_if mbind result_bind]. rewrite E16, E17. cbn [catch mbind result_bind].
    rewrite E18, E19. cbn [negb orb raise_if mbind result_bind]. by rewrite (proj2 (Z.leb_gt _ _) E20).
Qed.

Lemma revalidate_current r d l inv now outcome v : revalidate_lease r d l inv now outcome = Ok v →
  placement_current v = true ↔
    outcome ≠ PRIOR_OUTCOME_UNKNOWN ∧
    (∃ until, fromisoformat (z_to_offset (valid_until l)) = Ok until ∧ (instant now < instant until)%Z) ∧
    ∃ hosts h, parse_inventory inv = Ok hosts ∧ h ∈ hosts ∧ host_id h = l_host_id l ∧ meets (requirements r) h ∧
      snapshot_id h = l_snapshot_id l ∧ observed_at h = snapshot_observed_at l.
Proof.
  unfold revalidate_lease. intros ([] & _ & (? & _ & (? & _ & Hv)%bind_Ok_inv)%bind_Ok_inv)%bind_Ok_inv.
  destruct (String.eqb_spec outcome PRIOR_OUTCOME_UNKNOWN) as [->|Hout].
  { injection Hv as <-. split; [done|]. by intros [[] _]. }
  apply bind_Ok_inv in Hv as (until & Hu & Hv). destruct (Z.leb_spec (instant until) (instant now)) as [Hle|Hlt].
  { injection Hv as <-. split; [done|]. intros (_ & (u & Hu' & Hlt) & _). rewrite Hu in Hu'. injection Hu' as <-. lia. }
  apply bind_Ok_inv in Hv as (hosts & Hp & [= <-]). pose proof (parse_inventory_inv _ _ Hp) as [_ Hn].
  transitivity (∃ h, h ∈ hosts ∧ host_id h = l_host_id l ∧ meets (requirements r) h ∧
    snapshot_id h = l_snapshot_id l ∧ observed_at h = snapshot_observed_at l).
  - unfold revalidate_host. destruct (List.find _ hosts) as [h|] eqn:Ef.
    + apply find_some in Ef as [Hh%list_elem_of_In Hid%String.eqb_eq].
      assert (∀ h', h' ∈ hosts → host_id h' = l_host_id l → h' = h) as Huniq.
      { intros h' Hh' Hid'. apply (NoDup_key_inj host_id hosts); congruence. }
      destruct (bool_decide_reflect (_hard_constraint_failures (requirements r) h ≠ [])) as [Hf|Hf%dec_stable].
      { rewrite meets_spec in Hf. split; [done|]. intros (h' & Hh' & Hid' & Hm & _). rewrite (Huniq h' Hh' Hid') in Hm. done. }
      destruct (String.eqb_spec (snapshot_id h) (l_snapshot_id l)) as [Hs|Hs].
      2: { split; [done|]. intros (h' & Hh' & Hid' & _ & Hs' & _). rewrite (Huniq h' Hh' Hid') in Hs'. done. }
      destruct (String.eqb_spec (observed_at h) (snapshot_observed_at l)) as [Ho|Ho].
      2: { split; [done|]. intros (h' & Hh' & Hid' & _ & _ & Ho'). rewrite (Huniq h' Hh' Hid') in Ho'. done. }
      split; [|done]. intros _. exists h. apply meets_spec in Hf. auto.
    + split; [done|]. intros (h & Hh & Hid & _). pose proof (find_host hosts h _ Hn Hh Hid). congruence.
  - split; [intros (h & Hh); eauto 10|]. intros (_ & _ & hosts' & h & Hp' & Hh). rewrite Hp in Hp'.
    injection Hp' as <-. eauto.
Qed.

(** A revalidation says that the placement is current exactly when the outcome of the prior operation
    is known, the lease has not expired, and its host is in the inventory, meets the hard constraints and has the
    snapshot id and observation time of the lease. *)
Theorem revalidation_current_iff r d l inv now outcome v : revalidate_lease r d l inv now outcome = Ok v →
  placement_current v = true ↔
    outcome ≠ PRIOR_OUTCOME_UNKNOWN ∧
    (∃ until, fromisoformat (z_to_offset (valid_until l)) = Ok until ∧ (instant now < instant until)%Z) ∧
    ∃ hosts h, parse_inventory inv = Ok hosts ∧ h ∈ hosts ∧ host_id h = l_host_id l ∧ meets (requirements r) h ∧
      snapshot_id h = l_snapshot_id l ∧ observed_at h = snapshot_observed_at l.
Proof. apply revalidate_current. Qed.

Lemma parse_observed value h : parse_devspace_host_snapshot value = Ok h →
  ∃ o, fromisoformat (z_to_offset (observed_at h)) = Ok o.
Proof.
  unfold parse_devspace_host_snapshot. intros Hp. run_ok Hp. subst h. cbn.
  match goal with E : _iso_timestamp _ "freshness.observedAt" = Ok ?t |- _ => revert E; generalize t end.
  clear. intros t Ht. unfold _iso_timestamp in Ht. run_ok Ht. subst t.
  match goal with E : catch _ _ _ = Ok _ |- _ => apply catch_Ok_inv in E as [?|(? & _ & _ & [=])] end. eauto.
Qed.

(** A lease issued for a snapshot whose time has an offset ends its time to live after that time (cut
    to the millisecond), and until then, for the same inventory and a known prior outcome, it is revalidated as current. *)
Theorem fresh_lease_current ttl r inv d l : (0 < ttl)%Z → place_with_lease ttl r inv = Ok (d, l) →
  ∃ observed, fromisoformat (snapshot_observed_at l) = Ok observed ∧
    (aware observed = true →
     ∃ until, fromisoformat (z_to_offset (valid_until l)) = Ok until ∧ aware until = true ∧
       (instant observed + ttl * 1000000 - 1000 < instant until ≤ instant observed + ttl * 1000000)%Z ∧
       ∀ now outcome, aware now = true → (instant now < instant until)%Z →
         outcome ∈ _PRIOR_OPERATION_OUTCOMES → outcome ≠ PRIOR_OUTCOME_UNKNOWN →
         ∃ v, revalidate_lease r d l inv now outcome = Ok v ∧ placement_current v = true).
Proof.
  intros Httl. unfold place_with_lease. intros ([d' h] & He & (l' & Hl & [= -> ->])%bind_Ok_inv)%bind_Ok_inv.
  destruct (issue_lease_inv _ _ _ _ _ Hl) as (o & limit & sha & Ho & Hlimit & Hsha & Hid & Hleq).
  rewrite Hleq. exists o. split; [done|]. intros Haw.
  destruct (evaluate_inv _ _ _ _ He) as (hosts & reason & details & Hne & Hp & Hc & Hr & Hdid & Hdeq).
  destruct (iso_millis_read limit) as (until & Hu & Hua & Hui). rewrite <- (z_offset_round (iso_millis limit)) in Hu by apply iso_millis_no_z.
  pose proof (plus_seconds_aware _ _ _ Hlimit) as Hla. pose proof (plus_seconds_instant _ _ _ Hlimit) as Hli.
  pose proof (parse_inventory_inv _ _ Hp) as [Hpf Hn].
  apply choose_best in Hc as [Hel _]; [|intros h' [Hh' _]%elem_of_eligible; by eapply inventory_finite].
  apply elem_of_eligible in Hel as [Hh Hm].
  assert (∃ o', fromisoformat (z_to_offset (observed_at h)) = Ok o') as [o' Ho'].
  { apply list_elem_of_lookup in Hh as [i Hi]. destruct (Forall2_lookup_r _ _ _ _ _ Hpf Hi) as (v & _ & Hv).
    by eapply parse_observed. }
  destruct (z_is_utc _ _ _ Ho Ho') as [Hoa Hoi].
  exists until. rewrite Hua, Hla. split; [done|]. split; [done|]. split; [lia|].
  intros now outcome Hnow Hlt Hout Hunk.
  assert (_validate_lease_identity r d l = Ok ()) as Hval.
  { apply validate_iff. rewrite Hr in Hsha. injection Hsha as Hsha. rewrite Hleq, Hdeq.
    constructor; cbn; rewrite <- ?Hsha; auto.
    - unfold core_of_lease. cbn. by rewrite Hsha.
    - exists o', until. split_and!; try done; [congruence|congruence|lia]. }
  assert (∃ v, revalidate_lease r d l inv now outcome = Ok v) as [v Hv].
  { unfold revalidate_lease. rewrite Hval. cbn [mbind result_bind]. rewrite (proj2 (text_in_spec _ _) Hout), Hnow.
    cbn [negb raise_if mbind result_bind]. destruct (String.eqb_spec outcome PRIOR_OUTCOME_UNKNOWN); [done|].
    replace (valid_until l) with (offset_to_z (iso_millis limit)) by by rewrite Hleq.
    unfold z_to_offset, offset_to_z in Hu |- *. rewrite Hu. cbn [mbind result_bind].
    rewrite (proj2 (Z.leb_gt _ _) Hlt), Hp. cbn. eauto. }
  exists v. rewrite <- Hleq. split; [done|]. apply (revalidate_current _ _ _ _ _ _ _ Hv).
  split; [done|]. rewrite Hleq. cbn. split; [eauto|]. exists hosts, h. done.
Qed.

(** ** Equal ids *)
Definition texts_collide (v w : pyval) : Prop := ∃ s t,
  json_dumps true true v = Ok s ∧ json_dumps true true w = Ok t ∧ collision (utf8 s) (utf8 t).
Lemma core_of_decision_inj d d' : d_schema d = d_schema d' →
  d_runtime_is_planner_authority d = d_runtime_is_planner_authority d' → decision_id d = decision_id d' →
  jnorm (core_of_decision d) = jnorm (core_of_decision d') → d = d'.
Proof.
  intros Hs Hf Hi E. unfold core_of_decision, decision_core in E. doc_members E.
  destruct d, d'; cbn in *. congruence.
Qed.
Lemma core_of_lease_inj l l' : l_schema l = l_schema l' →
  l_runtime_is_planner_authority l = l_runtime_is_planner_authority l' →
  grants_execution_authority l = grants_execution_authority l' →
  grants_retry_or_failover_authority l = grants_retry_or_failover_authority l' → lease_id l = lease_id l' →
  jnorm (core_of_lease l) = jnorm (core_of_lease l') → l = l'.
Proof.
  intros Hs H3 H4 H5 Hi E. unfold core_of_lease, lease_core in E. doc_members E. destruct l, l'; cbn in *. congruence.
Qed.

(** If two leases pass identity validation, each with its decision, and have the same id, then they are
    the same lease for the same decision, or the texts of their cores collide under SHA-256. *)
Theorem lease_id_binds r d l r' d' l' :
  _validate_lease_identity r d l = Ok () → _validate_lease_identity r' d' l' = Ok () → lease_id l = lease_id l' →
  l = l' ∧ d = d' ∨ texts_collide (core_of_lease l) (core_of_lease l') ∨
  texts_collide (core_of_decision d) (core_of_decision d').
Proof.
  intros [[E1 E2] (E3 & E4 & E5 & E6) _ _ (E11 & E12 & E13) E14 E15 _]%validate_iff
    [[F1 F2] (F3 & F4 & F5 & F6) _ _ (F11 & F12 & F13) F14 F15 _]%validate_iff Hid.
  rewrite <- Hid in F15.
  assert (∀ l, py_wf (core_of_lease l) = true) as Hwl by done.
  assert (∀ d, py_wf (core_of_decision d) = true) as Hwd by (intros d0; cbn; by rewrite str_list_wf).
  destruct (json_sha256_inj true true _ _ _ (Hwl l) (Hwl l') E15 F15) as [El|?]; [|auto].
  apply core_of_lease_inj in El; try congruence. subst l'.
  assert (decision_id d = decision_id d') as Hdid by congruence. rewrite <- Hdid in F14.
  destruct (json_sha256_inj true true _ _ _ (Hwd d) (Hwd d') E14 F14) as [Ed|?]; [|auto].
  apply core_of_decision_inj in Ed; [auto|congruence..].
Qed.
End placement_lemmas.

(** * Examples and witnesses *)
Section examples.
#[local] Existing Instance Dyadic_FloatText.
#[local] Existing Instance Sha256_Digest.
#[local] Existing Instance Decimal_DateTimes.
#[local] Existing Instance Decimal_LeaseTimes.

(** The producer's spelling of a float, from the interpreter's ([1e-06], [1e+16], ...). *)
Example number_spelling :
  exponent_text ONE_MILLIONTH "1e-06" = Ok "0.000001" ∧
  exponent_text (S754_finite true 4722366482869645 (-72)) "-1.5e-06" = Ok "-0.0000015" ∧
  exponent_text (S754_finite false 5000000000000000 1) "1e+16" = Ok "10000000000000000" ∧
  exponent_text (S754_finite false 4722366482869644 (-72)) "9.99e-07" = Ok "9.99e-7" ∧
  exponent_text TEN_TO_21 "1.0e+21" = Ok "1e+21".
Proof. vm_compute. done. Qed.

Definition hash_of (v : pyval) : string := match _devspace_sha256 v with Ok h => h | Err _ => EmptyString end.
Definition snapshot (host observed : string) (memory : Z) (load : pyval) (capabilities : list string) : dict :=
  let dynamic := [("availableMemoryBytes", PInt memory); ("loadAverage1m", PInt 1); ("normalizedLoad1m", load);
                  ("connectivityState", PStr "LOCAL_OBSERVED")] in
  let core := [
    ("schema", PStr DEVSPACE_HOST_CAPABILITY_SNAPSHOT_SCHEMA);
    ("static", PDict [("hostId", PStr host); ("platform", PStr "darwin"); ("architecture", PStr "arm64");
       ("totalMemoryBytes", PInt 64); ("memoryClass", PStr "64_127_GIB"); ("logicalCpuCount", PInt 12)]);
    ("dynamic", PDict dynamic);
    ("verified", PDict [
       ("devspace", PDict [("sourceCommit", PStr "bbbbbbbbbbbbbbbbbbbbbbbbbbbbbbbbbbbbbbbb"); ("sourceDirty", PBool false);
          ("buildId", PStr "build"); ("serverInstanceId", PStr "server"); ("startedAt", PStr "0Z")]);
       ("capabilityManifest", PDict [("schema", PStr "manifest.v1"); ("capabilities", str_list capabilities);
          ("missing", PList []); ("manifestSha256", PStr "cccccccccccccccccccccccccccccccccccccccccccccccccccccccccccccccc")])]);
    ("freshness", PDict [("observedAt", PStr observed); ("telemetrySha256", PStr (hash_of (PDict dynamic)))])] in
  core ++ [("snapshotId", PStr (hash_of (PDict core)))].
Definition half : pyval := PFloat (S754_finite false 4503599627370496 (-53)).
Definition inventory : list dict := Eval vm_compute in [
  snapshot "host-c" "1000Z" 20 half ["tool"]; snapshot "host-a" "1000Z" 10 half ["tool"];
  snapshot "host-b" "1000Z" 20 half ["tool"]; snapshot "host-d" "1000Z" 90 half []].
Definition request (criteria : list string) : PlacementRequest := {|
  request_id := "task-1";
  requirements := {| platform := Some "darwin"; architecture := None; min_total_memory_bytes := 32;
                     required_capabilities := ["tool"] |};
  preferences := {| criteria := criteria; preferred_host_ids := [] |} |}.
Definition by_memory : PlacementRequest := request [PREFER_MORE_AVAILABLE_MEMORY; PREFER_LOWER_NORMALIZED_LOAD].
Definition no_view : HostSnapshotView := {| host_id := EmptyString; snapshot_id := EmptyString;
  host_platform := EmptyString; host_architecture := EmptyString; total_memory_bytes := 0; available_memory_bytes := 0;
  normalized_load_1m := S754_nan; connectivity_state := EmptyString; verified_capabilities := [];
  missing_capabilities := []; capability_manifest_sha256 := EmptyString; observed_at := EmptyString |}.
Definition no_decision : PlacementDecision := {| decision_id := EmptyString; d_request_id := EmptyString;
  d_requirements_sha256 := EmptyString; d_host_id := EmptyString; d_snapshot_id := EmptyString;
  d_reason_code := EmptyString; d_reason_details := []; d_schema := EmptyString; d_runtime_is_planner_authority := true |}.
Definition no_lease : HostPlacementLease := {| lease_id := EmptyString; l_decision_id := EmptyString;
  l_request_id := EmptyString; l_requirements_sha256 := EmptyString; l_host_id := EmptyString;
  l_snapshot_id := EmptyString; snapshot_observed_at := EmptyString; valid_until := EmptyString; l_schema := EmptyString;
  l_runtime_is_planner_authority := true; grants_execution_authority := true;
  grants_retry_or_failover_authority := true |}.
Definition or_else {A} (d : A) (x : result A) : A := match x with Ok a => a | Err _ => d end.

(** [host-d] has the most memory but not the capability; [host-b] and [host-c] tie. *)
Definition chosen : PlacementDecision * HostSnapshotView :=
  Eval vm_compute in or_else (no_decision, no_view) (_evaluate by_memory inventory).
Example chosen_host : d_host_id chosen.1 = "host-b" ∧ d_reason_code chosen.1 = "SOFT_PREFERENCE_SCORE".
Proof. done. Qed.
Lemma placement_selects_best_witness :
  d_host_id chosen.1 = host_id chosen.2 ∧ d_snapshot_id chosen.1 = snapshot_id chosen.2 ∧
  ∃ hosts, parse_inventory inventory = Ok hosts ∧ chosen.2 ∈ hosts ∧ meets (requirements by_memory) chosen.2 ∧
    ∀ h, h ∈ hosts → meets (requirements by_memory) h → h = chosen.2 ∨ preferred (preferences by_memory) chosen.2 h.
Proof. apply (placement_selects_best by_memory inventory chosen.1 chosen.2). vm_compute. reflexivity. Defined.
Lemma placement_ignores_order_witness : _evaluate by_memory inventory = _evaluate by_memory (rev inventory).
Proof.
  apply (placement_ignores_order by_memory inventory (rev inventory)).
  - apply Permutation_rev.
  - repeat constructor; vm_compute; reflexivity.
Defined.
Definition hosts : list HostSnapshotView := Eval vm_compute in or_else [] (parse_inventory inventory).
Lemma placement_succeeds_iff_witness :
  ((∃ h, h ∈ hosts ∧ meets (requirements by_memory) h) → ∃ d, place by_memory inventory = Ok d) ∧
  ((∀ h, h ∈ hosts → ¬ meets (requirements by_memory) h) →
   ∃ message, place by_memory inventory = raise NoEligibleHost message).
Proof.
  apply (placement_succeeds_iff (preferences by_memory) by_memory inventory hosts).
  - vm_compute. reflexivity.
  - discriminate.
  - vm_compute. reflexivity.
Defined.

Definition leased : PlacementDecision * HostPlacementLease :=
  Eval vm_compute in or_else (no_decision, no_lease) (place_with_lease 30 by_memory inventory).
Example lease_window : snapshot_observed_at leased.2 = "1000Z" ∧ valid_until leased.2 = "31000Z".
Proof. done. Qed.
Lemma fresh_lease_current_witness :
  ∃ observed, fromisoformat (snapshot_observed_at leased.2) = Ok observed ∧
    (aware observed = true →
     ∃ until, fromisoformat (z_to_offset (valid_until leased.2)) = Ok until ∧ aware until = true ∧
       (instant observed + 30 * 1000000 - 1000 < instant until ≤ instant observed + 30 * 1000000)%Z ∧
       ∀ now outcome, aware now = true → (instant now < instant until)%Z →
         outcome ∈ _PRIOR_OPERATION_OUTCOMES → outcome ≠ PRIOR_OUTCOME_UNKNOWN →
         ∃ v, revalidate_lease by_memory leased.1 leased.2 inventory now outcome = Ok v ∧ placement_current v = true).
Proof.
  apply (fresh_lease_current 30 by_memory inventory leased.1 leased.2); [reflexivity|]. vm_compute. reflexivity.
Defined.
Definition early : @datetime Decimal_DateTimes := (true, 2000%Z).
Definition late : @datetime Decimal_DateTimes := (true, 31000%Z).
Definition verdict_at (now : datetime) (outcome : string) (inv : list dict) : result (string * string) :=
  v ← revalidate_lease by_memory leased.1 leased.2 inv now outcome; Ok (status v, reason_code v).
Example verdicts :
  verdict_at early PRIOR_OUTCOME_NONE inventory = Ok ("VALID", "LEASE_REVALIDATED") ∧
  verdict_at early PRIOR_OUTCOME_UNKNOWN inventory = Ok ("RECONCILIATION_REQUIRED", "PRIOR_OPERATION_OUTCOME_UNKNOWN") ∧
  verdict_at late PRIOR_OUTCOME_NONE inventory = Ok ("REPLACEMENT_REQUIRED", "LEASE_EXPIRED") ∧
  verdict_at early PRIOR_OUTCOME_NONE [] = Ok ("REPLACEMENT_REQUIRED", "SELECTED_HOST_UNAVAILABLE").
Proof. vm_compute. done. Qed.
Definition current : PlacementLeaseRevalidation :=
  Eval vm_compute in or_else (_revalidation no_lease EmptyString EmptyString [])
    (revalidate_lease by_memory leased.1 leased.2 inventory early PRIOR_OUTCOME_NONE).
Lemma revalidation_current_iff_witness :
  placement_current current = true ↔
    PRIOR_OUTCOME_NONE ≠ PRIOR_OUTCOME_UNKNOWN ∧
    (∃ until, fromisoformat (z_to_offset (valid_until leased.2)) = Ok until ∧ (instant early < instant until)%Z) ∧
    ∃ hosts h, parse_inventory inventory = Ok hosts ∧ h ∈ hosts ∧ host_id h = l_host_id leased.2 ∧
      meets (requirements by_memory) h ∧ snapshot_id h = l_snapshot_id leased.2 ∧
      observed_at h = snapshot_observed_at leased.2.
Proof.
  apply (revalidation_current_iff by_memory leased.1 leased.2 inventory early PRIOR_OUTCOME_NONE current).
  vm_compute. reflexivity.
Defined.
Lemma lease_id_binds_witness :
  leased.2 = leased.2 ∧ leased.1 = leased.1 ∨ texts_collide (core_of_lease leased.2) (core_of_lease leased.2) ∨
  texts_collide (core_of_decision leased.1) (core_of_decision leased.1).
Proof.
  apply (lease_id_binds by_memory leased.1 leased.2 by_memory leased.1 leased.2);
    [vm_compute; reflexivity|vm_compute; reflexivity|reflexivity].
Defined.

(** A snapshot observed at a time without an offset is accepted and leased; no revalidation
    of that lease can ever return. *)
Definition naive_inventory : list dict := Eval vm_compute in [snapshot "host-a" "1000" 10 half ["tool"]].
Definition naive_lease : PlacementDecision * HostPlacementLease :=
  Eval vm_compute in or_else (no_decision, no_lease) (place_with_lease 30 by_memory naive_inventory).
Example naive_lease_is_useless :
  place_with_lease 30 by_memory naive_inventory = Ok naive_lease ∧
  ∀ now outcome, revalidate_lease by_memory naive_lease.1 naive_lease.2 naive_inventory now outcome
    = raise InvalidPlacementLease "lease freshness timestamps must be offset-aware".
Proof.
  split; [vm_compute; reflexivity|]. intros now outcome. unfold revalidate_lease.
  assert (_validate_lease_identity by_memory naive_lease.1 naive_lease.2
    = raise InvalidPlacementLease "lease freshness timestamps must be offset-aware") as -> by (vm_compute; reflexivity).
  reflexivity.
Qed.
(** A metric beyond the range of floats escapes as [OverflowError]. *)
Example huge_metric_overflows :
  metric [("availableMemoryBytes", PInt (2 ^ 1024))] "availableMemoryBytes"
  = raise OverflowError "int too large to convert to float".
Proof. vm_compute. reflexivity. Qed.
End examples.
