(* ===== verification/ExecutionPorts.v ===== *)
(** * The ports of execution coordination
    ([src/src/nexus_runtime/execution_coordination/ports.py]) and the escalation policy of
    [coordinator.py]

    The coordinator owns an algorithm and no effects: storage, contracts, workers, leases,
    processes and finalization are host code behind ports, an arbitrary record of operations
    over a host state [W], each of which may raise.  A host object (contract, lease,
    preflight, receipt) is known by its attributes.  [trace] records, in order, the calls by
    which the coordinator acts on the world.

    The clocks are part of the host state, so that two readings may differ. *)
From Stdlib Require Import String SpecFloat.
From S2P Require Import Prelude PyValue Json Digest Contract DateTime Instances.
From S2P Require Import ModelCallResolution EffectAuthorization.

(** ** Host objects *)
Abbreviation object := dict.
(** [o.name] and [getattr(o, name, d)]. *)
Definition getattr (o : object) (name : string) : result pyval :=
  match dict_get name o with
  | Some v => Ok v
  | None => raise AttributeError ("object has no attribute '" +:+ name +:+ "'")
  end.
Definition getattr_or (o : object) (name : string) (d : pyval) : pyval := default d (dict_get name o).

(** What a checkpoint may hold: a value, an object, a list of objects. *)
Inductive hostval : Type := Plain (v : pyval) | Object (o : object) | Objects (l : list object).
Abbreviation values := (list (string * hostval)).
Definition plain_values (d : dict) : values := map (λ kv, (kv.1, Plain kv.2)) d.

(** ** Escalation *)
Definition EXECUTION_COMPLETED := "EXECUTION_COMPLETED".
Definition INCOMPLETE := "INCOMPLETE".

Record EscalationDecision : Type := {
  action : string;
  next_provider : option string;
  d_reason : string
}.
Definition decision_of (action : string) (next : option string) (reason : string) : EscalationDecision :=
  {| action := action; next_provider := next; d_reason := reason |}.

Definition failure_markers : list string :=
  ["malformed"; "invalid contract"; "contract invalid"; "syntaxerror"; "syntax error"; "verifier";
   "scope"; "forbidden"; "policy"; "unsupported"; "parse error"; "argument error"].

(** [latest.outcome == EXECUTION_COMPLETED and latest.evidence_complete], through [getattr]. *)
Definition completed (receipt : object) : bool :=
  is_text (getattr_or receipt "outcome" PNone) EXECUTION_COMPLETED
  && truthy (getattr_or receipt "evidence_complete" (PBool false)).

Section policy.
Context `{FloatText}.

Definition _failure_is_deterministic (receipt : object) : bool :=
  if truthy (getattr_or receipt "timed_out" (PBool false))
     || is_text (getattr_or receipt "outcome" PNone) INCOMPLETE
  then false
  else
    let text := lower (str_or (getattr_or receipt "failure_reason" PNone) EmptyString) in
    existsb (λ marker, str_contains marker text) failure_markers.

Definition mutated_repository (receipt : object) : bool :=
  existsb (λ field, truthy (getattr_or receipt field (PBool false)))
    ["commit_created"; "merge_performed"; "push_performed"].
Definition attempted_providers (attempts : list object) : list string :=
  map (λ a, py_str (getattr_or a "provider" (PStr EmptyString))) attempts.

(** [WorkerEscalationPolicy(provider_order).decide(attempts)]. *)
Definition decide_escalation (provider_order : list string) (attempts : list object) :
    result EscalationDecision :=
  match last attempts with
  | None =>
      match provider_order with
      | p :: _ => Ok (decision_of "RUN_CHEAP" (Some p) "no worker attempt exists")
      | [] => raise IndexError "tuple index out of range"
      end
  | Some latest =>
      if mutated_repository latest then
        Ok (decision_of "BLOCK" None "worker attempted a forbidden repository mutation")
      else if completed latest then
        Ok (decision_of "VERIFY" None "worker execution completed; verification required")
      else if _failure_is_deterministic latest then
        Ok (decision_of "BLOCK" None "deterministic worker failure must not escalate")
      else
        match List.find (λ p, negb (text_in p (attempted_providers attempts))) provider_order with
        | Some p => Ok (decision_of "ESCALATE" (Some p)
            ("cheap worker did not prove success: " +:+
               py_str (getattr_or latest "outcome" (PStr EmptyString))))
        | None => Ok (decision_of "BLOCK" None "strong worker did not produce complete proof")
        end
  end.
End policy.

(** ** Ports *)
(** The arguments of [WorkerAdapterPort.invoke]. *)
Record invocation : Type := {
  i_provider : string;
  i_contract : object;
  i_lease : object;
  i_prompt : pyval;
  i_model : option string;
  i_timeout : spec_float;
  i_effect_authorization : option dict;
  i_tool_projection_manifest : option dict
}.
(** The arguments of [materialize_worker_context]. *)
Record materialization : Type := {
  w_request : dict; w_state : dict; w_task_id : string; w_attempt_id : string;
  w_fresh_submission : bool; w_contract : object; w_lease : object; w_base_prompt : pyval;
  w_actual_provider : string; w_actual_model : option string
}.

Record PreparationPort (W : Type) : Type := {
  prepare_before_worker : object → dict → object → dict → string → string → prog W pyval;
  revalidate_before_worker : dict → object → dict → object → dict → string → string → string → prog W unit
}.
Arguments prepare_before_worker {W}. Arguments revalidate_before_worker {W}.

Section ports.
Context `{DateTimes}.
(** An optional method is [None] when the host does not define it. *)
Record CoordinatorPorts (W : Type) : Type := {
  read_snapshot : string → prog W (option dict);
  checkpoint : string → string → values → string → prog W pyval;
  mutate_metadata : string → dict → prog W pyval;
  assert_persisted_dispatch : dict → dict → option dict → option string → prog W unit;
  revalidate_task_card : object → dict → dict → option dict → prog W unit;
  build_contract : pyval → prog W object;
  base_prompt : option (object → prog W pyval);
  prompt : object → prog W pyval;
  deadline : object → pyval → prog W (option spec_float);
  fast_lane_eligible : object → dict → prog W bool;
  provider_order : object → prog W (list string);
  escalation_order : object → prog W (list string);
  provider_binding : dict → dict → prog W (option dict);
  revalidate_provider_boundary : object → dict → string → option dict → string → prog W unit;
  receipt_from_state : hostval → prog W (option object);
  validate_static_contract : object → pyval → prog W unit;
  model_copy : option (object → Z → prog W object);
  host_preparation_required : option (object → dict → prog W pyval);
  materialize_worker_context : option (materialization → prog W (option (pyval * pyval)));
  preflight : string → prog W object;
  invoke : invocation → prog W (option object);
  initial_lease : object → dict → prog W object;
  lease_from_state : dict → prog W object;
  replace_failed_lease : object → object → dict → prog W object;
  worker_command : string → string → string → prog W (list string);
  create_thread : string → string → prog W object;
  register_thread : string → object → prog W unit;
  start_thread : object → prog W unit;
  start_process : list string → string → prog W object;
  terminate_owned_processes : string → Z → prog W unit;
  pid_alive : Z → prog W bool;
  utc_now : prog W pyval;
  terminal_statuses : list string;
  bound_custom_runner_values : dict → prog W dict;
  finalize_completed : object → dict → object → dict → list object → hostval → string → prog W dict;
  finalize_failure : string → string → exn → prog W unit;
  preparation : option (PreparationPort W);
  model_call_gate : option (W → ModelCallResolutionPort * W);
  effect_authority : option (EffectAuthorization → prog W pyval);
  require_effect_authority : bool;
  clock : W → spec_float * W;
  perf_counter : W → spec_float * W;
  utc_clock : W → datetime * W;
  getpid : Z;
  getpgrp : Z
}.
End ports.
Arguments read_snapshot {_ W}. Arguments checkpoint {_ W}. Arguments mutate_metadata {_ W}.
Arguments assert_persisted_dispatch {_ W}. Arguments revalidate_task_card {_ W}.
Arguments build_contract {_ W}. Arguments base_prompt {_ W}. Arguments prompt {_ W}.
Arguments deadline {_ W}. Arguments fast_lane_eligible {_ W}. Arguments provider_order {_ W}.
Arguments escalation_order {_ W}. Arguments provider_binding {_ W}.
Arguments revalidate_provider_boundary {_ W}. Arguments receipt_from_state {_ W}.
Arguments validate_static_contract {_ W}. Arguments model_copy {_ W}.
Arguments host_preparation_required {_ W}. Arguments materialize_worker_context {_ W}.
Arguments preflight {_ W}. Arguments invoke {_ W}. Arguments initial_lease {_ W}.
Arguments lease_from_state {_ W}. Arguments replace_failed_lease {_ W}.
Arguments worker_command {_ W}. Arguments create_thread {_ W}. Arguments register_thread {_ W}.
Arguments start_thread {_ W}. Arguments start_process {_ W}.
Arguments terminate_owned_processes {_ W}. Arguments pid_alive {_ W}. Arguments utc_now {_ W}.
Arguments terminal_statuses {_ W}. Arguments bound_custom_runner_values {_ W}.
Arguments finalize_completed {_ W}. Arguments finalize_failure {_ W}. Arguments preparation {_ W}.
Arguments model_call_gate {_ W}. Arguments effect_authority {_ W}.
Arguments require_effect_authority {_ W}. Arguments clock {_ W}. Arguments perf_counter {_ W}.
Arguments utc_clock {_ W}. Arguments getpid {_ W}. Arguments getpgrp {_ W}.

(** ** The state of a run *)
Inductive event : Type :=
| Verified (a : EffectAuthorization)
| Mutated (update : dict)
| Checkpointed (status : string) (v : values)
| Preflighted (provider : string)
| Leased
| LeaseReplaced
| Prepared
| Invoked (i : invocation)
| Finalized (attempts : list object)
| CustomRun
| Terminated
| FailureFinalized (e : exn)
| ThreadStarted
| ProcessStarted.

Record run_state (W : Type) : Type := { host : W; trace : list event }.
Arguments host {W}. Arguments trace {W}.

Section calls.
Context {W : Type}.
Abbreviation M := (prog (run_state W)).

(** A call of a port that only reads or checks; one that acts, recorded as [e]; a clock. *)
Definition call {A} (op : prog W A) : M A := λ s,
  let '(r, w) := op (host s) in (r, {| host := w; trace := trace s |}).
Definition act {A} (e : event) (op : prog W A) : M A := λ s,
  let '(r, w) := op (host s) in (r, {| host := w; trace := trace s ++ [e] |}).
Definition tick {A} (op : W → A * W) : M A := λ s,
  let '(a, w) := op (host s) in (Ok a, {| host := w; trace := trace s |}).

(** An event that is no call: a fact the run has established. *)
Definition note (e : event) : M unit := λ s,
  (Ok (), {| host := host s; trace := trace s ++ [e] |}).

(** ** Program logic

    [runs E m Q]: whatever the host does, [m] appends events of [E] to the trace, and a
    value it returns satisfies [Q] together with the events appended. *)
Definition runs {A} (E : event → Prop) (m : M A) (Q : list event → A → Prop) : Prop :=
  ∀ s, ∃ evs, trace (m s).2 = trace s ++ evs ∧ Forall E evs ∧ ∀ a, (m s).1 = Ok a → Q evs a.

Lemma bind_run {A B} (m : M A) (f : A → M B) s :
  (m ≫= f) s = match m s with (Ok a, s') => f a s' | (Err e, s') => (Err e, s') end.
Proof. done. Qed.
Lemma runs_ret {A} E (a : A) (Q : list event → A → Prop) : Q [] a → runs E (mret a) Q.
Proof. intros Ha s. exists []. rewrite app_nil_r. split_and!; [done|done|]. by intros ? [= <-]. Qed.
Lemma runs_lift {A} E (r : result A) (Q : list event → A → Prop) : (∀ a, r = Ok a → Q [] a) → runs E (lift r) Q.
Proof. intros Ha s. exists []. by rewrite app_nil_r. Qed.
Lemma runs_lift_eq {A} E (r : result A) : runs E (lift r) (λ _ a, r = Ok a).
Proof. by apply runs_lift. Qed.
Lemma runs_raise {A} E c msg (Q : list event → A → Prop) : runs E (lift (raise c msg)) Q.
Proof. by apply runs_lift. Qed.
Lemma runs_call {A} E (op : prog W A) (Q : list event → A → Prop) : (∀ a, Q [] a) → runs E (call op) Q.
Proof.
  intros Ha s. exists []. rewrite app_nil_r. unfold call. destruct (op (host s)); cbn. auto.
Qed.
Lemma runs_call_law {A} E (op : prog W A) (Q : list event → A → Prop) :
  (∀ w a w', op w = (Ok a, w') → Q [] a) → runs E (call op) Q.
Proof.
  intros Ha s. exists []. rewrite app_nil_r. unfold call. destruct (op (host s)) as [r w] eqn:Eo; cbn.
  split_and!; [done|done|]. intros a ->. eauto.
Qed.
Lemma runs_act {A} (E : event → Prop) e (op : prog W A) (Q : list event → A → Prop) :
  E e → (∀ a, Q [e] a) → runs E (act e op) Q.
Proof. intros He Ha s. exists [e]. unfold act. destruct (op (host s)); cbn. auto. Qed.
Lemma runs_act_law {A} (E : event → Prop) e (op : prog W A) (Q : list event → A → Prop) :
  E e → (∀ w a w', op w = (Ok a, w') → Q [e] a) → runs E (act e op) Q.
Proof.
  intros He Ha s. exists [e]. unfold act. destruct (op (host s)) as [r w] eqn:Eo; cbn.
  split_and!; [done|by constructor|]. intros a ->. eauto.
Qed.
Lemma runs_note (E : event → Prop) e (Q : list event → unit → Prop) : E e → Q [e] () → runs E (note e) Q.
Proof. intros He Ha s. exists [e]. cbn. split_and!; [done|auto|]. by intros [] _. Qed.
Lemma runs_tick {A} E (op : W → A * W) (Q : list event → A → Prop) : (∀ a, Q [] a) → runs E (tick op) Q.
Proof.
  intros Ha s. exists []. rewrite app_nil_r. unfold tick. destruct (op (host s)); cbn. auto.
Qed.
Lemma runs_bind {A B} E (m : M A) (f : A → M B) (Q : list event → A → Prop) R :
  runs E m Q → (∀ l a, Q l a → runs E (f a) (λ l', R (l ++ l'))) → runs E (m ≫= f) R.
Proof.
  intros Hm Hf s. destruct (Hm s) as (evs & Ht & HE & HQ). unfold mbind, prog_bind.
  destruct (m s) as [[a|e] s']; cbn in *; [|by exists evs].
  destruct (Hf evs a (HQ a eq_refl) s') as (evs' & Ht' & HE' & HR). exists (evs ++ evs').
  split_and!; [by rewrite Ht', Ht, app_assoc|by apply Forall_app|done].
Qed.
Lemma runs_catch {A} E c (m : M A) h (Q : list event → A → Prop) :
  runs E m Q → (∀ l e, runs E (h e) (λ l', Q (l ++ l'))) → runs E (catch_prog c m h) Q.
Proof.
  intros Hm Hh s. destruct (Hm s) as (evs & Ht & HE & HQ). unfold catch_prog.
  destruct (m s) as [[a|e] s']; cbn in *; [by exists evs|].
  destruct (exn_is c e); cbn; [|by exists evs]. destruct (Hh evs e s') as (evs' & Ht' & HE' & HR).
  exists (evs ++ evs'). split_and!; [by rewrite Ht', Ht, app_assoc|by apply Forall_app|done].
Qed.
Lemma runs_mono {A} (E E' : event → Prop) (m : M A) (Q R : list event → A → Prop) :
  runs E m Q → (∀ e, E e → E' e) → (∀ l a, Forall E l → Q l a → R l a) → runs E' m R.
Proof.
  intros Hm HE HQR s. destruct (Hm s) as (evs & ? & Hevs & ?). exists evs.
  split_and!; [done| |auto]. eapply Forall_impl; eauto.
Qed.

(** [leaves P m]: the events [m] appends satisfy [P] as a list. *)
Definition leaves {A} (P : list event → Prop) (m : M A) : Prop :=
  ∀ s, ∃ evs, trace (m s).2 = trace s ++ evs ∧ P evs.
Lemma leaves_ret {A} (P : list event → Prop) (a : A) : P [] → leaves P (mret a).
Proof. intros HP s. exists []. by rewrite app_nil_r. Qed.
Lemma leaves_runs {A} E (P : list event → Prop) (m : M A) Q :
  runs E m Q → (∀ l, Forall E l → P l) → leaves P m.
Proof. intros Hm HP s. destruct (Hm s) as (evs & ? & ? & _). eauto. Qed.
Lemma leaves_silent {A B} (P : list event → Prop) (m : M A) (f : A → M B) (Q : list event → A → Prop) :
  runs (λ _, False) m Q → P [] → (∀ l a, Q l a → leaves P (f a)) → leaves P (m ≫= f).
Proof.
  intros Hm HP Hf s. destruct (Hm s) as (evs & Ht & HE & HQ).
  assert (evs = []) as -> by (destruct HE; [done|contradiction]). unfold mbind, prog_bind.
  destruct (m s) as [[a|e] s']; cbn in *; [|by exists []].
  destruct (Hf [] a (HQ a eq_refl) s') as (l & Ht' & Hl). exists l. split; [|done]. by rewrite Ht', Ht, app_nil_r.
Qed.
(** A first part, and a second one that depends on what the first returned. *)
Lemma leaves_then {A B} E (E' : A → event → Prop) (P : list event → Prop) (m : M A) (f : A → M B) Q :
  runs E m Q → (∀ l a, Q l a → runs (E' a) (f a) (λ _ _, True)) → (∀ l, Forall E l → P l) →
  (∀ l a l', Forall E l → Q l a → Forall (E' a) l' → P (l ++ l')) → leaves P (m ≫= f).
Proof.
  intros Hm Hf HP1 HP2 s. destruct (Hm s) as (evs & Ht & HE & HQ). unfold mbind, prog_bind.
  destruct (m s) as [[a|e] s']; cbn in *; [|by eauto].
  destruct (Hf evs a (HQ a eq_refl) s') as (l & Ht' & Hl & _). exists (evs ++ l). rewrite Ht', Ht, app_assoc. eauto.
Qed.

(** Counting the events a test marks. *)
Lemma filter_none (p : event → bool) l : Forall (λ e, p e = false) l → List.filter p l = [].
Proof. induction 1 as [|e l He _ IH]; cbn; [done|]. by rewrite He. Qed.
Definition marked (p : event → bool) (n : nat) (l : list event) : Prop := length (List.filter p l) ≤ n.
Lemma leaves_quiet {A B} (p : event → bool) n (m : M A) (f : A → M B) (Q : list event → A → Prop) :
  runs (λ e, p e = false) m Q → (∀ l a, Q l a → leaves (marked p n) (f a)) → leaves (marked p n) (m ≫= f).
Proof.
  intros Hm Hf s. destruct (Hm s) as (evs & Ht & HE%filter_none & HQ). unfold mbind, prog_bind, marked in *.
  destruct (m s) as [[a|e] s']; cbn in *; [|exists evs; rewrite HE; cbn; auto with lia].
  destruct (Hf evs a (HQ a eq_refl) s') as (l & Ht' & Hl). exists (evs ++ l).
  by rewrite Ht', Ht, List.filter_app, HE, app_assoc.
Qed.
Lemma leaves_one {A B} (p : event → bool) e (op : prog W A) (f : A → M B) (Q : list event → B → Prop) :
  (∀ a, runs (λ e, p e = false) (f a) Q) →
  leaves (λ l, List.filter p l = if p e then [e] else []) (act e op ≫= f).
Proof.
  intros Hf s. unfold act, mbind, prog_bind. destruct (op (host s)) as [[a|e'] w]; cbn.
  - destruct (Hf a {| host := w; trace := trace s ++ [e] |}) as (l & Ht & Hl%filter_none & _).
    exists (e :: l). rewrite Ht. cbn. rewrite Hl, <- app_assoc. split; [done|]. by destruct (p e).
  - exists [e]. cbn. split; [done|]. by destruct (p e).
Qed.
Lemma leaves_marked {A B} (p : event → bool) e (op : prog W A) (f : A → M B) (Q : list event → B → Prop) :
  (∀ a, runs (λ e, p e = false) (f a) Q) → leaves (marked p 1) (act e op ≫= f).
Proof.
  intros Hf s. destruct (leaves_one p e op f Q Hf s) as (l & Ht & Hl). exists l. split; [done|].
  unfold marked. rewrite Hl. destruct (p e); cbn; lia.
Qed.
End calls.

(** No claim on the value. *)
Definition any {A} : list event → A → Prop := λ _ _, True.

(** Follows the structure of a program whose values do not matter for the goal. *)
Ltac emits_step :=
  lazymatch goal with
  | |- runs _ (mret _) _ => apply runs_ret
  | |- runs _ (lift (raise _ _)) _ => apply runs_raise
  | |- runs _ (lift _) _ => apply runs_lift; intros ? ?
  | |- runs _ (call _) _ => apply runs_call; intros ?
  | |- runs _ (tick _) _ => apply runs_tick; intros ?
  | |- runs _ (act _ _) _ => apply runs_act; [|intros ?]
  | |- runs _ (note _) _ => apply runs_note
  | |- runs _ (catch_prog _ _ _) _ => apply runs_catch; [|intros ? ?]
  | |- runs _ (_ ≫= _) _ => eapply runs_bind with (Q := any); [|intros ? ? _]
  | |- runs _ (match ?x with _ => _ end) _ => destruct x eqn:?
  end.
Ltac emits := repeat (emits_step; try exact I).

(** * The escalation rule *)
Lemma find_first {A} (p : A → bool) l a : List.find p l = Some a ↔
  ∃ pre post, l = pre ++ a :: post ∧ p a = true ∧ Forall (λ y, p y = false) pre.
Proof.
  split.
  - induction l as [|y l IH]; cbn; [done|]. destruct (p y) eqn:Hy.
    + intros [= ->]. by exists [], l.
    + intros (pre & post & -> & Ha & Hpre)%IH. exists (y :: pre), post. by repeat constructor.
  - intros (pre & post & -> & Ha & Hpre). induction Hpre as [|y pre Hy _ IH]; cbn; [by rewrite Ha|by rewrite Hy].
Qed.

Section escalation.
Context `{FloatText}.

(** C27: the policy escalates to a provider exactly when the last receipt shows no repository
    mutation, no completed execution and no deterministic failure, and the provider is the
    first of its order that no receipt names; it never escalates to a provider that was
    tried.  With at least one receipt it always answers, and without escalation it names no
    provider. *)
Theorem escalation_rule order attempts latest (Hlast : last attempts = Some latest) :
  (∀ p, (∃ reason, decide_escalation order attempts = Ok (decision_of "ESCALATE" (Some p) reason)) ↔
    mutated_repository latest = false ∧ completed latest = false ∧ _failure_is_deterministic latest = false ∧
    ∃ pre post, order = pre ++ p :: post ∧ (p ∉ attempted_providers attempts) ∧
      Forall (λ q, q ∈ attempted_providers attempts) pre) ∧
  ∃ d, decide_escalation order attempts = Ok d ∧
    (action d = "VERIFY" ↔ mutated_repository latest = false ∧ completed latest = true) ∧
    (action d ≠ "ESCALATE" → next_provider d = None).
Proof.
  unfold decide_escalation. rewrite Hlast. split.
  - intros p. destruct (mutated_repository latest), (completed latest), (_failure_is_deterministic latest);
      try (split; [by intros (? & ?)|by intros (? & ? & ? & _)]).
    destruct (List.find _ order) as [p'|] eqn:Ef.
    + apply find_first in Ef as (pre & post & -> & Hp & Hpre). split.
      * intros (reason & [= -> _]). split_and!; try done. exists pre, post. split_and!; [done| |].
        -- by apply negb_true_iff, text_in_false in Hp.
        -- eapply Forall_impl; [exact Hpre|]. intros q Hq. by apply negb_false_iff, text_in_spec in Hq.
      * intros (_ & _ & _ & pre' & post' & E & Hp' & Hpre'). eexists. do 2 f_equal.
        assert (List.find (λ q, negb (text_in q (attempted_providers attempts))) (pre ++ p' :: post) = Some p) as Hfind.
        { apply find_first. exists pre', post'. split_and!; [done|by apply negb_true_iff, text_in_false|].
          eapply Forall_impl; [exact Hpre'|]. intros q Hq. by apply negb_false_iff, text_in_spec. }
        assert (List.find (λ q, negb (text_in q (attempted_providers attempts))) (pre ++ p' :: post) = Some p') as Hfind'
          by (apply find_first; eauto 10).
        congruence.
    + split; [by intros (? & ?)|]. intros (_ & _ & _ & pre & post & -> & Hp & _).
      eapply List.find_none in Ef; [|apply list_elem_of_In, elem_of_app; right; left].
      by apply negb_false_iff, text_in_spec in Ef.
  - destruct (mutated_repository latest), (completed latest), (_failure_is_deterministic latest);
      try (eexists; split; [done|]; cbn; split; [split; [done|by intros []]|done]).
    destruct (List.find _ order); eexists; (split; [done|]); cbn; (split; [split; [done|by intros []]|first [done|intros Hne; by destruct (Hne eq_refl)]]).
Qed.
End escalation.

#[local] Existing Instance Dyadic_FloatText.
Lemma escalation_rule_witness :
  let receipt := [("provider", PStr "codex"); ("outcome", PStr INCOMPLETE)] in
  (∃ reason, decide_escalation ["codex"; "strong"] [receipt] = Ok (decision_of "ESCALATE" (Some "strong") reason)) ∧
  ¬ (∃ reason, decide_escalation ["codex"; "strong"] [receipt] = Ok (decision_of "ESCALATE" (Some "codex") reason)).
Proof.
  set (receipt := [("provider", PStr "codex"); ("outcome", PStr INCOMPLETE)]).
  destruct (escalation_rule ["codex"; "strong"] [receipt] receipt eq_refl) as [Hr _]. split.
  - apply Hr. split_and!; [vm_compute; reflexivity..|]. exists ["codex"], [].
    split_and!; [done| |].
    + cbn. by intros [?|Hn]%elem_of_cons; [|apply elem_of_nil in Hn].
    + constructor; [by left|constructor].
  - intros (_ & _ & _ & pre & post & E & Hp & _)%Hr. destruct Hp. by left.
Defined.
