(* ===== verification/EffectGate.v ===== *)
(** * The gates before a worker runs
    ([src/src/nexus_runtime/execution_coordination/coordinator.py]: effect authorization,
    tool projection, host preparation)

    An attempt that is to have effects carries an authorization.  The gate reads it, has the
    external authority verify it, and binds it to the durable state; for each provider a
    projection of it is derived and bound in the same way, and the host's preparation is
    revalidated.  What is bound once is never created again for an attempt that may have
    started. *)
From Stdlib Require Import Ascii String SpecFloat.
From S2P Require Import Prelude PyValue Json Digest Contract DateTime Instances.
From S2P Require Import EffectAuthorization ExecutionPorts.

Section gates.
Context `{FloatText} `{Digest} `{DateTimes} {W : Type} (ports : CoordinatorPorts W).
Abbreviation M := (prog (run_state W)).

Definition missing {A} (msg : string) : M A := lift (raise MissingExecutionBindingError msg).
(** [except EffectAuthorizationError as exc: raise MissingExecutionBindingError(str(exc))]. *)
Definition as_missing {A} (m : M A) : M A :=
  catch_prog EffectAuthorizationError m (λ exc, missing (exn_msg exc)).

(** [self.state.read_snapshot(task_id) or {}]. *)
Definition snapshot (task_id : string) : M dict :=
  state ← call (read_snapshot ports task_id); mret (default [] state).
Definition mutate (task_id : string) (update : dict) : M pyval :=
  act (Mutated update) (mutate_metadata ports task_id update).

(** [authorization.assert_fresh()]. *)
Definition fresh_now (a : EffectAuthorization) : M unit :=
  match expires_at a with
  | None => mret ()
  | Some _ => now ← tick (utc_clock ports); lift (assert_fresh a None now)
  end.

Definition _effect_authorization_requested (request state : dict) : bool :=
  truthy (py_get request "effect_authorization_required")
  || has_key "effect_authorization" request
  || has_key "tool_projection_requests" request
  || has_key "effect_authorization" state.
Definition _request_identity_value (request : dict) (key : string) : option string :=
  match py_get request key with
  | PStr s => if blank s then None else Some (strip s)
  | _ => None
  end.

Definition _verify_effect_authority (a : EffectAuthorization) : M unit :=
  match effect_authority ports with
  | None =>
      if require_effect_authority ports then
        missing "effect authorization authority not verified: no effect authority port configured"
      else mret ()
  | Some verify_port =>
      accepted ← catch_prog ExceptionC (call (verify_port a))
        (λ exc, missing ("effect authorization authority not verified: " +:+ exn_msg exc));
      match accepted with
      | PBool true => note (Verified a)
      | _ => missing "effect authorization authority not verified: port did not return True"
      end
  end.

(** The requested authorization, for this attempt and fresh. *)
Definition requested_authorization (attempt_id : string) (request : dict) : M EffectAuthorization :=
  match py_get request "effect_authorization" with
  | PDict raw =>
      match _request_identity_value request "operation_id", _request_identity_value request "repository" with
      | Some operation, Some repo =>
          as_missing (
            requested ← lift (authorization_from_mapping (PDict raw));
            _ ← fresh_now requested;
            _ ← lift (assert_identity requested {|
              x_attempt_id := Some attempt_id; x_operation_id := Some operation; x_repository := Some repo;
              x_source_revision := _request_identity_value request "source_revision";
              x_base_revision := _request_identity_value request "base_revision";
              x_workspace_id := _request_identity_value request "workspace_id";
              x_target_id := _request_identity_value request "target_id" |});
            mret requested)
      | _, _ => missing "effect authorization requires request operation_id and repository identity"
      end
  | _ => missing "effect authorization is required before runtime side effects"
  end.
(** The durable copy, created when there is none and creation is allowed. *)
Definition durable_authorization (task_id : string) (state : dict) (requested : EffectAuthorization)
    (allow_create : bool) : M (dict * pyval) :=
  match py_get state "effect_authorization" with
  | PNone =>
      if negb allow_create then
        missing "durable effect authorization is missing after execution may have started"
      else
        _ ← mutate task_id [("effect_authorization", PDict (authorization_to_dict requested));
                            ("effect_authorization_hash", PStr (authorization_hash requested))];
        state ← snapshot task_id;
        mret (state, py_get state "effect_authorization")
  | raw => mret (state, raw)
  end.
(** The durable copy is the requested authorization. *)
Definition bind_durable (state : dict) (raw : pyval) (requested : EffectAuthorization) :
    M EffectAuthorization :=
  match raw with
  | PDict raw =>
      durable ← as_missing (durable ← lift (authorization_from_mapping (PDict raw));
                            _ ← fresh_now durable; mret durable);
      if negb (String.eqb (authorization_hash durable) (authorization_hash requested)) then
        missing "effect authorization substitution or widening detected"
      else if negb (is_text (py_get state "effect_authorization_hash") (authorization_hash durable)) then
        missing "durable effect authorization hash binding mismatch"
      else mret durable
  | _ => missing "durable effect authorization is malformed"
  end.
Definition _ensure_effect_authorization (task_id attempt_id : string) (request state : dict)
    (allow_create : bool) : M (dict * option EffectAuthorization) :=
  if negb (require_effect_authority ports || _effect_authorization_requested request state) then
    mret (state, None)
  else
    requested ← requested_authorization attempt_id request;
    _ ← _verify_effect_authority requested;
    found ← durable_authorization task_id state requested allow_create;
    let '(state, raw) := found in
    durable ← bind_durable state raw requested;
    mret (state, Some durable).

(** ** Tool projection *)
Definition requested_projection (a : EffectAuthorization) (request : dict) (provider : string) :
    M ToolProjectionManifest :=
  match py_get request "tool_projection_requests" with
  | PDict requests =>
      match py_get requests provider with
      | PDict raw =>
          now ← tick (utc_clock ports);
          as_missing (lift (build_projection a (PStr provider) (py_get raw "backend_id")
                              (py_get raw "selected_tools") (py_get raw "selected_effects") now))
      | _ => missing ("tool projection request missing for provider: " +:+ provider)
      end
  | _ => missing "tool_projection_requests are required for effect-authorized worker execution"
  end.
Definition _ensure_tool_projection (task_id : string) (request state : dict)
    (authorization : option EffectAuthorization) (provider : string) (allow_create : bool) :
    M (dict * option ToolProjectionManifest) :=
  match authorization with
  | None => mret (state, None)
  | Some a =>
      _ ← as_missing (fresh_now a);
      projection ← requested_projection a request provider;
      let manifests := match py_get state "tool_projection_manifests" with PDict d => d | _ => [] end in
      match py_get manifests provider with
      | PNone =>
          if negb allow_create then
            missing "durable tool projection is missing after execution may have started"
          else
            _ ← mutate task_id [("tool_projection_manifests",
                  PDict (dict_set provider (PDict (projection_to_dict projection)) manifests))];
            state ← snapshot task_id;
            mret (state, Some projection)
      | PDict existing =>
          now ← tick (utc_clock ports);
          durable ← as_missing (lift (projection_from_mapping (PDict existing) a now));
          if negb (String.eqb (projection_hash durable) (projection_hash projection)) then
            missing "tool projection substitution or widening detected"
          else mret (state, Some durable)
      | _ => missing "durable tool projection is malformed"
      end
  end.

(** ** Host preparation *)
Definition _host_preparation_required (contract : object) (request : dict) : M bool :=
  match host_preparation_required ports with
  | Some required => v ← call (required contract request); mret (truthy v)
  | None => mret false
  end.
(** [not isinstance(v, Mapping) or not v]. *)
Definition evidence (v : pyval) : option dict :=
  match v with PDict ((_ :: _) as d) => Some d | _ => None end.
Definition _ensure_host_prepared (task_id attempt_id : string) (contract : object) (request : dict)
    (lease : object) (state : dict) (provider : string) (allow_create : bool) : M dict :=
  required ← _host_preparation_required contract request;
  if negb required then mret state
  else match preparation ports with
  | None => missing "explicit preparation port is required for host-prepared execution"
  | Some port =>
      found ← match py_get state "host_preparation" with
        | PNone =>
            if negb allow_create then
              missing "durable host preparation is missing after execution may have started"
            else
              prepared ← act Prepared (prepare_before_worker port contract request lease state task_id attempt_id);
              match evidence prepared with
              | None => missing "host preparation must return durable non-empty identity evidence"
              | Some prepared =>
                  _ ← mutate task_id [("host_preparation", PDict prepared)];
                  state ← snapshot task_id;
                  mret (state, py_get state "host_preparation")
              end
        | v => mret (state, v)
        end;
      let '(state, v) := found in
      match evidence v with
      | None => missing "durable host preparation evidence is malformed"
      | Some durable =>
          _ ← call (revalidate_before_worker port durable contract request lease state task_id
                      attempt_id provider);
          mret state
      end
  end.
End gates.

(** * What passes the gates *)
Definition gate_event (e : event) : Prop :=
  match e with Verified _ | Mutated _ => True | _ => False end.
Definition unbound_event (e : event) : Prop := match e with Verified _ => True | _ => False end.

Section gate_specs.
Context `{FloatText} `{Digest} `{DateTimes} {W : Type} (ports : CoordinatorPorts W).

(** The state port returns Python values. *)
Definition well_stored : Prop :=
  ∀ task w d w', read_snapshot ports task w = (Ok (Some d), w') → py_wf (PDict d) = true.

(** [q] is the authorization the request carries for this attempt. *)
Definition requested (request : dict) (attempt : string) (q : EffectAuthorization) : Prop :=
  ∃ raw, py_get request "effect_authorization" = PDict raw ∧
    authorization_from_mapping (PDict raw) = Ok q ∧ attempt_id q = attempt ∧
    Some (operation_id q) = _request_identity_value request "operation_id" ∧
    Some (repository q) = _request_identity_value request "repository".
(** The authority, when there is one, has accepted [q]; there is one when it is required. *)
Definition accepted (q : EffectAuthorization) (evs : list event) : Prop :=
  match effect_authority ports with
  | Some _ => Verified q ∈ evs
  | None => require_effect_authority ports = false
  end.
(** [a] is [q], but for a collision of their texts. *)
Definition same_grant (a q : EffectAuthorization) : Prop :=
  authorization_wf a ∧ authorization_hash a = authorization_hash q ∧
  (same_authorization a q ∨
   ∃ s t, _canonical_json (PDict (authorization_body a)) = Ok s ∧
     _canonical_json (PDict (authorization_body q)) = Ok t ∧ collision (utf8 s) (utf8 t)).
(** The durable state holds [a]. *)
Definition durably (state : dict) (a : EffectAuthorization) : Prop :=
  is_text (py_get state "effect_authorization_hash") (authorization_hash a) = true ∧
  ∃ raw, py_get state "effect_authorization" = PDict raw ∧ authorization_from_mapping (PDict raw) = Ok a.

Lemma runs_snapshot E task :
  well_stored → runs E (snapshot ports task) (λ l d, l = [] ∧ py_wf (PDict d) = true).
Proof.
  intros Hs. unfold snapshot. eapply runs_bind with (Q := λ l d, l = [] ∧ py_wf (PDict (default [] d)) = true).
  - apply runs_call_law. intros w [d|] w' Hw; (split; [done|]); [by eapply Hs|done].
  - intros l d [-> Hd]. by apply runs_ret.
Qed.
Lemma runs_as_missing {A} E (m : prog (run_state W) A) Q : runs E m Q → runs E (as_missing m) Q.
Proof. intros Hm. apply runs_catch; [done|]. intros l e. apply runs_raise. Qed.
Lemma runs_fresh E a : runs E (fresh_now ports a) (λ l _, l = []).
Proof.
  unfold fresh_now. destruct (expires_at a); [|by apply runs_ret].
  eapply runs_bind with (Q := λ l _, l = []); [by apply runs_tick|].
  intros l n ->. by apply runs_lift.
Qed.

Lemma assert_identity_Ok a x u : assert_identity a x = Ok u →
  Forall (λ p, match p.2.2 with None => True | Some v => p.2.1 = Some v end) (identity_pairs a x).
Proof.
  unfold assert_identity. intros (us & Hu%mapM_result_Ok_inv & _)%bind_Ok_inv.
  induction Hu as [|p v l k Hp _ IH]; constructor; [|exact IH]. destruct p.2.2; [|done].
  by apply raise_if_Ok_inv, negb_false_iff, bool_decide_eq_true in Hp.
Qed.
Lemma requested_authorization_runs E attempt request :
  runs E (requested_authorization ports attempt request) (λ l q, l = [] ∧ requested request attempt q).
Proof.
  unfold requested_authorization. destruct (py_get request "effect_authorization") as [| | | | | | |raw|] eqn:Er;
    try apply runs_raise.
  destruct (_request_identity_value request "operation_id") as [op|] eqn:Eo; [|apply runs_raise].
  destruct (_request_identity_value request "repository") as [rp|] eqn:Ep; [|apply runs_raise].
  apply runs_as_missing.
  eapply runs_bind with (Q := λ l q, l = [] ∧ authorization_from_mapping (PDict raw) = Ok q).
  { by apply runs_lift. }
  intros l q [-> Hq]. eapply runs_bind; [apply runs_fresh|]. intros l [] ->.
  eapply runs_bind with (Q := λ l _, l = [] ∧ attempt_id q = attempt ∧ operation_id q = op ∧ repository q = rp).
  { apply runs_lift. intros u Hu%assert_identity_Ok. cbn in Hu.
    apply Forall_cons in Hu as [I1 Hu]. apply Forall_cons in Hu as [I2 Hu]. apply Forall_cons in Hu as [I3 _].
    cbn in *. split_and!; congruence. }
  intros l [] (-> & ? & ? & ?). apply runs_ret. split; [done|]. exists raw. split_and!; try done; congruence.
Qed.
Lemma verify_runs a :
  runs unbound_event (_verify_effect_authority ports a) (λ l _, accepted a l).
Proof.
  unfold _verify_effect_authority, accepted. destruct (effect_authority ports) as [port|].
  - eapply runs_bind with (Q := any); [apply runs_catch; [by apply runs_call|intros; apply runs_raise]|].
    intros l v _. destruct v as [|[]| | | | | | |]; try apply runs_raise. apply runs_note; [done|].
    apply elem_of_app. right. by left.
  - destruct (require_effect_authority ports); [apply runs_raise|by apply runs_ret].
Qed.
Lemma bind_durable_runs E state raw q :
  py_wf raw = true → raw = py_get state "effect_authorization" → authorization_wf q →
  runs E (bind_durable ports state raw q) (λ l a, l = [] ∧ same_grant a q ∧ durably state a).
Proof.
  intros Hraw Eraw Hq. unfold bind_durable. destruct raw as [| | | | | | |raw|]; try apply runs_raise.
  eapply runs_bind with (Q := λ l a, l = [] ∧ authorization_from_mapping (PDict raw) = Ok a).
  { apply runs_as_missing.
    eapply runs_bind with (Q := λ l a, l = [] ∧ authorization_from_mapping (PDict raw) = Ok a); [by apply runs_lift|].
    intros l a [-> Ha]. eapply runs_bind; [apply runs_fresh|]. intros l [] ->. by apply runs_ret. }
  intros l a [-> Ha]. destruct (String.eqb_spec (authorization_hash a) (authorization_hash q)) as [Eh|];
    [|apply runs_raise]. cbn [negb].
  destruct (is_text _ _) eqn:Et; [|apply runs_raise]. apply runs_ret. split; [done|].
  pose proof (authorization_from_mapping_wf _ _ Hraw Ha) as Hw. split.
  - split_and!; [done|done|]. by apply same_hash_same_grant.
  - split; [done|]. by exists raw.
Qed.

(** What the authorization gate lets through, and the events it leaves. *)
Definition passed (request state : dict) (attempt : string) (create : bool) (evs : list event)
    (r : dict * option EffectAuthorization) : Prop :=
  py_wf (PDict r.1) = true ∧
  (create = false ∨ py_get state "effect_authorization" ≠ PNone → Forall unbound_event evs ∧ r.1 = state) ∧
  match r.2 with
  | None => require_effect_authority ports || _effect_authorization_requested request state = false ∧
            evs = [] ∧ r.1 = state
  | Some a => ∃ q, requested request attempt q ∧ accepted q evs ∧ same_grant a q ∧ durably r.1 a
  end.
Lemma ensure_authorization_runs task attempt request state create :
  well_stored → py_wf (PDict request) = true → py_wf (PDict state) = true →
  runs (λ e, gate_event e ∧ (create = false ∨ py_get state "effect_authorization" ≠ PNone → unbound_event e))
    (_ensure_effect_authorization ports task attempt request state create)
    (passed request state attempt create).
Proof.
  intros Hs Hreq Hst. unfold _ensure_effect_authorization. destruct (_ || _) eqn:Eg; cbn [negb].
  2: { apply runs_ret. by split_and!. }
  eapply runs_bind; [apply requested_authorization_runs|]. intros l q [-> Hq].
  assert (authorization_wf q) as Hqw.
  { destruct Hq as (raw & Hraw & Hq & _). eapply authorization_from_mapping_wf; [|exact Hq].
    rewrite <- Hraw. by apply py_wf_py_get. }
  eapply runs_bind with (Q := λ l _, accepted q l ∧ Forall unbound_event l).
  { eapply runs_mono with (Q := λ l _, accepted q l); [apply verify_runs| |by split].
    intros e He. split; [by destruct e|done]. }
  intros l1 [] [Hacc Hl1]. cbn [app].
  eapply runs_bind with (Q := λ l r, py_wf (PDict r.1) = true ∧ r.2 = py_get r.1 "effect_authorization" ∧
    (create = false ∨ py_get state "effect_authorization" ≠ PNone → l = [] ∧ r.1 = state)).
  { unfold durable_authorization. pose proof (py_wf_py_get state "effect_authorization" Hst) as Hw.
    destruct (py_get state "effect_authorization") eqn:Ea; try (apply runs_ret; cbn [fst snd]; split_and!; [done|by rewrite Ea|done]).
    destruct create; cbn [negb]; [|apply runs_raise].
    eapply runs_bind with (Q := any); [apply runs_act; [split; [done|by intros [?|?]]|done]|]. intros l v _.
    eapply runs_bind; [by apply runs_snapshot|]. intros l' d [-> Hd]. apply runs_ret.
    split_and!; [done|done|]. by intros [?|?]. }
  intros l2 [state' raw] (Hw1 & Eraw & Hl2). cbn [fst snd] in *.
  eapply runs_bind; [apply bind_durable_runs; [by rewrite Eraw; apply py_wf_py_get|done|done]|].
  intros l3 a (-> & Hsame & Hdur).
  apply runs_ret. cbn [app]. rewrite !app_nil_r. unfold passed. cbn [fst snd]. split_and!; [done| |].
  - intros Hc. destruct (Hl2 Hc) as [-> ->]. by rewrite app_nil_r.
  - exists q. split_and!; try done. unfold accepted in *. destruct (effect_authority ports); [|done].
    apply elem_of_app. by left.
Qed.

(** [m] is a projection of [a] for the provider, bound to it by its hash. *)
Definition projection_of (a : EffectAuthorization) (prov : string) (m : ToolProjectionManifest) : Prop :=
  m_authorization_hash m = authorization_hash a ∧
  within (PDict (selected_effects m)) (PDict (effects a)) ∧
  (provider m = strip prov ∨
   ∃ m' s t, _canonical_json (PDict (projection_body m)) = Ok s ∧
     _canonical_json (PDict (projection_body m')) = Ok t ∧ collision (utf8 s) (utf8 t)).

Lemma built_projection a prov backend tools selected clock m :
  authorization_wf a → py_wf selected = true → build_projection a prov backend tools selected clock = Ok m →
  projects a prov backend tools selected m ∧ py_wf (PDict (selected_effects m)) = true.
Proof.
  intros Ha Hsel Hb. apply build_projection_iff in Hb as (_ & _ & Hp); [|apply Ha|done].
  split; [done|]. destruct Hp as (_ & (_ & _ & _ & Hg) & _).
  by apply (normalize_effects_Ok _ _ _ Hsel), proj1, normal_facts in Hg as [? _].
Qed.
Lemma projection_of_fresh a prov backend tools selected clock m :
  authorization_wf a → py_wf selected = true →
  build_projection a (PStr prov) backend tools selected clock = Ok m → projection_of a prov m.
Proof.
  intros Ha Hsel Hb. apply built_projection in Hb as [((E & _) & (Hp & _) & Hw & _) _]; [|done..].
  split_and!; [done|done|]. left. by apply req_text_Ok in Hp as (? & [= <-] & _ & ->).
Qed.
(** A stored projection with the hash of the one built for the provider. *)
Lemma projection_of_stored a prov backend tools selected clock m v clock' m' :
  authorization_wf a → py_wf selected = true → py_wf v = true →
  build_projection a (PStr prov) backend tools selected clock = Ok m →
  projection_from_mapping v a clock' = Ok m' → projection_hash m' = projection_hash m →
  projection_of a prov m'.
Proof.
  intros Ha Hsel Hv Hb (payload & -> & Hb')%projection_from_mapping_built Eh.
  apply built_projection in Hb as [(_ & (Hp & _) & _ & Hh) Hw]; [|done..].
  apply built_projection in Hb' as [((E & _) & _ & Hwi & Hh') Hw']; [|done|by apply py_wf_py_get].
  split_and!; [done|done|]. rewrite Eh in Hh'.
  destruct (seal_binds EffectAuthorizationError canonical_message m' m (projection_hash m)) as [(Ep & _)|(s & t & ?)];
    [done|done|exact Hh'|exact Hh|left|right; by exists m, s, t].
  rewrite Ep. by apply req_text_Ok in Hp as (? & [= <-] & _ & ->).
Qed.
Lemma ensure_projection_runs task request state authorization prov create :
  well_stored → py_wf (PDict request) = true → py_wf (PDict state) = true →
  (∀ a, authorization = Some a → authorization_wf a) →
  runs (λ e, ∃ d, e = Mutated d) (_ensure_tool_projection ports task request state authorization prov create)
    (λ _ r, py_wf (PDict r.1) = true ∧
       match authorization with
       | None => r.2 = None
       | Some a => ∃ m, r.2 = Some m ∧ projection_of a prov m
       end).
Proof.
  intros Hs Hreq Hst Hwf. unfold _ensure_tool_projection. destruct authorization as [a|]; [|by apply runs_ret].
  specialize (Hwf a eq_refl). eapply runs_bind with (Q := any); [apply runs_as_missing; unfold fresh_now; emits|].
  intros l0 _ _.
  eapply runs_bind with (Q := λ l m, ∃ backend tools selected clock, py_wf selected = true ∧
    build_projection a (PStr prov) backend tools selected clock = Ok m).
  { unfold requested_projection. pose proof (py_wf_py_get _ "tool_projection_requests" Hreq) as Hw.
    destruct (py_get request "tool_projection_requests") as [| | | | | | |reqs|]; try apply runs_raise.
    pose proof (py_wf_py_get _ prov Hw) as Hw2. destruct (py_get reqs prov) as [| | | | | | |raw|]; try apply runs_raise.
    eapply runs_bind with (Q := any); [by apply runs_tick|]. intros l now _. apply runs_as_missing, runs_lift.
    intros m Hm. do 4 eexists. split; [|exact Hm]. by apply py_wf_py_get. }
  intros l1 m (backend & tools & selected & clock & Hsel & Hb).
  set (manifests := match py_get state "tool_projection_manifests" with PDict d => d | _ => [] end).
  assert (py_wf (PDict manifests) = true) as Hm.
  { subst manifests. pose proof (py_wf_py_get _ "tool_projection_manifests" Hst) as Hw. by case_match. }
  pose proof (py_wf_py_get _ prov Hm) as Hold.
  destruct (py_get manifests prov) as [| | | | | | |existing|]; try apply runs_raise.
  - destruct create; cbn [negb]; [|apply runs_raise].
    eapply runs_bind with (Q := any); [apply runs_act; [by eexists|done]|]. intros l2 v _.
    eapply runs_bind; [by apply runs_snapshot|]. intros l3 d [-> Hd]. apply runs_ret. cbn [fst snd].
    split; [done|]. exists m. split; [done|]. eapply projection_of_fresh; [done|exact Hsel|exact Hb].
  - eapply runs_bind with (Q := any); [by apply runs_tick|]. intros l2 now _.
    eapply runs_bind with (Q := λ _ d, projection_from_mapping (PDict existing) a now = Ok d);
      [by apply runs_as_missing, runs_lift|]. intros l3 m' Hm'.
    destruct (String.eqb_spec (projection_hash m') (projection_hash m)) as [Eh|]; [|apply runs_raise].
    apply runs_ret. cbn. split; [done|]. exists m'. split; [done|].
    by eapply (projection_of_stored a prov backend tools selected clock m (PDict existing)).
Qed.

Definition preparation_event (e : event) : Prop :=
  match e with Prepared | Mutated _ => True | _ => False end.
Lemma ensure_prepared_runs task attempt contract request lease state prov create :
  well_stored → py_wf (PDict state) = true →
  runs preparation_event
    (_ensure_host_prepared ports task attempt contract request lease state prov create)
    (λ _ d, py_wf (PDict d) = true).
Proof.
  intros Hs Hst. unfold _ensure_host_prepared.
  eapply runs_bind with (Q := any); [unfold _host_preparation_required; emits|]. intros l0 [] _; cbn [negb];
    [|by apply runs_ret].
  destruct (preparation ports) as [port|]; [|apply runs_raise].
  eapply runs_bind with (Q := λ _ r, py_wf (PDict r.1) = true).
  { destruct (py_get state "host_preparation"); try by apply runs_ret.
    destruct create; cbn [negb]; [|apply runs_raise].
    eapply runs_bind with (Q := any); [by apply runs_act|]. intros l1 v _.
    destruct (evidence v) as [d|]; [|apply runs_raise].
    eapply runs_bind with (Q := any); [by apply runs_act|]. intros l2 u _.
    eapply runs_bind; [by apply runs_snapshot|]. intros l3 s' [-> Hd]. by apply runs_ret. }
  intros l1 [state' v] Hw. destruct (evidence v); [|apply runs_raise].
  eapply runs_bind with (Q := any); [by apply runs_call|]. intros. by apply runs_ret.
Qed.
End gate_specs.
