(* ===== verification/ModelCallGate.v ===== *)
(** * The model-call gate of a worker invocation
    ([src/src/nexus_runtime/execution_coordination/coordinator.py]: structured state,
    bounded-decision observation, verdict consumption, telemetry)

    Right before a worker is invoked the coordinator asks the model-call seam whether a model
    is needed.  A deterministic receipt replaces the invocation only when it is complete and
    claims no provider calls; every answer is counted in the durable state.  When a model is
    needed, the residual is also classified as a bounded decision, for observation only. *)
From Stdlib Require Import Ascii String SpecFloat.
From S2P Require Import Prelude PyValue Json Digest Contract DateTime Instances.
From S2P Require Import ModelCallResolution ExecutionPorts EffectGate.
From S2P Require BoundedDecision.

Definition _BOUNDED_OBSERVATION_CONTEXT_KEY := "bounded_decision_context".
Definition _BOUNDED_OBSERVATION_CONTEXT_FIELDS : list string :=
  ["decision_family"; "protected_authority_requirements"; "candidates"; "evidence_refs";
   "required_verifier"; "claim_ceiling"; "structured_state"].
Definition _BOUNDED_OBSERVATION_MODE := "OBSERVE_ONLY".
Definition _BOUNDED_OBSERVATION_CLAIM_CEILING := "BOUNDED_DECISION_OPPORTUNITY_OBSERVATION_ONLY".

(** [d if isinstance(v, Mapping) else {}]; [list(v) if isinstance(v, list) else []]. *)
Definition mapping_or_empty (v : pyval) : dict := match v with PDict d => d | _ => [] end.
Definition list_or_empty (v : pyval) : list pyval := match v with PList l => l | _ => [] end.

Section structured.
Context `{FloatText} `{Digest}.

Definition _model_call_prompt_facts (state : dict) : option dict * string * Z :=
  let binding := match py_get state "dispatch_binding" with PDict d => Some d | _ => None end in
  match py_get state "prompt" with
  | PStr p => (binding, text_sha256 p, Z.of_nat (String.length p))
  | _ => (binding, EmptyString, 0%Z)
  end.

(** What identifies the invocation about to be made. *)
Record invocation_facts : Type := {
  f_task_id : string; f_attempt_id : string; f_provider : string; f_model : option string;
  f_remaining_calls : Z; f_remaining_attempts : Z; f_lane : string
}.
Definition prior_complete (v : pyval) : bool :=
  match v with
  | PDict d => String.eqb (str_or (py_get d "outcome") EmptyString) EXECUTION_COMPLETED
               && truthy (py_get d "evidence_complete")
  | _ => false
  end.
Definition _model_call_structured_state (request state : dict) (f : invocation_facts) : dict :=
  let '(binding, digest, len) := _model_call_prompt_facts state in
  let bound key := match binding with
    | Some b => str_or (py_get b key) EmptyString
    | None => EmptyString
    end in [
    ("task_id", PStr (f_task_id f)); ("attempt_id", PStr (f_attempt_id f));
    ("provider", PStr (f_provider f)); ("model", PStr (default EmptyString (f_model f)));
    ("remaining_provider_calls", PInt (f_remaining_calls f));
    ("remaining_attempts", PInt (f_remaining_attempts f)); ("execution_lane", PStr (f_lane f));
    ("prior_attempt_count", PInt (Z.of_nat (length (list_or_empty (py_get state "executions")))));
    ("prior_execution_present", PBool (negb (is_none (py_get state "execution"))));
    ("prior_execution_complete", PBool (prior_complete (py_get state "execution")));
    ("prompt_digest", PStr digest); ("prompt_length", PInt len);
    ("dispatch_provider", PStr (bound "provider")); ("dispatch_model", PStr (bound "model"));
    ("request_model", PStr (str_or (py_get request "model") EmptyString));
    ("deterministic_candidates", PList (list_or_empty (py_get request "deterministic_candidates")))].

(** ** Bounded-decision observation *)
Definition _bounded_observation_context (request : dict) : result (dict * option string) :=
  match dict_get _BOUNDED_OBSERVATION_CONTEXT_KEY request with
  | None => Ok ([], Some "bounded_decision_context_missing")
  | Some (PDict raw) =>
      let projected := omap (λ key, (λ v, (key, v)) <$> dict_get key raw)
                         _BOUNDED_OBSERVATION_CONTEXT_FIELDS in
      match json_dumps false false (PDict projected) with
      | Ok _ => Ok (projected, None)
      | Err exc =>
          if exn_is TypeError exc || exn_is ValueError exc
          then Ok ([], Some "bounded_decision_context_not_canonical_json") else Err exc
      end
  | Some _ => Ok ([], Some "bounded_decision_context_not_mapping")
  end.
Definition _bounded_observation_state_digest (structured_state : dict) : result string :=
  json_sha256 false false (PDict structured_state).

(** The identities of the request envelope, which the caller's context cannot replace. *)
Definition observation_identities (request : dict) (upstream : ModelCallNeedVerdict) (task_id : string) : dict :=
  [("task_id", PStr task_id); ("repository", PStr (str_or (py_get request "repository") EmptyString));
   ("source_revision", PStr (str_or (py_get request "source_revision") EmptyString));
   ("upstream_model_call_state_digest", PStr (structured_state_digest upstream))].
Definition _bounded_observation_state (request resolver_state : dict) (upstream : ModelCallNeedVerdict)
    (task_id : string) : result (dict * ModelCallNeedVerdict * option string) :=
  found ← _bounded_observation_context request;
  let '(context, context_error) := found in
  let identities := observation_identities request upstream task_id in
  let full := dict_merge (dict_merge resolver_state context) identities in
  chosen ← match _bounded_observation_state_digest full with
    | Ok digest => Ok (full, digest, context_error)
    | Err exc =>
        if exn_is TypeError exc || exn_is ValueError exc then
          let bare := dict_merge resolver_state identities in
          digest ← _bounded_observation_state_digest bare;
          Ok (bare, digest, Some (default "bounded_observation_state_not_canonical_json" context_error))
        else Err exc
    end;
  let '(observed, digest, context_error) := chosen in
  verdict ← build_verdict (PStr MODEL_NEEDED) (PStr (reason upstream)) (PStr (resolver_id upstream))
              (PStr (seam upstream)) (PStr digest) PNone;
  Ok (observed, verdict, context_error).

Fixpoint read_candidate_ids (l : list pyval) : option (list string) :=
  match l with
  | [] => Some []
  | PDict item :: l =>
      match py_get item "candidate_id" with
      | PStr s => if blank s then None else cons (strip s) <$> read_candidate_ids l
      | _ => None
      end
  | _ => None
  end.
Definition _bounded_candidate_ids (structured_state : dict) : list string :=
  match as_array (py_get structured_state "candidates") with
  | Some l => sort_strings (default [] (read_candidate_ids l))
  | None => []
  end.

(** The disposition of the observed residual, its reason, family and packet hash. *)
Definition observed_disposition (bounded : ModelCallNeedVerdict) (structured_state : dict) :
    result (string * string * string * option string) :=
  match (eligibility ← BoundedDecision.classify_bounded_decision bounded (PDict structured_state);
         let d := BoundedDecision.disposition eligibility in
         packet ← (if String.eqb d BoundedDecision.BOUNDED_DECISION_ELIGIBLE then
             p ← BoundedDecision.build_bounded_decision_packet bounded (PDict structured_state);
             Ok (Some (BoundedDecision.p_content_sha256 p))
           else Ok None);
         Ok (d, BoundedDecision.reason eligibility, BoundedDecision.decision_family eligibility, packet)) with
  | Ok r => Ok r
  | Err exc =>
      if exn_is ExceptionC exc then
        Ok (BoundedDecision.BOUNDED_DECISION_INSUFFICIENT_STATE,
            "bounded_observer_failed:" +:+ exn_class_name (exn_type exc),
            strip (str_or (py_get structured_state "decision_family") EmptyString), None)
      else Err exc
  end.
Definition observation_identity (upstream bounded : ModelCallNeedVerdict)
    (task_id attempt_id provider : string) : dict := [
  ("task_id", PStr task_id); ("attempt_id", PStr attempt_id); ("provider", PStr provider);
  ("seam", PStr (seam upstream));
  ("upstream_model_call_state_digest", PStr (structured_state_digest upstream));
  ("bounded_state_digest", PStr (structured_state_digest bounded))].
Definition observation_record (upstream bounded : ModelCallNeedVerdict) (structured_state : dict)
    (context_error : option string) (task_id attempt_id provider observation_id : string)
    (found : string * string * string * option string) : result dict :=
  let '(disposition, why, family, packet) := found in
  let ids := _bounded_candidate_ids structured_state in
  set_sha ← match ids with
    | [] => Ok None
    | _ => h ← json_sha256 false true (PTuple (map PStr ids)); Ok (Some ("sha256:" +:+ h))
    end;
  Ok [("schema", PStr BoundedDecision.BOUNDED_DECISION_TELEMETRY_SCHEMA);
      ("mode", PStr _BOUNDED_OBSERVATION_MODE); ("control_effect", PStr "NONE");
      ("claim_ceiling", PStr _BOUNDED_OBSERVATION_CLAIM_CEILING);
      ("observation_id", PStr observation_id); ("task_id", PStr task_id);
      ("attempt_id", PStr attempt_id); ("provider", PStr provider); ("seam", PStr (seam upstream));
      ("model_call_resolution", PStr (resolution upstream));
      ("upstream_model_call_state_digest", PStr (structured_state_digest upstream));
      ("bounded_state_digest", PStr (structured_state_digest bounded));
      ("repository", PStr (str_or (py_get structured_state "repository") EmptyString));
      ("source_revision", PStr (str_or (py_get structured_state "source_revision") EmptyString));
      ("disposition", PStr disposition); ("reason", PStr why); ("decision_family", PStr family);
      ("candidate_count", PInt (Z.of_nat (length ids))); ("candidate_set_sha256", opt_str set_sha);
      ("packet_sha256", opt_str packet); ("context_error", opt_str context_error);
      ("frontier_path_preserved", PBool true)].

(** [int(totals.get(key) or 0)]. *)
Definition total (totals : dict) (key : string) : result Z := py_int (py_or (py_get totals key) (PInt 0)).
Definition bump (key : string) (by_ : Z) (totals : dict) : result dict :=
  n ← total totals key; Ok (dict_set key (PInt (n + by_)) totals).
Definition observation_totals (totals : dict) (disposition : string) : result dict :=
  totals ← bump "evaluated" 1 totals;
  let key :=
    if String.eqb disposition BoundedDecision.BOUNDED_DECISION_ELIGIBLE then "eligible"
    else if String.eqb disposition BoundedDecision.FRONTIER_REASONING_REQUIRED then "frontier_required"
    else "insufficient" in
  totals ← bump key 1 totals;
  totals ← bump "eligible" 0 totals; totals ← bump "frontier_required" 0 totals;
  bump "insufficient" 0 totals.
Definition already_observed (entries : list pyval) (observation_id : string) : bool :=
  existsb (λ item, match item with
    | PDict d => is_text (py_get d "observation_id") observation_id
    | _ => false
    end) entries.
End structured.

(** ** Over the state port *)
Section gate.
Context `{FloatText} `{Digest} `{DateTimes} {W : Type} (ports : CoordinatorPorts W).
Abbreviation M := (prog (run_state W)).

(** [self.state.read_snapshot(task_id) or state]. *)
Definition snapshot_or (task_id : string) (state : dict) : M dict :=
  found ← call (read_snapshot ports task_id);
  mret (match found with Some ((_ :: _) as d) => d | _ => state end).

Definition _record_bounded_decision_observation (upstream bounded : ModelCallNeedVerdict)
    (structured_state : dict) (context_error : option string) (task_id attempt_id provider : string) :
    M dict :=
  state ← snapshot ports task_id;
  found ← lift (observed_disposition bounded structured_state);
  id ← lift (json_sha256 false true
         (PDict (observation_identity upstream bounded task_id attempt_id provider)));
  let observation_id := "sha256:" +:+ id in
  observation ← lift (observation_record upstream bounded structured_state context_error
                        task_id attempt_id provider observation_id found);
  let entries := list_or_empty (py_get state "bounded_decision_observations") in
  if already_observed entries observation_id then mret state
  else
    totals ← lift (observation_totals
               (mapping_or_empty (py_get state "bounded_decision_observation_totals")) found.1.1.1);
    kept ← catch_prog ExceptionC
      (_ ← mutate ports task_id [
         ("bounded_decision_observations", PList (entries ++ [PDict observation]));
         ("bounded_decision_observation_totals", PDict totals)];
       mret true)
      (λ _, mret false);
    if kept : bool then snapshot_or task_id state else mret state.

(** ** Telemetry *)
Record telemetry_change : Type := {
  c_outcome : string; c_required : Z; c_invoked : Z; c_avoided : Z; c_model_avoided : bool;
  c_resolution : option string; c_reason : option string
}.
Definition telemetry_entry (verdict : ModelCallNeedVerdict) (c : telemetry_change) :
    result ModelCallTelemetryRecord :=
  telemetry_post_init {|
    t_outcome := c_outcome c; t_resolution := default (resolution verdict) (c_resolution c);
    t_reason := default (reason verdict) (c_reason c); t_resolver_id := resolver_id verdict;
    t_seam := seam verdict; t_structured_state_digest := structured_state_digest verdict;
    t_model_avoided := c_model_avoided c; t_resolver_failure := resolver_failure verdict;
    t_model_calls_required := c_required c; t_model_calls_invoked := c_invoked c;
    t_model_calls_avoided := c_avoided c; t_model_calls_not_eliminated := None |}.
Definition avoidance_totals (totals : dict) (t : ModelCallTelemetryRecord) : result dict :=
  totals ← bump "model_calls_required" (t_model_calls_required t) totals;
  totals ← bump "model_calls_invoked" (t_model_calls_invoked t) totals;
  totals ← bump "model_calls_avoided" (t_model_calls_avoided t) totals;
  invoked ← total totals "model_calls_invoked";
  required ← total totals "model_calls_required";
  avoided ← total totals "model_calls_avoided";
  Ok (dict_set "model_calls_not_eliminated"
        (PBool ((0 <? invoked)%Z || (avoided <? required)%Z)) totals).
Definition _record_model_call_outcome (task_id attempt_id : string) (verdict : ModelCallNeedVerdict)
    (provider : string) (c : telemetry_change) : M dict :=
  t ← lift (telemetry_entry verdict c);
  state ← snapshot ports task_id;
  let entry := dict_merge (telemetry_to_dict t)
    [("task_id", PStr task_id); ("attempt_id", PStr attempt_id); ("provider", PStr provider);
     ("seam", PStr WORKER_INVOCATION_SEAM)] in
  totals ← lift (avoidance_totals (mapping_or_empty (py_get state "model_call_avoidance")) t);
  let proof := [
    ("model_call_resolutions", PList (list_or_empty (py_get state "model_call_resolutions") ++ [PDict entry]));
    ("model_call_avoidance", PDict totals)] in
  match model_call_gate ports with
  | None => mret (dict_merge state proof)
  | Some _ => _ ← mutate ports task_id proof; snapshot ports task_id
  end.

(** ** Consuming a verdict *)
Definition model_required (resolution_override reason_override : option string) : telemetry_change :=
  {| c_outcome := MODEL_REQUIRED; c_required := 1; c_invoked := 0; c_avoided := 0;
     c_model_avoided := false; c_resolution := resolution_override; c_reason := reason_override |}.
Definition resolved_change : telemetry_change :=
  {| c_outcome := DETERMINISTIC_RESOLVED; c_required := 0; c_invoked := 0; c_avoided := 0;
     c_model_avoided := false; c_resolution := None; c_reason := None |}.
Definition avoided_change : telemetry_change :=
  {| c_outcome := MODEL_AVOIDED; c_required := 0; c_invoked := 0; c_avoided := 1;
     c_model_avoided := true; c_resolution := None; c_reason := None |}.
Definition invoked_change : telemetry_change :=
  {| c_outcome := MODEL_INVOKED; c_required := 0; c_invoked := 1; c_avoided := 0;
     c_model_avoided := false; c_resolution := None; c_reason := None |}.

(** [int(v or 0)], and 1 when [v] is no number. *)
Definition claimed_calls (v : pyval) : result Z :=
  let one := λ _ : exn, Ok 1%Z in
  catch (catch (py_int (py_or v (PInt 0))) TypeError one) ValueError one.
(** The receipt claims neither provider calls nor provider attempts. *)
Definition claims_no_calls (receipt : object) : result bool :=
  calls ← claimed_calls (getattr_or receipt "provider_calls" (PInt 0));
  attempts ← match getattr_or receipt "provider_attempt_count" (PInt 0) with
    | PNone => Ok 0%Z
    | v => claimed_calls v
    end;
  Ok ((calls =? 0)%Z && (attempts =? 0)%Z).

Definition _consume_model_call_verdict (verdict : ModelCallNeedVerdict)
    (task_id attempt_id provider : string) : M (dict * option object) :=
  let record := _record_model_call_outcome task_id attempt_id verdict provider in
  let decline why :=
    _ ← record (model_required (Some INSUFFICIENT_STRUCTURED_STATE) (Some why));
    state ← snapshot ports task_id;
    mret (state, None) in
  if negb (String.eqb (resolution verdict) RESOLVED_DETERMINISTICALLY) then
    state ← record (model_required None None); mret (state, None)
  else
    _ ← record resolved_change;
    match deterministic_receipt verdict with
    | [] => decline "deterministic_receipt_missing:existing model path preserved"
    | raw =>
        receipt ← catch_prog ExceptionC (call (receipt_from_state ports (Plain (PDict raw))))
                    (λ _, mret None);
        match receipt with
        | None => decline "deterministic_receipt_unusable:existing model path preserved"
        | Some receipt =>
            if negb (completed receipt) then
              decline "deterministic_receipt_unusable:existing model path preserved"
            else
              free ← lift (claims_no_calls receipt);
              if free : bool then
                _ ← record avoided_change;
                state ← snapshot ports task_id;
                mret (state, Some receipt)
              else decline "deterministic_receipt_claims_provider_calls:existing model path preserved"
        end
    end.
End gate.
