(* ===== verification/Coordinator.v ===== *)
(** * The execution coordinator
    ([src/src/nexus_runtime/execution_coordination/coordinator.py])

    [execute_attempt] takes one attempt from its durable status to finalization: it passes the
    gates, leases a target, and alternates between invoking a worker within the aggregate
    budgets and judging its receipt, escalating to the next provider when the policy says so.
    [run_owned_attempt] owns an attempt and turns every failure into a finalized one;
    [launch] starts the owner.

    The loop has fuel, [None] when it runs out; [execute_attempt_terminates] says how much
    is enough.  The heartbeat thread of an owned attempt only calls the host's state port and
    is not represented. *)
From Stdlib Require Import Ascii String SpecFloat.
From S2P Require Import Prelude PyValue Json Digest Contract DateTime Instances.
From S2P Require Import ModelCallResolution EffectAuthorization ExecutionPorts EffectGate ModelCallGate.
From S2P Require BoundedDecision.

(** An element of a set must be hashable. *)
Definition hashed (v : pyval) : result pyval :=
  if hashable v then Ok v else raise TypeError ("unhashable type: '" +:+ type_name_of v +:+ "'").

Definition float_zero : spec_float := S754_zero false.
Definition float_sub : spec_float → spec_float → spec_float := SFsub float_prec float_emax.
(** [max(0.0, x)] and [min(x, y)]. *)
Definition at_least_zero (x : spec_float) : spec_float := if SFltb float_zero x then x else float_zero.
Definition float_min (x y : spec_float) : spec_float := if SFltb y x then y else x.

(** What stays fixed while an attempt runs. *)
Record attempt_context : Type := {
  x_task_id : string;
  x_attempt_id : string;
  x_request : dict;
  x_contract : object;
  x_deadline : option spec_float;
  x_fresh_submission : bool;
  x_envelope_create : bool;
  x_authorization : option EffectAuthorization;
  x_binding : option dict;
  x_policy : option (list string);
  x_fast_lane : bool;
  x_lane : dict
}.
(** What the loop changes. *)
Record progress : Type := {
  g_state : dict;
  g_status : string;
  g_lease : object;
  g_attempts : list object;
  g_execution : hostval
}.

Section coordinator.
Context `{FloatText} `{Digest} `{DateTimes} {W : Type} (ports : CoordinatorPorts W).
Abbreviation M := (prog (run_state W)).

Definition fail {A} (msg : string) : M A := lift (raise RuntimeError msg).

(** [float(v)]. *)
Definition to_float (v : pyval) : result spec_float :=
  match v with
  | PBool b => Ok (float_of_int (b2z b))
  | PStr s =>
      match float_of_text (strip s) with
      | Some f => Ok f
      | None => raise ValueError ("could not convert string to float: " +:+ repr_str s)
      end
  | _ => BoundedDecision.py_float v
  end.

Definition _update (task_id attempt_id status : string) (v : values) : M pyval :=
  act (Checkpointed status v) (checkpoint ports task_id status v attempt_id).
Definition update (x : attempt_context) : string → values → M pyval :=
  _update (x_task_id x) (x_attempt_id x).
Definition try_preflight (provider : string) : M object :=
  act (Preflighted provider) (preflight ports provider).
Definition ready (p : object) : M bool := v ← lift (getattr p "ready"); mret (truthy v).
Definition reason_of (p : object) : M string := v ← lift (getattr p "reason"); mret (py_str v).

(** [if deadline is not None and time.time() >= deadline: raise]. *)
Definition check_wall_time (limit : option spec_float) : M unit :=
  match limit with
  | None => mret ()
  | Some limit =>
      now ← tick (clock ports);
      if SFleb limit now then fail "WALL_TIME_BUDGET_EXHAUSTED" else mret ()
  end.

(** [str(v or contract.preferred_provider or "codex")]. *)
Definition provider_or_default (contract : object) (v : pyval) : M string :=
  if truthy v then mret (py_str v)
  else preferred ← lift (getattr contract "preferred_provider");
       mret (str_or preferred "codex").

Definition check_boundary (x : attempt_context) (provider : string) : M unit :=
  call (revalidate_provider_boundary ports (x_contract x) (x_request x) (x_task_id x) (x_binding x) provider).
Definition check_dispatch (x : attempt_context) (state : dict) (active : option string) : M unit :=
  call (assert_persisted_dispatch ports state (x_request x) (x_binding x) active).
Definition check_task_card (x : attempt_context) (state : dict) : M unit :=
  call (revalidate_task_card ports (x_contract x) (x_request x) state (x_binding x)).

(** ** Providers *)
Fixpoint first_ready (x : attempt_context) (providers : list string) (failures : list string) :
    M (string * object) :=
  match providers with
  | [] => fail ("worker preflight failed: " +:+ str_join "; " failures)
  | provider :: providers =>
      _ ← check_boundary x provider;
      p ← try_preflight provider;
      ok ← ready p;
      if ok : bool then mret (provider, p)
      else why ← reason_of p; first_ready x providers (failures ++ [provider +:+ ": " +:+ why])
  end.
Definition _select_initial_provider (x : attempt_context) : M (string * object) :=
  order ← call (provider_order ports (x_contract x));
  providers ← match order with
    | [] => p ← provider_or_default (x_contract x) PNone; mret [p]
    | _ => mret order
    end;
  first_ready x providers [].
Fixpoint next_ready (x : attempt_context) (attempted : list pyval) (providers : list string) :
    M (option string) :=
  match providers with
  | [] => mret None
  | provider :: providers =>
      if existsb (λ v, is_text v provider) attempted then next_ready x attempted providers
      else
        _ ← check_boundary x provider;
        p ← try_preflight provider;
        ok ← ready p;
        if ok : bool then mret (Some provider) else next_ready x attempted providers
  end.
Definition _next_ready_provider (x : attempt_context) (order : list string) (attempts : list object) :
    M (option string) :=
  attempted ← lift (mapM_result (λ a, v ← getattr a "provider"; hashed v) attempts);
  next_ready x attempted order.

Definition require_ready (p : object) : M unit :=
  ok ← ready p;
  if ok : bool then mret () else why ← reason_of p; fail ("worker preflight failed: " +:+ why).

(** ** Leasing *)
Definition lease_values (lease preflight : object) (active : string) : values :=
  [("lease", Object lease); ("worker_preflight", Object preflight); ("active_provider", Plain (PStr active))].
Definition started (x : attempt_context) (attempts : list object) (execution : pyval) (lease : object)
    (status : string) (state : dict) : progress :=
  {| g_state := state; g_status := status; g_lease := lease; g_attempts := attempts;
     g_execution := Plain execution |}.
Definition lease_submitted (x : attempt_context) (state : dict) : M (object * string * dict) :=
  _ ← check_dispatch x state None;
  _ ← check_task_card x state;
  chosen ← _select_initial_provider x;
  let '(provider, p) := chosen in
  t0 ← tick (perf_counter ports);
  lease ← act Leased (initial_lease ports (x_contract x) state);
  t1 ← tick (perf_counter ports);
  elapsed ← lift (py_int (PFloat (SFmul float_prec float_emax (float_sub t1 t0) (float_of_int 1000))));
  _ ← update x "TARGET_LEASED" (lease_values lease p provider ++
        ("telemetry", Plain (PDict [("worktree_time_ms", PInt (Z.max 0 elapsed))]))
        :: plain_values (x_lane x));
  _ ← update x "WORKER_RUNNING" (("active_provider", Plain (PStr provider)) :: plain_values (x_lane x));
  state ← snapshot ports (x_task_id x);
  mret (lease, "WORKER_RUNNING", state).
(** The failed lease is replaced and the next provider takes over. *)
Definition take_over (x : attempt_context) (lease : object) (provider : string) : M dict :=
  p ← try_preflight provider;
  _ ← require_ready p;
  _ ← update x "TARGET_LEASED" (lease_values lease p provider ++ [("next_provider", Plain PNone)]);
  _ ← update x "WORKER_RUNNING" [("active_provider", Plain (PStr provider))];
  snapshot ports (x_task_id x).
Definition lease_escalating (x : attempt_context) (state : dict) : M (object * string * dict) :=
  if x_fast_lane x then fail "Fast Lane escalation is forbidden"
  else
    lease ← call (lease_from_state ports state);
    let provider := str_or (py_get state "next_provider") EmptyString in
    if String.eqb provider EmptyString then fail "escalation state is missing next_provider"
    else
      _ ← check_dispatch x state (Some provider);
      _ ← check_task_card x state;
      lease ← act LeaseReplaced (replace_failed_lease ports (x_contract x) lease state);
      _ ← check_boundary x provider;
      state ← take_over x lease provider;
      mret (lease, "WORKER_RUNNING", state).
Definition acquire (x : attempt_context) (state : dict) (status : string) : M (object * string * dict) :=
  if String.eqb status "SUBMITTED" then lease_submitted x state
  else if String.eqb status "WORKER_ESCALATING" then lease_escalating x state
  else if String.eqb status "TARGET_LEASED" then
    fail "worker lost before execution receipt; recovery is fail-closed"
  else lease ← call (lease_from_state ports state); mret (lease, status, state).

(** ** Budgets *)
(** [sum(max(0, int(item.field or 0)) for item in attempts)]. *)
Definition consumed (field : string) (attempts : list object) : result Z :=
  ns ← mapM_result (λ a, v ← getattr a field; n ← py_int (py_or v (PInt 0)); Ok (Z.max 0 n)) attempts;
  Ok (foldr Z.add 0%Z ns).
Definition maximum_attempts (contract : object) : result Z :=
  py_int (py_or (getattr_or contract "maximum_attempts_per_task" (PInt 1)) (PInt 1)).
Record budget : Type := { b_configured : Z; b_calls : Z; b_attempts : Z }.
Definition remaining_budget (x : attempt_context) (attempts : list object) : M budget :=
  calls ← lift (consumed "provider_calls" attempts);
  tries ← lift (consumed "provider_attempt_count" attempts);
  configured ← lift (py_int (py_get (x_lane x) "maximum_provider_calls"));
  ceiling ← lift (maximum_attempts (x_contract x));
  let b := {| b_configured := configured; b_calls := configured - calls; b_attempts := ceiling - tries |} in
  if (b_calls b <=? 0)%Z then fail "maximum_provider_calls aggregate budget exhausted"
  else if (b_attempts b <=? 0)%Z then fail "maximum_provider_attempts aggregate budget exhausted"
  else mret b.

(** ** The invocation *)
Definition dispatch_model (x : attempt_context) : result (option string) :=
  match x_binding x with
  | Some binding =>
      envelope ← as_mapping (py_or (py_get binding "canonical_dispatch_envelope") (PDict [])) "get";
      fallback ← match dict_get "model" binding with
        | Some v => Ok v
        | None => raise KeyError (repr_str "model")
        end;
      Ok (Some (py_str (default fallback (dict_get "model" envelope))))
  | None =>
      let m := strip (str_or (py_get (x_request x) "model") EmptyString) in
      Ok (if String.eqb m EmptyString then None else Some m)
  end.
Definition base_text (x : attempt_context) : M pyval :=
  match base_prompt ports with
  | Some base => call (base (x_contract x))
  | None => call (prompt ports (x_contract x))
  end.
(** The prompt of the invocation: the host's materialized one or the contract's. *)
Definition worker_prompt (x : attempt_context) (g : progress) (provider : string) (base : pyval)
    (model : option string) : M pyval :=
  made ← match materialize_worker_context ports with
    | Some materialize => call (materialize {|
        w_request := x_request x; w_state := g_state g; w_task_id := x_task_id x;
        w_attempt_id := x_attempt_id x; w_fresh_submission := x_fresh_submission x;
        w_contract := x_contract x; w_lease := g_lease g; w_base_prompt := base;
        w_actual_provider := provider; w_actual_model := model |})
    | None => mret None
    end;
  _ ← check_boundary x provider;
  match made with
  | Some (made, _) => mret made
  | None => call (prompt ports (x_contract x))
  end.
(** [max(0.0, deadline - time.time())], or the configured time-out; nothing left raises. *)
Definition time_left (limit : option spec_float) (configured : spec_float) : M spec_float :=
  left ← match limit with
    | Some limit => now ← tick (clock ports); mret (at_least_zero (float_sub limit now))
    | None => mret configured
    end;
  if SFleb left float_zero then fail "WALL_TIME_BUDGET_EXHAUSTED" else mret left.

(** Everything up to the model-call gate: the state read last and the invocation. *)
Definition prepare_invocation (x : attempt_context) (g : progress) (b : budget) (provider : string) :
    M (dict * invocation) :=
  _ ← check_wall_time (x_deadline x);
  contract ← (if (b_calls b =? b_configured b)%Z then mret (x_contract x)
    else match model_copy ports with
    | Some copy => call (copy (x_contract x) (b_calls b))
    | None => mret (x_contract x)
    end);
  _ ← check_boundary x provider;
  base ← base_text x;
  model ← lift (dispatch_model x);
  text ← worker_prompt x g provider base model;
  configured ← lift (to_float (default (PFloat (float_of_int 900)) (dict_get "timeout_seconds" (x_request x))));
  left ← time_left (x_deadline x) configured;
  required ← _host_preparation_required ports (x_contract x) (x_request x);
  let no_execution := is_none (py_get (g_state g) "execution") in
  state ← _ensure_host_prepared ports (x_task_id x) (x_attempt_id x) (x_contract x) (x_request x)
            (g_lease g) (g_state g) provider
            (x_fresh_submission x && bool_decide (g_attempts g = []) && no_execution);
  left ← match x_deadline x with
    | Some limit => if required : bool then time_left (Some limit) left else mret left
    | None => mret left
    end;
  found ← _ensure_tool_projection ports (x_task_id x) (x_request x) state (x_authorization x) provider
            (x_envelope_create x);
  let '(state, projection) := found in
  mret (state, {|
    i_provider := provider; i_contract := contract; i_lease := g_lease g; i_prompt := text;
    i_model := model; i_timeout := float_min configured left;
    i_effect_authorization := authorization_to_dict <$> x_authorization x;
    i_tool_projection_manifest := projection_to_dict <$> projection |}).

(** The observation of the residual, which cannot fail the attempt. *)
Definition observe (x : attempt_context) (state structured : dict) (provider : string)
    (verdict : ModelCallNeedVerdict) : M dict :=
  if negb (String.eqb (resolution verdict) MODEL_NEEDED) then mret state
  else catch_prog ExceptionC
    (found ← lift (_bounded_observation_state (x_request x) structured verdict (x_task_id x));
     let '(observed, bounded, context_error) := found in
     _record_bounded_decision_observation ports verdict bounded observed context_error
       (x_task_id x) (x_attempt_id x) provider)
    (λ _, snapshot_or ports (x_task_id x) state).
(** The gate: a deterministic receipt, and the verdict the invocation is counted under. *)
Definition consult_gate (x : attempt_context) (state : dict) (b : budget) (i : invocation) :
    M (dict * option ModelCallNeedVerdict * option object) :=
  match model_call_gate ports with
  | None => mret (state, None, None)
  | Some gate =>
      let structured := _model_call_structured_state (x_request x) state {|
        f_task_id := x_task_id x; f_attempt_id := x_attempt_id x; f_provider := i_provider i;
        f_model := i_model i; f_remaining_calls := b_calls b; f_remaining_attempts := b_attempts b;
        f_lane := text_of (py_get (x_lane x) "execution_lane") |} in
      port ← tick gate;
      verdict ← lift (resolve_model_call_need (Some port) structured (PStr WORKER_INVOCATION_SEAM) MODEL_NEEDED);
      state ← observe x state structured (i_provider i) verdict;
      consumed ← _consume_model_call_verdict ports verdict (x_task_id x) (x_attempt_id x) (i_provider i);
      let '(state, receipt) := consumed in
      mret (state, Some verdict, receipt)
  end.
Definition obtain_receipt (x : attempt_context) (state : dict) (b : budget) (i : invocation) :
    M (option object) :=
  gated ← consult_gate x state b i;
  let '(_, verdict, deterministic) := gated in
  match deterministic with
  | Some receipt => mret (Some receipt)
  | None =>
      receipt ← act (Invoked i) (invoke ports i);
      _ ← match verdict with
        | Some verdict =>
            _ ← _record_model_call_outcome ports (x_task_id x) (x_attempt_id x) verdict
                  (i_provider i) invoked_change;
            snapshot ports (x_task_id x)
        | None => mret []
        end;
      mret receipt
  end.

(** The receipt must be within what was left. *)
Definition accept_receipt (b : budget) (receipt : object) : M unit :=
  calls ← lift (v ← getattr receipt "provider_calls"; py_int v);
  tries ← lift (getattr receipt "provider_attempt_count");
  if ((calls <? 0) || (b_calls b <? calls))%Z then
    fail "provider execution receipt exceeded aggregate call budget"
  else match tries with
  | PNone => mret ()
  | v =>
      n ← lift (py_int v);
      if ((n <? 0) || (b_attempts b <? n))%Z then
        fail "provider execution receipt exceeded aggregate attempt budget"
      else mret ()
  end.
Definition run_worker (x : attempt_context) (g : progress) : M progress :=
  provider ← provider_or_default (x_contract x) (py_get (g_state g) "active_provider");
  _ ← check_dispatch x (g_state g) (Some provider);
  _ ← check_task_card x (g_state g);
  b ← remaining_budget x (g_attempts g);
  ready_for ← prepare_invocation x g b provider;
  let '(state, i) := ready_for in
  receipt ← obtain_receipt x state b i;
  _ ← check_wall_time (x_deadline x);
  match receipt with
  | None => fail "worker invocation produced no execution receipt"
  | Some receipt =>
      _ ← accept_receipt b receipt;
      let attempts := g_attempts g ++ [receipt] in
      _ ← update x "WORKER_COMPLETED" ([("execution", Object receipt); ("executions", Objects attempts);
            ("active_provider", Plain (PStr provider))] ++ plain_values (x_lane x));
      state ← snapshot ports (x_task_id x);
      mret {| g_state := state; g_status := "WORKER_COMPLETED"; g_lease := g_lease g;
              g_attempts := attempts; g_execution := Object receipt |}
  end.

(** ** Judging the receipt *)
(** [latest.outcome == EXECUTION_COMPLETED and latest.evidence_complete]. *)
Definition proves_completion (latest : object) : result bool :=
  outcome ← getattr latest "outcome";
  if is_text outcome EXECUTION_COMPLETED then v ← getattr latest "evidence_complete"; Ok (truthy v)
  else Ok false.
(** [raise RuntimeError(latest.failure_reason or message)]. *)
Definition fail_with {A} (latest : object) (message : string → string) : M A :=
  why ← lift (getattr latest "failure_reason");
  if truthy why then fail (py_str why)
  else outcome ← lift (getattr latest "outcome"); fail (message (py_str outcome)).
Definition recheck_recovered (x : attempt_context) (g : progress) (latest : object) : M progress :=
  provider ← provider_or_default (x_contract x)
    (py_or (py_get (g_state g) "active_provider") (getattr_or latest "provider" PNone));
  state ← _ensure_host_prepared ports (x_task_id x) (x_attempt_id x) (x_contract x) (x_request x)
            (g_lease g) (g_state g) provider false;
  mret {| g_state := state; g_status := g_status g; g_lease := g_lease g; g_attempts := g_attempts g;
          g_execution := g_execution g |}.
Definition lineage_entry (x : attempt_context) (from_provider : pyval) (to : string) (reason : string) : pyval :=
  PDict [("from_provider", PStr (py_str from_provider)); ("to_provider", PStr to);
         ("reason", PStr reason);
         ("admission_binding_hash", match x_binding x with
            | Some ((_ :: _) as b) => py_get b "binding_hash"
            | _ => PNone
            end)].
Definition escalate (x : attempt_context) (g : progress) (latest : object) (order : list string)
    (reason : string) : M progress :=
  next ← _next_ready_provider x order (g_attempts g);
  match next with
  | None | Some EmptyString => fail "no unattempted ready provider remains for escalation"
  | Some provider =>
      lineage ← lift (py_tuple (py_or (py_get (g_state g) "fallback_lineage") (PList [])));
      from ← lift (getattr latest "provider");
      _ ← update x "WORKER_ESCALATING" [("executions", Objects (g_attempts g));
            ("next_provider", Plain (PStr provider)); ("escalation_reason", Plain (PStr reason));
            ("fallback_lineage", Plain (PList (lineage ++ [lineage_entry x from provider reason])))];
      _ ← check_boundary x provider;
      lease ← act LeaseReplaced (replace_failed_lease ports (x_contract x) (g_lease g) (g_state g));
      _ ← check_boundary x provider;
      state ← take_over x lease provider;
      mret {| g_state := state; g_status := "WORKER_RUNNING"; g_lease := lease;
              g_attempts := g_attempts g; g_execution := g_execution g |}
  end.
(** [inl]: the loop is left; [inr]: it goes on. *)
Definition judge (x : attempt_context) (recovered : bool) (g : progress) : M (progress + progress) :=
  latest ← match last (g_attempts g) with
    | Some latest => mret (Some latest)
    | None => call (receipt_from_state ports (g_execution g))
    end;
  match latest with
  | None => fail "worker execution receipt is missing common outcome evidence"
  | Some latest =>
      done ← lift (proves_completion latest);
      if done : bool then
        if recovered then g ← recheck_recovered x g latest; mret (inl g) else mret (inl g)
      else if x_fast_lane x then
        fail_with latest (λ outcome, "Fast Lane provider execution failed with outcome " +:+ outcome
                                       +:+ "; escalation/fallback disabled")
      else
        decision ← match x_policy x with
          | Some order => d ← lift (decide_escalation order (g_attempts g)); mret (Some d)
          | None => mret None
          end;
        let not_complete := λ outcome, "worker execution did not complete: " +:+ outcome in
        match decision, x_policy x with
        | Some d, Some order =>
            if String.eqb (action d) "VERIFY" || String.eqb (action d) "ACCEPT" then mret (inl g)
            else if negb (String.eqb (action d) "ESCALATE") then fail_with latest not_complete
            else match next_provider d with
              | None | Some EmptyString => fail_with latest not_complete
              | Some _ => g ← escalate x g latest order (d_reason d); mret (inr g)
              end
        | _, _ => fail_with latest not_complete
        end
  end.

(** ** The attempt *)
(** One turn of the loop. *)
Definition turn (x : attempt_context) (recovered : bool) (g : progress) : M (progress + progress) :=
  if String.eqb (g_status g) "WORKER_RUNNING" then g ← run_worker x g; mret (inr g)
  else if String.eqb (g_status g) "WORKER_COMPLETED" then judge x recovered g
  else mret (inl g).
Fixpoint drive (fuel : nat) (x : attempt_context) (recovered : bool) (g : progress) : M (option progress) :=
  match fuel with
  | O => mret None
  | S fuel =>
      next ← turn x recovered g;
      match next with
      | inl g => mret (Some g)
      | inr g => drive fuel x recovered g
      end
  end.

Definition lane_values (fast : bool) (contract : object) : result dict :=
  calls ← (if fast then Ok (PInt 1) else getattr contract "maximum_provider_calls");
  Ok [("execution_lane", PStr (if fast then "FAST_LANE" else "STANDARD"));
      ("fast_lane_eligible", PBool fast); ("maximum_provider_calls", calls);
      ("maximum_replans", PInt (if fast then 0 else 3)); ("fallback_disabled", PBool fast)].
Definition read_policy (contract : object) : M (option (list string)) :=
  preferred ← lift (getattr contract "preferred_provider");
  if negb (truthy preferred) then mret None
  else
    fallback ← lift (getattr contract "fallback_provider");
    if truthy fallback then order ← call (escalation_order ports contract); mret (Some order)
    else mret None.
Fixpoint read_receipts (l : list pyval) : M (list object) :=
  match l with
  | [] => mret []
  | raw :: l =>
      receipt ← call (receipt_from_state ports (Plain raw));
      receipts ← read_receipts l;
      mret (match receipt with Some r => r :: receipts | None => receipts end)
  end.

(** What [execute_attempt] does before the lease, once the authorization is settled. *)
Definition establish (x : attempt_context) (state : dict) : M (attempt_context * list object) :=
  binding ← call (provider_binding ports (x_request x) state);
  _ ← call (assert_persisted_dispatch ports state (x_request x) binding None);
  _ ← call (revalidate_task_card ports (x_contract x) (x_request x) state binding);
  policy ← read_policy (x_contract x);
  raws ← lift (py_tuple (py_or (py_get state "executions") (PList [])));
  attempts ← read_receipts raws;
  maximum ← lift (maximum_attempts (x_contract x));
  spent ← lift (py_len (py_or (py_get state "attempts") (PTuple [])));
  if (maximum <? Z.of_nat spent)%Z then fail "ATTEMPT_BUDGET_EXHAUSTED"
  else
    fast ← call (fast_lane_eligible ports (x_contract x) (x_request x));
    lane ← lift (lane_values fast (x_contract x));
    mret ({| x_task_id := x_task_id x; x_attempt_id := x_attempt_id x; x_request := x_request x;
             x_contract := x_contract x; x_deadline := x_deadline x;
             x_fresh_submission := x_fresh_submission x; x_envelope_create := x_envelope_create x;
             x_authorization := x_authorization x; x_binding := binding; x_policy := policy;
             x_fast_lane := fast; x_lane := lane |}, attempts).
(** The rest of [execute_attempt]: lease, validate, loop, finalize. *)
Definition carry_out (fuel : nat) (x : attempt_context) (attempts : list object) (state : dict)
    (status : string) : M (option dict) :=
  leased ← acquire x state status;
  let '(lease, status, state) := leased in
  target ← lift (getattr lease "target_worktree");
  _ ← call (validate_static_contract ports (x_contract x) target);
  finished ← drive fuel x (String.eqb status "WORKER_COMPLETED")
    (started x attempts (py_get state "execution") lease status state);
  match finished with
  | None => mret None
  | Some g =>
      r ← act (Finalized (g_attempts g)) (finalize_completed ports (x_contract x) (x_request x)
            (g_lease g) (g_state g) (g_attempts g) (g_execution g) (g_status g));
      mret (Some r)
  end.
Definition execute_read (fuel : nat) (task_id attempt_id : string) (contract : object) (request : dict) :
    M (option dict) :=
  state ← snapshot ports task_id;
  limit ← call (deadline ports contract (py_get state "submitted_at"));
  _ ← check_wall_time limit;
  let status := py_str (py_get state "status") in
  let fresh := String.eqb status "SUBMITTED" in
  let create := fresh && negb (truthy (py_get state "executions"))
                && is_none (py_get state "execution") in
  gated ← _ensure_effect_authorization ports task_id attempt_id request state create;
  let '(state, authorization) := gated in
  settled ← establish {| x_task_id := task_id; x_attempt_id := attempt_id; x_request := request;
    x_contract := contract; x_deadline := limit; x_fresh_submission := fresh;
    x_envelope_create := create; x_authorization := authorization; x_binding := None;
    x_policy := None; x_fast_lane := false; x_lane := [] |} state;
  let '(x, attempts) := settled in
  carry_out fuel x attempts state status.
Definition execute_attempt (fuel : nat) (task_id attempt_id : string) (contract : option object)
    (request : pyval) : M (option dict) :=
  found ← call (read_snapshot ports task_id);
  match found with
  | None => mret (Some [])
  | Some state =>
      if negb (String.eqb (str_or (py_get state "attempt_id") EmptyString) attempt_id) then mret (Some state)
      else match (if is_none request then py_get state "request" else request) with
      | PDict request =>
          contract ← match contract with
            | Some c => mret c
            | None => call (build_contract ports (PDict request))
            end;
          execute_read fuel task_id attempt_id contract request
      | _ => fail "durable request is missing"
      end
  end.

(** ** Owning and launching an attempt *)
(** A custom runner: host code that gets the contract, the request and an [update]. *)
Definition runner : Type := (string → dict → M unit) → object → pyval → M dict.
Definition state_request (state : dict) : result pyval :=
  match dict_get "request" state with
  | Some v => Ok v
  | None => raise KeyError (repr_str "request")
  end.
Definition run_custom (run : runner) (task_id attempt_id : string) (state : dict) (contract : object)
    (request : pyval) : M dict :=
  d ← lift (as_mapping request "get");
  _ ← _ensure_effect_authorization ports task_id attempt_id d state
        (String.eqb (py_str (py_get state "status")) "SUBMITTED"
         && negb (truthy (py_get state "executions")) && is_none (py_get state "execution"));
  _ ← note CustomRun;
  result ← run (λ status v,
      v ← call (bound_custom_runner_values ports v);
      _ ← _update task_id attempt_id status (plain_values v); mret ()) contract request;
  call (bound_custom_runner_values ports result).
(** The body of the [try]; [None] when the loop ran out of fuel. *)
Definition own (fuel : nat) (custom : option runner) (task_id attempt_id : string) (state : dict) :
    M (option ()) :=
  request ← lift (state_request state);
  contract ← call (build_contract ports request);
  request ← lift (state_request state);
  result ← match custom with
    | None => execute_attempt fuel task_id attempt_id (Some contract) request
    | Some run => r ← run_custom run task_id attempt_id state contract request; mret (Some r)
    end;
  match result with
  | None => mret None
  | Some result =>
      current ← snapshot ports task_id;
      terminal ← lift (in_text_set (py_get current "status") (terminal_statuses ports));
      if terminal : bool then mret (Some ())
      else
        let final := if is_text (py_get result "promotion_status") "PENDING_HUMAN_APPROVAL"
          then "PENDING_HUMAN_APPROVAL" else "CANDIDATE_COMMITTED" in
        _ ← _update task_id attempt_id final (plain_values result);
        mret (Some ())
  end.
Definition run_owned_attempt (fuel : nat) (task_id attempt_id : string) (custom : option runner) :
    M (option ()) :=
  found ← call (read_snapshot ports task_id);
  match found with
  | None => mret (Some ())
  | Some state =>
      let owner := py_get state "worker_pid" in
      if negb (is_text (py_get state "attempt_id") attempt_id) then mret (Some ())
      else if negb (is_none owner || py_eq owner (PInt (getpid ports))) then mret (Some ())
      else catch_prog ExceptionC (own fuel custom task_id attempt_id state) (λ exc,
        _ ← act Terminated (terminate_owned_processes ports task_id (getpid ports));
        _ ← act (FailureFinalized exc) (finalize_failure ports task_id attempt_id exc);
        mret (Some ()))
  end.

Definition worker_facts (pid pgid : pyval) (mode : string) (started_at heartbeat_at : pyval) : dict :=
  [("worker_pid", pid); ("worker_pgid", pgid); ("worker_mode", PStr mode);
   ("worker_started_at", started_at); ("heartbeat_at", heartbeat_at)].
(** [bool(existing_pid and pid_alive(int(existing_pid)))]. *)
Definition owner_alive (v : pyval) : M bool :=
  if truthy v then pid ← lift (py_int v); call (pid_alive ports pid) else mret false.
(** [launch], with a custom runner or with a worker process. *)
Definition launch (task_id attempt_id state_dir source_root : string) (custom : bool) : M pyval :=
  found ← call (read_snapshot ports task_id);
  match found with
  | None => mret PNone
  | Some state =>
      if negb (String.eqb (str_or (py_get state "attempt_id") EmptyString) attempt_id) then
        mret (PDict state)
      else
        alive ← owner_alive (py_get state "worker_pid");
        if alive : bool then mret (PDict state)
        else if custom then
          thread ← call (create_thread ports task_id attempt_id);
          _ ← call (register_thread ports task_id thread);
          t1 ← call (utc_now ports);
          t2 ← call (utc_now ports);
          _ ← mutate ports task_id (worker_facts (PInt (getpid ports)) (PInt (getpgrp ports)) "thread" t1 t2);
          _ ← act ThreadStarted (start_thread ports thread);
          current ← call (read_snapshot ports task_id);
          mret (match current with Some d => PDict d | None => PNone end)
        else
          command ← call (worker_command ports state_dir task_id attempt_id);
          process ← act ProcessStarted (start_process ports command source_root);
          pid ← lift (getattr process "pid");
          t1 ← call (utc_now ports);
          t2 ← call (utc_now ports);
          mutate ports task_id (worker_facts pid (getattr_or process "pgid" PNone) "process" t1 t2)
  end.
End coordinator.
