(* ===== verification/CoordinatorProofs.v ===== *)
(** * The execution coordinator, proved

    What an attempt does whatever its host does: workers run only under an authorization the
    authority has accepted, receipts stay within the aggregate budgets, the loop ends, a
    deterministic receipt is the only thing that replaces a worker, and an owned attempt that
    fails is finalized. *)
From Stdlib Require Import Ascii String SpecFloat.
From S2P Require Import Prelude PyValue Json Digest Contract DateTime Instances.
From S2P Require Import ModelCallResolution EffectAuthorization ExecutionPorts EffectGate ModelCallGate Coordinator.

(** * What the runs of an attempt are *)
Lemma py_int_or v n : py_int v = Ok n → py_int (py_or v (PInt 0)) = Ok n.
Proof.
  unfold py_or. destruct (truthy v) eqn:Et; [done|]. destruct v as [|[]|z|[]|s|l|l|d|]; try done; cbn in *.
  - by apply negb_false_iff, Z.eqb_eq in Et as ->.
  - by apply negb_false_iff, String.eqb_eq in Et as ->.
Qed.
Lemma foldr_add_snoc ns n : foldr Z.add 0%Z (ns ++ [n]) = (foldr Z.add 0%Z ns + n)%Z.
Proof. induction ns as [|m ns IH]; cbn; lia. Qed.
Lemma consumed_snoc field attempts c receipt v n :
  consumed field attempts = Ok c → getattr receipt field = Ok v → py_int (py_or v (PInt 0)) = Ok n →
  consumed field (attempts ++ [receipt]) = Ok (c + Z.max 0 n)%Z.
Proof.
  unfold consumed. intros (ns & Hns & [= <-])%bind_Ok_inv Hv Hn.
  rewrite (mapM_result_Forall2 _ _ (ns ++ [Z.max 0 n])); [cbn; by rewrite foldr_add_snoc|].
  apply Forall2_app; [by apply mapM_result_Ok_inv|]. constructor; [|done]. by rewrite Hv; cbn; rewrite Hn.
Qed.

Section coordinator_specs.
Context `{FloatText} `{Digest} `{DateTimes} {W : Type} (ports : CoordinatorPorts W).

(** What a worker gets: the attempt's authorization and a projection of it for the
    provider, or neither. *)
Definition covered (authorization : option EffectAuthorization) (i : invocation) : Prop :=
  i_effect_authorization i = authorization_to_dict <$> authorization ∧
  match authorization with
  | None => i_tool_projection_manifest i = None
  | Some a => ∃ m, i_tool_projection_manifest i = Some (projection_to_dict m) ∧
                projection_of a (i_provider i) m
  end.
(** The model-call gate only writes the durable state. *)
Section gate_emits.
Context (E : event → Prop) (HE : ∀ d, E (Mutated d)).
Lemma runs_record task attempt verdict provider c :
  runs E (_record_model_call_outcome ports task attempt verdict provider c) any.
Proof. unfold _record_model_call_outcome, snapshot, mutate. emits; apply HE. Qed.
Lemma runs_observe x state structured provider verdict :
  runs E (observe ports x state structured provider verdict) any.
Proof.
  unfold observe, _record_bounded_decision_observation, snapshot_or, snapshot, mutate. emits; apply HE.
Qed.
(** A receipt that replaces the model: complete, and claiming no provider calls. *)
Definition deterministic (receipt : object) : Prop :=
  completed receipt = true ∧ claims_no_calls receipt = Ok true.
Lemma runs_consume verdict task attempt provider :
  runs E (_consume_model_call_verdict ports verdict task attempt provider)
    (λ _ r, ∀ receipt, r.2 = Some receipt → deterministic receipt).
Proof.
  unfold _consume_model_call_verdict. cbv zeta.
  assert (∀ change, runs E (_ ← _record_model_call_outcome ports task attempt verdict provider change;
    state ← snapshot ports task; mret (state, None))
    (λ _ r, ∀ receipt, r.2 = Some receipt → deterministic receipt)) as Hdecline.
  { intros change. eapply runs_bind; [apply runs_record|]. intros ? ? _.
    eapply runs_bind with (Q := any); [unfold snapshot; emits|]. intros ? ? _. by apply runs_ret. }
  destruct (negb _); [eapply runs_bind; [apply runs_record|]; intros ? ? _; by apply runs_ret|].
  eapply runs_bind; [apply runs_record|]. intros ? ? _.
  destruct (deterministic_receipt verdict) as [|kv raw]; [apply Hdecline|].
  eapply runs_bind with (Q := any); [emits|]. intros ? [receipt|] _; [|apply Hdecline].
  destruct (completed receipt) eqn:Hc; cbn [negb]; [|apply Hdecline].
  eapply runs_bind; [apply runs_lift_eq|]. intros ? [] Hfree; [|apply Hdecline].
  eapply runs_bind; [apply runs_record|]. intros ? ? _.
  eapply runs_bind with (Q := any); [unfold snapshot; emits|]. intros ? ? _.
  apply runs_ret. by intros ? [= <-].
Qed.
Lemma runs_consult_gate x state b i :
  runs E (consult_gate ports x state b i)
    (λ _ r, ∀ receipt, r.2 = Some receipt → model_call_gate ports ≠ None ∧ deterministic receipt).
Proof.
  unfold consult_gate. destruct (model_call_gate ports); [|by apply runs_ret].
  eapply runs_bind with (Q := any); [emits|]. intros ? port _.
  eapply runs_bind with (Q := any); [emits|]. intros ? verdict _.
  eapply runs_bind; [apply runs_observe|]. intros ? observed _.
  eapply runs_bind; [apply runs_consume|]. intros ? [state' receipt] Hr. apply runs_ret.
  intros r Er. split; [done|]. by apply Hr.
Qed.
End gate_emits.

(** Both aggregates of the receipts are within the contract's ceilings, and every receipt
    has a readable count of calls. *)
Definition within_budget (contract : object) (maximum : Z) (attempts : list object) : Prop :=
  ∃ ceiling calls tries, maximum_attempts contract = Ok ceiling ∧
    consumed "provider_calls" attempts = Ok calls ∧ (calls ≤ maximum)%Z ∧
    consumed "provider_attempt_count" attempts = Ok tries ∧ (tries ≤ ceiling)%Z.
(** The calls a contract allows: one on the fast lane, its own maximum otherwise. *)
Definition allowed_calls (contract : object) (maximum : Z) : Prop :=
  maximum = 1%Z ∨ getattr contract "maximum_provider_calls" ≫= py_int = Ok maximum.
Definition lawful (authorization : option EffectAuthorization) (contract : object) (e : event) : Prop :=
  match e with
  | Invoked i => covered authorization i
  | Checkpointed status v =>
      if String.eqb status "WORKER_COMPLETED" then
        ∃ attempts maximum, dict_get "executions" v = Some (Objects attempts) ∧
          allowed_calls contract maximum ∧ within_budget contract maximum attempts
      else True
  | _ => True
  end.

Section fixed.
Context (x : attempt_context) (Hs : well_stored ports) (Hreq : py_wf (PDict (x_request x)) = true).
Context (Hwf : ∀ a, x_authorization x = Some a → authorization_wf a).
Context (Hlane : ∀ n, py_int (py_get (x_lane x) "maximum_provider_calls") = Ok n → allowed_calls (x_contract x) n).
Abbreviation E := (lawful (x_authorization x) (x_contract x)).
Definition good (g : progress) : Prop := py_wf (PDict (g_state g)) = true.

Lemma snapshot_good {A} (f : dict → prog (run_state W) A) (Q : list event → A → Prop) :
  (∀ d, py_wf (PDict d) = true → runs E (f d) Q) → runs E (d ← snapshot ports (x_task_id x); f d) Q.
Proof. intros Hf. eapply runs_bind; [by apply runs_snapshot|]. intros l d [-> Hd]. by apply Hf. Qed.
Lemma runs_first_ready providers failures : runs E (first_ready ports x providers failures) any.
Proof.
  revert failures. induction providers as [|p providers IH]; intros failures; [apply runs_raise|].
  cbn [first_ready]. unfold check_boundary, try_preflight, ready, reason_of. emits. apply IH.
Qed.
Lemma runs_next_ready attempted providers : runs E (next_ready ports x attempted providers) any.
Proof.
  induction providers as [|p providers IH]; [by apply runs_ret|]. cbn [next_ready].
  unfold check_boundary, try_preflight, ready. emits; apply IH.
Qed.
Lemma runs_take_over lease provider : runs E (take_over ports x lease provider) (λ _ d, py_wf (PDict d) = true).
Proof.
  unfold take_over, try_preflight, require_ready, ready, reason_of, update, _update, fail.
  do 4 (eapply runs_bind with (Q := any); [emits|intros ? ? _]).
  eapply runs_mono; [by apply runs_snapshot|done|]. by intros ? d _ [_ ?].
Qed.
Lemma runs_acquire state status :
  py_wf (PDict state) = true → runs E (acquire ports x state status) (λ _ r, py_wf (PDict r.2) = true).
Proof.
  intros Hst. unfold acquire. destruct (String.eqb status "SUBMITTED"); [|destruct (String.eqb status "WORKER_ESCALATING")].
  - unfold lease_submitted, _select_initial_provider, provider_or_default, check_dispatch, check_task_card, update, _update.
    do 2 (eapply runs_bind with (Q := any); [emits|intros ? ? _]).
    eapply runs_bind with (Q := any).
    { eapply runs_bind with (Q := any); [emits|intros ? ? _]. eapply runs_bind with (Q := any); [emits|intros ? ? _].
      apply runs_first_ready. }
    intros ? [provider p] _. do 6 (eapply runs_bind with (Q := any); [emits|intros ? ? _]).
    apply snapshot_good. intros d Hd. by apply runs_ret.
  - unfold lease_escalating, check_dispatch, check_task_card, check_boundary, fail.
    destruct (x_fast_lane x); [apply runs_raise|].
    eapply runs_bind with (Q := any); [emits|intros ? ? _]. destruct (String.eqb _ _); [apply runs_raise|].
    do 4 (eapply runs_bind with (Q := any); [emits|intros ? ? _]).
    eapply runs_bind; [apply runs_take_over|]. intros ? d Hd. by apply runs_ret.
  - destruct (String.eqb status "TARGET_LEASED"); [apply runs_raise|].
    eapply runs_bind with (Q := any); [emits|intros ? ? _]. by apply runs_ret.
Qed.

Lemma runs_prepare_invocation g b provider :
  good g → runs E (prepare_invocation ports x g b provider)
    (λ _ r, py_wf (PDict r.1) = true ∧ covered (x_authorization x) r.2 ∧ i_provider r.2 = provider).
Proof.
  intros Hg. unfold prepare_invocation.
  do 9 (eapply runs_bind with (Q := any);
    [unfold check_wall_time, check_boundary, base_text, worker_prompt, time_left, _host_preparation_required, check_boundary, fail; emits
    |intros ? ? _]).
  eapply runs_bind with (Q := λ _ d, py_wf (PDict d) = true).
  { eapply runs_mono; [by apply ensure_prepared_runs| |by intros].
    intros e He. by destruct e. }
  intros ? state Hst. eapply runs_bind with (Q := any); [unfold time_left, fail; emits|intros ? ? _].
  eapply runs_bind.
  { eapply runs_mono; [by apply ensure_projection_runs| |intros ? r _ Hr; exact Hr]. by intros e [d ->]. }
  intros ? [state' projection] [Hst' Hp]. apply runs_ret. cbn [fst snd] in *.
  split_and!; [done| |done]. split; [done|]. cbn [i_tool_projection_manifest i_provider].
  destruct (x_authorization x) as [auth|]; [|by rewrite Hp].
  destruct Hp as (m & -> & Hm). by exists m.
Qed.
(** Where a receipt comes from: the gate, or the worker. *)
Definition obtained (receipt : object) : Prop :=
  deterministic receipt ∨ ∃ i w w', invoke ports i w = (Ok (Some receipt), w').
Lemma runs_obtain_receipt state b i :
  covered (x_authorization x) i →
  runs E (obtain_receipt ports x state b i) (λ _ r, ∀ receipt, r = Some receipt → obtained receipt).
Proof.
  intros Hi. unfold obtain_receipt.
  eapply runs_bind with (Q := λ _ r, ∀ receipt, r.2 = Some receipt → deterministic receipt).
  { eapply runs_mono; [by apply (runs_consult_gate E)|done|]. intros ? r _ Hr receipt Er. by apply Hr. }
  intros ? [[state' verdict] [receipt|]] Hr; cbn [snd] in *.
  { apply runs_ret. intros ? [= <-]. left. by apply Hr. }
  eapply runs_bind with (Q := λ _ r, ∀ receipt, r = Some receipt → ∃ w w', invoke ports i w = (Ok (Some receipt), w')).
  { apply runs_act_law; [exact Hi|]. intros w r w' Hw ? ->. eauto. }
  intros ? receipt Hw. eapply runs_bind with (Q := any).
  - destruct verdict; [|by apply runs_ret]. eapply runs_bind; [by apply runs_record|]. intros ? ? _. unfold snapshot. emits.
  - intros ? ? _. apply runs_ret. intros r ->. right. destruct (Hw r eq_refl) as (w & w' & ?). eauto.
Qed.
(** What [remaining_budget] answers. *)
Definition budget_for (attempts : list object) (b : budget) : Prop :=
  (∃ calls, consumed "provider_calls" attempts = Ok calls ∧ b_calls b = (b_configured b - calls)%Z) ∧
  (∃ tries ceiling, consumed "provider_attempt_count" attempts = Ok tries ∧
     maximum_attempts (x_contract x) = Ok ceiling ∧ b_attempts b = (ceiling - tries)%Z) ∧
  py_int (py_get (x_lane x) "maximum_provider_calls") = Ok (b_configured b) ∧
  (0 < b_calls b)%Z ∧ (0 < b_attempts b)%Z.
Lemma runs_remaining_budget E attempts :
  @runs W _ E (remaining_budget x attempts) (λ _ b, budget_for attempts b).
Proof.
  unfold remaining_budget. eapply runs_bind; [apply runs_lift_eq|]. intros ? calls Hc.
  eapply runs_bind; [apply runs_lift_eq|]. intros ? tries Ht.
  eapply runs_bind; [apply runs_lift_eq|]. intros ? configured Hconf.
  eapply runs_bind; [apply runs_lift_eq|]. intros ? ceiling Hceil. cbn [b_calls b_attempts].
  destruct (Z.leb_spec (configured - calls) 0); [apply runs_raise|].
  destruct (Z.leb_spec (ceiling - tries) 0); [apply runs_raise|].
  apply runs_ret. unfold budget_for. cbn [b_calls b_attempts b_configured]. split_and!; [by exists calls|by exists tries, ceiling|done|lia|lia].
Qed.
(** A receipt within what was left. *)
Definition receipt_fits (b : budget) (receipt : object) : Prop :=
  (∃ v n, getattr receipt "provider_calls" = Ok v ∧ py_int v = Ok n ∧ (0 ≤ n ≤ b_calls b)%Z) ∧
  (∃ v, getattr receipt "provider_attempt_count" = Ok v ∧
     (v = PNone ∨ ∃ n, py_int v = Ok n ∧ (0 ≤ n ≤ b_attempts b)%Z)).
Lemma runs_accept_receipt E b receipt :
  @runs W _ E (accept_receipt b receipt) (λ _ _, receipt_fits b receipt).
Proof.
  unfold accept_receipt. eapply runs_bind; [apply runs_lift_eq|].
  intros ? calls (v & Hv & Hn)%bind_Ok_inv. eapply runs_bind; [apply runs_lift_eq|]. intros ? tries Ht.
  destruct (Z.ltb_spec calls 0); [apply runs_raise|]. destruct (Z.ltb_spec (b_calls b) calls); [apply runs_raise|].
  cbn [orb].
  assert (∃ v n, getattr receipt "provider_calls" = Ok v ∧ py_int v = Ok n ∧ (0 ≤ n ≤ b_calls b)%Z) by eauto with lia.
  assert (@runs W _ E (n ← lift (py_int tries);
    if ((n <? 0) || (b_attempts b <? n))%Z then fail "provider execution receipt exceeded aggregate attempt budget"
    else mret ()) (λ _ _, receipt_fits b receipt)) as Hrest.
  { eapply runs_bind; [apply runs_lift_eq|]. intros ? n Hn'.
    destruct (Z.ltb_spec n 0); [apply runs_raise|]. destruct (Z.ltb_spec (b_attempts b) n); [apply runs_raise|].
    apply runs_ret. split; [done|]. exists tries. split; [done|]. right. exists n. split; [done|lia]. }
  destruct tries; try exact Hrest. apply runs_ret. split; [done|]. exists PNone. auto.
Qed.
Lemma accepted_within b attempts receipt :
  budget_for attempts b → receipt_fits b receipt →
  within_budget (x_contract x) (b_configured b) (attempts ++ [receipt]).
Proof.
  intros ((calls & Hc & Eb) & (tries & ceiling & Ht & Hceil & Et) & _ & _ & Hpos)
    ((v & n & Hv & Hn & Hnb) & (v' & Hv' & Hn')).
  exists ceiling, (calls + n)%Z. assert (∃ m, py_int (py_or v' (PInt 0)) = Ok m ∧ (m ≤ b_attempts b)%Z ∧ (0 ≤ m)%Z) as (m & Hm & ? & ?).
  { destruct Hn' as [->|(m & Hm & ?)]; [exists 0%Z; split; [done|lia]|]. exists m. rewrite (py_int_or _ _ Hm). split_and!; [done|lia|lia]. }
  exists (tries + m)%Z. split_and!; [done| |lia| |lia].
  - rewrite (consumed_snoc _ _ _ _ _ n Hc Hv); [|by apply py_int_or]. by rewrite Z.max_r by lia.
  - rewrite (consumed_snoc _ _ _ _ _ m Ht Hv'); [|done]. by rewrite Z.max_r by lia.
Qed.
(** A turn of a running attempt adds one receipt that fits the budget. *)
Definition worked (g g' : progress) : Prop :=
  good g' ∧ g_status g' = "WORKER_COMPLETED" ∧
  ∃ receipt b, g_attempts g' = g_attempts g ++ [receipt] ∧ budget_for (g_attempts g) b ∧
    receipt_fits b receipt ∧ obtained receipt.
Lemma runs_run_worker g : good g → runs E (run_worker ports x g) (λ _ g', worked g g').
Proof.
  intros Hg. unfold run_worker.
  do 3 (eapply runs_bind with (Q := any);
    [unfold provider_or_default, check_dispatch, check_task_card; emits|intros ? ? _]).
  eapply runs_bind; [apply runs_remaining_budget|]. intros ? b Hb.
  eapply runs_bind; [by apply runs_prepare_invocation|]. intros ? [state i] (Hst & Hi & _).
  eapply runs_bind; [by apply runs_obtain_receipt|]. intros ? receipt Hobt.
  eapply runs_bind with (Q := any); [unfold check_wall_time, fail; emits|intros ? ? _].
  destruct receipt as [receipt|]; [|apply runs_raise].
  eapply runs_bind; [apply runs_accept_receipt|]. intros ? ? Hfit.
  eapply runs_bind with (Q := any); [|intros ? ? _].
  { unfold update, _update. apply runs_act; [|done]. unfold lawful. rewrite String.eqb_refl.
    exists (g_attempts g ++ [receipt]), (b_configured b). split_and!; [done|by apply Hlane, Hb|].
    by apply accepted_within. }
  apply snapshot_good. intros d Hd. apply runs_ret. split_and!; [done|done|].
  exists receipt, b. split_and!; [done|done|done|by apply Hobt].
Qed.
Lemma runs_fail_with {A} latest message (Q : list event → A → Prop) : @runs W A E (fail_with latest message) Q.
Proof.
  unfold fail_with, fail. eapply runs_bind with (Q := any); [emits|intros ? ? _].
  destruct (truthy _); [apply runs_raise|]. eapply runs_bind with (Q := any); [emits|intros ? ? _]. apply runs_raise.
Qed.
Lemma runs_escalate g latest order reason :
  runs E (escalate ports x g latest order reason)
    (λ _ g', good g' ∧ g_status g' = "WORKER_RUNNING" ∧ g_attempts g' = g_attempts g).
Proof.
  unfold escalate, _next_ready_provider, fail, update, _update, check_boundary.
  eapply runs_bind with (Q := any);
    [eapply runs_bind with (Q := any); [emits|intros ? ? _]; apply runs_next_ready|intros ? [[|c p]|] _; try apply runs_raise].
  do 6 (eapply runs_bind with (Q := any); [emits|intros ? ? _]).
  eapply runs_bind; [apply runs_take_over|]. intros ? d Hd. by apply runs_ret.
Qed.
(** The last receipt, when it does not prove completion. *)
Definition unproved (attempts : list object) : Prop :=
  ∃ latest, last attempts = Some latest ∧ proves_completion latest = Ok false.
Definition judged (g : progress) (r : progress + progress) : Prop :=
  match r with
  | inl g' => good g'
  | inr g' => good g' ∧ g_status g' = "WORKER_RUNNING" ∧ g_attempts g' = g_attempts g ∧ unproved (g_attempts g)
  end.
Lemma decide_nil_not_escalate order d :
  decide_escalation order [] = Ok d → action d = "RUN_CHEAP".
Proof. unfold decide_escalation. cbn. destruct order; [done|]. by intros [= <-]. Qed.
Lemma runs_judge recovered g : good g → runs E (judge ports x recovered g) (λ _ r, judged g r).
Proof.
  intros Hg. unfold judge.
  eapply runs_bind with (Q := λ _ l, ∀ o, last (g_attempts g) = Some o → l = Some o).
  { destruct (last (g_attempts g)); [by apply runs_ret|]. by apply runs_call. }
  intros ? latest Hlatest. destruct latest as [latest|]; [|apply runs_raise].
  eapply runs_bind; [apply runs_lift_eq|]. intros ? [] Hdone.
  - destruct recovered; [|by apply runs_ret]. unfold recheck_recovered, provider_or_default.
    eapply runs_bind with (Q := λ _ g', good g'); [|intros ? g' Hg'; by apply runs_ret].
    eapply runs_bind with (Q := any); [emits|intros ? ? _].
    eapply runs_bind with (Q := λ _ d, py_wf (PDict d) = true).
    { eapply runs_mono; [by apply ensure_prepared_runs| |by intros]. intros e He. by destruct e. }
    intros ? d Hd. by apply runs_ret.
  - destruct (x_fast_lane x); [apply runs_fail_with|].
    eapply runs_bind with (Q := λ _ d, ∀ e, d = Some e → ∃ order, decide_escalation order (g_attempts g) = Ok e).
    { destruct (x_policy x) as [order|]; [|by apply runs_ret]. eapply runs_bind; [apply runs_lift_eq|].
      intros ? d Hd. apply runs_ret. intros ? [= <-]. by exists order. }
    intros ? decision Hdec.
    destruct decision as [d|]; [|apply runs_fail_with]. destruct (x_policy x) as [order|]; [|apply runs_fail_with].
    destruct (Hdec d eq_refl) as (order' & Hd).
    destruct (_ || _); [by apply runs_ret|]. destruct (String.eqb_spec (action d) "ESCALATE") as [Ea|]; [|apply runs_fail_with].
    destruct (next_provider d) as [[|c p]|]; try apply runs_fail_with.
    eapply runs_bind; [apply runs_escalate|]. intros ? g' (Hg' & Est & Eat). apply runs_ret.
    split_and!; [done|done|done|]. destruct (last (g_attempts g)) as [o|] eqn:El.
    + exists o. specialize (Hlatest o eq_refl) as [= ->]. done.
    + apply last_None in El. rewrite El in Hd. apply decide_nil_not_escalate in Hd. congruence.
Qed.
Definition turned (g : progress) (r : progress + progress) : Prop :=
  if String.eqb (g_status g) "WORKER_RUNNING" then ∃ g', r = inr g' ∧ worked g g'
  else if String.eqb (g_status g) "WORKER_COMPLETED" then judged g r
  else r = inl g.
Lemma runs_turn recovered g : good g → runs E (turn ports x recovered g) (λ _ r, turned g r).
Proof.
  intros Hg. unfold turn, turned. destruct (String.eqb _ _).
  - eapply runs_bind; [by apply runs_run_worker|]. intros ? g' Hg'. apply runs_ret. eauto.
  - destruct (String.eqb _ _); [by apply runs_judge|by apply runs_ret].
Qed.
Lemma turned_good g g' : turned g (inr g') → good g'.
Proof.
  unfold turned. destruct (String.eqb _ _); [by intros (? & [= <-] & [? _])|].
  destruct (String.eqb _ _); [by intros (? & _)|done].
Qed.
Lemma runs_drive fuel recovered g : good g → runs E (drive ports fuel x recovered g) any.
Proof.
  revert g. induction fuel as [|fuel IH]; intros g Hg; [by apply runs_ret|]. cbn [drive].
  eapply runs_bind; [by apply runs_turn|].
  intros ? [g'|g'] Hg'; [by apply runs_ret|]. by eapply IH, turned_good.
Qed.

(** ** Termination *)
(** A receipt of the worker that does not prove completion costs a provider call. *)
Definition charged : Prop := ∀ i w receipt w', invoke ports i w = (Ok (Some receipt), w') →
  proves_completion receipt = Ok false →
  ∃ v n, getattr receipt "provider_calls" = Ok v ∧ py_int v = Ok n ∧ (1 ≤ n)%Z.
Definition calls_left (attempts : list object) : nat :=
  match consumed "provider_calls" attempts, py_int (py_get (x_lane x) "maximum_provider_calls") with
  | Ok calls, Ok configured => Z.to_nat (configured - calls)
  | _, _ => 0
  end.
Definition needs (fuel : nat) (g : progress) : Prop :=
  if String.eqb (g_status g) "WORKER_RUNNING" then 2 * calls_left (g_attempts g) + 1 ≤ fuel
  else 1 ≤ fuel ∧ (unproved (g_attempts g) → 2 * calls_left (g_attempts g) + 2 ≤ fuel).
Lemma completed_proves receipt : completed receipt = true → proves_completion receipt = Ok true.
Proof.
  unfold completed, proves_completion, getattr, getattr_or. intros [Ho He]%andb_true_iff.
  destruct (dict_get "outcome" receipt); [|done]. cbn in *. rewrite Ho.
  destruct (dict_get "evidence_complete" receipt); [|done]. cbn in *. by rewrite He.
Qed.
Lemma worked_needs fuel g g' : charged → String.eqb (g_status g) "WORKER_RUNNING" = true →
  needs (S fuel) g → worked g g' → needs fuel g'.
Proof.
  intros Hch Est Hn (_ & Est' & receipt & b & Eat & Hb & Hfit & Hobt). unfold needs in *.
  rewrite Est in Hn. rewrite Est', Eat. cbn [String.eqb Ascii.eqb Bool.eqb].
  destruct Hb as ((calls & Hc & Ec) & _ & Hconf & Hpos & _).
  assert (calls_left (g_attempts g) = Z.to_nat (b_calls b)) as Hleft by (unfold calls_left; rewrite Hc, Hconf; f_equal; lia).
  rewrite Hleft in Hn. split; [lia|]. intros (latest & Hl & Hlatest). rewrite last_snoc in Hl. injection Hl as <-.
  destruct Hobt as [[Hdet%completed_proves _]|(i & w & w' & Hi)]; [congruence|].
  destruct (Hch _ _ _ _ Hi Hlatest) as (v & n & Hv & Hn' & Hpos').
  destruct Hfit as [(v' & n' & Hv' & Hn'' & Hbound) _].
  assert (n' = n) as -> by congruence.
  assert (calls_left (g_attempts g ++ [receipt]) = Z.to_nat (b_calls b - n)) as ->; [|lia].
  unfold calls_left. rewrite (consumed_snoc _ _ _ _ _ n Hc Hv); [|by apply py_int_or]. rewrite Hconf. f_equal. lia.
Qed.
Lemma turned_needs fuel g g' : charged → needs (S fuel) g → turned g (inr g') → needs fuel g'.
Proof.
  intros Hch Hn. unfold turned. destruct (String.eqb (g_status g) "WORKER_RUNNING") eqn:Est.
  { intros (? & [= <-] & Hw). by eapply worked_needs. }
  destruct (String.eqb _ "WORKER_COMPLETED"); [|done].
  intros (_ & Est' & Eat & Hun). unfold needs in *. rewrite Est in Hn. rewrite Est', Eat.
  destruct Hn as [_ Hn]. specialize (Hn Hun). cbn [String.eqb Ascii.eqb Bool.eqb]. lia.
Qed.
Lemma runs_drive_enough fuel recovered g :
  charged → good g → needs fuel g → runs E (drive ports fuel x recovered g) (λ _ r, is_Some r).
Proof.
  intros Hch. revert g. induction fuel as [|fuel IH]; intros g Hg Hn.
  { unfold needs in Hn. destruct (String.eqb _ _); lia. }
  cbn [drive]. eapply runs_bind; [by apply runs_turn|].
  intros ? [g'|g'] Hg'; [apply runs_ret; eauto|]. apply IH; [by eapply turned_good|by eapply turned_needs].
Qed.
Lemma consumed_nonneg field attempts c : consumed field attempts = Ok c → (0 ≤ c)%Z.
Proof.
  unfold consumed. intros (ns & Hns%mapM_result_Ok_inv & [= <-])%bind_Ok_inv.
  induction Hns as [|a n l k Ha _ IH]; cbn; [lia|].
  apply bind_Ok_inv in Ha as (v & _ & (m & _ & [= <-])%bind_Ok_inv). lia.
Qed.
Lemma enough_fuel N fuel g : (∀ n, allowed_calls (x_contract x) n → (n ≤ Z.of_nat N)%Z) →
  2 * N + 2 ≤ fuel → needs fuel g.
Proof.
  intros HN Hf. assert (calls_left (g_attempts g) ≤ N).
  { unfold calls_left. destruct (consumed _ _) as [c|] eqn:Ec; [|lia]. apply consumed_nonneg in Ec.
    destruct (py_int _) as [n|]; [|lia]. specialize (HN n (Hlane n eq_refl)). lia. }
  unfold needs. destruct (String.eqb _ _); lia.
Qed.
Lemma runs_carry_out_enough N fuel attempts state status :
  charged → (∀ n, allowed_calls (x_contract x) n → (n ≤ Z.of_nat N)%Z) → 2 * N + 2 ≤ fuel →
  py_wf (PDict state) = true → runs E (carry_out ports fuel x attempts state status) (λ _ r, is_Some r).
Proof.
  intros Hch HN Hf Hst. unfold carry_out. eapply runs_bind; [by apply runs_acquire|].
  intros ? [[lease status'] state'] Hst'. cbn [snd] in Hst'.
  do 2 (eapply runs_bind with (Q := any); [emits|intros ? ? _]).
  eapply runs_bind; [by eapply runs_drive_enough, enough_fuel|]. intros ? ? [g ->].
  eapply runs_bind with (Q := any); [emits|intros ? ? _]. apply runs_ret. eauto.
Qed.
Lemma runs_carry_out fuel attempts state status :
  py_wf (PDict state) = true → runs E (carry_out ports fuel x attempts state status) any.
Proof.
  intros Hst. unfold carry_out. eapply runs_bind; [by apply runs_acquire|].
  intros ? [[lease status'] state'] Hst'. cbn [snd] in Hst'.
  do 2 (eapply runs_bind with (Q := any); [emits|intros ? ? _]).
  eapply runs_bind; [by apply runs_drive|]. intros ? [g|] _; emits.
Qed.
End fixed.

Lemma runs_establish x state :
  runs (λ _, False) (establish ports x state) (λ _ r,
    (x_authorization r.1 = x_authorization x ∧ x_request r.1 = x_request x ∧ x_contract r.1 = x_contract x) ∧
    ∀ n, py_int (py_get (x_lane r.1) "maximum_provider_calls") = Ok n → allowed_calls (x_contract x) n).
Proof.
  unfold establish. do 3 (eapply runs_bind with (Q := any); [emits|intros ? ? _]).
  eapply runs_bind with (Q := any); [unfold read_policy; emits|intros ? ? _].
  eapply runs_bind with (Q := any); [emits|intros ? raws _].
  eapply runs_bind with (Q := any); [|intros ? ? _].
  { clear. induction raws as [|raw raws IH]; [by apply runs_ret|]. cbn [read_receipts].
    eapply runs_bind with (Q := any); [emits|intros ? ? _]. eapply runs_bind with (Q := any); [exact IH|].
    intros ? ? _. by apply runs_ret. }
  do 2 (eapply runs_bind with (Q := any); [emits|intros ? ? _]). destruct (_ <? _)%Z; [apply runs_raise|].
  eapply runs_bind with (Q := any); [emits|intros ? fast _].
  eapply runs_bind; [apply runs_lift_eq|]. intros ? lane Hl. apply runs_ret. split; [done|]. cbn [fst x_lane].
  unfold lane_values in Hl. apply bind_Ok_inv in Hl as (v & Hv & [= <-]). intros n Hn.
  unfold py_get in Hn. cbn in Hn. unfold allowed_calls.
  destruct fast; [injection Hv as <-; injection Hn as <-; by left|]. right. by rewrite Hv.
Qed.

(** The events of an attempt under an authorization: first the gate's, then those of a
    worker that has passed it. *)
Definition gated (contract : object) (request : dict) (attempt : string) (evs : list event) : Prop :=
  ∃ gate rest, evs = gate ++ rest ∧ Forall gate_event gate ∧
    (rest ≠ [] → ∃ q a, requested request attempt q ∧ accepted ports q gate ∧ same_grant a q ∧
                   Forall (lawful (Some a) contract) rest).
Lemma gated_nil contract request attempt : gated contract request attempt [].
Proof. by exists [], []. Qed.

Lemma leaves_execute_read fuel task attempt contract request :
  well_stored ports → py_wf (PDict request) = true →
  require_effect_authority ports || _effect_authorization_requested request [] = true →
  leaves (gated contract request attempt) (execute_read ports fuel task attempt contract request).
Proof.
  intros Hs Hreq Hneed. unfold execute_read.
  eapply leaves_silent; [by apply runs_snapshot|apply gated_nil|]. intros ? state [-> Hst].
  eapply leaves_silent with (Q := any); [emits|apply gated_nil|]. intros ? limit _.
  eapply leaves_silent with (Q := any); [unfold check_wall_time, fail; emits|apply gated_nil|]. intros ? _ _. cbv zeta.
  eapply leaves_then with (E' := λ r, lawful r.2 contract).
  - by apply ensure_authorization_runs.
  - intros lg [state' authorization] (Hst' & _ & Ha). cbn [fst snd] in *.
    assert (∀ a, authorization = Some a → authorization_wf a) as Hwf.
    { intros a ->. by destruct Ha as (q & _ & _ & [? _] & _). }
    eapply runs_bind; [eapply runs_mono; [apply runs_establish|done|intros ? r _ Hr; exact Hr]|].
    intros ? [x attempts] ((Ea & Er & Ec) & Hlane). cbn [fst snd x_authorization x_request x_contract] in *.
    rewrite <- Ea, <- Ec in *. apply runs_carry_out; [done|by rewrite Er|done|done|done].
  - intros lg Hl. exists lg, []. rewrite app_nil_r. split_and!; [done| |done]. eapply Forall_impl; [exact Hl|]. by intros e [? _].
  - intros lg [state' authorization] l' Hl (_ & _ & Ha) Hl'. exists lg, l'. split_and!; [done| |].
    + eapply Forall_impl; [exact Hl|]. by intros e [? _].
    + intros _. cbn [fst snd] in *. destruct authorization as [a|]; [by destruct Ha as (q & ? & ? & ? & _); exists q, a|].
      destruct Ha as (Hno & _). apply orb_false_iff in Hno as [Hno1 Hno2]. rewrite Hno1 in Hneed. cbn [orb] in Hneed.
      unfold _effect_authorization_requested in *. cbn [has_key dict_get] in Hneed. rewrite orb_false_r in Hneed.
      rewrite Hneed in Hno2. by cbn in Hno2.
Qed.

Lemma runs_execute_lawful fuel task attempt contract request :
  well_stored ports → py_wf (PDict request) = true →
  runs (λ e, ∃ a, lawful a contract e) (execute_read ports fuel task attempt contract request) any.
Proof.
  intros Hs Hreq. unfold execute_read.
  eapply runs_bind; [by apply runs_snapshot|]. intros ? state [-> Hst].
  eapply runs_bind with (Q := any); [emits|]. intros ? limit _.
  eapply runs_bind with (Q := any); [unfold check_wall_time, fail; emits|]. intros ? _ _. cbv zeta.
  eapply runs_bind.
  { eapply runs_mono; [by apply ensure_authorization_runs| |intros ? r _ Hr; exact Hr].
    intros e [He _]. exists None. by destruct e. }
  intros ? [state' authorization] (Hst' & _ & Ha). cbn [fst snd] in *.
  eapply runs_bind; [eapply runs_mono; [apply runs_establish|done|intros ? r _ Hr; exact Hr]|].
  intros ? [x attempts] ((Ea & Er & Ec) & Hlane). cbn [fst snd x_authorization x_request x_contract] in *.
  rewrite <- Ec in *. eapply runs_mono; [eapply runs_carry_out; try done| |done].
  - by rewrite Er.
  - intros a. rewrite Ea. intros ->. by destruct Ha as (q & _ & _ & [? _] & _).
  - eauto.
Qed.

(** ** More fuel *)
Lemma bind_more {A B} (m : prog (run_state W) A) (f f' : A → prog (run_state W) (option B)) s :
  (∀ a s, (f a s).1 ≠ Ok None → f a s = f' a s) → ((m ≫= f) s).1 ≠ Ok None → (m ≫= f) s = (m ≫= f') s.
Proof. intros Hf. unfold mbind, prog_bind. destruct (m s) as [[a|e] s']; [apply Hf|done]. Qed.
Lemma drive_more fuel k x recovered g s :
  (drive ports fuel x recovered g s).1 ≠ Ok None →
  drive ports fuel x recovered g s = drive ports (fuel + k) x recovered g s.
Proof.
  revert g s. induction fuel as [|fuel IH]; intros g s; [by intros []|]. cbn [drive Nat.add].
  apply bind_more. intros [g'|g'] s'; [done|]. apply IH.
Qed.
Lemma carry_out_more fuel k x attempts state status s :
  (carry_out ports fuel x attempts state status s).1 ≠ Ok None →
  carry_out ports fuel x attempts state status s = carry_out ports (fuel + k) x attempts state status s.
Proof.
  unfold carry_out. apply bind_more. intros [[lease status'] state'] s1. apply bind_more. intros target s2.
  apply bind_more. intros [] s3. pose proof (drive_more fuel k x (String.eqb status' "WORKER_COMPLETED")
    (started x attempts (py_get state' "execution") lease status' state') s3) as Hd.
  unfold mbind, prog_bind. destruct (drive ports fuel _ _ _ s3) as [[[g|]|e] s4]; cbn in *.
  - rewrite <- Hd by done. done.
  - by intros [].
  - by rewrite <- Hd.
Qed.
Lemma execute_more fuel k task attempt contract request s :
  (execute_attempt ports fuel task attempt contract request s).1 ≠ Ok None →
  execute_attempt ports fuel task attempt contract request s =
  execute_attempt ports (fuel + k) task attempt contract request s.
Proof.
  unfold execute_attempt. apply bind_more. intros [state|] s1; [|done].
  destruct (negb _); [done|]. destruct (if is_none request then _ else _); try done.
  apply bind_more. intros c s2. unfold execute_read. do 3 (apply bind_more; intros ? ?). cbv zeta.
  apply bind_more. intros [state' auth] sa. apply bind_more. intros [x attempts] sb. apply carry_out_more.
Qed.

Lemma runs_execute_read fuel N task attempt contract request :
  well_stored ports → py_wf (PDict request) = true → charged →
  (∀ n, allowed_calls contract n → (n ≤ Z.of_nat N)%Z) → 2 * N + 2 ≤ fuel →
  runs (λ _, True) (execute_read ports fuel task attempt contract request) (λ _ r, is_Some r).
Proof.
  intros Hs Hreq Hch HN Hf. unfold execute_read.
  eapply runs_bind; [by apply runs_snapshot|]. intros ? state [-> Hst].
  eapply runs_bind with (Q := any); [emits|]. intros ? limit _.
  eapply runs_bind with (Q := any); [unfold check_wall_time, fail; emits|]. intros ? _ _. cbv zeta.
  eapply runs_bind; [eapply runs_mono; [by apply ensure_authorization_runs|done|intros ? r _ Hr; exact Hr]|].
  intros ? [state' authorization] (Hst' & _ & Ha). cbn [fst snd] in *.
  eapply runs_bind; [eapply runs_mono; [apply runs_establish|done|intros ? r _ Hr; exact Hr]|].
  intros ? [x attempts] ((Ea & Er & Ec) & Hlane). cbn [fst snd x_authorization x_request x_contract] in *.
  rewrite <- Ec in *. eapply runs_mono; [eapply runs_carry_out_enough; try done|done|done].
  - by rewrite Er.
  - intros a. rewrite Ea. intros ->. by destruct Ha as (q & _ & _ & [? _] & _).
Qed.
End coordinator_specs.

(** * Properties *)
Section properties.
Context `{FloatText} `{Digest} `{DateTimes} {W : Type} (ports : CoordinatorPorts W).


(** C3: no worker without authority.  When the host requires an effect authority or the
    request carries an authorization, the events of an attempt are first those of the gate
    and, only if the gate passed, those of the attempt proper: the authority port has
    accepted the authorization the request carries for this attempt, or there is no port and
    the host requires none (the authorization is then only checked for integrity); the
    durable copy grants the same (or texts collide under SHA-256), and every worker invoked
    gets that copy together with a projection for its provider that stays within it. *)
Theorem worker_needs_authority fuel task attempt contract request s
    (Hs : well_stored ports) (Hreq : py_wf (PDict request) = true)
    (Hneed : require_effect_authority ports || _effect_authorization_requested request [] = true) :
  ∃ gate rest,
    trace (execute_attempt ports fuel task attempt (Some contract) (PDict request) s).2 =
      trace s ++ gate ++ rest ∧
    Forall gate_event gate ∧
    (rest ≠ [] → ∃ q a, requested request attempt q ∧ accepted ports q gate ∧ same_grant a q ∧
       ∀ i, Invoked i ∈ rest → covered (Some a) i).
Proof.
  assert (leaves (gated ports contract request attempt)
    (execute_attempt ports fuel task attempt (Some contract) (PDict request))) as Hl.
  { unfold execute_attempt. eapply leaves_silent with (Q := any); [emits|apply gated_nil|].
    intros ? [state|] _; [|apply leaves_ret, gated_nil]. destruct (negb _); [apply leaves_ret, gated_nil|].
    cbn [is_none]. eapply leaves_silent with (Q := λ _ c, c = contract); [by apply runs_ret|apply gated_nil|].
    intros ? ? ->. by apply leaves_execute_read. }
  destruct (Hl s) as (evs & Ht & gate & rest & -> & Hg & Hr). exists gate, rest. split_and!; [done|done|].
  intros Hne. destruct (Hr Hne) as (q & a & ? & ? & ? & Hall). exists q, a. split_and!; try done.
  intros i Hi. exact (proj1 (Forall_forall _ _) Hall _ Hi).
Qed.

(** C4: the aggregate budgets hold.  Every set of receipts an attempt records as completed
    work claims together at most the provider calls the contract allows (one on the fast
    lane) and at most its ceiling of provider attempts, receipts of earlier runs included. *)
Theorem receipts_within_budget fuel task attempt contract request s
    (Hs : well_stored ports) (Hreq : py_wf (PDict request) = true) :
  ∃ evs,
    trace (execute_attempt ports fuel task attempt (Some contract) (PDict request) s).2 = trace s ++ evs ∧
    ∀ v, Checkpointed "WORKER_COMPLETED" v ∈ evs →
      ∃ attempts maximum, dict_get "executions" v = Some (Objects attempts) ∧
        allowed_calls contract maximum ∧ within_budget contract maximum attempts.
Proof.
  assert (runs (λ e, ∃ a, lawful a contract e)
    (execute_attempt ports fuel task attempt (Some contract) (PDict request)) any) as Hr.
  { unfold execute_attempt. eapply runs_bind with (Q := any); [emits|]. intros ? [state|] _; [|by apply runs_ret].
    destruct (negb _); [by apply runs_ret|]. cbn [is_none].
    eapply runs_bind with (Q := λ _ c, c = contract); [by apply runs_ret|]. intros ? ? ->.
    by apply runs_execute_lawful. }
  destruct (Hr s) as (evs & Ht & Hall & _). exists evs. split; [done|]. intros v Hv.
  destruct (proj1 (Forall_forall _ _) Hall _ Hv) as [a Ha]. exact Ha.
Qed.

(** C5: an attempt ends.  If every receipt of a worker that does not prove completion costs at
    least one provider call, the loop of an attempt ends by itself within two turns per
    allowed call and two more, whatever the store, the leases, the gates and the providers
    answer; and more fuel gives the same result and the same effects. *)
Theorem attempt_terminates fuel N task attempt contract request s
    (Hs : well_stored ports) (Hreq : py_wf (PDict request) = true) (Hch : charged ports)
    (HN : ∀ n, allowed_calls contract n → (n ≤ Z.of_nat N)%Z) (Hfuel : 2 * N + 2 ≤ fuel) :
  (execute_attempt ports fuel task attempt (Some contract) (PDict request) s).1 ≠ Ok None ∧
  ∀ k, execute_attempt ports (fuel + k) task attempt (Some contract) (PDict request) s =
       execute_attempt ports fuel task attempt (Some contract) (PDict request) s.
Proof.
  assert ((execute_attempt ports fuel task attempt (Some contract) (PDict request) s).1 ≠ Ok None) as Hne.
  { assert (runs (λ _, True) (execute_attempt ports fuel task attempt (Some contract) (PDict request))
      (λ _ r, is_Some r)) as Hr.
    { unfold execute_attempt. eapply runs_bind with (Q := any); [emits|].
      intros ? [state|] _; [|apply runs_ret; eauto]. destruct (negb _); [apply runs_ret; eauto|]. cbn [is_none].
      eapply runs_bind with (Q := λ _ c, c = contract); [by apply runs_ret|]. intros ? ? ->.
      by eapply runs_execute_read. }
    destruct (Hr s) as (evs & _ & _ & HQ). intros E. destruct (HQ None E) as [? [=]]. }
  split; [done|]. intros k. by rewrite <- execute_more.
Qed.

(** ** Models *)
Definition is_invoked (e : event) : bool := match e with Invoked _ => true | _ => false end.

(** C13: only a deterministic receipt replaces a model.  Obtaining the receipt of a turn
    invokes the worker at most once, with the invocation prepared; when it is not invoked
    and there is a result, that is a receipt found through the model-call gate whose
    execution is complete with complete evidence and which claims no provider calls and no
    provider attempts. *)
Theorem model_replaced_by_deterministic_receipt x state b i s :
  ∃ evs, trace (obtain_receipt ports x state b i s).2 = trace s ++ evs ∧
    (List.filter is_invoked evs = [Invoked i] ∨
     List.filter is_invoked evs = [] ∧ ∀ r, (obtain_receipt ports x state b i s).1 = Ok r →
       model_call_gate ports ≠ None ∧ ∃ receipt, r = Some receipt ∧ deterministic receipt).
Proof.
  assert (runs (λ e, is_invoked e = false) (consult_gate ports x state b i)
    (λ _ r, ∀ receipt, r.2 = Some receipt → model_call_gate ports ≠ None ∧ deterministic receipt)) as Hgate.
  { by apply runs_consult_gate. }
  destruct (Hgate s) as (evs & Ht & Hno%filter_none & HQ). unfold obtain_receipt. rewrite bind_run.
  destruct (consult_gate ports x state b i s) as [[[[state' verdict] [receipt|]]|e] s1]; cbn [fst snd] in *.
  - exists evs. split; [done|]. right. split; [done|]. intros ? [= <-].
    destruct (HQ _ eq_refl receipt eq_refl). eauto.
  - match goal with |- context [trace (?m s1).2] =>
      assert (leaves (λ l, List.filter is_invoked l = [Invoked i]) m) as Hone end.
    { apply (leaves_one is_invoked (Invoked i) (invoke ports i) _ any). intros receipt.
      eapply runs_bind with (Q := any); [|intros ? ? _; by apply runs_ret].
      destruct verdict; [|by apply runs_ret]. eapply runs_bind; [by apply runs_record|]. intros ? ? _.
      unfold snapshot. emits. }
    destruct (Hone s1) as (evs' & Ht' & Hf). exists (evs ++ evs').
    split; [by rewrite Ht', Ht, app_assoc|]. left. by rewrite List.filter_app, Hno.
  - exists evs. split; [done|]. right. by split.
Qed.

(** An owned attempt that fails is finalized, unless terminating its processes fails too.  When
    the body of an owned attempt raises an [Exception], the owner terminates the processes it
    owns and then hands that very exception to finalization, and nothing is raised further when
    both succeed; when the termination raises, that exception escapes and the failure is not
    finalized.  A [BaseException] passes through untouched. *)
Theorem owned_failure_finalized fuel task attempt custom state s s1 s2 e
    (Hread : read_snapshot ports task (host s) = (Ok (Some state), s1))
    (Hid : is_text (py_get state "attempt_id") attempt = true)
    (Hown : (is_none (py_get state "worker_pid") || py_eq (py_get state "worker_pid") (PInt (getpid ports))) = true)
    (Hbody : own ports fuel custom task attempt state {| host := s1; trace := trace s |} = (Err e, s2)) :
  let run := run_owned_attempt ports fuel task attempt custom s in
  if exn_is ExceptionC e then
    match terminate_owned_processes ports task (getpid ports) (host s2) with
    | (Ok _, w) =>
        trace run.2 = trace s2 ++ [Terminated; FailureFinalized e] ∧
        ((finalize_failure ports task attempt e w).1 = Ok () → run.1 = Ok (Some ()))
    | (Err e', _) => trace run.2 = trace s2 ++ [Terminated] ∧ run.1 = Err e'
    end
  else run = (Err e, s2).
Proof.
  cbv zeta. unfold run_owned_attempt, mbind, prog_bind, call. rewrite Hread. cbn -[own]. rewrite Hid. cbn [negb].
  rewrite Hown. cbn [negb]. unfold catch_prog. rewrite Hbody. destruct (exn_is ExceptionC e); [|done].
  unfold act. destruct (terminate_owned_processes _ _ _ _) as [[[]|e'] w]; cbn; [|done].
  destruct (finalize_failure _ _ _ _ w) as [[[]|e''] w']; cbn; rewrite <- app_assoc; (split; [done|]); [done|by intros [=]].
Qed.

(** One owner.  [launch] starts something at most once, and nothing at all unless the
    durable state is of the attempt asked for and its recorded owner, if any, is not alive. *)
Theorem launch_starts_one_owner task attempt state_dir root custom s :
  let starts e := match e with ThreadStarted | ProcessStarted => true | _ => false end in
  ∃ evs, trace (launch ports task attempt state_dir root custom s).2 = trace s ++ evs ∧
    length (List.filter starts evs) ≤ 1 ∧
    (List.filter starts evs ≠ [] → ∃ state w w', read_snapshot ports task (host s) = (Ok (Some state), w) ∧
      str_or (py_get state "attempt_id") EmptyString = attempt ∧
      (truthy (py_get state "worker_pid") = true →
         ∃ pid, py_int (py_get state "worker_pid") = Ok pid ∧ pid_alive ports pid w = (Ok false, w'))).
Proof.
  cbv zeta. set (starts := λ e : event, match e with ThreadStarted | ProcessStarted => true | _ => false end).
  unfold launch. unfold mbind at 1, prog_bind at 1. unfold call at 1.
  destruct (read_snapshot ports task (host s)) as [[[state|]|e] w] eqn:Er;
    try (exists []; rewrite app_nil_r; split_and!; [done|cbn; lia|done]).
  cbn [fst snd]. destruct (String.eqb_spec (str_or (py_get state "attempt_id") EmptyString) attempt) as [Ea|];
    [|exists []; rewrite app_nil_r; split_and!; [done|cbn; lia|done]]. cbn [negb].
  set (s1 := {| host := w; trace := trace s |}).
  assert (∃ r w', owner_alive ports (py_get state "worker_pid") s1 = (r, {| host := w'; trace := trace s |}) ∧
    (r = Ok false → truthy (py_get state "worker_pid") = true →
      ∃ pid, py_int (py_get state "worker_pid") = Ok pid ∧ pid_alive ports pid w = (Ok false, w'))) as (r & w' & Eo & Hr).
  { unfold owner_alive. destruct (truthy _); [|by exists (Ok false), w].
    unfold mbind, prog_bind, lift, call. destruct (py_int _) as [pid|e]; [|by exists (Err e), w].
    cbn. destruct (pid_alive ports pid w) as [r w'] eqn:Ep. exists r, w'. split; [done|]. intros -> _. eauto. }
  unfold mbind at 1, prog_bind at 1. rewrite Eo. destruct r as [[]|e];
    try (exists []; rewrite app_nil_r; split_and!; [done|cbn; lia|done]).
  match goal with |- context [trace (?m {| host := w'; trace := trace s |}).2] =>
    assert (leaves (marked starts 1) m) as Hlen end.
  { destruct custom.
    - do 4 (eapply leaves_quiet with (Q := any); [emits|intros ? ? _]).
      eapply leaves_quiet with (Q := any); [unfold mutate; emits; done|intros ? ? _].
      apply leaves_marked with (Q := any). intros ?. emits; done.
    - eapply leaves_quiet with (Q := any); [emits|intros ? ? _].
      apply leaves_marked with (Q := any). intros ?. unfold mutate. emits; done. }
  destruct (Hlen {| host := w'; trace := trace s |}) as (evs & Ht & Hl). exists evs. split_and!; [exact Ht|exact Hl|].
  intros _. exists state, w, w'. split_and!; [done|done|]. by apply Hr.
Qed.
End properties.

(** * Witnesses *)
#[local] Existing Instance Sha256_Digest.
#[local] Existing Instance Dyadic_FloatText.
#[local] Existing Instance Decimal_DateTimes.

(** A host whose world is the durable state of its one task. *)
Module Witness.
Definition ok {A} (a : A) : prog dict A := λ w, (Ok a, w).
Definition plain (v : values) : dict :=
  omap (λ kv, match kv.2 with Plain x => Some (kv.1, x) | _ => None end) v.
Definition contract : object := [
  ("preferred_provider", PStr "codex"); ("fallback_provider", PStr "strong");
  ("maximum_attempts_per_task", PInt 3); ("maximum_provider_calls", PInt 2)].
Definition receipt (provider outcome : string) (calls : Z) (complete : bool) : object := [
  ("provider", PStr provider); ("outcome", PStr outcome); ("evidence_complete", PBool complete);
  ("provider_calls", PInt calls); ("provider_attempt_count", PInt calls); ("failure_reason", PNone)].
(** The cheap worker leaves its work incomplete, the strong one completes it. *)
Definition work (i : invocation) : prog dict (option object) :=
  ok (Some (if String.eqb (i_provider i) "strong" then receipt "strong" EXECUTION_COMPLETED 1 true
            else receipt "codex" INCOMPLETE 1 false)).
Definition ports (worker : invocation → prog dict (option object)) : CoordinatorPorts dict := {|
  read_snapshot _ := λ w, (Ok (if py_wf (PDict w) then Some w else None), w);
  checkpoint _ status v _ := λ w, (Ok PNone, dict_merge w (("status", PStr status) :: plain v));
  mutate_metadata _ d := λ w, (Ok PNone, dict_merge w d);
  assert_persisted_dispatch _ _ _ _ := ok (); revalidate_task_card _ _ _ _ := ok ();
  build_contract _ := ok contract; base_prompt := None; prompt _ := ok (PStr "fix it");
  deadline _ _ := ok None; fast_lane_eligible _ _ := ok false;
  provider_order _ := ok ["codex"; "strong"]; escalation_order _ := ok ["codex"; "strong"];
  provider_binding _ _ := ok None; revalidate_provider_boundary _ _ _ _ _ := ok ();
  receipt_from_state _ := ok None; validate_static_contract _ _ := ok (); model_copy := None;
  host_preparation_required := None; materialize_worker_context := None;
  preflight _ := ok [("ready", PBool true)]; invoke := worker;
  initial_lease _ _ := ok [("target_worktree", PStr "/t")];
  lease_from_state _ := ok [("target_worktree", PStr "/t")];
  replace_failed_lease _ l _ := ok l; worker_command _ _ _ := ok ["worker"];
  create_thread _ _ := ok []; register_thread _ _ := ok (); start_thread _ := ok ();
  start_process _ _ := ok [("pid", PInt 7)]; terminate_owned_processes _ _ := ok ();
  pid_alive _ := ok false; utc_now := ok (PStr "now"); terminal_statuses := ["CANDIDATE_COMMITTED"];
  bound_custom_runner_values d := ok d;
  finalize_completed _ _ _ _ _ _ _ := ok [("promotion_status", PStr "PENDING_HUMAN_APPROVAL")];
  finalize_failure _ _ _ := ok (); preparation := None; model_call_gate := None;
  effect_authority := Some (λ _, ok (PBool true)); require_effect_authority := false;
  clock w := (float_of_int 0, w); perf_counter w := (float_of_int 0, w);
  utc_clock w := (EffectAuthorization.Witness.now, w); getpid := 5; getpgrp := 5 |}.
Definition projection_request : pyval :=
  PDict [("backend_id", PStr "backend"); ("selected_tools", EffectAuthorization.Witness.tools);
         ("selected_effects", EffectAuthorization.Witness.wanted)].
Definition request : dict := [
  ("operation_id", PStr "op-1"); ("repository", PStr "repo");
  ("effect_authorization", PDict (authorization_to_dict EffectAuthorization.Witness.authorization));
  ("tool_projection_requests", PDict [("codex", projection_request); ("strong", projection_request)])].
Definition submitted : dict :=
  [("attempt_id", PStr "at-1"); ("status", PStr "SUBMITTED"); ("request", PDict request)].
Definition start (state : dict) : run_state dict := {| host := state; trace := [] |}.
Definition run (fuel : nat) (request : dict) : result (option dict) * run_state dict :=
  execute_attempt (ports work) fuel "t-1" "at-1" (Some contract) (PDict request) (start submitted).
(** The providers of the workers invoked, in order. *)
Definition providers (evs : list event) : list string :=
  omap (λ e, match e with Invoked i => Some (i_provider i) | _ => None end) evs.
End Witness.
Import Witness.

Lemma ports_well_stored worker : well_stored (ports worker).
Proof.
  intros task w d w' E.
  change ((Ok (if py_wf (PDict w) then Some w else None), w) = (Ok (Some d), w')) in E.
  destruct (py_wf (PDict w)) eqn:Hw; [|discriminate]. by injection E as <- _.
Qed.
Lemma work_charged : charged (ports work).
Proof.
  intros i w receipt w' E Hp. unfold work, ok, invoke in E. cbn [ports] in E.
  destruct (String.eqb (i_provider i) "strong"); injection E as <- _; [vm_compute in Hp; discriminate|].
  by exists (PInt 1), 1%Z.
Qed.
Lemma contract_calls n : allowed_calls contract n → (n ≤ Z.of_nat 2)%Z.
Proof. intros [->|[= <-]]; lia. Qed.

(** Worker receipts that name another provider and report no calls keep the loop going for
    ever: 400 turns are not enough for a contract of two calls. *)
Example uncharged_receipts_run_on :
  (execute_attempt (ports (λ _, ok (Some (receipt "other" INCOMPLETE 0 false)))) 400 "t-1" "at-1"
     (Some contract) (PDict []) (start submitted)).1 = Ok None.
Proof. vm_compute. reflexivity. Qed.

(** The cheap worker runs, then the strong one, each under the authorization. *)
Lemma worker_needs_authority_witness :
  let evs := trace (run 6 request).2 in
  (run 6 request).1 = Ok (Some [("promotion_status", PStr "PENDING_HUMAN_APPROVAL")]) ∧
  providers evs = ["codex"; "strong"] ∧
  ∃ gate rest, evs = gate ++ rest ∧ Forall gate_event gate ∧
    (rest ≠ [] → ∃ q a, requested request "at-1" q ∧ accepted (ports work) q gate ∧ same_grant a q ∧
       ∀ i, Invoked i ∈ rest → covered (Some a) i).
Proof.
  cbv zeta. split_and!; [vm_compute; reflexivity..|].
  exact (worker_needs_authority (ports work) 6 "t-1" "at-1" contract request (start submitted)
    (ports_well_stored work) eq_refl eq_refl).
Defined.
Lemma receipts_within_budget_witness :
  py_wf (PDict request) = true ∧ well_stored (ports work) ∧
  ∃ evs, trace (run 6 request).2 = [] ++ evs ∧
    ∀ v, Checkpointed "WORKER_COMPLETED" v ∈ evs →
      ∃ attempts maximum, dict_get "executions" v = Some (Objects attempts) ∧
        allowed_calls contract maximum ∧ within_budget contract maximum attempts.
Proof.
  split_and!; [vm_compute; reflexivity|apply ports_well_stored|].
  exact (receipts_within_budget (ports work) 6 "t-1" "at-1" contract request (start submitted)
    (ports_well_stored work) eq_refl).
Defined.
Lemma attempt_terminates_witness :
  (run 6 request).1 ≠ Ok None ∧ ∀ k, run (6 + k) request = run 6 request.
Proof.
  exact (attempt_terminates (ports work) 6 2 "t-1" "at-1" contract request (start submitted)
    (ports_well_stored work) eq_refl work_charged contract_calls (le_n 6)).
Defined.
(** An owned attempt whose receipts cannot be counted: the loop raises. *)
Definition uncountable : CoordinatorPorts dict := ports (λ _, ok (Some [])).
Definition owned : dict := dict_set "worker_pid" (PInt 5) submitted.
Lemma owned_failure_finalized_witness :
  let e := Exn AttributeError "object has no attribute 'provider_calls'" in
  (own uncountable 6 None "t-1" "at-1" owned (start owned)).1 = Err e ∧
  let run := run_owned_attempt uncountable 6 "t-1" "at-1" None (start owned) in
  trace run.2 = trace (own uncountable 6 None "t-1" "at-1" owned (start owned)).2 ++ [Terminated; FailureFinalized e]
  ∧ run.1 = Ok (Some ()).
Proof.
  cbv zeta. split; [vm_compute; reflexivity|].
  pose proof (owned_failure_finalized uncountable 6 "t-1" "at-1" None owned (start owned) owned
    (own uncountable 6 None "t-1" "at-1" owned (start owned)).2
    (Exn AttributeError "object has no attribute 'provider_calls'")
    ltac:(vm_compute; reflexivity) ltac:(vm_compute; reflexivity) ltac:(vm_compute; reflexivity)
    ltac:(vm_compute; reflexivity)) as [Ht Hr].
  split; [exact Ht|]. apply Hr. vm_compute. reflexivity.
Defined.

(** The state of a running attempt, and the same with another authorization stored. *)
Definition held (a : dict) : dict := [
  ("effect_authorization", PDict a);
  ("effect_authorization_hash", PStr (authorization_hash EffectAuthorization.Witness.authorization))].
