(* ===== verification/Continuity.v ===== *)
(** * Task continuity ([src/src/nexus_runtime/task_context/continuity.py])

    What an attempt has learnt, as a projection of its hash-chained events: facts,
    hypotheses, rejected strategies, risks, evidence.  A snapshot of a prefix of the stream
    is resumed with the rest of it; the events are decoded from the attempt records of the
    event log; a snapshot is joined with the durable state of the task when a session is
    rehydrated.

    Events and snapshots are frozen dataclasses: a record here may hold any hash, as an
    object tampered with in memory or built by other code could, and only [new_event] and
    [seal_snapshot] compute them.  What the projection accumulates ([knowledge]) is a record
    of its own inside the snapshot. *)
From Stdlib Require Import String.
From S2P Require Import Prelude PyValue Json Digest Contract Instances.

Definition MAX_CONTINUITY_COLLECTION_ITEMS : nat := 64.
Definition SCHEMA := "nexus.task_continuity.v1".
Definition REHYDRATION_PROJECTION_SCHEMA := "nexus.task_rehydration_projection.v1".
Definition EVENT_TYPES : list string := [
  "PLAN_FORMED"; "OBSERVATION_RECORDED"; "HYPOTHESIS_REVISED"; "STRATEGY_CHANGED";
  "VERIFICATION_RESULT"; "ATTEMPT_REJECTED"; "ESCALATED"; "COMPLETED"].
Definition REJECTED_STATES : list string := ["ATTEMPT_REJECTED"; "REJECTED"].

(** ** Events *)
Record ContinuityEvent : Type := {
  task_id : string; attempt_id : string; sequence : Z; event_type : string; summary : string;
  action : string; observation : string; rationale : string; failure_reason : string;
  strategy_delta : string;
  do_not_repeat : list string; evidence_refs : list string; unresolved_risks : list string;
  unknowns : list string;
  next_action : string; claim_ceiling : string; source_revision : string;
  contract_revision : string; previous_hash : string; event_hash : string; schema : string
}.
(** The arguments of the constructor. *)
Record event_args : Type := {
  a_task_id : pyval; a_attempt_id : pyval; a_sequence : pyval; a_event_type : pyval;
  a_summary : pyval; a_action : pyval; a_observation : pyval; a_rationale : pyval;
  a_failure_reason : pyval; a_strategy_delta : pyval;
  a_do_not_repeat : pyval; a_evidence_refs : pyval; a_unresolved_risks : pyval;
  a_unknowns : pyval;
  a_next_action : pyval; a_claim_ceiling : pyval; a_source_revision : pyval;
  a_contract_revision : pyval; a_previous_hash : pyval; a_schema : pyval
}.

(** [_clean_text]: the constructor only uses that it does not raise. *)
Definition _clean_text (v : pyval) (name : string) (required : bool) : result string :=
  match v with
  | PStr s =>
      if required && blank s then raise ValueError (name +:+ " must be a non-empty string")
      else Ok (strip s)
  | _ => raise ValueError (if required then name +:+ " must be a non-empty string"
                           else name +:+ " must be a string")
  end.
Definition clean_text (required : bool) (name : string) (v : pyval) : result string :=
  _ ← _clean_text v name required; Ok (text_of v).
Definition nonblank (v : pyval) : bool := match v with PStr s => negb (blank s) | _ => false end.
Definition positive_int (v : pyval) : result Z :=
  match v with
  | PInt n => if (n <? 1)%Z then raise ValueError "sequence must be a positive integer" else Ok n
  | _ => raise ValueError "sequence must be a positive integer"
  end.
(** A bounded tuple of non-empty strings. *)
Definition text_tuple (name : string) (v : pyval) : result (list string) :=
  match v with
  | PTuple l =>
      if negb (forallb nonblank l) then raise ValueError (name +:+ " must contain non-empty strings")
      else if MAX_CONTINUITY_COLLECTION_ITEMS <? length l then
        raise ValueError (name +:+ " exceeds bounded size 64")
      else Ok (map text_of l)
  | _ => raise ValueError (name +:+ " must contain non-empty strings")
  end.

Definition text_tuple_value (l : list string) : pyval := PTuple (map PStr l).
(** The fields other than [event_hash]. *)
Definition event_payload (e : ContinuityEvent) : dict := [
  ("task_id", PStr (task_id e)); ("attempt_id", PStr (attempt_id e)); ("sequence", PInt (sequence e));
  ("event_type", PStr (event_type e)); ("summary", PStr (summary e)); ("action", PStr (action e));
  ("observation", PStr (observation e)); ("rationale", PStr (rationale e));
  ("failure_reason", PStr (failure_reason e)); ("strategy_delta", PStr (strategy_delta e));
  ("do_not_repeat", text_tuple_value (do_not_repeat e));
  ("evidence_refs", text_tuple_value (evidence_refs e));
  ("unresolved_risks", text_tuple_value (unresolved_risks e));
  ("unknowns", text_tuple_value (unknowns e)); ("next_action", PStr (next_action e));
  ("claim_ceiling", PStr (claim_ceiling e)); ("source_revision", PStr (source_revision e));
  ("contract_revision", PStr (contract_revision e)); ("previous_hash", PStr (previous_hash e));
  ("schema", PStr (schema e))].
Definition event_to_dict (e : ContinuityEvent) : dict := [
  ("task_id", PStr (task_id e)); ("attempt_id", PStr (attempt_id e)); ("sequence", PInt (sequence e));
  ("event_type", PStr (event_type e)); ("summary", PStr (summary e)); ("action", PStr (action e));
  ("observation", PStr (observation e)); ("rationale", PStr (rationale e));
  ("failure_reason", PStr (failure_reason e)); ("strategy_delta", PStr (strategy_delta e));
  ("do_not_repeat", str_list (do_not_repeat e)); ("evidence_refs", str_list (evidence_refs e));
  ("unresolved_risks", str_list (unresolved_risks e)); ("unknowns", str_list (unknowns e));
  ("next_action", PStr (next_action e)); ("claim_ceiling", PStr (claim_ceiling e));
  ("source_revision", PStr (source_revision e)); ("contract_revision", PStr (contract_revision e));
  ("previous_hash", PStr (previous_hash e)); ("event_hash", PStr (event_hash e));
  ("schema", PStr (schema e))].
Definition with_hash (e : ContinuityEvent) (h : string) : ContinuityEvent := {|
  task_id := task_id e; attempt_id := attempt_id e; sequence := sequence e; event_type := event_type e;
  summary := summary e; action := action e; observation := observation e; rationale := rationale e;
  failure_reason := failure_reason e; strategy_delta := strategy_delta e;
  do_not_repeat := do_not_repeat e; evidence_refs := evidence_refs e;
  unresolved_risks := unresolved_risks e; unknowns := unknowns e; next_action := next_action e;
  claim_ceiling := claim_ceiling e; source_revision := source_revision e;
  contract_revision := contract_revision e; previous_hash := previous_hash e; event_hash := h;
  schema := schema e |}.

Section events.
Context `{FloatText} `{Digest}.

Definition _digest (v : pyval) : result string := json_sha256 true true v.

(** [ContinuityEvent(...)]. *)
Definition new_event (a : event_args) : result ContinuityEvent :=
  _ ← raise_if (negb (is_text (a_schema a) SCHEMA)) ValueError "unsupported continuity schema";
  task_id ← clean_text true "task_id" (a_task_id a);
  attempt_id ← clean_text true "attempt_id" (a_attempt_id a);
  sequence ← positive_int (a_sequence a);
  known ← in_text_set (a_event_type a) EVENT_TYPES;
  _ ← raise_if (negb known) ValueError "unsupported continuity event type";
  summary ← clean_text false "summary" (a_summary a);
  action ← clean_text false "action" (a_action a);
  observation ← clean_text false "observation" (a_observation a);
  rationale ← clean_text false "rationale" (a_rationale a);
  failure_reason ← clean_text false "failure_reason" (a_failure_reason a);
  strategy_delta ← clean_text false "strategy_delta" (a_strategy_delta a);
  next_action ← clean_text false "next_action" (a_next_action a);
  claim_ceiling ← clean_text false "claim_ceiling" (a_claim_ceiling a);
  source_revision ← clean_text true "source_revision" (a_source_revision a);
  contract_revision ← clean_text true "contract_revision" (a_contract_revision a);
  previous_hash ← clean_text false "previous_hash" (a_previous_hash a);
  do_not_repeat ← text_tuple "do_not_repeat" (a_do_not_repeat a);
  evidence_refs ← text_tuple "evidence_refs" (a_evidence_refs a);
  unresolved_risks ← text_tuple "unresolved_risks" (a_unresolved_risks a);
  unknowns ← text_tuple "unknowns" (a_unknowns a);
  let e := {|
    task_id := task_id; attempt_id := attempt_id; sequence := sequence;
    event_type := text_of (a_event_type a); summary := summary; action := action;
    observation := observation; rationale := rationale; failure_reason := failure_reason;
    strategy_delta := strategy_delta; do_not_repeat := do_not_repeat;
    evidence_refs := evidence_refs; unresolved_risks := unresolved_risks; unknowns := unknowns;
    next_action := next_action; claim_ceiling := claim_ceiling;
    source_revision := source_revision; contract_revision := contract_revision;
    previous_hash := previous_hash; event_hash := EmptyString; schema := SCHEMA |} in
  h ← _digest (PDict (event_payload e));
  Ok (with_hash e h).

(** ** The chain *)
Fixpoint check_chain (events : list ContinuityEvent) (task attempt : string) (expected : Z)
    (previous : string) : result unit :=
  match events with
  | [] => Ok ()
  | e :: events =>
      _ ← raise_if (negb (String.eqb (task_id e) task) || negb (String.eqb (attempt_id e) attempt))
            ValueError "foreign task or attempt event";
      _ ← raise_if (negb (sequence e =? expected)%Z) ValueError "continuity sequence gap";
      _ ← raise_if (negb (String.eqb (previous_hash e) previous)) ValueError "continuity hash-chain mismatch";
      h ← _digest (PDict (dict_del "event_hash" (event_to_dict e)));
      _ ← raise_if (negb (String.eqb (event_hash e) h)) ValueError "continuity event tampered";
      check_chain events task attempt (expected + 1) (event_hash e)
  end.
Definition _validate_chain (events : list ContinuityEvent) (task attempt : string) (start : Z)
    (previous : string) : result unit :=
  match events with
  | [] => raise ValueError "continuity event stream is empty"
  | _ => check_chain events task attempt start previous
  end.
End events.

(** ** Projection *)
(** What the loops of [project] and [_project_tail] accumulate. *)
Record knowledge : Type := {
  verified_facts : list string; active_hypotheses : list string;
  rejected_hypotheses : list string; strategy_changes : list string;
  applied_changes : list string; failed_attempts : list string;
  rejected_strategies : list string; known_risks : list string; known_unknowns : list string;
  known_evidence : list string;
  k_next_action : string; k_claim_ceiling : string; k_failure_reason : string
}.
Definition no_knowledge : knowledge := {|
  verified_facts := []; active_hypotheses := []; rejected_hypotheses := []; strategy_changes := [];
  applied_changes := []; failed_attempts := []; rejected_strategies := []; known_risks := [];
  known_unknowns := []; known_evidence := []; k_next_action := EmptyString;
  k_claim_ceiling := EmptyString; k_failure_reason := EmptyString |}.
(** [if b: l.append(s)] and [a or b] on strings. *)
Definition append_if (b : bool) (s : string) (l : list string) : list string := if b then l ++ [s] else l.
Definition nonempty (s : string) : bool := negb (String.eqb s EmptyString).
Definition or_text (a b : string) : string := if nonempty a then a else b.
(** The body of the loop. *)
Definition absorb (k : knowledge) (e : ContinuityEvent) : knowledge :=
  let rejection := String.eqb (event_type e) "ATTEMPT_REJECTED" in
  let hypothesis := text_in (event_type e) ["PLAN_FORMED"; "HYPOTHESIS_REVISED"] in
  {| verified_facts := append_if (nonempty (observation e)) (observation e) (verified_facts k);
     active_hypotheses := append_if (hypothesis && nonempty (summary e)) (summary e) (active_hypotheses k);
     rejected_hypotheses := append_if rejection (summary e) (rejected_hypotheses k);
     strategy_changes := append_if (nonempty (strategy_delta e)) (strategy_delta e) (strategy_changes k);
     applied_changes := append_if (nonempty (action e) && String.eqb (event_type e) "COMPLETED")
                          (action e) (applied_changes k);
     failed_attempts := append_if rejection (summary e) (failed_attempts k);
     rejected_strategies := rejected_strategies k ++ (if rejection then do_not_repeat e else []);
     known_risks := known_risks k ++ unresolved_risks e;
     known_unknowns := known_unknowns k ++ unknowns e;
     known_evidence := known_evidence k ++ evidence_refs e;
     k_next_action := or_text (next_action e) (k_next_action k);
     k_claim_ceiling := or_text (claim_ceiling e) (k_claim_ceiling k);
     k_failure_reason := or_text (failure_reason e) (k_failure_reason k) |}.
(** [tuple(dict.fromkeys(l))] for each list. *)
Definition unique (k : knowledge) : knowledge := {|
  verified_facts := from_keys (verified_facts k); active_hypotheses := from_keys (active_hypotheses k);
  rejected_hypotheses := from_keys (rejected_hypotheses k);
  strategy_changes := from_keys (strategy_changes k); applied_changes := from_keys (applied_changes k);
  failed_attempts := from_keys (failed_attempts k);
  rejected_strategies := from_keys (rejected_strategies k); known_risks := from_keys (known_risks k);
  known_unknowns := from_keys (known_unknowns k); known_evidence := from_keys (known_evidence k);
  k_next_action := k_next_action k; k_claim_ceiling := k_claim_ceiling k;
  k_failure_reason := k_failure_reason k |}.

Record ContinuitySnapshot : Type := {
  s_schema : string; s_task_id : string; s_attempt_id : string;
  first_sequence : Z; last_sequence : Z; event_root : string;
  s_source_revision : string; s_contract_revision : string;
  known : knowledge;
  _snapshot_digest : string
}.
Definition _content_dict (s : ContinuitySnapshot) : dict := [
  ("schema", PStr (s_schema s)); ("task_id", PStr (s_task_id s)); ("attempt_id", PStr (s_attempt_id s));
  ("first_sequence", PInt (first_sequence s)); ("last_sequence", PInt (last_sequence s));
  ("event_root", PStr (event_root s)); ("source_revision", PStr (s_source_revision s));
  ("contract_revision", PStr (s_contract_revision s));
  ("verified_facts", text_tuple_value (verified_facts (known s)));
  ("active_hypotheses", text_tuple_value (active_hypotheses (known s)));
  ("rejected_hypotheses", text_tuple_value (rejected_hypotheses (known s)));
  ("strategy_changes", text_tuple_value (strategy_changes (known s)));
  ("applied_changes", text_tuple_value (applied_changes (known s)));
  ("failed_attempts", text_tuple_value (failed_attempts (known s)));
  ("rejected_strategies", text_tuple_value (rejected_strategies (known s)));
  ("unresolved_risks", text_tuple_value (known_risks (known s)));
  ("unknowns", text_tuple_value (known_unknowns (known s)));
  ("evidence_refs", text_tuple_value (known_evidence (known s)));
  ("next_action", PStr (k_next_action (known s))); ("claim_ceiling", PStr (k_claim_ceiling (known s)));
  ("failure_reason", PStr (k_failure_reason (known s)))].

Section projection.
Context `{FloatText} `{Digest}.

(** [ContinuitySnapshot(...)]. *)
Definition seal_snapshot (s : ContinuitySnapshot) : result ContinuitySnapshot :=
  h ← _digest (PDict (_content_dict s));
  Ok {| s_schema := s_schema s; s_task_id := s_task_id s; s_attempt_id := s_attempt_id s;
        first_sequence := first_sequence s; last_sequence := last_sequence s; event_root := event_root s;
        s_source_revision := s_source_revision s; s_contract_revision := s_contract_revision s;
        known := known s; _snapshot_digest := h |}.
Definition validate_integrity (s : ContinuitySnapshot) : result unit :=
  h ← _digest (PDict (_content_dict s));
  raise_if (negb (String.eqb (_snapshot_digest s) h)) ValueError "snapshot tampered".

(** The loop of [project], with its check of the revisions. *)
Fixpoint absorb_all (source contract : string) (k : knowledge) (events : list ContinuityEvent) :
    result knowledge :=
  match events with
  | [] => Ok k
  | e :: events =>
      _ ← raise_if (negb (String.eqb (source_revision e) source)
                    || negb (String.eqb (contract_revision e) contract))
            ValueError "source or contract revision drift";
      absorb_all source contract (absorb k e) events
  end.
Definition last_event (first : ContinuityEvent) (events : list ContinuityEvent) : ContinuityEvent :=
  default first (last events).
Definition project (events : list ContinuityEvent) : result ContinuitySnapshot :=
  match events with
  | [] => raise ValueError "continuity event stream is empty"
  | first :: _ =>
      _ ← _validate_chain events (task_id first) (attempt_id first) 1 EmptyString;
      k ← absorb_all (source_revision first) (contract_revision first) no_knowledge events;
      seal_snapshot {|
        s_schema := SCHEMA; s_task_id := task_id first; s_attempt_id := attempt_id first;
        first_sequence := sequence first; last_sequence := sequence (last_event first events);
        event_root := event_hash (last_event first events); s_source_revision := source_revision first;
        s_contract_revision := contract_revision first; known := unique k; _snapshot_digest := EmptyString |}
  end.

(** ** Resuming *)
Definition _project_tail (s : ContinuitySnapshot) (first : ContinuityEvent) (rest : list ContinuityEvent) :
    result ContinuitySnapshot :=
  let final := last_event first rest in
  seal_snapshot {|
    s_schema := SCHEMA; s_task_id := s_task_id s; s_attempt_id := s_attempt_id s;
    first_sequence := first_sequence s; last_sequence := sequence final; event_root := event_hash final;
    s_source_revision := s_source_revision s; s_contract_revision := s_contract_revision s;
    known := unique (foldl absorb (known s) (first :: rest)); _snapshot_digest := EmptyString |}.

Record ResumeContext : Type := {
  r_snapshot : ContinuitySnapshot; r_next_action : string; r_claim_ceiling : string;
  r_failure_reason : string; r_do_not_repeat : list string; r_evidence_refs : list string;
  r_unresolved_risks : list string; r_source_revision : string; r_contract_revision : string
}.
Definition context_of (s : ContinuitySnapshot) : ResumeContext := {|
  r_snapshot := s; r_next_action := k_next_action (known s); r_claim_ceiling := k_claim_ceiling (known s);
  r_failure_reason := k_failure_reason (known s); r_do_not_repeat := rejected_strategies (known s);
  r_evidence_refs := known_evidence (known s); r_unresolved_risks := known_risks (known s);
  r_source_revision := s_source_revision s; r_contract_revision := s_contract_revision s |}.

Definition resume (s : ContinuitySnapshot) (tail : list ContinuityEvent) (task attempt source contract : string)
    (snapshot_hash : option string) : result ResumeContext :=
  _ ← validate_integrity s;
  _ ← raise_if (negb (String.eqb (s_schema s) SCHEMA) || negb (String.eqb (s_task_id s) task)
                || negb (String.eqb (s_attempt_id s) attempt)) ValueError "snapshot identity mismatch";
  _ ← raise_if (match snapshot_hash with
                | Some h => negb (String.eqb h (_snapshot_digest s))
                | None => false
                end) ValueError "snapshot hash mismatch";
  _ ← raise_if (negb (String.eqb (s_source_revision s) source)
                || negb (String.eqb (s_contract_revision s) contract))
        ValueError "snapshot source or contract is stale";
  match tail with
  | [] => Ok (context_of s)
  | first :: rest =>
      _ ← raise_if (existsb (λ e, negb (String.eqb (source_revision e) (s_source_revision s))
                                  || negb (String.eqb (contract_revision e) (s_contract_revision s))) tail)
            ValueError "tail source or contract revision drift";
      _ ← raise_if (negb (sequence first =? last_sequence s + 1)%Z
                    || negb (String.eqb (previous_hash first) (event_root s)))
            ValueError "tail does not extend snapshot";
      _ ← _validate_chain tail task attempt (last_sequence s + 1) (event_root s);
      merged ← _project_tail s first rest;
      Ok (context_of merged)
  end.
End projection.

(** ** Decoding attempt records *)
Definition required_fields : list string := [
  "task_id"; "attempt_id"; "sequence"; "state"; "source_revision"; "contract_revision"].
(** [payload.get(name, payload.get(alias, ()) if alias else ())]. *)
Definition tuple_field (payload : dict) (name alias : string) : result pyval :=
  let fallback := if nonempty alias then default (PTuple []) (dict_get alias payload) else PTuple [] in
  match default fallback (dict_get name payload) with
  | PNone => Ok (PTuple [])
  | PList l | PTuple l =>
      if negb (forallb nonblank l) then raise ValueError (name +:+ " must be a list of non-empty strings")
      else if MAX_CONTINUITY_COLLECTION_ITEMS <? length l then
        raise ValueError (name +:+ " exceeds bounded size 64")
      else Ok (PTuple l)
  | _ => raise ValueError (name +:+ " must be a list of non-empty strings")
  end.
(** [payload.get(name, "")]. *)
Definition text_field (payload : dict) (name : string) : pyval :=
  default (PStr EmptyString) (dict_get name payload).
(** The projection type of a record whose state is [state]. *)
Definition continuity_type (payload : dict) (state : string) : result string :=
  kind ← match py_get payload "continuity_event_type" with
    | PNone =>
        if text_in state REJECTED_STATES then raise ValueError "rejected continuity event type is missing"
        else Ok (PStr "OBSERVATION_RECORDED")
    | v => Ok v
    end;
  match kind with
  | PStr kind =>
      if blank kind then raise ValueError "continuity_event_type must be a non-empty string"
      else if text_in state REJECTED_STATES && negb (String.eqb kind "ATTEMPT_REJECTED") then
        raise ValueError "rejected state requires ATTEMPT_REJECTED continuity type"
      else Ok kind
  | _ => raise ValueError "continuity_event_type must be a non-empty string"
  end.

Section decoding.
Context `{FloatText} `{Digest}.

(** One attempt record, given the hash of the event and the digest of the record before it. *)
Definition decode_record (record : dict) (task attempt previous record_previous : string) :
    result (ContinuityEvent * string) :=
  match py_get record "payload" with
  | PDict payload =>
      _ ← raise_if (existsb (λ key, negb (has_key key payload)) required_fields)
            ValueError "continuity fields are missing";
      _ ← raise_if (negb (is_text (py_get payload "task_id") task)
                    || negb (is_text (py_get payload "attempt_id") attempt))
            ValueError "foreign task or attempt event";
      _ ← raise_if (negb (nonblank (py_get payload "state")))
            ValueError "attempt transition state must be a non-empty string";
      _ ← raise_if (negb (nonblank (py_get payload "source_revision")))
            ValueError "source_revision must be a non-empty string";
      _ ← raise_if (negb (nonblank (py_get payload "contract_revision")))
            ValueError "contract_revision must be a non-empty string";
      match py_get record "_attempt_parent_digest", py_get record "_attempt_record_digest" with
      | PStr parent, PStr digest =>
          expected ← _digest (PDict (dict_del "_attempt_record_digest" record));
          _ ← raise_if (negb (String.eqb digest expected)) ValueError "continuity record tampered";
          _ ← raise_if (negb (String.eqb parent record_previous)) ValueError "continuity record parent mismatch";
          kind ← continuity_type payload (text_of (py_get payload "state"));
          do_not_repeat ← tuple_field payload "do_not_repeat" "rejected_strategies";
          evidence_refs ← tuple_field payload "evidence_refs" EmptyString;
          unresolved_risks ← tuple_field payload "unresolved_risks" EmptyString;
          unknowns ← tuple_field payload "unknowns" EmptyString;
          e ← new_event {|
            a_task_id := PStr task; a_attempt_id := PStr attempt; a_sequence := py_get payload "sequence";
            a_event_type := PStr kind; a_summary := py_get payload "state";
            a_action := text_field payload "action"; a_observation := text_field payload "observation";
            a_rationale := PStr EmptyString; a_failure_reason := text_field payload "reason";
            a_strategy_delta := text_field payload "strategy_delta";
            a_do_not_repeat := do_not_repeat; a_evidence_refs := evidence_refs;
            a_unresolved_risks := unresolved_risks; a_unknowns := unknowns;
            a_next_action := text_field payload "next_action";
            a_claim_ceiling := text_field payload "claim_ceiling";
            a_source_revision := py_get payload "source_revision";
            a_contract_revision := py_get payload "contract_revision";
            a_previous_hash := PStr previous; a_schema := PStr SCHEMA |};
          Ok (e, digest)
      | _, _ => raise ValueError "continuity record digest fields are missing"
      end
  | _ => raise ValueError "attempt transition payload is missing"
  end.
Definition attempt_record (v : pyval) : option dict :=
  match v with
  | PDict record => if is_text (py_get record "event_type") "attempt_transition" then Some record else None
  | _ => None
  end.
Fixpoint decode_records (records : list pyval) (task attempt previous record_previous : string) :
    result (list ContinuityEvent) :=
  match records with
  | [] => Ok []
  | v :: records =>
      match attempt_record v with
      | None => decode_records records task attempt previous record_previous
      | Some record =>
          read ← decode_record record task attempt previous record_previous;
          let '(e, digest) := read in
          events ← decode_records records task attempt (event_hash e) digest;
          Ok (e :: events)
      end
  end.
(** ["0" * 64]. *)
Definition zero_digest : string := "0000000000000000000000000000000000000000000000000000000000000000".
Definition events_from_attempt_records (records : list pyval) (task attempt : string) :
    result (list ContinuityEvent) :=
  events ← decode_records records task attempt EmptyString zero_digest;
  match events with
  | [] => raise ValueError "continuity event stream is empty"
  | _ => Ok events
  end.
End decoding.

(** ** Rehydration *)
Record TaskRehydrationProjection : Type := {
  p_schema : string; task_identity : dict; revision_binding : dict; authority_binding : dict;
  continuation : dict; current_task_action : option dict; candidate_binding : option dict;
  work_claim_binding : option dict; missing_durable_bindings : list string
}.

(** [x or None] on strings. *)
Definition text_or_none (s : string) : option string := if nonempty s then Some s else None.
Definition mapping_or_none (v : pyval) : bool := is_none v || is_mapping v.
Definition as_dict (v : pyval) : dict := match v with PDict d => d | _ => [] end.
Fixpoint first_truthy (l : list pyval) : pyval :=
  match l with
  | [] => PNone
  | [v] => v
  | v :: l => py_or v (first_truthy l)
  end.

Section rehydration.
Context `{FloatText} `{Digest}.

(** [str(v or "").strip()]. *)
Definition stripped (v : pyval) : string := strip (str_or v EmptyString).

(** The identity of the task and of the attempt. *)
Definition rehydrated_task (state : dict) (snapshot_task : string) : result string :=
  let state_task := stripped (py_get state "task_id") in
  let snap_task := strip snapshot_task in
  _ ← raise_if (negb (nonempty state_task)) ValueError
        "REHYDRATION_TASK_MISMATCH: task_id missing in task state";
  _ ← raise_if (nonempty snap_task && negb (String.eqb state_task snap_task)) ValueError
        ("REHYDRATION_TASK_MISMATCH: state has " +:+ state_task +:+ ", continuity has " +:+ snap_task);
  Ok state_task.
Definition rehydrated_attempt (state : dict) (snapshot_attempt : string) (requested : option string) :
    result string :=
  let state_attempt := stripped (py_get state "attempt_id") in
  let snap_attempt := strip snapshot_attempt in
  let req_attempt := strip (default EmptyString requested) in
  let target := or_text req_attempt (or_text state_attempt snap_attempt) in
  _ ← raise_if (negb (nonempty target)) ValueError
        "REHYDRATION_ATTEMPT_MISMATCH: attempt_id could not be resolved";
  _ ← raise_if (nonempty req_attempt && nonempty state_attempt && negb (String.eqb req_attempt state_attempt))
        ValueError ("REHYDRATION_ATTEMPT_MISMATCH: requested " +:+ req_attempt +:+ ", state has " +:+ state_attempt);
  _ ← raise_if (nonempty snap_attempt && negb (String.eqb target snap_attempt)) ValueError
        ("REHYDRATION_ATTEMPT_MISMATCH: target " +:+ target +:+ ", continuity has " +:+ snap_attempt);
  Ok target.
(** A revision of the state against the one of the snapshot; [unknown] matches anything. *)
Definition effective_revision (label : string) (sources : list pyval) (snapshot_revision : string) :
    result (option string) :=
  let of_state := stripped (first_truthy sources) in
  let of_snapshot := strip snapshot_revision in
  let certain s := nonempty s && negb (String.eqb s "unknown") in
  _ ← raise_if (certain of_state && certain of_snapshot && negb (String.eqb of_state of_snapshot)) ValueError
        ("REHYDRATION_" +:+ label +:+ "_REVISION_MISMATCH: state has " +:+ of_state +:+
         ", continuity has " +:+ of_snapshot);
  Ok (text_or_none (or_text of_state (if String.eqb of_snapshot "unknown" then EmptyString else of_snapshot))).

Definition claim_mismatch (field : string) : string :=
  "REHYDRATION_WORK_CLAIM_MISMATCH: work_claim " +:+ field +:+ " mismatch".
(** [claim_ident.get(key) and str(claim_ident[key]).strip() != expected]. *)
Definition claims_other (identity : dict) (key expected : string) : bool :=
  truthy (py_get identity key) && negb (String.eqb (strip (py_str (py_get identity key))) expected).
Definition bind_work_claim (claim : pyval) (task attempt snapshot_source : string) : result (option dict) :=
  match claim with
  | PDict claim =>
      let identity := as_dict (py_get claim "identity") in
      let source := strip snapshot_source in
      _ ← raise_if (claims_other identity "task_id" task) ValueError (claim_mismatch "task_id");
      _ ← raise_if (claims_other identity "attempt_id" attempt) ValueError (claim_mismatch "attempt_id");
      _ ← raise_if (nonempty source && negb (String.eqb source "unknown")
                    && claims_other identity "source_hash" source) ValueError (claim_mismatch "source_hash");
      Ok (Some (map (λ key, (key, py_get claim key))
                  ["claim_id"; "generation"; "fencing_token"; "status"; "claimed_at"]
                ++ [("identity", PDict identity)]))
  | _ => Ok None
  end.

Definition candidate_fields (commit tree state receipt : pyval) : option dict :=
  if truthy commit || truthy tree || truthy state || truthy receipt then
    Some [("candidate_commit_sha", commit); ("candidate_tree_sha", tree);
          ("candidate_state_hash", state); ("verified_receipt_hash", receipt)]
  else None.
Definition bind_candidate (state : dict) (envelope : option dict) : option dict :=
  let from_state :=
    let candidate := as_dict (py_get state "candidate") in
    let packet := as_dict (py_get state "promotion_packet") in
    let receipt := as_dict (py_get state "verified_receipt") in
    let found key := [py_get state key; py_get candidate key; py_get packet key] in
    candidate_fields (first_truthy (found "candidate_commit_sha")) (first_truthy (found "candidate_tree_sha"))
      (first_truthy (found "candidate_state_hash"))
      (first_truthy (found "verified_receipt_hash" ++ [py_get receipt "receipt_hash"])) in
  match envelope with
  | Some envelope =>
      match dict_get "candidate" envelope with
      | Some (PDict c) =>
          candidate_fields (py_get c "candidate_commit_sha") (py_get c "candidate_tree_sha")
            (py_get c "candidate_state_hash") (py_get c "verified_receipt_hash")
      | Some _ => None
      | None => from_state
      end
  | None => from_state
  end.

Definition authority_keys : list string := [
  "authority_revision"; "lifecycle_revision"; "authority_epoch"; "standing_grant_id"; "approval_id";
  "task_card_path"; "task_card_hash"; "execution_lane"].
Definition phase_receipts (state : dict) : pyval :=
  py_or (py_get state "phase_receipts") (py_get (as_dict (py_get state "promotion_packet")) "phase_receipts").
Definition bind_authority (state contract : dict) : dict :=
  let value key :=
    match py_get state key with
    | PNone => if text_in key ["task_card_path"; "task_card_hash"] then py_get contract key else PNone
    | v => v
    end in
  let bound := omap (λ key, match value key with PNone => None | v => Some (key, v) end) authority_keys in
  match phase_receipts state with
  | PNone => bound
  | PTuple l => bound ++ [("phase_receipts", PList l)]
  | v => bound ++ [("phase_receipts", v)]
  end.

Definition missing_bindings (state : dict) (k : knowledge) : list string :=
  append_if (negb (truthy (phase_receipts state))) "phase_receipts"
    (append_if (negb (truthy (py_get state "authority_revision"))) "authority_revision"
      (append_if (bool_decide (verified_facts k = [])) "verified_observations"
        (append_if (bool_decide (applied_changes k = [])) "completed_actions" []))).
Definition continue_from (state : dict) (k : knowledge) (envelope : option dict) : dict :=
  let next := first_truthy [PStr (k_next_action k);
    match envelope with Some e => py_get e "next_action" | None => PStr EmptyString end; PStr EmptyString] in
  [("failure_reason", PStr (or_text (k_failure_reason k)
      (str_or (py_or (py_get state "error") (py_get state "reason")) EmptyString)));
   ("failed_attempts", str_list (failed_attempts k));
   ("rejected_strategies", str_list (rejected_strategies k));
   ("do_not_repeat", str_list (rejected_strategies k));
   ("unresolved_risks", str_list (known_risks k)); ("unknowns", str_list (known_unknowns k));
   ("evidence_refs", str_list (known_evidence k)); ("next_action", next);
   ("claim_ceiling", PStr (or_text (k_claim_ceiling k) (str_or (py_get state "claim_ceiling") EmptyString)))]
  ++ (if bool_decide (applied_changes k = []) then [] else [("completed_actions", str_list (applied_changes k))])
  ++ (if bool_decide (verified_facts k = []) then [] else [("verified_observations", str_list (verified_facts k))]).

(** The shape of the task state. *)
Fixpoint check_mappings (state : dict) (names : list string) : result unit :=
  match names with
  | [] => Ok ()
  | key :: names =>
      _ ← raise_if (negb (mapping_or_none (py_get state key))) ValueError
            ("REHYDRATION_MALFORMED_STATE: " +:+ key +:+ " must be a mapping");
      check_mappings state names
  end.
Definition check_state (state : dict) : result unit :=
  _ ← check_mappings state ["candidate"; "promotion_packet"; "verified_receipt"; "contract"];
  match py_get state "work_claim" with
  | PNone => Ok ()
  | PDict claim =>
      raise_if (negb (is_mapping (py_get claim "identity"))) ValueError
        "REHYDRATION_WORK_CLAIM_MISMATCH: work_claim identity must be a mapping"
  | _ => raise ValueError "REHYDRATION_WORK_CLAIM_MISMATCH: work_claim must be a mapping"
  end.

Definition build_rehydration_projection (task_state : pyval) (s : ContinuitySnapshot)
    (envelope : option dict) (requested_attempt_id : option string) : result TaskRehydrationProjection :=
  _ ← validate_integrity s;
  match task_state with
  | PDict state =>
      _ ← check_state state;
      task ← rehydrated_task state (s_task_id s);
      attempt ← rehydrated_attempt state (s_attempt_id s) requested_attempt_id;
      let contract := as_dict (py_get state "contract") in
      source ← effective_revision "SOURCE" [py_get state "source_revision"; py_get state "controller_revision";
                 py_get contract "controller_revision"; py_get contract "source_revision"] (s_source_revision s);
      revision ← effective_revision "CONTRACT" [py_get state "contract_revision"; py_get state "contract_hash";
                   py_get contract "contract_hash"; py_get contract "contract_revision"] (s_contract_revision s);
      claim ← bind_work_claim (py_get state "work_claim") task attempt (s_source_revision s);
      Ok {| p_schema := REHYDRATION_PROJECTION_SCHEMA;
            task_identity := [("task_id", PStr task); ("attempt_id", PStr attempt)];
            revision_binding := [("source_revision", opt_str source); ("contract_revision", opt_str revision)];
            authority_binding := bind_authority state contract;
            continuation := continue_from state (known s) envelope;
            current_task_action := envelope; candidate_binding := bind_candidate state envelope;
            work_claim_binding := claim; missing_durable_bindings := missing_bindings state (known s) |}
  | _ => raise ValueError "REHYDRATION_MALFORMED_STATE: task_state must be a mapping"
  end.
End rehydration.

(** * Facts *)
(** ** First occurrences *)
Lemma from_keys_acc_seen seen seen' l :
  (∀ x, x ∈ seen ↔ x ∈ seen') → from_keys_acc seen l = from_keys_acc seen' l.
Proof.
  revert seen seen'. induction l as [|y l IH]; intros seen seen' E; cbn; [done|].
  rewrite (bool_decide_ext _ _ (E y)). case_bool_decide; [by apply IH|]. f_equal. apply IH. set_solver.
Qed.
Lemma from_keys_acc_app seen l m :
  from_keys_acc seen (l ++ m) = from_keys_acc seen l ++ from_keys_acc (l ++ seen) m.
Proof.
  revert seen. induction l as [|y l IH]; intros seen; cbn; [done|].
  case_bool_decide; rewrite IH; cbn; f_equal; [|f_equal]; apply from_keys_acc_seen; set_solver.
Qed.
(** Only the first occurrences matter to what follows. *)
Lemma from_keys_app l l' m : from_keys l = from_keys l' → from_keys (l ++ m) = from_keys (l' ++ m).
Proof.
  intros E. assert (∀ x, x ∈ l ↔ x ∈ l') as Hl by (intros x; by rewrite <- (elem_of_from_keys x l), E, elem_of_from_keys).
  unfold from_keys. rewrite !from_keys_acc_app, !app_nil_r. f_equal; [exact E|by apply from_keys_acc_seen].
Qed.
Lemma from_keys_append_if b s l l' :
  from_keys l = from_keys l' → from_keys (append_if b s l) = from_keys (append_if b s l').
Proof. destruct b; [apply from_keys_app|done]. Qed.

(** ** What the loops accumulate, up to repetitions *)
Definition knows : relation knowledge := λ k k', unique k = unique k'.
#[export] Instance knows_equivalence : Equivalence knows.
Proof. split; repeat intro; unfold knows in *; congruence. Qed.
Lemma unique_idem k : knows (unique k) k.
Proof. unfold knows, unique. cbn. by rewrite !from_keys_idem. Qed.
#[export] Instance absorb_proper : Proper (knows ==> eq ==> knows) absorb.
Proof.
  intros k k' E e ? <-. unfold knows, unique in *. injection E as E1 E2 E3 E4 E5 E6 E7 E8 E9 E10 E11 E12 E13.
  unfold absorb. cbn. f_equal; try (by apply from_keys_append_if); try (by apply from_keys_app); congruence.
Qed.
Lemma absorb_list_knows k k' l : knows k k' → knows (foldl absorb k l) (foldl absorb k' l).
Proof. revert k k'. induction l as [|e l IH]; intros k k' E; cbn; [done|]. apply IH. by rewrite E. Qed.

Lemma rejected_kept k l d : d ∈ rejected_strategies k → d ∈ rejected_strategies (foldl absorb k l).
Proof. revert k. induction l as [|e l IH]; intros k Hd; cbn; [done|]. apply IH. cbn. set_solver. Qed.
Lemma rejected_absorbed k l e d : e ∈ l → event_type e = "ATTEMPT_REJECTED" → d ∈ do_not_repeat e →
  d ∈ rejected_strategies (foldl absorb k l).
Proof.
  intros He Ht Hd. revert k. induction He as [l|e' l He IH]; intros k; cbn; [|auto].
  apply rejected_kept. cbn. rewrite Ht, String.eqb_refl. set_solver.
Qed.

(** ** Digests *)
Section facts.
Context `{FloatText} `{Digest}.

(** What an event and a snapshot are hashed over. *)
Definition event_text (e : ContinuityEvent) : string := json_print true (jnorm (PDict (event_payload e))).
Definition snapshot_text (s : ContinuitySnapshot) : string := json_print true (jnorm (PDict (_content_dict s))).
Definition event_seal (e : ContinuityEvent) : string := text_sha256 (event_text e).
Definition sealed (s : ContinuitySnapshot) : ContinuitySnapshot := {|
  s_schema := s_schema s; s_task_id := s_task_id s; s_attempt_id := s_attempt_id s;
  first_sequence := first_sequence s; last_sequence := last_sequence s; event_root := event_root s;
  s_source_revision := s_source_revision s; s_contract_revision := s_contract_revision s;
  known := known s; _snapshot_digest := text_sha256 (snapshot_text s) |}.

Lemma digest_plain v : json_plain v = true → _digest v = Ok (text_sha256 (json_print true (jnorm v))).
Proof.
  intros Hp. unfold _digest, json_sha256, json_dumps. by rewrite json_check_ok by (by rewrite json_plain_jnorm).
Qed.
Lemma tuple_plain l : json_plain (text_tuple_value l) = true.
Proof. cbn. induction l; cbn; auto. Qed.
Lemma payload_wf e : py_wf (PDict (event_payload e)) = true.
Proof.
  cbn -[text_tuple_value]. assert (∀ l, py_wf (text_tuple_value l) = true) as Hl.
  { intros l. cbn. induction l; cbn; auto. }
  by rewrite !Hl.
Qed.
Lemma payload_plain e : json_plain (PDict (event_payload e)) = true.
Proof. cbn -[text_tuple_value]. by rewrite !tuple_plain. Qed.
Lemma event_payload_digest e : _digest (PDict (event_payload e)) = Ok (event_seal e).
Proof. apply digest_plain, payload_plain. Qed.
Lemma payload_dumps e : json_dumps true true (PDict (event_payload e)) = Ok (event_text e).
Proof. unfold json_dumps. rewrite json_check_ok; [done|]. rewrite json_plain_jnorm. apply payload_plain. Qed.
Lemma to_dict_digest e : _digest (PDict (dict_del "event_hash" (event_to_dict e))) = Ok (event_seal e).
Proof.
  rewrite <- event_payload_digest. apply json_sha256_jnorm. cbn [jnorm]. by f_equal.
Qed.
Lemma snapshot_digest s : _digest (PDict (_content_dict s)) = Ok (text_sha256 (snapshot_text s)).
Proof. apply digest_plain. cbn -[text_tuple_value]. by rewrite !tuple_plain. Qed.
Lemma seal_snapshot_Ok s : seal_snapshot s = Ok (sealed s).
Proof. unfold seal_snapshot. by rewrite snapshot_digest. Qed.
Lemma snapshot_integrity_iff s : validate_integrity s = Ok () ↔ sealed s = s.
Proof.
  unfold validate_integrity. rewrite snapshot_digest. cbn [mbind result_bind].
  destruct (String.eqb_spec (_snapshot_digest s) (text_sha256 (snapshot_text s))) as [E|E]; cbn; (split; [|]); try done.
  - intros _. unfold sealed. rewrite <- E. by destruct s.
  - intros E'. destruct E. exact (eq_sym (f_equal _snapshot_digest E')).
Qed.
Lemma sealed_intact s : validate_integrity (sealed s) = Ok ().
Proof. by apply snapshot_integrity_iff. Qed.

(** Events with the same text and hash are the same. *)
Lemma event_text_inj e e' : event_text e = event_text e' → event_hash e = event_hash e' → e = e'.
Proof.
  intros Et Eh. assert (jnorm (PDict (event_payload e)) = jnorm (PDict (event_payload e'))) as E.
  { apply (json_dumps_inj true true _ _ (event_text e)); [apply payload_wf|apply payload_wf|apply payload_dumps|].
    rewrite Et. apply payload_dumps. }
  unfold event_payload, text_tuple_value in E. doc_members E. destruct e, e'; cbn in *. by subst.
Qed.
End facts.

(** ** The chain *)
Section chain.
Context `{FloatText} `{Digest}.

(** Events [n], [n+1], ... of one attempt, each sealed and naming the hash before it. *)
Inductive chained (task attempt : string) : Z → string → list ContinuityEvent → Prop :=
| chained_nil n h : chained task attempt n h []
| chained_cons n h e l :
    task_id e = task → attempt_id e = attempt → sequence e = n → previous_hash e = h →
    event_hash e = event_seal e → chained task attempt (n + 1) (event_hash e) l →
    chained task attempt n h (e :: l).

Lemma check_chain_iff task attempt l n h : check_chain l task attempt n h = Ok () ↔ chained task attempt n h l.
Proof.
  revert n h. induction l as [|e l IH]; intros n h; cbn [check_chain].
  - split; [constructor|done].
  - rewrite to_dict_digest. cbn [mbind result_bind]. split.
    + intros E. run_ok E.
      repeat match goal with
        | Hn : _ || _ = false |- _ => apply orb_false_iff in Hn as []
        | Hn : negb _ = false |- _ => apply negb_false_iff in Hn
        | Hn : String.eqb _ _ = true |- _ => apply String.eqb_eq in Hn
        | Hn : (_ =? _)%Z = true |- _ => apply Z.eqb_eq in Hn
        end.
      constructor; auto. by apply IH.
    + inversion_clear 1 as [|? ? ? ? <- <- <- <- Hh Hl]. rewrite <- Hh, !String.eqb_refl, Z.eqb_refl. cbn.
      by apply IH.
Qed.
Lemma validate_chain_iff task attempt l n h :
  _validate_chain l task attempt n h = Ok () ↔ l ≠ [] ∧ chained task attempt n h l.
Proof.
  destruct l as [|e l]; [split; [done|intros [Hn _]; by destruct Hn]|]. cbn [_validate_chain].
  rewrite check_chain_iff. split; [by split|by intros []].
Qed.

(** The sequence and hash at the end of a chain from [n] and [h]. *)
Definition end_hash (h : string) (l : list ContinuityEvent) : string := default h (event_hash <$> last l).
Lemma end_hash_cons h e l : end_hash h (e :: l) = end_hash (event_hash e) l.
Proof.
  unfold end_hash. destruct l as [|e' l]; [done|]. change (last (e :: e' :: l)) with (last (e' :: l)).
  destruct (last (e' :: l)) eqn:E; [done|]. by apply last_None in E.
Qed.
Lemma chained_app task attempt n h l k :
  chained task attempt n h (l ++ k) ↔
  chained task attempt n h l ∧ chained task attempt (n + Z.of_nat (length l)) (end_hash h l) k.
Proof.
  revert n h. induction l as [|e l IH]; intros n h; cbn [app length].
  - replace (n + Z.of_nat 0)%Z with n by lia. split; [intros; split; [constructor|done]|by intros []].
  - rewrite end_hash_cons. replace (n + Z.of_nat (S (length l)))%Z with (n + 1 + Z.of_nat (length l))%Z by lia. split.
    + inversion_clear 1 as [|? ? ? ? ? ? ? ? ? Hl]. apply IH in Hl as [? ?]. split; [by constructor|done].
    + intros [Hl Hk]. inversion_clear Hl as [|? ? ? ? ? ? ? ? ? Hl']. constructor; try done. by apply IH.
Qed.
Lemma chained_ids task attempt n h l e : chained task attempt n h l → e ∈ l →
  task_id e = task ∧ attempt_id e = attempt ∧ event_hash e = event_seal e.
Proof. induction 1 as [|n h e' l ? ? ? ? ? ? IH]; intros He; [by apply elem_of_nil in He|]. apply elem_of_cons in He as [->|]; auto. Qed.
Lemma chained_last task attempt n h l e : chained task attempt n h (l ++ [e]) → sequence e = (n + Z.of_nat (length l))%Z.
Proof. intros [_ Hl]%chained_app. by inversion_clear Hl. Qed.

Lemma last_event_snoc first l e : last_event first (l ++ [e]) = e.
Proof. unfold last_event. by rewrite last_snoc. Qed.
Lemma last_event_end first l h : l ≠ [] → end_hash h l = event_hash (last_event first l).
Proof. intros Hl. unfold end_hash, last_event. destruct (last l) eqn:E; [done|]. by apply last_None in E. Qed.
Lemma last_event_app first e l k : last_event first (l ++ e :: k) = last_event e (e :: k).
Proof.
  unfold last_event. rewrite last_app_cons. destruct (last (e :: k)) eqn:E; [done|]. by apply last_None in E.
Qed.

(** ** The loop over the events *)
Definition same_revision (source contract : string) (e : ContinuityEvent) : Prop :=
  source_revision e = source ∧ contract_revision e = contract.
Lemma same_revision_check source contract e :
  (negb (String.eqb (source_revision e) source) || negb (String.eqb (contract_revision e) contract)) = false ↔
  same_revision source contract e.
Proof. rewrite orb_false_iff, !negb_false_iff, !String.eqb_eq. done. Qed.
Lemma absorb_all_iff source contract k l k' : absorb_all source contract k l = Ok k' ↔
  Forall (same_revision source contract) l ∧ k' = foldl absorb k l.
Proof.
  revert k. induction l as [|e l IH]; intros k; cbn [absorb_all foldl].
  - split; [intros [= <-]; auto|by intros [_ ->]].
  - rewrite Forall_cons. split.
    + intros E. run_ok E. apply same_revision_check in Hok. apply IH in E. tauto.
    + intros [[He Hl] ->]. rewrite (proj2 (same_revision_check _ _ _) He). cbn. by apply IH.
Qed.

Definition snapshot_of (first : ContinuityEvent) (l : list ContinuityEvent) : ContinuitySnapshot := sealed {|
  s_schema := SCHEMA; s_task_id := task_id first; s_attempt_id := attempt_id first;
  first_sequence := sequence first; last_sequence := sequence (last_event first l);
  event_root := event_hash (last_event first l); s_source_revision := source_revision first;
  s_contract_revision := contract_revision first; known := unique (foldl absorb no_knowledge l);
  _snapshot_digest := EmptyString |}.
Lemma project_iff l s : project l = Ok s ↔ ∃ first rest, l = first :: rest ∧
  chained (task_id first) (attempt_id first) 1 EmptyString l ∧
  Forall (same_revision (source_revision first) (contract_revision first)) l ∧ s = snapshot_of first l.
Proof.
  destruct l as [|first rest]; [by split; [done|intros (? & ? & ? & _)]|]. cbn [project]. split.
  - intros E. apply bind_Ok_inv in E as ([] & [_ Hc]%validate_chain_iff & (k & [Hr ->]%absorb_all_iff & E)%bind_Ok_inv).
    rewrite seal_snapshot_Ok in E. injection E as <-. by exists first, rest.
  - intros (? & ? & [= <- <-] & Hc & Hr & ->). rewrite (proj2 (validate_chain_iff _ _ _ _ _)) by done.
    cbn [mbind result_bind]. rewrite (proj2 (absorb_all_iff _ _ _ _ _)) by done. cbn [mbind result_bind].
    apply seal_snapshot_Ok.
Qed.
Lemma project_intact l s : project l = Ok s → sealed s = s.
Proof. by intros (? & ? & _ & _ & _ & ->)%project_iff. Qed.

(** ** Resuming *)
Lemma drift_check s l : existsb (λ e, negb (String.eqb (source_revision e) (s_source_revision s))
    || negb (String.eqb (contract_revision e) (s_contract_revision s))) l = false ↔
  Forall (same_revision (s_source_revision s) (s_contract_revision s)) l.
Proof.
  rewrite Forall_forall. split.
  - intros E e He. apply same_revision_check. rewrite <- not_true_iff_false in *. contradict E.
    apply existsb_exists. exists e. split; [by apply list_elem_of_In|done].
  - intros Hl. apply not_true_iff_false. intros (e & He%list_elem_of_In & E)%existsb_exists.
    specialize (Hl e He). apply same_revision_check in Hl. congruence.
Qed.
(** The snapshot of a prefix, extended, is the snapshot of the whole. *)
Lemma project_tail_snapshot first pre e rest :
  _project_tail (snapshot_of first pre) e rest = Ok (snapshot_of first (pre ++ e :: rest)).
Proof.
  unfold _project_tail. rewrite seal_snapshot_Ok. f_equal. unfold snapshot_of.
  rewrite !last_event_app. assert (last_event e rest = last_event e (e :: rest)) as <- by by destruct rest.
  assert (unique (foldl absorb (unique (foldl absorb no_knowledge pre)) (e :: rest)) =
          unique (foldl absorb no_knowledge (pre ++ e :: rest))) as <-.
  { rewrite foldl_app. apply absorb_list_knows, unique_idem. }
  reflexivity.
Qed.
End chain.

(** ** Decoded events *)
Section decoded.
Context `{FloatText} `{Digest}.

Lemma clean_text_Ok b name v s : clean_text b name v = Ok s → v = PStr s ∧ (b = true → blank s = false).
Proof.
  unfold clean_text. intros (u & Hu & [= <-])%bind_Ok_inv. destruct v as [| | | |t| | | |]; try discriminate Hu.
  split; [done|]. intros ->. cbn [text_of]. cbn [_clean_text andb] in Hu. by destruct (blank t).
Qed.
Lemma event_tuple_Ok name v l : text_tuple name v = Ok l → v = PTuple (map PStr l).
Proof.
  destruct v as [| | | | | |t| |]; try done. cbn. destruct (negb (forallb nonblank t)) eqn:Hb; [done|]. case_match; [done|]. intros [= <-].
  apply negb_false_iff in Hb. f_equal. rewrite map_map. rewrite <- (map_id t) at 1. apply map_ext_in. intros v Hv.
  assert (nonblank v = true) as Hn. { apply forallb_forall with (x := v) in Hb; done. }
  by destruct v.
Qed.
(** A constructed event is sealed and holds its arguments. *)
Lemma new_event_Ok a e : new_event a = Ok e →
  event_hash e = event_seal e ∧ (1 ≤ sequence e)%Z ∧ event_type e ∈ EVENT_TYPES ∧ schema e = SCHEMA ∧
  blank (source_revision e) = false ∧ blank (contract_revision e) = false ∧
  a = {| a_task_id := PStr (task_id e); a_attempt_id := PStr (attempt_id e); a_sequence := PInt (sequence e);
         a_event_type := PStr (event_type e); a_summary := PStr (summary e); a_action := PStr (action e);
         a_observation := PStr (observation e); a_rationale := PStr (rationale e);
         a_failure_reason := PStr (failure_reason e); a_strategy_delta := PStr (strategy_delta e);
         a_do_not_repeat := text_tuple_value (do_not_repeat e);
         a_evidence_refs := text_tuple_value (evidence_refs e);
         a_unresolved_risks := text_tuple_value (unresolved_risks e);
         a_unknowns := text_tuple_value (unknowns e); a_next_action := PStr (next_action e);
         a_claim_ceiling := PStr (claim_ceiling e); a_source_revision := PStr (source_revision e);
         a_contract_revision := PStr (contract_revision e); a_previous_hash := PStr (previous_hash e);
         a_schema := PStr (schema e) |}.
Proof.
  unfold new_event. intros E. run_ok E. rewrite event_payload_digest in *.
  repeat match goal with
    | Hc : clean_text _ _ _ = Ok _ |- _ => apply clean_text_Ok in Hc as [? ?]
    | Ht : text_tuple _ _ = Ok _ |- _ => apply event_tuple_Ok in Ht
    | Hn : negb _ = false |- _ => apply negb_false_iff in Hn
    | Hi : is_text _ _ = true |- _ => apply is_text_spec in Hi
    end.
  destruct a; cbn in *. subst.
  match goal with Hs : positive_int ?v = Ok _ |- _ => destruct v as [| |n| | | | | |]; try done; cbn in Hs; destruct (n <? 1)%Z eqn:Hn; [done|] end.
  match goal with Hk : in_text_set ?v _ = Ok true |- _ => destruct v; try done; cbn in Hk; injection Hk as Hk end.
  simplify_eq. cbn. split_and!; try done; [by apply Z.ltb_ge|by apply text_in_spec|..];
    match goal with Hb : true = true → _ |- _ => exact (Hb eq_refl) end.
Qed.

(** Every attempt record becomes an event, in order. *)
Inductive decodes (task attempt : string) : string → string → list pyval → list ContinuityEvent → Prop :=
| decodes_nil p d : decodes task attempt p d [] []
| decodes_skip p d v vs l : attempt_record v = None → decodes task attempt p d vs l →
    decodes task attempt p d (v :: vs) l
| decodes_event p d v vs r e d' l : attempt_record v = Some r →
    decode_record r task attempt p d = Ok (e, d') → decodes task attempt (event_hash e) d' vs l →
    decodes task attempt p d (v :: vs) (e :: l).
Lemma decode_records_iff task attempt p d vs l :
  decode_records vs task attempt p d = Ok l ↔ decodes task attempt p d vs l.
Proof.
  split.
  - revert p d l. induction vs as [|v vs IH]; intros p d l; cbn [decode_records]; [intros [= <-]; constructor|].
    destruct (attempt_record v) as [r|] eqn:Er; [|intros Hl; by constructor; auto].
    intros ([e d'] & He & (l' & Hl & [= <-])%bind_Ok_inv)%bind_Ok_inv. by econstructor; eauto.
  - induction 1 as [|? ? ? ? ? Er _ IH|? ? ? ? ? ? ? ? Er He _ IH]; cbn [decode_records]; [done|by rewrite Er|].
    rewrite Er, He. cbn [mbind result_bind]. by rewrite IH.
Qed.
Lemma tuple_field_spec p name alias v : tuple_field p name alias = Ok v →
  ∃ l, v = PTuple l ∧ ∀ l', (dict_get name p = Some (PList l') ∨ dict_get name p = Some (PTuple l')) → l = l'.
Proof.
  unfold tuple_field. cbv zeta. intros E. destruct (default _ _) as [| | | | |l|l| |] eqn:Ed; try discriminate E.
  - injection E as <-. exists []. split; [done|]. intros l' [Hg|Hg]; by rewrite Hg in Ed.
  - destruct (negb _); [done|]. destruct (_ <? _); [done|]. injection E as <-. exists l. split; [done|].
    intros l' [Hg|Hg]; rewrite Hg in Ed; cbn in Ed; congruence.
  - destruct (negb _); [done|]. destruct (_ <? _); [done|]. injection E as <-. exists l. split; [done|].
    intros l' [Hg|Hg]; rewrite Hg in Ed; cbn in Ed; congruence.
Qed.
Lemma continuity_type_Ok p state kind : continuity_type p state = Ok kind →
  (state ∈ REJECTED_STATES → kind = "ATTEMPT_REJECTED").
Proof.
  unfold continuity_type. intros (v & Hv & E)%bind_Ok_inv Hs%text_in_spec. destruct v; try done.
  destruct (blank _); [done|]. rewrite Hs in E. cbn [andb] in E.
  destruct (negb _) eqn:Hn; [done|]. injection E as <-. by apply negb_false_iff, String.eqb_eq in Hn.
Qed.
(** What a record says of the event it becomes. *)
Lemma decode_record_Ok r task attempt p d e d' : decode_record r task attempt p d = Ok (e, d') →
  task_id e = task ∧ attempt_id e = attempt ∧ previous_hash e = p ∧ event_hash e = event_seal e ∧
  (summary e ∈ REJECTED_STATES → event_type e = "ATTEMPT_REJECTED") ∧
  ∃ payload, py_get r "payload" = PDict payload ∧ py_get payload "state" = PStr (summary e) ∧
    py_get payload "sequence" = PInt (sequence e) ∧
    ∀ l, dict_get "do_not_repeat" payload = Some (PList l) ∨ dict_get "do_not_repeat" payload = Some (PTuple l) →
      l = map PStr (do_not_repeat e).
Proof.
  unfold decode_record. destruct (py_get r "payload") as [| | | | | | |payload|] eqn:Ep; try done. intros E.
  do 5 (apply bind_Ok_inv in E as (? & ?%raise_if_Ok_inv & E)).
  destruct (py_get r "_attempt_parent_digest") as [| | | |parent| | | |], (py_get r "_attempt_record_digest") as [| | | |digest| | | |];
    try discriminate E.
  apply bind_Ok_inv in E as (? & _ & E). do 2 (apply bind_Ok_inv in E as (? & ?%raise_if_Ok_inv & E)).
  apply bind_Ok_inv in E as (kind & Hk & (dnr & Hd & (ev & _ & (ri & _ & (un & _ & (e' & He & [= -> <-])%bind_Ok_inv)%bind_Ok_inv)%bind_Ok_inv)%bind_Ok_inv)%bind_Ok_inv).
  apply new_event_Ok in He as (Hh & _ & _ & _ & _ & _ & Ea). injection Ea as E1 E2 E3 E4 E5 E6 E7 E8 E9 E10 E11 E12 E13 E14 E15 E16 E17 E18 E19 E20.
  split_and!; try congruence.
  - intros Hs. assert (kind = event_type e) as <- by congruence. eapply continuity_type_Ok; [exact Hk|]. by rewrite E5.
  - exists payload. split_and!; [done|done|done|]. intros l Hl. apply tuple_field_spec in Hd as (l' & Hd & Hl').
    rewrite (Hl' _ Hl) in Hd. rewrite Hd in E11. by injection E11.
Qed.
End decoded.

Section decoded_facts.
Context `{FloatText} `{Digest}.

Lemma decodes_elem task attempt p d vs l e : decodes task attempt p d vs l → e ∈ l →
  ∃ r p' d' d'', PDict r ∈ vs ∧ attempt_record (PDict r) = Some r ∧ decode_record r task attempt p' d' = Ok (e, d'').
Proof.
  induction 1 as [|? ? ? ? ? _ _ IH|p d v vs r e' d' l Er He _ IH]; intros Hin.
  - by apply elem_of_nil in Hin.
  - destruct IH as (r & ? & ? & ? & ? & ?); [done|]. exists r. do 3 eexists. split; [by right|eauto].
  - assert (v = PDict r) as ->. { destruct v; try done. cbn in Er. by case_match; simplify_eq. }
    apply elem_of_cons in Hin as [->|Hin]; [exists r, p, d, d'; split_and!; [by left|done|done]|].
    destruct IH as (r' & ? & ? & ? & ? & ?); [done|]. exists r'. do 3 eexists. split; [by right|eauto].
Qed.
Lemma decodes_record task attempt p d vs l r : decodes task attempt p d vs l → PDict r ∈ vs →
  attempt_record (PDict r) = Some r →
  ∃ e p' d' d'', e ∈ l ∧ decode_record r task attempt p' d' = Ok (e, d'').
Proof.
  intros Hd Hin Hr. induction Hd as [|p d v vs l Hn _ IH|p d v vs r' e' d' l Er He _ IH].
  - by apply elem_of_nil in Hin.
  - apply elem_of_cons in Hin as [Ev|Hin]; [congruence|auto].
  - apply elem_of_cons in Hin as [Ev|Hin].
    + subst v. rewrite Hr in Er. injection Er as <-. exists e', p, d, d'. split; [by left|done].
    + destruct IH as (e & ? & ? & ? & ? & ?); [done|]. exists e. do 3 eexists. split; [by right|eauto].
Qed.
(** Decoded events are a chain as soon as their sequences are. *)
Lemma decodes_chained task attempt p d vs l n : decodes task attempt p d vs l →
  map sequence l = map (λ i, n + Z.of_nat i)%Z (seq 0 (length l)) → chained task attempt n p l.
Proof.
  intros Hd. revert n. induction Hd as [|p d v vs l _ _ IH|p d v vs r e d' l _ He _ IH]; intros n; [constructor|auto|].
  cbn [map length seq]. intros [= Hn Hl]. apply decode_record_Ok in He as (? & ? & ? & ? & _).
  constructor; try done; [lia|]. apply IH. rewrite Hl, <- seq_shift, map_map. apply map_ext. lia.
Qed.
Lemma chained_sequences task attempt n h l : chained task attempt n h l →
  map sequence l = map (λ i, n + Z.of_nat i)%Z (seq 0 (length l)).
Proof.
  induction 1 as [|n h e l _ _ Hs _ _ _ IH]; [done|]. cbn [map length seq]. f_equal; [lia|].
  rewrite IH, <- seq_shift, map_map. apply map_ext. lia.
Qed.

(** ** Rehydration *)
(** A non-blank identity agrees with [x]; a known revision agrees with another. *)
Definition agrees (x s : string) : Prop := s = EmptyString ∨ s = x.
Definition certain (s : string) : Prop := s ≠ EmptyString ∧ s ≠ "unknown".
Definition revisions_agree (s s' : string) : Prop := certain s → certain s' → s = s'.

Lemma nonempty_true s : nonempty s = true ↔ s ≠ EmptyString.
Proof. unfold nonempty. by rewrite negb_true_iff, String.eqb_neq. Qed.
Lemma nonempty_false s : nonempty s = false ↔ s = EmptyString.
Proof. unfold nonempty. by rewrite negb_false_iff, String.eqb_eq. Qed.
(** [if a and a != b: raise]. *)
Lemma agrees_check a b : nonempty a && negb (String.eqb b a) = false ↔ agrees b a.
Proof. unfold agrees. rewrite andb_false_iff, nonempty_false, negb_false_iff, String.eqb_eq. naive_solver. Qed.
Lemma raise_if_iff b c msg : raise_if b c msg = Ok () ↔ b = false.
Proof. by destruct b. Qed.

Definition one_task (state : dict) (snapshot_task task : string) : Prop :=
  task = stripped (py_get state "task_id") ∧ task ≠ EmptyString ∧ agrees task (strip snapshot_task).
Lemma rehydrated_task_iff state snap task : rehydrated_task state snap = Ok task ↔ one_task state snap task.
Proof.
  unfold rehydrated_task, one_task. cbv zeta. split.
  - intros E. run_ok E. apply negb_false_iff, nonempty_true in Hok. apply agrees_check in Hok0. by subst.
  - intros (-> & Hn & Ha). apply nonempty_true in Hn. rewrite Hn. cbn [negb raise_if mbind result_bind].
    by rewrite (proj2 (agrees_check _ _) Ha).
Qed.
Definition one_attempt (state : dict) (snapshot_attempt : string) (requested : option string) (attempt : string) : Prop :=
  attempt ≠ EmptyString ∧ agrees attempt (strip (default EmptyString requested)) ∧
  agrees attempt (strip snapshot_attempt) ∧
  (agrees attempt (stripped (py_get state "attempt_id"))) ∧
  Exists (λ s, s = attempt) [strip (default EmptyString requested); stripped (py_get state "attempt_id"); strip snapshot_attempt].
Lemma rehydrated_attempt_iff state snap requested attempt :
  rehydrated_attempt state snap requested = Ok attempt ↔ one_attempt state snap requested attempt.
Proof.
  unfold rehydrated_attempt, one_attempt. cbv zeta. set (r := strip (default _ _)). set (q := strip snap).
  set (p := stripped _). clearbody p q r. unfold agrees, or_text. rewrite !Exists_cons, Exists_nil.
  destruct (nonempty r) eqn:Er, (nonempty p) eqn:Ep, (nonempty q) eqn:Eq; cbn [andb negb].
  all: repeat match goal with
    | Hn : nonempty ?s = true |- _ => rewrite ?Hn; apply nonempty_true in Hn
    | Hn : nonempty ?s = false |- _ => rewrite ?Hn; apply nonempty_false in Hn
    end.
  all: cbn [negb raise_if mbind result_bind].
  all: repeat match goal with |- context [String.eqb ?x ?y] => destruct (String.eqb_spec x y) end.
  all: cbn [negb raise_if mbind result_bind].
  all: naive_solver.
Qed.

Definition revision_sources (state : dict) (keys contract_keys : list string) : string :=
  stripped (first_truthy (map (py_get state) keys ++ map (py_get (as_dict (py_get state "contract"))) contract_keys)).
Lemma effective_revision_iff label sources snap :
  (∃ o, effective_revision label sources snap = Ok o) ↔
  revisions_agree (stripped (first_truthy sources)) (strip snap).
Proof.
  unfold effective_revision, revisions_agree, certain. cbv zeta. set (p := stripped _). set (q := strip snap). clearbody p q.
  unfold nonempty. destruct (String.eqb_spec p EmptyString), (String.eqb_spec p "unknown"),
    (String.eqb_spec q EmptyString), (String.eqb_spec q "unknown"), (String.eqb_spec p q); cbn; naive_solver.
Qed.
Definition claim_field (claim : dict) (key x : string) : Prop :=
  let v := py_get (as_dict (py_get claim "identity")) key in truthy v = true → strip (py_str v) = x.
Lemma claims_other_false claim key x :
  claims_other (as_dict (py_get claim "identity")) key x = false ↔ claim_field claim key x.
Proof. unfold claims_other, claim_field. rewrite andb_false_iff, negb_false_iff, String.eqb_eq. destruct (truthy _); naive_solver. Qed.
(** What a work claim states of its identity agrees with the task. *)
Definition claim_agrees (claim : pyval) (task attempt source : string) : Prop := ∀ c, claim = PDict c →
  claim_field c "task_id" task ∧ claim_field c "attempt_id" attempt ∧
  (certain (strip source) → claim_field c "source_hash" (strip source)).
Lemma bind_work_claim_iff claim task attempt source :
  (∃ o, bind_work_claim claim task attempt source = Ok o) ↔ claim_agrees claim task attempt source.
Proof.
  unfold claim_agrees. destruct claim as [| | | | | | |c|]; try (split; [intros _ ? ?; done|eexists; done]).
  assert (nonempty (strip source) && negb (String.eqb (strip source) "unknown")
          && claims_other (as_dict (py_get c "identity")) "source_hash" (strip source) = false ↔
          (certain (strip source) → claim_field c "source_hash" (strip source))) as Hs.
  { rewrite <- claims_other_false. unfold certain, nonempty.
    destruct (String.eqb_spec (strip source) EmptyString), (String.eqb_spec (strip source) "unknown"); cbn; naive_solver. }
  cbn [bind_work_claim]. cbv zeta. split.
  - intros (o & E) ? [= <-]. run_ok E. rewrite claims_other_false in Hok, Hok0. rewrite Hs in Hok1. done.
  - intros Hc. destruct (Hc c eq_refl) as (?%claims_other_false & ?%claims_other_false & ?%Hs).
    rewrite !raise_if_false by done. cbn. eauto.
Qed.

Definition well_shaped (state : dict) : Prop :=
  Forall (λ key, mapping_or_none (py_get state key) = true) ["candidate"; "promotion_packet"; "verified_receipt"; "contract"] ∧
  (py_get state "work_claim" = PNone ∨
   ∃ c i, py_get state "work_claim" = PDict c ∧ py_get c "identity" = PDict i).
Lemma check_mappings_iff state names :
  check_mappings state names = Ok () ↔ Forall (λ key, mapping_or_none (py_get state key) = true) names.
Proof.
  induction names as [|key names IH]; cbn [check_mappings]; [by split|]. rewrite Forall_cons, <- IH.
  destruct (mapping_or_none _); cbn; naive_solver.
Qed.
Lemma check_state_iff state : check_state state = Ok () ↔ well_shaped state.
Proof.
  unfold check_state, well_shaped. split.
  - intros ([] & Hm%check_mappings_iff & E)%bind_Ok_inv. split; [done|].
    destruct (py_get state "work_claim") as [| | | | | | |c|]; try done; [by left|right].
    apply raise_if_Ok_inv, negb_false_iff in E. destruct (py_get c "identity") as [| | | | | | |i|] eqn:Ei; try done. eauto.
  - intros (Hm & Hc). rewrite (proj2 (check_mappings_iff _ _) Hm). cbn [mbind result_bind].
    by destruct Hc as [->|(c & i & -> & ->)].
Qed.
End decoded_facts.

(** * Properties *)
Section properties.
Context `{FloatText} `{Digest}.

(** The part of [resume] after its checks of identity, on a tail that is not empty. *)
Lemma resume_tail_iff first pre e tail context :
  let s := snapshot_of first pre in
  pre ≠ [] → head pre = Some first → chained (task_id first) (attempt_id first) 1 EmptyString pre →
  Forall (same_revision (source_revision first) (contract_revision first)) pre →
  (_ ← raise_if (existsb (λ e, negb (String.eqb (source_revision e) (s_source_revision s))
                               || negb (String.eqb (contract_revision e) (s_contract_revision s))) (e :: tail))
         ValueError "tail source or contract revision drift";
   _ ← raise_if (negb (sequence e =? last_sequence s + 1)%Z || negb (String.eqb (previous_hash e) (event_root s)))
         ValueError "tail does not extend snapshot";
   _ ← _validate_chain (e :: tail) (task_id first) (attempt_id first) (last_sequence s + 1) (event_root s);
   merged ← _project_tail s e tail; Ok (context_of merged)) = Ok context ↔
  ∃ s', project (pre ++ e :: tail) = Ok s' ∧ context = context_of s'.
Proof.
  intros s Hne Hhd Hc Hr. assert (end_hash EmptyString pre = event_root s) as <- by by rewrite (last_event_end first).
  assert (last_sequence s + 1 = 1 + Z.of_nat (length pre))%Z as ->.
  { unfold s. cbn [last_sequence snapshot_of sealed]. destruct pre as [|e' pre _] using rev_ind; [done|].
    rewrite last_event_snoc, (chained_last _ _ _ _ _ _ Hc), length_app. cbn. lia. }
  destruct pre as [|first' rest]; [done|]. injection Hhd as ->. split.
  - intros E. apply bind_Ok_inv in E as (? & Hd%raise_if_Ok_inv%drift_check & (? & _ & ([] & [_ Hch]%validate_chain_iff & E)%bind_Ok_inv)%bind_Ok_inv).
    unfold s in E. rewrite project_tail_snapshot in E. cbn [mbind result_bind] in E. injection E as <-.
    eexists. split; [|done]. apply project_iff. exists first, (rest ++ e :: tail).
    split_and!; [done|by apply chained_app|by apply Forall_app|done].
  - intros (s' & (first' & rest' & [= <- <-] & Hc' & Hr' & ->)%project_iff & ->).
    apply chained_app in Hc' as [_ Hch]. apply Forall_app in Hr' as [_ Hr'].
    rewrite (proj2 (drift_check s _)) by done. cbn [raise_if mbind result_bind].
    inversion Hch as [|? ? ? ? _ _ Hsq Hph _ _]; subst. rewrite Hsq, Hph, Z.eqb_refl, String.eqb_refl.
    cbn [negb orb raise_if mbind result_bind]. rewrite (proj2 (validate_chain_iff _ _ _ _ _)) by done.
    cbn [mbind result_bind]. unfold s. by rewrite project_tail_snapshot.
Qed.

Lemma resume_iff pre tail s task attempt source contract h context :
  project pre = Ok s →
  resume s tail task attempt source contract h = Ok context ↔
  task = s_task_id s ∧ attempt = s_attempt_id s ∧ source = s_source_revision s ∧
  contract = s_contract_revision s ∧ (∀ x, h = Some x → x = _snapshot_digest s) ∧
  ∃ s', project (pre ++ tail) = Ok s' ∧ context = context_of s'.
Proof.
  intros Hpre.
  pose proof (project_intact _ _ Hpre) as Hint. pose proof Hpre as Hpre'.
  apply project_iff in Hpre' as (first & rest & Epre & Hc & Hr & Es).
  unfold resume. rewrite (proj2 (snapshot_integrity_iff s) Hint). cbn [mbind result_bind].
  assert (s_schema s = SCHEMA) as -> by by rewrite Es. rewrite String.eqb_refl. cbn [negb orb].
  destruct (String.eqb_spec (s_task_id s) task) as [<-|]; [|split; [done|naive_solver]].
  destruct (String.eqb_spec (s_attempt_id s) attempt) as [<-|]; [|split; [done|naive_solver]].
  cbn [negb orb raise_if mbind result_bind].
  assert ((match h with Some x => negb (String.eqb x (_snapshot_digest s)) | None => false end) = false ↔
    ∀ x, h = Some x → x = _snapshot_digest s) as Hh.
  { destruct h as [x|]; [|naive_solver]. rewrite negb_false_iff, String.eqb_eq. naive_solver. }
  destruct (match h with Some _ => _ | None => _ end);
    [split; [done|intros (_ & _ & _ & _ & Hx & _); by apply Hh in Hx]|].
  cbn [raise_if mbind result_bind].
  destruct (String.eqb_spec (s_source_revision s) source) as [<-|]; [|split; [done|naive_solver]].
  destruct (String.eqb_spec (s_contract_revision s) contract) as [<-|]; [|split; [done|naive_solver]].
  cbn [negb orb raise_if mbind result_bind].
  destruct tail as [|e tail].
  - rewrite app_nil_r. split; [intros [= <-]|intros (_ & _ & _ & _ & _ & s' & Hs' & ->); congruence].
    split_and!; try done; [by apply Hh|eauto].
  - assert (pre ≠ [] ∧ head pre = Some first) as [Hne Hhd] by by rewrite Epre.
    pose proof (resume_tail_iff first pre e tail context Hne Hhd Hc Hr) as Ht.
    rewrite <- Es in Ht. replace (task_id first) with (s_task_id s) in Ht by by rewrite Es.
    replace (attempt_id first) with (s_attempt_id s) in Ht by by rewrite Es. rewrite Ht.
    split; [intros ?; split_and!; try done; by apply Hh|by intros (_ & _ & _ & _ & _ & ?)].
Qed.

(** C17: resuming is projecting.  From the snapshot of a prefix of a stream, [resume] with the
    rest returns exactly what projecting the whole stream gives, whenever the caller names
    the task, the attempt and the revisions of the snapshot (and its hash, if any); it raises
    when one of these differs or the whole stream cannot be projected.  So a snapshot never
    loses or changes what the events say, however often a stream is cut. *)
Theorem resume_is_projection pre tail s task attempt source contract h context
    (Hpre : project pre = Ok s) :
  resume s tail task attempt source contract h = Ok context ↔
  task = s_task_id s ∧ attempt = s_attempt_id s ∧ source = s_source_revision s ∧
  contract = s_contract_revision s ∧ (∀ x, h = Some x → x = _snapshot_digest s) ∧
  ∃ s', project (pre ++ tail) = Ok s' ∧ context = context_of s'.
Proof. by apply resume_iff. Qed.
(** Chains that end in the same hash are the same, read from the end. *)
Lemma chains_agree task attempt task' attempt' l l' :
  chained task attempt 1 EmptyString l → chained task' attempt' 1 EmptyString l' → l ≠ [] → l' ≠ [] →
  end_hash EmptyString l = end_hash EmptyString l' →
  l = l' ∨ ∃ e e', e ∈ l ∧ e' ∈ l' ∧ collision (utf8 (event_text e)) (utf8 (event_text e')).
Proof.
  revert l'. induction l as [|e l IH] using rev_ind; [done|]. intros l' Hc Hc' _ Hne' Eh.
  destruct l' as [|e' l' _] using rev_ind; [done|]. unfold end_hash in Eh. rewrite !last_snoc in Eh. cbn in Eh.
  pose proof (chained_last _ _ _ _ _ _ Hc) as Hs. pose proof (chained_last _ _ _ _ _ _ Hc') as Hs'.
  apply chained_app in Hc as [Hc He], Hc' as [Hc' He'].
  inversion_clear He as [|? ? ? ? _ _ _ Hp Hh _]. inversion_clear He' as [|? ? ? ? _ _ _ Hp' Hh' _].
  assert (text_sha256 (event_text e) = text_sha256 (event_text e')) as Et by (unfold event_seal in *; congruence).
  apply text_sha256_inj in Et as [Et|Hcol]; [|right; exists e, e'; split_and!; [set_solver|set_solver|done]].
  pose proof (event_text_inj e e' Et Eh) as ->.
  destruct (decide (l = [])) as [->|Hl], (decide (l' = [])) as [->|Hl'].
  - by left.
  - exfalso. destruct l'; [done|]. cbn in *. lia.
  - exfalso. destruct l; [done|]. cbn in *. lia.
  - destruct (IH l' Hc Hc' Hl Hl') as [->|(e1 & e2 & ? & ? & ?)]; [congruence|by left|].
    right. exists e1, e2. split_and!; [set_solver|set_solver|done].
Qed.

(** The root of a snapshot is its history.  Two streams that project to snapshots with
    the same root hash are the same stream, event by event, or two of their events have
    texts that collide under SHA-256: nothing can be inserted, dropped, reordered or altered
    behind a root that is known. *)
Theorem root_determines_stream l l' s s' (Hl : project l = Ok s) (Hl' : project l' = Ok s')
    (Hroot : event_root s = event_root s') :
  l = l' ∨ ∃ e e', e ∈ l ∧ e' ∈ l' ∧ collision (utf8 (event_text e)) (utf8 (event_text e')).
Proof.
  apply project_iff in Hl as (first & rest & El & Hc & _ & ->), Hl' as (first' & rest' & El' & Hc' & _ & ->).
  cbn in Hroot. assert (l ≠ [] ∧ l' ≠ []) as [Hne Hne'] by by subst.
  eapply chains_agree; try done. by rewrite (last_event_end first), (last_event_end first').
Qed.

(** What the log records can be projected.  Events decoded from attempt records are
    those of the attempt asked for, sealed and chained in the order of the records, with no
    rejected attempt read as anything else; and they project to a snapshot exactly when
    their sequences are 1, 2, 3, ... and no revision changes on the way. *)
Theorem decoded_events_project records task attempt events
    (Hd : events_from_attempt_records records task attempt = Ok events) :
  Forall (λ e, task_id e = task ∧ attempt_id e = attempt ∧ event_hash e = event_seal e ∧
               (summary e ∈ REJECTED_STATES → event_type e = "ATTEMPT_REJECTED")) events ∧
  ((∃ s, project events = Ok s) ↔
   map sequence events = map Z.of_nat (seq 1 (length events)) ∧
   ∃ source contract, Forall (same_revision source contract) events).
Proof.
  apply bind_Ok_inv in Hd as (l & Hl%decode_records_iff & E).
  destruct l as [|first rest]; [done|]. injection E as <-. split.
  - apply Forall_forall. intros e He. destruct (decodes_elem _ _ _ _ _ _ _ Hl He) as (r & p & d & d' & _ & _ & Hr).
    apply decode_record_Ok in Hr. tauto.
  - assert (task_id first = task ∧ attempt_id first = attempt) as [Et Ea].
    { destruct (decodes_elem _ _ _ _ _ _ first Hl) as (r & p & d & d' & _ & _ & Hr); [by left|].
      apply decode_record_Ok in Hr. tauto. }
    assert (∀ l : list ContinuityEvent, map Z.of_nat (seq 1 (length l)) = map (λ i, 1 + Z.of_nat i)%Z (seq 0 (length l))) as Hseq.
    { intros l. rewrite <- seq_shift, map_map. apply map_ext. lia. }
    rewrite Hseq. split.
    + intros (s & (? & ? & [= <- <-] & Hc & Hr & _)%project_iff). split; [by eapply chained_sequences|eauto].
    + intros (Hs & source & contract & Hr). eexists. apply project_iff. exists first, rest. split_and!; [done| | |done].
      * rewrite Et, Ea. by eapply decodes_chained.
      * destruct (Forall_inv Hr) as [-> ->]. done.
Qed.

(** A resumed context is the one of the whole stream. *)
Lemma resumed_context pre tail s task attempt source contract h context :
  project pre = Ok s → resume s tail task attempt source contract h = Ok context →
  ∃ s', project (pre ++ tail) = Ok s' ∧ context = context_of s'.
Proof.
  intros Hpre Hres. apply (resume_iff pre) in Hres; [|done]. by destruct Hres as (_ & _ & _ & _ & _ & ?).
Qed.

(** C23: a rejected strategy is never forgotten.  Take any cut of the decoded stream of an
    attempt into a snapshot and a tail.  If a record of the attempt has a rejected state,
    each strategy it says not to repeat is among those of the resumed context, and among
    those of every rehydration of its snapshot, whatever the task state, the envelope and
    the attempt requested. *)
Theorem rejected_strategy_never_forgotten records task attempt pre tail s source contract h context r payload l
    strategy
    (Hd : events_from_attempt_records records task attempt = Ok (pre ++ tail))
    (Hpre : project pre = Ok s) (Hres : resume s tail task attempt source contract h = Ok context)
    (Hin : PDict r ∈ records) (Hr : is_text (py_get r "event_type") "attempt_transition" = true)
    (Hp : py_get r "payload" = PDict payload)
    (Hstate : ∃ state, py_get payload "state" = PStr state ∧ state ∈ REJECTED_STATES)
    (Hl : dict_get "do_not_repeat" payload = Some (PList l)) (Hs : PStr strategy ∈ l) :
  strategy ∈ r_do_not_repeat context ∧
  ∀ state envelope requested p, build_rehydration_projection state (r_snapshot context) envelope requested = Ok p →
    ∃ known, py_get (continuation p) "do_not_repeat" = str_list known ∧ strategy ∈ known.
Proof.
  assert (strategy ∈ r_do_not_repeat context) as Hkept; [|split; [done|]].
  { apply bind_Ok_inv in Hd as (events & Hd%decode_records_iff & E).
    destruct events as [|e0 events]; [done|]. injection E as E.
    destruct (decodes_record _ _ _ _ _ _ r Hd Hin) as (e & p & d & d' & He & Hdec); [by cbn; rewrite Hr|].
    apply decode_record_Ok in Hdec as (_ & _ & _ & _ & Htype & payload' & Hp' & Hst & _ & Hdnr).
    rewrite Hp in Hp'. injection Hp' as <-. destruct Hstate as (state & Hst' & Hrej).
    assert (event_type e = "ATTEMPT_REJECTED") as Ht by (apply Htype; rewrite Hst in Hst'; by injection Hst' as ->).
    rewrite (Hdnr l) in Hs by by left.
    apply list_elem_of_In, in_map_iff in Hs as (? & [= ->] & Hs%list_elem_of_In).
    apply (resumed_context pre) in Hres as (s' & (first & rest & _ & _ & _ & ->)%project_iff & ->); [|done].
    apply elem_of_from_keys. eapply rejected_absorbed; [|done|done]. by rewrite <- E. }
  intros state envelope requested p E. exists (rejected_strategies (known (r_snapshot context))).
  apply (resumed_context pre) in Hres as (s' & _ & ->); [|done]. split; [|done].
  unfold build_rehydration_projection in E. destruct state; try (apply bind_Ok_inv in E as (? & _ & E); done).
  run_ok E. by subst.
Qed.

(** A session is rehydrated only into its own task.  A projection is built exactly when
    the snapshot is intact, the state is well shaped, and state, snapshot, request and work
    claim agree on the task, the attempt and the two revisions, a blank identity agreeing
    with any and an [unknown] revision too.  The projection then names that task and that
    attempt, and carries the failed attempts, rejected strategies, risks, unknowns and
    evidence of the snapshot unchanged. *)
Theorem rehydration_iff state s envelope requested :
  ((∃ p, build_rehydration_projection (PDict state) s envelope requested = Ok p) ↔
   _snapshot_digest s = text_sha256 (snapshot_text s) ∧ well_shaped state ∧
   ∃ task attempt, one_task state (s_task_id s) task ∧ one_attempt state (s_attempt_id s) requested attempt ∧
     revisions_agree (revision_sources state ["source_revision"; "controller_revision"]
                        ["controller_revision"; "source_revision"]) (strip (s_source_revision s)) ∧
     revisions_agree (revision_sources state ["contract_revision"; "contract_hash"]
                        ["contract_hash"; "contract_revision"]) (strip (s_contract_revision s)) ∧
     claim_agrees (py_get state "work_claim") task attempt (s_source_revision s)) ∧
  ∀ p, build_rehydration_projection (PDict state) s envelope requested = Ok p →
    (∃ task attempt, one_task state (s_task_id s) task ∧ one_attempt state (s_attempt_id s) requested attempt ∧
       task_identity p = [("task_id", PStr task); ("attempt_id", PStr attempt)]) ∧
    map (py_get (continuation p)) ["failed_attempts"; "rejected_strategies"; "unresolved_risks"; "unknowns"; "evidence_refs"] =
    map str_list [failed_attempts (known s); rejected_strategies (known s); known_risks (known s);
                  known_unknowns (known s); known_evidence (known s)].
Proof.
  assert (sealed s = s ↔ _snapshot_digest s = text_sha256 (snapshot_text s)) as Hint.
  { unfold sealed. split; [intros E; by rewrite <- E at 1|intros <-; by destruct s]. }
  rewrite <- Hint, <- snapshot_integrity_iff, <- check_state_iff. unfold build_rehydration_projection. split.
  - split.
    + intros (p & E). apply bind_Ok_inv in E as ([] & Hi & ([] & Hc & (task & Ht & (attempt & Ha & E)%bind_Ok_inv)%bind_Ok_inv)%bind_Ok_inv).
      apply bind_Ok_inv in E as (source & Hs & (revision & Hr & (claim & Hcl & _)%bind_Ok_inv)%bind_Ok_inv).
      split_and!; [done|done|]. exists task, attempt. rewrite <- rehydrated_task_iff, <- rehydrated_attempt_iff.
      split_and!; [done|done|eapply effective_revision_iff; by eexists..|eapply bind_work_claim_iff; by eexists].
    + intros (-> & -> & task & attempt & ->%rehydrated_task_iff & Ha%rehydrated_attempt_iff & Hs & Hr & Hcl).
      cbn [mbind result_bind]. rewrite Ha. cbn [mbind result_bind].
      apply (effective_revision_iff "SOURCE") in Hs as (source & Hs).
      apply (effective_revision_iff "CONTRACT") in Hr as (revision & Hr). cbn [map app] in Hs, Hr. rewrite Hs. cbn [mbind result_bind].
      rewrite Hr. cbn [mbind result_bind]. apply bind_work_claim_iff in Hcl as (claim & ->). cbn. eauto.
  - intros p E. apply bind_Ok_inv in E as ([] & _ & ([] & _ & (task & Ht%rehydrated_task_iff & (attempt & Ha%rehydrated_attempt_iff & E)%bind_Ok_inv)%bind_Ok_inv)%bind_Ok_inv).
    apply bind_Ok_inv in E as (source & _ & (revision & _ & (claim & _ & [= <-])%bind_Ok_inv)%bind_Ok_inv).
    split; [eauto|]. done.
Qed.
End properties.

(** * Witnesses *)
#[local] Existing Instance Sha256_Digest.
#[local] Existing Instance Dyadic_FloatText.

Module Witness.
Definition payload (n : Z) (state kind : string) (extra : dict) : dict := [
  ("task_id", PStr "t-1"); ("attempt_id", PStr "a-1"); ("sequence", PInt n); ("state", PStr state);
  ("continuity_event_type", PStr kind); ("source_revision", PStr "r1"); ("contract_revision", PStr "c1")] ++ extra.
(** An attempt record with its digests. *)
Definition record (parent : string) (p : dict) : dict :=
  let unsigned := [("event_type", PStr "attempt_transition"); ("payload", PDict p);
                   ("_attempt_parent_digest", PStr parent)] in
  match _digest (PDict unsigned) with
  | Ok d => unsigned ++ [("_attempt_record_digest", PStr d)]
  | Err _ => []
  end.
Definition digest_of (r : dict) : string := text_of (py_get r "_attempt_record_digest").
Definition rejected : dict := payload 2 "REJECTED" "ATTEMPT_REJECTED" [
  ("do_not_repeat", PList [PStr "widen the scope"]); ("reason", PStr "verifier")].
Definition r1 : dict := Eval vm_compute in record zero_digest (payload 1 "PLANNED" "PLAN_FORMED" []).
Definition r2 : dict := Eval vm_compute in record (digest_of r1) rejected.
Definition r3 : dict := Eval vm_compute in record (digest_of r2)
  (payload 3 "RETRIED" "OBSERVATION_RECORDED" [("observation", PStr "tests pass")]).
Definition records : list pyval := [PDict r1; PStr "noise"; PDict r2; PDict r3].
Definition decoded : result (list ContinuityEvent) := events_from_attempt_records records "t-1" "a-1".
Definition events : list ContinuityEvent := Eval vm_compute in match decoded with Ok l => l | Err _ => [] end.
Definition no_snapshot : ContinuitySnapshot := {|
  s_schema := EmptyString; s_task_id := EmptyString; s_attempt_id := EmptyString; first_sequence := 0;
  last_sequence := 0; event_root := EmptyString; s_source_revision := EmptyString;
  s_contract_revision := EmptyString; known := no_knowledge; _snapshot_digest := EmptyString |}.
Definition snapshot (l : list ContinuityEvent) : ContinuitySnapshot :=
  match project l with Ok s => s | Err _ => no_snapshot end.
Definition s1 : ContinuitySnapshot := Eval vm_compute in snapshot (firstn 1 events).
Definition s3 : ContinuitySnapshot := Eval vm_compute in snapshot events.
Definition state : dict := [("task_id", PStr " t-1 "); ("source_revision", PStr "unknown")].
End Witness.
Import Witness.

Lemma decoded_events_project_witness :
  decoded = Ok events ∧
  ((∃ s, project events = Ok s) ↔
   map sequence events = [1; 2; 3]%Z ∧ ∃ source contract, Forall (same_revision source contract) events).
Proof.
  split; [vm_compute; reflexivity|].
  destruct (decoded_events_project records "t-1" "a-1" events) as [_ Hp]; [vm_compute; reflexivity|exact Hp].
Defined.

Lemma resume_is_projection_witness :
  project (firstn 1 events) = Ok s1 ∧ project events = Ok s3 ∧
  resume s1 (skipn 1 events) "t-1" "a-1" "r1" "c1" None = Ok (context_of s3).
Proof.
  assert (project (firstn 1 events) = Ok s1) as Hs by (vm_compute; reflexivity).
  assert (project events = Ok s3) as Hs' by (vm_compute; reflexivity).
  split; [exact Hs|]. split; [exact Hs'|].
  apply (resume_is_projection (firstn 1 events) (skipn 1 events) s1); [exact Hs|].
  refine (conj eq_refl (conj eq_refl (conj eq_refl (conj eq_refl (conj _ _))))); [intros x [=]|].
  exists s3. split; [exact Hs'|reflexivity].
Defined.

Lemma root_determines_stream_witness :
  project events = Ok s3 ∧
  ∀ l, project l = Ok s3 →
    events = l ∨ ∃ e e', e ∈ events ∧ e' ∈ l ∧ collision (utf8 (event_text e)) (utf8 (event_text e')).
Proof.
  assert (project events = Ok s3) as Hs by (vm_compute; reflexivity). split; [exact Hs|]. intros l Hl.
  exact (root_determines_stream events l s3 s3 Hs Hl eq_refl).
Defined.

(** Only the second record is a rejection; the snapshot was taken before it. *)
Lemma rejected_strategy_never_forgotten_witness :
  project (firstn 1 events) = Ok s1 ∧ rejected_strategies (known s1) = [] ∧
  "widen the scope" ∈ r_do_not_repeat (context_of s3) ∧
  match build_rehydration_projection (PDict state) s3 None None with
  | Ok p => ∃ known, py_get (continuation p) "do_not_repeat" = str_list known ∧ "widen the scope" ∈ known
  | Err _ => False
  end.
Proof.
  assert (project (firstn 1 events) = Ok s1) as Hs by (vm_compute; reflexivity).
  split; [exact Hs|]. split; [reflexivity|].
  assert (is_ok (build_rehydration_projection (PDict state) s3 None None) = true) as Hok by (vm_compute; reflexivity).
  destruct (rejected_strategy_never_forgotten records "t-1" "a-1" (firstn 1 events) (skipn 1 events) s1
    "r1" "c1" None (context_of s3) r2 rejected [PStr "widen the scope"] "widen the scope") as [Hk Hp];
    [vm_compute; reflexivity|exact Hs|vm_compute; reflexivity|right; right; left|vm_compute; reflexivity|
     vm_compute; reflexivity|exists "REJECTED"; split; [reflexivity|right; left]|reflexivity|left|].
  split; [exact Hk|]. destruct (build_rehydration_projection (PDict state) s3 None None) as [p|] eqn:E; [|discriminate Hok].
  exact (Hp (PDict state) None None p E).
Defined.

(** The log digests a record over its characters, the decoder over their ASCII escapes: the
    same record, digested by the log's [json.dumps(..., ensure_ascii=False)], is refused as
    tampered when its text has a character beyond ASCII. *)
Definition log_digest (r : dict) : string :=
  match json_sha256 false true (PDict r) with Ok h => h | Err _ => EmptyString end.
Definition logged (observation : string) : dict :=
  let unsigned := [("event_type", PStr "attempt_transition");
    ("payload", PDict (payload 1 "PLANNED" "PLAN_FORMED" [("observation", PStr observation)]));
    ("_attempt_parent_digest", PStr zero_digest)] in
  unsigned ++ [("_attempt_record_digest", PStr (log_digest unsigned))].
Example ascii_record_decodes :
  is_ok (events_from_attempt_records [PDict (logged "tests pass")] "t-1" "a-1") = true.
Proof. vm_compute. reflexivity. Qed.
Example accented_record_is_refused :
  events_from_attempt_records [PDict (logged (String (Ascii.ascii_of_N 233) "t"))] "t-1" "a-1" =
  raise ValueError "continuity record tampered".
Proof. vm_compute. reflexivity. Qed.
