(* ===== verification/AttemptEvent.v ===== *)
(** * Events of an attempt ([src/src/nexus_runtime/kernel/events/contracts.py])

    The transition of one task attempt and the events the lifecycle hooks build.  A frozen
    dataclass keeps its arguments: the fields are values, [new_transition] is the
    constructor's validation, and the clock is an argument. *)
From Stdlib Require Import String SpecFloat.
From S2P Require Import Prelude PyValue.

Definition PHASE_OBSERVER_HOOKS : list string := [
  "on_phase_start"; "on_phase_end"; "on_phase_fail"; "on_phase_retry"; "on_phase_block";
  "on_phase_cancel"; "on_phase_timeout"; "on_phase_reconcile"; "on_task_terminal"].
Definition REJECTED_STATES : list string := ["ATTEMPT_REJECTED"; "REJECTED"].
Definition MAX_CONTINUITY_COLLECTION_ITEMS : nat := 64.
Definition TRANSITION_SCHEMA := "nexus.attempt_transition.v1".

(** A non-blank string. *)
Definition filled (v : pyval) : bool := match v with PStr s => negb (blank s) | _ => false end.
Definition _continuity_sequence (name : string) (v : pyval) : result (list pyval) :=
  match v with
  | PNone => Ok []
  | PList l | PTuple l =>
      _ ← raise_if (negb (forallb filled l)) ValueError (name +:+ " must contain non-empty strings");
      _ ← raise_if (MAX_CONTINUITY_COLLECTION_ITEMS <? length l) ValueError (name +:+ " exceeds bounded size 64");
      Ok l
  | _ => raise ValueError (name +:+ " must be a list/tuple of non-empty strings")
  end.

Record AttemptTransitionEvent : Type := {
  task_id : pyval; attempt_id : pyval; sequence : pyval; state : pyval; reason : pyval;
  continuity_event_type : pyval; strategy_delta : pyval; action : pyval; observation : pyval;
  do_not_repeat : pyval; unresolved_risks : pyval; unknowns : pyval;
  next_action : pyval; claim_ceiling : pyval; candidate_refs : pyval; evidence_refs : pyval;
  source_revision : pyval; contract_revision : pyval; timestamp : pyval; schema : pyval
}.

(** [isinstance(v, bool) or v < 1]: a float may be a sequence. *)
Definition not_positive (v : pyval) : result bool :=
  match v with
  | PBool _ => Ok true
  | PInt n => Ok (n <? 1)%Z
  | PFloat f => Ok (SFltb f (S754_finite false 1 0))
  | _ => raise TypeError ("'<' not supported between instances of '" +:+ type_name_of v +:+ "' and 'int'")
  end.
Fixpoint check_texts (fields : list (string * pyval)) : result unit :=
  match fields with
  | [] => Ok ()
  | (name, v) :: fields =>
      _ ← raise_if (negb (is_str v)) ValueError (name +:+ " must be a string");
      check_texts fields
  end.
Fixpoint check_tuples (fields : list (string * pyval)) : result unit :=
  match fields with
  | [] => Ok ()
  | (name, PTuple l) :: fields =>
      _ ← raise_if (MAX_CONTINUITY_COLLECTION_ITEMS <? length l) ValueError (name +:+ " exceeds bounded size 64");
      check_tuples fields
  | (name, _) :: _ => raise ValueError (name +:+ " must be a tuple")
  end.
Definition tuple_items (v : pyval) : list pyval := match v with PTuple l => l | _ => [] end.
(** [__post_init__]. *)
Definition check_transition (e : AttemptTransitionEvent) : result unit :=
  _ ← raise_if (negb (is_text (schema e) TRANSITION_SCHEMA)) ValueError "unsupported attempt transition schema";
  _ ← raise_if (negb (is_str (task_id e)) || negb (is_str (attempt_id e))) ValueError
        "task_id and attempt_id must be strings";
  _ ← raise_if (negb (filled (task_id e)) || negb (filled (attempt_id e))) ValueError
        "task_id and attempt_id are required";
  low ← not_positive (sequence e);
  _ ← raise_if low ValueError "sequence must be a positive integer";
  _ ← raise_if (negb (filled (state e))) ValueError "state is required";
  _ ← raise_if (negb (is_str (reason e))) ValueError "reason must be a string";
  _ ← raise_if (negb (filled (continuity_event_type e))) ValueError "continuity_event_type is required";
  _ ← raise_if (text_in (text_of (state e)) REJECTED_STATES
                && negb (is_text (continuity_event_type e) "ATTEMPT_REJECTED")) ValueError
        "rejected state requires ATTEMPT_REJECTED continuity type";
  _ ← check_texts [("strategy_delta", strategy_delta e); ("next_action", next_action e);
        ("claim_ceiling", claim_ceiling e); ("action", action e); ("observation", observation e)];
  _ ← raise_if (negb (is_str (source_revision e)) || negb (is_str (contract_revision e))) ValueError
        "source and contract revisions must be strings";
  _ ← raise_if (match timestamp e with PInt _ | PFloat _ => false | _ => true end) ValueError
        "timestamp must be numeric";
  _ ← check_tuples [("do_not_repeat", do_not_repeat e); ("unresolved_risks", unresolved_risks e);
        ("unknowns", unknowns e); ("candidate_refs", candidate_refs e); ("evidence_refs", evidence_refs e)];
  raise_if (negb (forallb (λ v, forallb filled (tuple_items v))
              [do_not_repeat e; unresolved_risks e; unknowns e; candidate_refs e; evidence_refs e]))
    ValueError "continuity fields must contain non-empty strings".
Definition new_transition (e : AttemptTransitionEvent) : result AttemptTransitionEvent :=
  _ ← check_transition e; Ok e.
(** [to_dict]. *)
Definition transition_dict (e : AttemptTransitionEvent) : dict := [
  ("task_id", task_id e); ("attempt_id", attempt_id e); ("sequence", sequence e); ("state", state e);
  ("reason", reason e); ("continuity_event_type", continuity_event_type e);
  ("strategy_delta", strategy_delta e); ("action", action e); ("observation", observation e);
  ("do_not_repeat", PList (tuple_items (do_not_repeat e)));
  ("unresolved_risks", PList (tuple_items (unresolved_risks e)));
  ("unknowns", PList (tuple_items (unknowns e))); ("next_action", next_action e);
  ("claim_ceiling", claim_ceiling e); ("candidate_refs", PList (tuple_items (candidate_refs e)));
  ("evidence_refs", PList (tuple_items (evidence_refs e))); ("source_revision", source_revision e);
  ("contract_revision", contract_revision e); ("timestamp", timestamp e); ("schema", schema e)].

(** [build_attempt_transition_event]: the bounded collections may be lists here; the schema
    and the timestamp of [e] are not arguments. *)
Definition build_attempt_transition_event (e : AttemptTransitionEvent) (now : spec_float) :
    result AttemptTransitionEvent :=
  do_not_repeat ← _continuity_sequence "do_not_repeat" (do_not_repeat e);
  unresolved_risks ← _continuity_sequence "unresolved_risks" (unresolved_risks e);
  unknowns ← _continuity_sequence "unknowns" (unknowns e);
  candidate_refs ← _continuity_sequence "candidate_refs" (candidate_refs e);
  evidence_refs ← _continuity_sequence "evidence_refs" (evidence_refs e);
  new_transition {|
    task_id := task_id e; attempt_id := attempt_id e; sequence := sequence e; state := state e;
    reason := reason e; continuity_event_type := continuity_event_type e;
    strategy_delta := strategy_delta e; action := action e; observation := observation e;
    do_not_repeat := PTuple do_not_repeat; unresolved_risks := PTuple unresolved_risks;
    unknowns := PTuple unknowns; next_action := next_action e; claim_ceiling := claim_ceiling e;
    candidate_refs := PTuple candidate_refs; evidence_refs := PTuple evidence_refs;
    source_revision := source_revision e; contract_revision := contract_revision e;
    timestamp := PFloat now; schema := PStr TRANSITION_SCHEMA |}.

(** ** Hook events *)
Record NexusEvent : Type := {
  event_id : string; event_task : string; phase : string; event_type : string; payload : dict;
  event_time : spec_float; metadata : dict
}.
(** [millis] is [int(time.time() * 1000)]. *)
Definition hook_event (kind key name task phase : string) (payload : option dict) (millis : Z) (now : spec_float) :
    NexusEvent := {|
  event_id := "evt_" +:+ name +:+ "_" +:+ phase +:+ "_" +:+ int_text millis; event_task := task; phase := phase;
  event_type := kind; payload := dict_merge [(key, PStr name)] (default [] payload);
  event_time := now; metadata := [] |}.
Definition build_lifecycle_hook_event (task phase hook : string) : option dict → Z → spec_float → NexusEvent :=
  hook_event "lifecycle_hook" "hook" hook task phase.
Definition build_phase_transition_event (task phase transition : string) : option dict → Z → spec_float → NexusEvent :=
  hook_event "phase_transition" "transition" transition task phase.
Definition build_phase_observer_event (task phase hook : string) (payload : option dict) (millis : Z) (now : spec_float) :
    result NexusEvent :=
  _ ← raise_if (negb (text_in hook PHASE_OBSERVER_HOOKS)) ValueError ("unknown_phase_observer_hook:" +:+ hook);
  Ok (build_lifecycle_hook_event task phase hook payload millis now).

(** * Facts *)
Lemma check_texts_Ok fields : check_texts fields = Ok () → Forall (λ kv, is_str kv.2 = true) fields.
Proof.
  induction fields as [|[name v] fields IH]; cbn; [constructor|].
  intros ([] & Hv%raise_if_Ok_inv%negb_false_iff & ?)%bind_Ok_inv. constructor; auto.
Qed.
Lemma check_tuples_Ok fields : check_tuples fields = Ok () →
  Forall (λ kv, ∃ l, kv.2 = PTuple l ∧ length l ≤ MAX_CONTINUITY_COLLECTION_ITEMS) fields.
Proof.
  induction fields as [|[name v] fields IH]; cbn; [constructor|]. destruct v as [| | | | | |l| |]; try done.
  intros ([] & Hl%raise_if_Ok_inv%Nat.ltb_ge & ?)%bind_Ok_inv. constructor; [|auto]. by exists l.
Qed.
Definition bounded_texts (v : pyval) : Prop :=
  ∃ l, v = PTuple l ∧ forallb filled l = true ∧ length l ≤ MAX_CONTINUITY_COLLECTION_ITEMS.
(** What the constructor guarantees. *)
Lemma check_transition_Ok e : check_transition e = Ok () →
  Forall (λ v, filled v = true) [task_id e; attempt_id e; state e; continuity_event_type e] ∧
  (text_of (state e) ∈ REJECTED_STATES → continuity_event_type e = PStr "ATTEMPT_REJECTED") ∧
  Forall (λ v, is_str v = true) [reason e; strategy_delta e; next_action e; claim_ceiling e; action e; observation e;
    source_revision e; contract_revision e] ∧
  match timestamp e with PInt _ | PFloat _ => True | _ => False end ∧
  schema e = PStr TRANSITION_SCHEMA ∧
  Forall bounded_texts [do_not_repeat e; unresolved_risks e; unknowns e; candidate_refs e; evidence_refs e].
Proof.
  unfold check_transition. intros ([] & Hsch%raise_if_Ok_inv%negb_false_iff%is_text_spec & E)%bind_Ok_inv.
  apply bind_Ok_inv in E as ([] & _ & ([] & Hid%raise_if_Ok_inv & (low & _ & ([] & _ & ([] & Hst%raise_if_Ok_inv%negb_false_iff & E)%bind_Ok_inv)%bind_Ok_inv)%bind_Ok_inv)%bind_Ok_inv).
  apply bind_Ok_inv in E as ([] & Hre%raise_if_Ok_inv%negb_false_iff & ([] & Hty%raise_if_Ok_inv%negb_false_iff & ([] & Hrej%raise_if_Ok_inv & E)%bind_Ok_inv)%bind_Ok_inv).
  apply bind_Ok_inv in E as ([] & Htx%check_texts_Ok & ([] & Hrev%raise_if_Ok_inv & ([] & Hts%raise_if_Ok_inv & ([] & Htu%check_tuples_Ok & Hfi%raise_if_Ok_inv%negb_false_iff)%bind_Ok_inv)%bind_Ok_inv)%bind_Ok_inv).
  apply orb_false_iff in Hid as [Ht%negb_false_iff Ha%negb_false_iff], Hrev as [Hs%negb_false_iff Hc%negb_false_iff].
  repeat match goal with H : Forall _ (_ :: _) |- _ => inversion_clear H end. cbn [snd] in *. split_and!.
  - by repeat constructor.
  - intros Hin%text_in_spec. rewrite Hin in Hrej. cbn [andb] in Hrej. apply negb_false_iff in Hrej. by apply is_text_spec.
  - by repeat constructor.
  - by destruct (timestamp e).
  - done.
  - apply Forall_forall. intros v Hv. cbn [forallb] in Hfi. repeat rewrite andb_true_iff in Hfi.
    destruct Hfi as (F1 & F2 & F3 & F4 & F5 & _).
    repeat match goal with H : ∃ l, _ = PTuple l ∧ _ |- _ => let E := fresh in destruct H as (? & E & ?); rewrite E in * end.
    unfold bounded_texts. cbn [tuple_items] in *. set_solver.
Qed.
