(* ===== verification/AttemptLog.v ===== *)
(** * The log of attempt transitions
    ([JsonlEventLogStore] of [src/src/nexus_runtime/kernel/events/log_store.py])

    A file of JSON lines.  The transitions of each attempt are numbered 1, 2, 3, ... and
    form a hash chain, which every operation checks from the start of the file; an append
    happens under the store lock, for the writer the generation manifest names.

    Here is the store without a state owner (no [writer_factory], no [owner_context]); such
    a store refuses to append once a state-owner manifest exists.  [device] says how many
    characters the next write delivers before it fails, [None] that it succeeds. *)
From Stdlib Require Import Ascii String.
From S2P Require Import Prelude PyValue Json Lines Digest Contract Instances.
From S2P Require AttemptEvent Continuity.
From S2P Require Import WriterGeneration.

Definition attempt_key : Type := string * string.
(** [_attempt_tails]: the last sequence and the last digest of each attempt. *)
Abbreviation tails := (gmap (string * string) (Z * string)).
(** ["0" * 64]. *)
Definition no_parent : string := "0000000000000000000000000000000000000000000000000000000000000000".
Definition tail_of (m : tails) (key : attempt_key) : Z * string := default (0%Z, no_parent) (m !! key).

Record store : Type := {
  event_log : option string; manifest : file; hold : bool; owner_manifest : result bool;
  device : option nat;
  configured : bool; _writer_generation : option EventWriterGeneration; _enforce_generation : bool;
  _attempt_tails : tails
}.
Definition with_tails (m : tails) (s : store) : store := {|
  event_log := event_log s; manifest := manifest s; hold := hold s; owner_manifest := owner_manifest s;
  device := device s; configured := configured s; _writer_generation := _writer_generation s;
  _enforce_generation := _enforce_generation s; _attempt_tails := m |}.
Definition with_log (text : string) (s : store) : store := {|
  event_log := Some text; manifest := manifest s; hold := hold s; owner_manifest := owner_manifest s;
  device := device s; configured := configured s; _writer_generation := _writer_generation s;
  _enforce_generation := _enforce_generation s; _attempt_tails := _attempt_tails s |}.

Definition unsigned (r : dict) : dict := dict_del "_attempt_record_digest" r.

Definition _attempt_key (r : dict) : result (option attempt_key) :=
  if negb (is_text (py_get r "event_type") "attempt_transition") then Ok None
  else match py_get r "payload" with
  | PDict payload =>
      match py_get payload "task_id", py_get payload "attempt_id" with
      | PStr task, PStr attempt =>
          _ ← raise_if (String.eqb task EmptyString || String.eqb attempt EmptyString) ValueError
                "attempt transition identity is required";
          match py_get payload "sequence" with
          | PInt n =>
              _ ← raise_if (n <? 1)%Z ValueError "attempt transition sequence must be a positive integer";
              Ok (Some (task, attempt))
          | _ => raise ValueError "attempt transition sequence must be a positive integer"
          end
      | _, _ => raise ValueError "attempt transition identity is required"
      end
  | _ => raise ValueError "invalid attempt transition payload"
  end.
(** [record["payload"]["sequence"]], once the key is known. *)
Definition sequence_of (r : dict) : pyval :=
  match py_get r "payload" with PDict payload => py_get payload "sequence" | _ => PNone end.

(** Under the lock: the generation of the writer, put into the record. *)
Definition _check_generation_locked (installed own : option EventWriterGeneration) (enforce : bool) (r : dict) :
    result dict :=
  match installed with
  | None =>
      _ ← raise_if (bool_decide (own ≠ None) || enforce) GenerationError "GENERATION_REQUIRED";
      Ok r
  | Some g =>
      _ ← raise_if (negb (bool_decide (own = Some g))) GenerationError "GENERATION_REQUIRED";
      let differs key v := negb (is_none (py_get r key)) && negb (py_eq (py_get r key) v) in
      _ ← raise_if (differs "_writer_generation" (PInt (generation g))) GenerationError "GENERATION_RECORD_MISMATCH";
      _ ← raise_if (differs "_writer_id" (PStr (writer_id g))) GenerationError "GENERATION_RECORD_MISMATCH";
      Ok (dict_set "_writer_id" (PStr (writer_id g)) (dict_set "_writer_generation" (PInt (generation g)) r))
  end.

Section log.
Context `{FloatText} `{Digest}.

Definition _record_digest (r : dict) : result string := json_sha256 false true (stored (PDict (unsigned r))).

(** The record with its place in the chain of its attempt, and the tails with it. *)
Definition _bind_attempt_record (m : tails) (r : dict) : result (dict * tails) :=
  key ← _attempt_key r;
  match key with
  | None => Ok (r, m)
  | Some key =>
      let '(sequence, parent) := tail_of m key in
      _ ← raise_if (negb (py_eq (sequence_of r) (PInt (sequence + 1)))) ValueError
            "attempt transition sequence must be contiguous";
      let r := dict_set "_attempt_parent_digest" (PStr parent) r in
      digest ← _record_digest r;
      Ok (dict_set "_attempt_record_digest" (PStr digest) r, <[key := ((sequence + 1)%Z, digest)]> m)
  end.

(** One record of the file against the tails so far. *)
Definition link (m : tails) (r : dict) : result tails :=
  key ← _attempt_key r;
  match key with
  | None => Ok m
  | Some key =>
      let '(sequence, parent) := tail_of m key in
      _ ← raise_if (negb (py_eq (sequence_of r) (PInt (sequence + 1)))) ValueError
            "broken attempt transition sequence";
      match py_get r "_attempt_parent_digest" with
      | PStr persisted_parent =>
          _ ← raise_if (negb (String.eqb persisted_parent parent)) ValueError "tampered attempt transition parent";
          match py_get r "_attempt_record_digest" with
          | PStr persisted_digest =>
              digest ← _record_digest r;
              _ ← raise_if (negb (String.eqb persisted_digest digest)) ValueError "tampered attempt transition record";
              Ok (<[key := ((sequence + 1)%Z, persisted_digest)]> m)
          | _ => raise ValueError "legacy attempt transition missing record digest"
          end
      | _ => raise ValueError "legacy attempt transition missing parent digest"
      end
  end.
Fixpoint scan_lines (m : tails) (lines : list string) : result tails :=
  match lines with
  | [] => Ok m
  | line :: lines =>
      if blank line then scan_lines m lines
      else
        v ← json_loads line;
        r ← as_mapping v "get";
        m ← link m r;
        scan_lines m lines
  end.
Definition _scan_attempt_tails (log : option string) : result tails :=
  match log with
  | None => Ok ∅
  | Some raw => scan_lines ∅ (str_splitlines (universal_newlines raw))
  end.

(** [json.dumps(record, default=str) + "\n"]. *)
Definition line_of (r : dict) : string := json_write " " true (stored (PDict r)) +:+ newline.
(** The write of a line; one that fails leaves what was delivered. *)
Definition write_line (text : string) : prog store unit := λ s,
  let written := default EmptyString (event_log s) in
  match device s with
  | None => (Ok (), with_log (written +:+ text) s)
  | Some n => (raise OSError "No space left on device", with_log (written +:+ str_take n text) s)
  end.
(** [self._attempt_tails] as it was before the record was bound. *)
Definition restore_tail (key : option attempt_key) (previous : option (Z * string)) (m : tails) : tails :=
  match key, previous with
  | None, _ => m
  | Some key, None => delete key m
  | Some key, Some t => <[key := t]> m
  end.

(** [append_record]; the result is the record as the caller's mapping then is. *)
Definition append_record (r : dict) : prog store dict :=
  s ← get_state;
  if negb (configured s) then mret r
  else
    installed ← lift (read_generation (manifest s));
    _ ← lift (raise_if (negb (bool_decide (installed = _writer_generation s))) GenerationError "GENERATION_REQUIRED");
    owned ← lift (if hold s then Ok true else owner_manifest s);
    _ ← lift (raise_if owned GenerationError "EVENT_WRITER_CONTEXT_REQUIRED");
    r ← lift (_check_generation_locked installed (_writer_generation s) (_enforce_generation s) r);
    m ← lift (_scan_attempt_tails (event_log s));
    _ ← modify_state (with_tails m);
    key ← lift (_attempt_key r);
    '(r, bound) ← lift (_bind_attempt_record m r);
    _ ← modify_state (with_tails bound);
    let previous := key ≫= λ key, m !! key in
    _ ← catch_prog ExceptionC (write_line (line_of r)) (λ e,
          _ ← modify_state (with_tails (restore_tail key previous bound)); lift (Err e));
    mret r.

(** [configure], the directories being there and no link; a scan that fails leaves the store
    as it was. *)
Definition configure (writer : option EventWriterGeneration) (enforce : bool) : prog store unit :=
  s ← get_state;
  _ ← lift (raise_if (hold s) GenerationError "EVENT_WRITER_ROOT_HELD");
  installed ← lift (read_generation (manifest s));
  let none (g : option EventWriterGeneration) := bool_decide (g = None) in
  _ ← lift (raise_if (negb (none installed) && none writer) GenerationError "GENERATION_REQUIRED");
  _ ← lift (raise_if (enforce && none writer) GenerationError "GENERATION_REQUIRED");
  _ ← lift (raise_if (negb (none writer) && negb (bool_decide (installed = writer)))
        GenerationError "GENERATION_TOKEN_MISMATCH");
  m ← lift (_scan_attempt_tails (event_log s));
  put_state {|
    event_log := event_log s; manifest := manifest s; hold := hold s; owner_manifest := owner_manifest s;
    device := device s; configured := true; _writer_generation := writer;
    _enforce_generation := enforce || negb (none installed); _attempt_tails := m |}.

Definition attempt_tail (key : attempt_key) : prog store Z :=
  s ← get_state;
  m ← lift (_scan_attempt_tails (if configured s then event_log s else None));
  _ ← modify_state (with_tails m);
  mret (default (0%Z, EmptyString) (m !! key)).1.

(** [s.split("\n")]. *)
Fixpoint split_newline (s : string) : list string :=
  match s with
  | EmptyString => [EmptyString]
  | String c r =>
      if (code c =? 10)%N then EmptyString :: split_newline r
      else match split_newline r with
      | [] => [String c EmptyString]
      | l :: ls => String c l :: ls
      end
  end.
(** [e.get("event_type") == event_type] for each event. *)
Fixpoint select_events (event_type : string) (l : list pyval) : result (list pyval) :=
  match l with
  | [] => Ok []
  | v :: l =>
      d ← as_mapping v "get";
      rest ← select_events event_type l;
      Ok (if is_text (py_get d "event_type") event_type then v :: rest else rest)
  end.
Definition read_recent (event_type : string) (limit : Z) : prog store (list pyval) :=
  s ← get_state;
  match (if configured s then event_log s else None) with
  | None => mret []
  | Some raw =>
      m ← lift (_scan_attempt_tails (Some raw));
      _ ← modify_state (with_tails m);
      let lines := last_items limit (split_newline (strip (universal_newlines raw))) in
      events ← lift (mapM_result json_loads (List.filter (λ line, negb (blank line)) lines));
      lift (if String.eqb event_type EmptyString then Ok events else select_events event_type events)
  end.
End log.

(** * Facts *)
Section facts.
Context `{FloatText} `{Digest}.

(** ** Digests *)
Definition record_text (r : dict) : string := json_print false (jnorm (stored (PDict (unsigned r)))).
Definition record_seal (r : dict) : string := text_sha256 (record_text r).
Lemma record_digest_seal r : _record_digest r = Ok (record_seal r).
Proof.
  unfold _record_digest, json_sha256, json_dumps.
  rewrite json_check_ok; [done|]. rewrite json_plain_jnorm. apply stored_plain.
Qed.
Lemma record_seal_stored r : py_wf (PDict r) = true → record_seal (stored_dict r) = record_seal r.
Proof.
  intros Hr. unfold record_seal, record_text, unsigned. rewrite stored_dict_del.
  change (PDict (stored_dict ?d)) with (stored (PDict d)). rewrite stored_idem; [done|].
  by apply py_wf_del.
Qed.
Lemma dict_del_set k v (r : dict) : dict_del k (dict_set k v r) = dict_del k r.
Proof.
  induction r as [|[k' w] r IH]; cbn; [by rewrite String.eqb_refl|].
  destruct (String.eqb k k') eqn:E; cbn; rewrite E; [done|]. by rewrite IH.
Qed.
Lemma record_seal_set r d : record_seal (dict_set "_attempt_record_digest" (PStr d) r) = record_seal r.
Proof. unfold record_seal, record_text, unsigned. by rewrite dict_del_set. Qed.

(** ** The line of a record *)
Lemma line_inner r : py_wf (PDict r) = true →
  str_forallb (inner str_boundary) (json_write " " true (stored (PDict r))) = true.
Proof.
  intros Hr. apply (str_forallb_impl ascii_graphic).
  - intros [[] [] [] [] [] [] [] []]; done.
  - apply json_write_ascii; [done|]. by apply stored_doc.
Qed.
Lemma line_reads_back r : py_wf (PDict r) = true →
  json_loads (json_write " " true (stored (PDict r))) = Ok (PDict (stored_dict r)).
Proof.
  intros Hr. rewrite <- (str_app_nil_r (json_write _ _ _)).
  unfold json_loads. rewrite json_loads_print; [done|done|by apply stored_doc|done|done].
Qed.
Lemma blank_start c s : is_space c = false → blank (String c s) = false.
Proof. intros Hc. unfold blank, strip. cbn [lstrip]. rewrite Hc, rstrip_cons_ne; done. Qed.
Lemma line_not_blank r : blank (json_write " " true (stored (PDict r))) = false.
Proof. by apply blank_start. Qed.

(** Universal newlines do not change the lines. *)
Lemma universal_newlines_lines s : str_splitlines (universal_newlines s) = str_splitlines s.
Proof.
  remember (String.length s) as n eqn:Hn. revert s Hn. induction n as [n IH] using lt_wf_ind.
  intros [|c r] ->; [done|]. cbn [universal_newlines]. rewrite (split_lines_cons _ c r).
  destruct (code c =? 13)%N eqn:Ec.
  - destruct r as [|d r]; [done|].
    assert (∀ x, str_splitlines (newline +:+ x) = EmptyString :: str_splitlines x) as En by done.
    destruct (code d =? 10)%N; rewrite En; f_equal; eapply IH; [|done| |done]; cbn; lia.
  - rewrite split_lines_cons, Ec, (IH (String.length r)) by (cbn; lia). done.
Qed.

(** ** The chain of an attempt *)
(** What [_attempt_key] returns. *)
Definition keyed (r : dict) (key : attempt_key) (n : Z) : Prop :=
  is_text (py_get r "event_type") "attempt_transition" = true ∧
  ∃ payload, py_get r "payload" = PDict payload ∧ py_get payload "task_id" = PStr key.1 ∧
    py_get payload "attempt_id" = PStr key.2 ∧ py_get payload "sequence" = PInt n ∧
    key.1 ≠ EmptyString ∧ key.2 ≠ EmptyString ∧ (1 ≤ n)%Z.
Lemma attempt_key_Some r key : _attempt_key r = Ok (Some key) ↔ ∃ n, keyed r key n.
Proof.
  unfold _attempt_key, keyed. destruct (is_text (py_get r "event_type") "attempt_transition"); cbn [negb];
    [|split; [done|by intros (n & [=] & _)]]. split.
  - destruct (py_get r "payload") as [| | | | | | |payload|]; try done.
    destruct (py_get payload "task_id") as [| | | |task| | | |] eqn:Et; try done.
    destruct (py_get payload "attempt_id") as [| | | |attempt| | | |] eqn:Ea; try done.
    intros ([] & Hi%raise_if_Ok_inv & E)%bind_Ok_inv.
    destruct (py_get payload "sequence") as [| |n| | | | | |] eqn:En; try done.
    apply bind_Ok_inv in E as ([] & Hn%raise_if_Ok_inv & [= <-]). exists n. split; [done|]. exists payload.
    apply orb_false_iff in Hi as [Ht Ha]. apply String.eqb_neq in Ht, Ha. apply Z.ltb_ge in Hn. done.
  - intros (n & _ & payload & -> & -> & -> & -> & Ht & Ha & Hn). destruct key as [task attempt]. cbn in *.
    rewrite (proj2 (String.eqb_neq _ _) Ht), (proj2 (String.eqb_neq _ _) Ha). cbn.
    by rewrite (proj2 (Z.ltb_ge _ _) Hn).
Qed.
Lemma attempt_key_None r : _attempt_key r = Ok None ↔ is_text (py_get r "event_type") "attempt_transition" = false.
Proof.
  unfold _attempt_key. destruct (is_text _ _); cbn [negb]; [|done]. split; [|done].
  intros E. repeat case_match; try done; apply bind_Ok_inv in E as ([] & _ & E); try done.
  by apply bind_Ok_inv in E as ([] & _ & E).
Qed.
Lemma keyed_sequence r key n : keyed r key n → sequence_of r = PInt n.
Proof. intros (_ & payload & Hp & _ & _ & Hn & _). unfold sequence_of. by rewrite Hp. Qed.
Lemma keyed_fun r key n key' n' : keyed r key n → keyed r key' n' → key = key' ∧ n = n'.
Proof.
  intros (_ & p & Hp & Ht & Ha & Hn & _) (_ & p' & Hp' & Ht' & Ha' & Hn' & _).
  destruct key, key'. cbn in *. split; congruence.
Qed.

(** A record in its place: after [n] transitions of its attempt, the last sealed [parent]. *)
Definition placed (n : Z) (parent : string) (key : attempt_key) (r : dict) : Prop :=
  keyed r key (n + 1) ∧ py_get r "_attempt_parent_digest" = PStr parent ∧
  py_get r "_attempt_record_digest" = PStr (record_seal r).
Lemma link_Some m r key m' : (∃ n, keyed r key n) →
  link m r = Ok m' ↔
  placed (tail_of m key).1 (tail_of m key).2 key r ∧
  m' = <[key := (((tail_of m key).1 + 1)%Z, record_seal r)]> m.
Proof.
  intros Hk. unfold link, placed. rewrite (proj2 (attempt_key_Some r key) Hk). cbn [mbind result_bind].
  destruct Hk as (n & Hk). destruct (tail_of m key) as [k parent]. cbn [fst snd].
  rewrite (keyed_sequence _ _ _ Hk), record_digest_seal. cbn [py_eq mbind result_bind].
  destruct (Z.eqb_spec n (k + 1)) as [->|Hne]; cbn [negb raise_if mbind result_bind].
  2:{ split; [done|]. intros ((Hk' & _) & _). by destruct (keyed_fun _ _ _ _ _ Hk Hk'). }
  destruct (py_get r "_attempt_parent_digest") as [| | | |p| | | |]; try (by split; [|intros ((_ & ? & _) & _)]).
  destruct (String.eqb_spec p parent) as [->|Hne]; cbn [negb raise_if mbind result_bind].
  2:{ split; [done|]. intros ((_ & [= ->] & _) & _). done. }
  destruct (py_get r "_attempt_record_digest") as [| | | |d| | | |]; try (by split; [|intros ((_ & _ & ?) & _)]).
  destruct (String.eqb_spec d (record_seal r)) as [->|Hne]; cbn [negb raise_if mbind result_bind].
  2:{ split; [done|]. intros ((_ & _ & [= ->]) & _). done. }
  split; [intros [= <-]|intros [_ ->]]; done.
Qed.
Lemma link_Ok m r m' : link m r = Ok m' ↔
  (is_text (py_get r "event_type") "attempt_transition" = false ∧ m' = m) ∨
  ∃ key, placed (tail_of m key).1 (tail_of m key).2 key r ∧
    m' = <[key := (((tail_of m key).1 + 1)%Z, record_seal r)]> m.
Proof.
  destruct (_attempt_key r) as [[key|]|e] eqn:E.
  - pose proof (proj1 (attempt_key_Some r key) E) as Hk. rewrite (link_Some _ _ key) by done. split; [eauto|].
    intros [[Hf ->]|(key' & Hp & ->)].
    + apply attempt_key_None in Hf. congruence.
    + destruct Hk as (n & Hk). destruct (keyed_fun _ _ _ _ _ Hk (proj1 Hp)) as [-> _]. done.
  - unfold link. rewrite E. cbn. apply attempt_key_None in E as Hf. split.
    + intros [= <-]. by left.
    + intros [[_ ->]|(key & (Hk & _) & _)]; [done|]. destruct Hk. congruence.
  - unfold link. rewrite E. split; [done|]. intros [[Hf%attempt_key_None _]|(key & (Hk & _) & _)]; [congruence|].
    rewrite (proj2 (attempt_key_Some r key)) in E by eauto. done.
Qed.

(** ** The records of the file *)
Fixpoint parse_lines (lines : list string) : result (list dict) :=
  match lines with
  | [] => Ok []
  | line :: lines =>
      if blank line then parse_lines lines
      else v ← json_loads line; r ← as_mapping v "get"; rs ← parse_lines lines; Ok (r :: rs)
  end.
Definition log_records (log : option string) : result (list dict) :=
  parse_lines (str_splitlines (default EmptyString log)).
Fixpoint link_all (m : tails) (rs : list dict) : result tails :=
  match rs with [] => Ok m | r :: rs => m ← link m r; link_all m rs end.

Lemma scan_lines_Ok m lines m' :
  scan_lines m lines = Ok m' ↔ ∃ rs, parse_lines lines = Ok rs ∧ link_all m rs = Ok m'.
Proof.
  revert m. induction lines as [|line lines IH]; intros m; cbn [scan_lines parse_lines].
  { split; [by exists []|]. intros (rs & [= <-] & E). done. }
  destruct (blank line); [apply IH|]. split.
  - intros (v & -> & (r & Hr & (m1 & Hm & (rs & Hrs & Hl)%IH)%bind_Ok_inv)%bind_Ok_inv)%bind_Ok_inv.
    exists (r :: rs). cbn. rewrite Hr. cbn. rewrite Hrs. cbn. by rewrite Hm.
  - intros (rs & (v & -> & (r & Hr & (rs' & Hrs & [= <-])%bind_Ok_inv)%bind_Ok_inv)%bind_Ok_inv & E).
    cbn in E. apply bind_Ok_inv in E as (m1 & Hm & Hl). cbn. rewrite Hr. cbn. rewrite Hm. cbn. apply IH. eauto.
Qed.
Lemma scan_Ok log m : _scan_attempt_tails log = Ok m ↔ ∃ rs, log_records log = Ok rs ∧ link_all ∅ rs = Ok m.
Proof.
  destruct log as [raw|]; cbn [_scan_attempt_tails].
  - by rewrite universal_newlines_lines, scan_lines_Ok.
  - split; [intros [= <-]; by exists []|]. by intros (rs & [= <-] & E).
Qed.
Lemma parse_lines_app l l' rs rs' : parse_lines l = Ok rs → parse_lines l' = Ok rs' → parse_lines (l ++ l') = Ok (rs ++ rs').
Proof.
  intros Hl Hl'. revert rs Hl. induction l as [|line l IH]; intros rs; cbn [parse_lines app].
  { by intros [= <-]. }
  destruct (blank line); [apply IH|].
  intros (v & -> & (r & Hr & (rs1 & Hrs & [= <-])%bind_Ok_inv)%bind_Ok_inv)%bind_Ok_inv.
  cbn. rewrite Hr. cbn. by rewrite (IH _ Hrs).
Qed.
Lemma link_all_app m rs rs' : link_all m (rs ++ rs') = m ← link_all m rs; link_all m rs'.
Proof. revert m. induction rs as [|r rs IH]; intros m; cbn; [done|]. destruct (link m r); cbn; [apply IH|done]. Qed.
Lemma log_records_line log rs r : py_wf (PDict r) = true → whole (default EmptyString log) → log_records log = Ok rs →
  log_records (Some (default EmptyString log +:+ line_of r)) = Ok (rs ++ [stored_dict r]).
Proof.
  intros Hr Hw Hrs. unfold log_records, line_of in *. cbn [from_option id].
  rewrite split_lines_app by done. apply parse_lines_app; [done|].
  rewrite split_lines_line by by apply line_inner. cbn [parse_lines]. rewrite line_not_blank, line_reads_back by done.
  done.
Qed.
Lemma parse_lines_doc lines rs : parse_lines lines = Ok rs → Forall (λ r, json_doc (PDict r) = true) rs.
Proof.
  revert rs. induction lines as [|line lines IH]; cbn [parse_lines]; [intros ? [= <-]; done|].
  intros rs. destruct (blank line); [apply IH|].
  intros (v & Hv%json_loads_doc & (r & Hr & (rs' & Hrs & [= <-])%bind_Ok_inv)%bind_Ok_inv)%bind_Ok_inv.
  constructor; [|by apply IH]. destruct v; try done. by injection Hr as ->.
Qed.

(** The transitions of one attempt, in the order of the file. *)
Definition of_attempt (key : attempt_key) (r : dict) : bool := bool_decide (_attempt_key r = Ok (Some key)).
Definition attempt_records (key : attempt_key) (rs : list dict) : list dict := List.filter (of_attempt key) rs.
Fixpoint chained (key : attempt_key) (n : Z) (parent : string) (l : list dict) : Prop :=
  match l with
  | [] => True
  | r :: l => placed n parent key r ∧ chained key (n + 1) (record_seal r) l
  end.
Definition chain_end (t : Z * string) (l : list dict) : Z * string :=
  ((t.1 + Z.of_nat (length l))%Z, match last l with Some r => record_seal r | None => t.2 end).
Lemma chain_end_cons t r l : chain_end t (r :: l) = chain_end ((t.1 + 1)%Z, record_seal r) l.
Proof.
  unfold chain_end. cbn [length fst snd]. f_equal; [lia|]. rewrite last_cons. by destruct (last l).
Qed.
Lemma of_attempt_keyed key r : of_attempt key r = true ↔ ∃ n, keyed r key n.
Proof. unfold of_attempt. rewrite bool_decide_eq_true. apply attempt_key_Some. Qed.
Lemma attempt_records_other key key' r rs : (∃ n, keyed r key n) → key ≠ key' →
  attempt_records key' (r :: rs) = attempt_records key' rs.
Proof.
  intros (n & Hk) Hne. cbn. destruct (of_attempt key' r) eqn:E; [|done].
  apply of_attempt_keyed in E as (n' & Hk'). by destruct (keyed_fun _ _ _ _ _ Hk Hk').
Qed.
Lemma attempt_records_same key r rs : (∃ n, keyed r key n) → attempt_records key (r :: rs) = r :: attempt_records key rs.
Proof. intros Hk. cbn. by rewrite (proj2 (of_attempt_keyed _ _) Hk). Qed.
Lemma attempt_records_none key r rs : is_text (py_get r "event_type") "attempt_transition" = false →
  attempt_records key (r :: rs) = attempt_records key rs.
Proof.
  intros Hf. cbn. destruct (of_attempt key r) eqn:E; [|done].
  apply of_attempt_keyed in E as (n & Hk & _). congruence.
Qed.
Lemma tail_of_insert m key t key' : tail_of (<[key := t]> m) key' = if decide (key = key') then t else tail_of m key'.
Proof. unfold tail_of. by case_decide as E; [subst; rewrite lookup_insert_eq|rewrite lookup_insert_ne]. Qed.

(** A log is accepted exactly when the transitions of every attempt form a chain. *)
Lemma link_all_chains m rs m' : link_all m rs = Ok m' → ∀ key,
  chained key (tail_of m key).1 (tail_of m key).2 (attempt_records key rs) ∧
  tail_of m' key = chain_end (tail_of m key) (attempt_records key rs).
Proof.
  revert m. induction rs as [|r rs IH]; cbn [link_all]; intros m.
  { intros [= <-] key. split; [done|]. unfold chain_end. cbn. rewrite Z.add_0_r. by destruct (tail_of m key). }
  intros (m1 & Hm%link_Ok & Hrs)%bind_Ok_inv key. specialize (IH m1 Hrs key).
  destruct Hm as [[Hf ->]|(key0 & Hp & ->)]; [by rewrite attempt_records_none|].
  assert (∃ n, keyed r key0 n) as Hk by (eexists; apply Hp).
  rewrite tail_of_insert in IH. case_decide as E.
  - subst key0. rewrite attempt_records_same by done. cbn [chained]. rewrite chain_end_cons. cbn [fst snd] in IH. tauto.
  - by rewrite (attempt_records_other key0) by done.
Qed.

(** ** Binding *)
Definition binding_fields : list string := [
  "_attempt_parent_digest"; "_attempt_record_digest"; "_writer_generation"; "_writer_id"].
(** What the caller said, without the fields the store adds. *)
Definition content (r : dict) : dict := List.filter (λ kv, negb (text_in kv.1 binding_fields)) r.
Lemma content_set k v r : text_in k binding_fields = true → content (dict_set k v r) = content r.
Proof.
  intros Hk. induction r as [|[k' w] r IH]; cbn -[text_in]; [by rewrite Hk|].
  destruct (String.eqb_spec k k') as [<-|Hne]; cbn -[text_in]; [by rewrite Hk|].
  destruct (negb _); [f_equal|]; exact IH.
Qed.
Lemma attempt_key_ext r r' : py_get r "event_type" = py_get r' "event_type" → py_get r "payload" = py_get r' "payload" →
  _attempt_key r = _attempt_key r'.
Proof. unfold _attempt_key. by intros -> ->. Qed.
Lemma attempt_key_set k v r : text_in k binding_fields = true → _attempt_key (dict_set k v r) = _attempt_key r.
Proof.
  intros Hk%text_in_spec. apply attempt_key_ext; apply py_get_set_ne; intros <-; revert Hk; set_solver.
Qed.
Lemma sequence_set k v r : text_in k binding_fields = true → sequence_of (dict_set k v r) = sequence_of r.
Proof. intros Hk%text_in_spec. unfold sequence_of. rewrite py_get_set_ne; [done|]. intros <-. revert Hk. set_solver. Qed.
Lemma keyed_set k v r key n : text_in k binding_fields = true → keyed r key n → keyed (dict_set k v r) key n.
Proof.
  intros Hk%text_in_spec (He & payload & Hp & Hrest).
  split; [rewrite py_get_set_ne|exists payload; rewrite py_get_set_ne; [done|]];
    try done; intros <-; revert Hk; set_solver.
Qed.
Lemma keyed_stored r key n : keyed r key n → keyed (stored_dict r) key n.
Proof.
  intros (He & payload & Hp & Ht & Ha & Hn & Hrest). unfold keyed. rewrite !stored_dict_get, Hp.
  apply is_text_spec in He. rewrite He. split; [done|]. exists (stored_dict payload).
  by rewrite !stored_dict_get, Ht, Ha, Hn.
Qed.

Definition bound_record (parent : string) (r : dict) : dict :=
  let r := dict_set "_attempt_parent_digest" (PStr parent) r in
  dict_set "_attempt_record_digest" (PStr (record_seal r)) r.
Lemma bound_content parent r : content (stored_dict (bound_record parent r)) = content (stored_dict r).
Proof. unfold bound_record. by rewrite !stored_dict_set, !content_set. Qed.
Lemma bound_wf parent r : py_wf (PDict r) = true → py_wf (PDict (bound_record parent r)) = true.
Proof. intros Hr. by do 2 (apply py_wf_set; [|done]). Qed.
Lemma bound_placed parent key n r : py_wf (PDict r) = true → keyed r key (n + 1) →
  placed n parent key (stored_dict (bound_record parent r)).
Proof.
  intros Hr Hk. split; [by apply keyed_stored, keyed_set, keyed_set|].
  rewrite !stored_dict_get, record_seal_stored by by apply bound_wf. unfold bound_record.
  split; [by rewrite py_get_set_ne, py_get_set by done|]. by rewrite py_get_set, record_seal_set.
Qed.
Lemma bind_record_Ok m r r2 m2 : _bind_attempt_record m r = Ok (r2, m2) ↔
  (_attempt_key r = Ok None ∧ r2 = r ∧ m2 = m) ∨
  ∃ key, keyed r key ((tail_of m key).1 + 1) ∧ r2 = bound_record (tail_of m key).2 r ∧
    m2 = <[key := (((tail_of m key).1 + 1)%Z, record_seal r2)]> m.
Proof.
  unfold _bind_attempt_record. destruct (_attempt_key r) as [[key|]|e] eqn:E; cbn [mbind result_bind].
  - pose proof (proj1 (attempt_key_Some _ _) E) as (n & Hk). destruct (tail_of m key) as [k parent] eqn:Et.
    rewrite (keyed_sequence _ _ _ Hk), record_digest_seal. cbn [py_eq mbind result_bind].
    assert (∀ key', keyed r key' ((tail_of m key').1 + 1) → key' = key ∧ n = (k + 1)%Z) as Hfun.
    { intros key' Hk'. destruct (keyed_fun _ _ _ _ _ Hk Hk') as [<- ->]. by rewrite Et. }
    destruct (Z.eqb_spec n (k + 1)) as [->|Hne]; cbn [negb raise_if mbind result_bind].
    + unfold bound_record. split.
      * intros [= <- <-]. right. exists key. rewrite Et. cbn [fst snd]. by rewrite record_seal_set.
      * intros [(? & _)|(key' & Hk' & -> & ->)]; [done|]. destruct (Hfun _ Hk') as [-> _]. rewrite Et. cbn [fst snd].
        by rewrite record_seal_set.
    + split; [done|]. intros [(? & _)|(key' & Hk' & _)]; [done|]. by destruct (Hfun _ Hk').
  - split; [intros [= <- <-]; by left|]. intros [(_ & -> & ->)|(key & Hk & _)]; [done|].
    rewrite (proj2 (attempt_key_Some r key)) in E by eauto. done.
  - split; [done|]. intros [(? & _)|(key & Hk & _)]; [done|].
    rewrite (proj2 (attempt_key_Some r key)) in E by eauto. done.
Qed.
Lemma bind_record_links m r r2 m2 : py_wf (PDict r) = true → is_str (py_get r "event_type") = true →
  _bind_attempt_record m r = Ok (r2, m2) → link m (stored_dict r2) = Ok m2 ∧ py_wf (PDict r2) = true.
Proof.
  intros Hr Hev [(Hn & -> & ->)|(key & Hk & -> & ->)]%bind_record_Ok.
  - split; [|done]. apply link_Ok. left. apply attempt_key_None in Hn. rewrite stored_dict_get.
    by destruct (py_get r "event_type").
  - split; [|by apply bound_wf]. apply link_Ok. right. exists key. split; [by apply bound_placed|].
    by rewrite record_seal_stored by by apply bound_wf.
Qed.

(** ** Appending *)
(** The writer may append: [r1] is the record with its generation. *)
Definition admitted (s : store) (r r1 : dict) : Prop :=
  read_generation (manifest s) = Ok (_writer_generation s) ∧ hold s = false ∧ owner_manifest s = Ok false ∧
  _check_generation_locked (_writer_generation s) (_writer_generation s) (_enforce_generation s) r = Ok r1.
Lemma check_generation_Ok g own enforce r r1 : _check_generation_locked g own enforce r = Ok r1 →
  (py_wf (PDict r) = true → py_wf (PDict r1) = true) ∧ py_get r1 "event_type" = py_get r "event_type" ∧
  _attempt_key r1 = _attempt_key r ∧ sequence_of r1 = sequence_of r ∧
  content (stored_dict r1) = content (stored_dict r).
Proof.
  unfold _check_generation_locked. destruct g as [g|].
  - intros (_ & _ & (_ & _ & (_ & _ & [= <-])%bind_Ok_inv)%bind_Ok_inv)%bind_Ok_inv.
    rewrite !stored_dict_set, !content_set, !py_get_set_ne by done.
    split; [intros Hr; by do 2 (apply py_wf_set; [|done])|].
    by rewrite !attempt_key_set, !sequence_set.
  - by intros (_ & _ & [= <-])%bind_Ok_inv.
Qed.
Lemma append_Ok r s r2 s' : configured s = true → device s = None →
  append_record r s = (Ok r2, s') ↔
  ∃ r1 m m2, admitted s r r1 ∧ _scan_attempt_tails (event_log s) = Ok m ∧ _bind_attempt_record m r1 = Ok (r2, m2) ∧
    s' = with_log (default EmptyString (event_log s) +:+ line_of r2) (with_tails m2 s).
Proof.
  intros Hc Hd. unfold append_record, admitted. run_prog. rewrite Hc. cbn [negb].
  destruct (read_generation (manifest s)) as [g|e]; [|split; [done|by intros (?&?&?&(?&_)&_)]].
  case_bool_decide as Eg; cbn [negb raise_if]; [subst g|split; [done|intros (?&?&?&([=]&_)&_); done]].
  destruct (hold s); cbn [raise_if]; [split; [done|by intros (?&?&?&(_&?&_)&_)]|].
  destruct (owner_manifest s) as [[]|e]; cbn [raise_if]; try (split; [done|by intros (?&?&?&(_&_&?&_)&_)]).
  destruct (_check_generation_locked _ _ _ _) as [r1|e] eqn:Er; [|split; [done|by intros (?&?&?&(_&_&_&?)&_)]].
  destruct (_scan_attempt_tails (event_log s)) as [m|e] eqn:Em; [|split; [done|by intros (?&?&?&_&?&_)]].
  destruct (_attempt_key r1) as [key|e] eqn:Ek.
  - destruct (_bind_attempt_record m r1) as [[r3 m3]|e] eqn:Eb;
      [|split; [done|intros (?&?&?&(_&_&_&[= <-])&[= <-]&?&_); congruence]].
    unfold write_line, catch_prog. cbn. rewrite Hd. cbn. split.
    + intros [= <- <-]. eexists _, _, _. by split_and!.
    + intros (?&?&?&(_&_&_&[= <-])&[= <-]&E&->). rewrite Eb in E. by injection E as -> ->.
  - split; [done|]. intros (?&?&?&(_&_&_&[= <-])&[= <-]&E&_). unfold _bind_attempt_record in E. by rewrite Ek in E.
Qed.
Lemma append_Err r s e s' : device s = None → append_record r s = (Err e, s') → event_log s' = event_log s.
Proof.
  intros Hd. unfold append_record. run_prog. destruct (configured s); cbn [negb]; [|done].
  destruct (read_generation (manifest s)) as [g|]; [|by intros [= _ <-]].
  destruct (raise_if _ _ "GENERATION_REQUIRED"); [|by intros [= _ <-]].
  destruct (if hold s then _ else _); [|by intros [= _ <-]].
  destruct (raise_if _ _ _); [|by intros [= _ <-]].
  destruct (_check_generation_locked _ _ _ _); [|by intros [= _ <-]].
  destruct (_scan_attempt_tails _); [|by intros [= _ <-]].
  destruct (_attempt_key _); [|by intros [= _ <-]].
  destruct (_bind_attempt_record _ _) as [[]|]; [|by intros [= _ <-]].
  unfold write_line, catch_prog. cbn. by rewrite Hd.
Qed.

(** ** What the log promises *)
(** The transitions acknowledged for each attempt: one more is accepted exactly when its
    sequence is the next number, and nothing accepted is changed. *)
Abbreviation histories := (gmap attempt_key (list dict)).
Definition history (h : histories) (key : attempt_key) : list dict := default [] (h !! key).
Definition spec_append (h : histories) (r : dict) : option histories :=
  match _attempt_key r with
  | Ok None => Some h
  | Ok (Some key) =>
      if py_eq (sequence_of r) (PInt (Z.of_nat (length (history h key)) + 1))
      then Some (<[key := history h key ++ [content (stored_dict r)]]> h) else None
  | Err _ => None
  end.
(** A file of whole lines whose attempts form chains of exactly these transitions. *)
Definition implements (log : option string) (h : histories) : Prop :=
  whole (default EmptyString log) ∧
  ∃ rs m, log_records log = Ok rs ∧ link_all ∅ rs = Ok m ∧
    ∀ key, map content (attempt_records key rs) = history h key.
Lemma implements_tail h m rs key : link_all ∅ rs = Ok m → (∀ key, map content (attempt_records key rs) = history h key) →
  (tail_of m key).1 = Z.of_nat (length (history h key)).
Proof. intros Hl Hh. destruct (link_all_chains _ _ _ Hl key) as [_ ->]. cbn. by rewrite <- Hh, length_map. Qed.
Lemma attempt_records_app key rs rs' : attempt_records key (rs ++ rs') = attempt_records key rs ++ attempt_records key rs'.
Proof. apply List.filter_app. Qed.
Lemma attempt_key_stored r key : py_wf (PDict r) = true → is_str (py_get r "event_type") = true →
  _attempt_key r = Ok key → _attempt_key (stored_dict r) = Ok key.
Proof.
  intros Hr Hev. destruct key as [key|].
  - rewrite !attempt_key_Some. intros (n & Hk). exists n. by apply keyed_stored.
  - rewrite !attempt_key_None, stored_dict_get. by destruct (py_get r "event_type").
Qed.
Lemma spec_append_Some h r h' : spec_append h r = Some h' ↔
  (_attempt_key r = Ok None ∧ h' = h) ∨
  ∃ key, keyed r key (Z.of_nat (length (history h key)) + 1) ∧
    h' = <[key := history h key ++ [content (stored_dict r)]]> h.
Proof.
  unfold spec_append. destruct (_attempt_key r) as [[key|]|e] eqn:E.
  - pose proof (proj1 (attempt_key_Some _ _) E) as (n & Hk). rewrite (keyed_sequence _ _ _ Hk). cbn [py_eq].
    destruct (Z.eqb_spec n (Z.of_nat (length (history h key)) + 1)) as [->|Hne]; (split; [|]).
    + intros [= <-]. eauto.
    + intros [[[=] _]|(key' & Hk' & ->)]. by destruct (keyed_fun _ _ _ _ _ Hk Hk') as [<- _].
    + done.
    + intros [[[=] _]|(key' & Hk' & ->)]. by destruct (keyed_fun _ _ _ _ _ Hk Hk') as [<- ->].
  - split; [intros [= <-]; by left|]. intros [[_ ->]|(key & Hk & _)]; [done|].
    rewrite (proj2 (attempt_key_Some r key)) in E by eauto. done.
  - split; [done|]. intros [[[=] _]|(key & Hk & _)].
    rewrite (proj2 (attempt_key_Some r key)) in E by eauto. done.
Qed.

(** Binding succeeds exactly when the specification accepts. *)
Lemma bind_accepts rs m h r : py_wf (PDict r) = true → is_str (py_get r "event_type") = true →
  link_all ∅ rs = Ok m → (∀ key, map content (attempt_records key rs) = history h key) →
  match _bind_attempt_record m r with
  | Ok (r2, m2) => ∃ h', spec_append h r = Some h' ∧
      ∀ key, map content (attempt_records key (rs ++ [stored_dict r2])) = history h' key
  | Err _ => spec_append h r = None
  end.
Proof.
  intros Hr Hev Hl Hh.
  assert (∀ key, (tail_of m key).1 = Z.of_nat (length (history h key))) as Ht by (intros; by eapply implements_tail).
  destruct (_bind_attempt_record m r) as [[r2 m2]|e] eqn:Eb.
  - apply bind_record_Ok in Eb as [(Hn & -> & ->)|(key & Hk & -> & ->)].
    + exists h. split; [apply spec_append_Some; by left|]. intros key. rewrite attempt_records_app.
      rewrite attempt_records_none, app_nil_r; [apply Hh|]. by apply attempt_key_None, attempt_key_stored.
    + eexists. rewrite Ht in Hk. split; [apply spec_append_Some; right; by exists key|]. intros key'.
      rewrite attempt_records_app, map_app, Hh. rewrite <- Ht in Hk.
      pose proof (bound_placed (tail_of m key).2 key _ r Hr Hk) as (Hp & _).
      unfold history at 2. destruct (decide (key = key')) as [<-|Hne].
      * rewrite lookup_insert_eq, attempt_records_same by eauto. cbn [attempt_records List.filter map from_option id].
        unfold attempt_records. cbn. by rewrite bound_content.
      * rewrite lookup_insert_ne, (attempt_records_other key) by eauto. cbn. by rewrite app_nil_r.
  - destruct (spec_append h r) as [h'|] eqn:Es; [|done]. exfalso.
    apply spec_append_Some in Es as [(Hn & ->)|(key & Hk & ->)].
    + rewrite (proj2 (bind_record_Ok m r r m)) in Eb; [done|by left].
    + rewrite <- Ht in Hk. assert (∃ r2 m2, _bind_attempt_record m r = Ok (r2, m2)) as (r2 & m2 & E); [|congruence].
      eexists _, _. apply bind_record_Ok. right. by exists key.
Qed.

Lemma append_simulates s h r (Hh : implements (event_log s) h) (Hr : py_wf (PDict r) = true)
    (Hev : is_str (py_get r "event_type") = true) (Hc : configured s = true) (Hd : device s = None) :
  match append_record r s with
  | (Ok _, s') => ∃ h', spec_append h r = Some h' ∧ implements (event_log s') h' ∧
      _scan_attempt_tails (event_log s') = Ok (_attempt_tails s')
  | (Err _, s') => event_log s' = event_log s ∧ ((∃ r1, admitted s r r1) → spec_append h r = None)
  end.
Proof.
  destruct Hh as (Hw & rs & m & Hrs & Hl & Hh).
  assert (_scan_attempt_tails (event_log s) = Ok m) as Hm by (apply scan_Ok; eauto).
  assert (∀ r1, admitted s r r1 → spec_append h r1 = None → spec_append h r = None) as Hsame.
  { intros r1 (_ & _ & _ & (_ & _ & Hk & Hs & Hcont)%check_generation_Ok). unfold spec_append. by rewrite Hk, Hs, Hcont. }
  destruct (append_record r s) as [[r2|e] s'] eqn:Ea.
  - apply append_Ok in Ea as (r1 & m' & m2 & Hadm & Hm' & Hb & ->); [|done..].
    rewrite Hm in Hm'. injection Hm' as <-. cbn [event_log with_log with_tails _attempt_tails].
    pose proof Hadm as (_ & _ & _ & (Hwf & Het & Hk & Hs & Hcont)%check_generation_Ok). specialize (Hwf Hr).
    rewrite <- Het in Hev. pose proof (bind_accepts rs m h r1 Hwf Hev Hl Hh) as Hacc. rewrite Hb in Hacc.
    destruct Hacc as (h' & Hspec & Hh'). destruct (bind_record_links _ _ _ _ Hwf Hev Hb) as [Hlink Hwf2].
    assert (log_records (Some (default EmptyString (event_log s) +:+ line_of r2)) = Ok (rs ++ [stored_dict r2])) as Hrs2
      by by apply log_records_line.
    assert (link_all ∅ (rs ++ [stored_dict r2]) = Ok m2) as Hl2.
    { rewrite link_all_app, Hl. cbn. by rewrite Hlink. }
    exists h'. split; [|split].
    + revert Hspec. unfold spec_append. by rewrite Hk, Hs, Hcont.
    + split; [apply whole_line|]. eauto.
    + apply scan_Ok. eauto.
  - split; [by eapply append_Err|]. intros (r1 & Hadm). apply (Hsame r1 Hadm).
    pose proof Hadm as (_ & _ & _ & (Hwf & Het & _)%check_generation_Ok). specialize (Hwf Hr). rewrite <- Het in Hev.
    pose proof (bind_accepts rs m h r1 Hwf Hev Hl Hh) as Hacc. destruct (_bind_attempt_record m r1) as [[r2 m2]|] eqn:Eb; [|done].
    assert (∃ s2, append_record r s = (Ok r2, s2)) as (s2 & E); [|congruence].
    eexists. apply append_Ok; [done|done|]. by exists r1, m, m2.
Qed.

(** ** A write that misses only its newline *)
Definition with_device (d : option nat) (s : store) : store := {|
  event_log := event_log s; manifest := manifest s; hold := hold s; owner_manifest := owner_manifest s;
  device := d; configured := configured s; _writer_generation := _writer_generation s;
  _enforce_generation := _enforce_generation s; _attempt_tails := _attempt_tails s |}.
Lemma append_unreadable r s e : configured s = true → _scan_attempt_tails (event_log s) = Err e →
  ∃ e', append_record r s = (Err e', s).
Proof.
  intros Hc Hs. unfold append_record. run_prog. rewrite Hc. cbn [negb].
  destruct (read_generation (manifest s)) as [g|]; [|eauto].
  destruct (raise_if _ _ "GENERATION_REQUIRED"); [|eauto].
  destruct (if hold s then _ else _); [|eauto].
  destruct (raise_if _ _ _); [|eauto].
  destruct (_check_generation_locked _ _ _ _); [|eauto]. rewrite Hs. eauto.
Qed.
(** An append with a failing device ends like one that succeeds, but for the file and the
    answer. *)
Lemma append_torn r s r2 s0 n : append_record r (with_device None s) = (Ok r2, s0) → configured s = true →
  ∃ e s1, append_record r (with_device (Some n) s) = (Err e, s1) ∧ configured s1 = true ∧
    event_log s1 = Some (default EmptyString (event_log s) +:+ str_take n (line_of r2)).
Proof.
  intros Ha Hc. apply append_Ok in Ha as (r1 & m & m2 & (Hg & Hh & Ho & Hck) & Hm & Hb & _); [|done..].
  cbn in Hg, Hh, Ho, Hck, Hm. unfold append_record. run_prog. cbn [configured with_device].
  rewrite Hc. cbn [negb manifest with_device _writer_generation]. rewrite Hg, bool_decide_true by done.
  cbn [negb raise_if hold with_device]. rewrite Hh. cbn [owner_manifest with_device]. rewrite Ho. cbn [raise_if _enforce_generation with_device].
  rewrite Hck. cbn [event_log with_device]. rewrite Hm.
  destruct (_attempt_key r1) as [key|] eqn:Ek; [|by unfold _bind_attempt_record in Hb; rewrite Ek in Hb].
  rewrite Hb. unfold write_line, catch_prog. cbn. eauto.
Qed.
Lemma split_unterminated other t : str_forallb (inner other) t = true → t ≠ EmptyString → split_lines other t = [t].
Proof.
  induction t as [|c t IH]; [done|]. cbn [str_forallb]. intros [Hc Ht]%andb_true_iff _.
  rewrite split_lines_cons, Hc. unfold inner in Hc. destruct (code c =? 13)%N; [by rewrite andb_false_r in Hc|].
  destruct t as [|d t]; [done|]. by rewrite IH.
Qed.
Lemma str_take_app t n : str_take (String.length t) (t +:+ n) = t.
Proof. induction t as [|c t IH]; cbn; [done|]. f_equal. exact IH. Qed.
(** Two documents on one line are no document. *)
Lemma joined_documents_err gap a v w : str_forallb is_ws gap = true → json_doc v = true → json_doc (PDict w) = true →
  ∃ e, json_loads (json_write gap a v +:+ json_write gap a (PDict w)) = Err e.
Proof.
  intros Hg Hv Hw. unfold json_loads, loads_with. rewrite skip_ws_start by by apply json_write_start.
  rewrite json_reads_back; [|done|done| |by cbn].
  - cbn. eauto.
  - pose proof (doc_size_print a gap v Hv). rewrite str_app_length. lia.
Qed.
Lemma parse_lines_elem lines rs line : parse_lines lines = Ok rs → line ∈ lines → blank line = false →
  ∃ v, json_loads line = Ok v.
Proof.
  revert rs. induction lines as [|l lines IH]; intros rs; [by intros _ ?%elem_of_nil|]. cbn [parse_lines].
  intros Hp [->|Hin]%elem_of_cons Hb.
  - rewrite Hb in Hp. apply bind_Ok_inv in Hp as (v & Hv & _). eauto.
  - destruct (blank l); [by eapply IH|]. apply bind_Ok_inv in Hp as (v & _ & (r & _ & (rs' & Hrs & _)%bind_Ok_inv)%bind_Ok_inv).
    by eapply IH.
Qed.
Lemma append_wf r s r2 s' : configured s = true → device s = None → py_wf (PDict r) = true →
  append_record r s = (Ok r2, s') → py_wf (PDict r2) = true.
Proof.
  intros Hc Hd Hr (r1 & m & m2 & (_ & _ & _ & (Hwf & _)%check_generation_Ok) & _ & Hb & _)%append_Ok; [|done..].
  specialize (Hwf Hr). apply bind_record_Ok in Hb as [(_ & -> & _)|(key & _ & -> & _)]; [done|by apply bound_wf].
Qed.
Lemma configured_device d s : configured (with_device d s) = configured s.
Proof. done. Qed.

(** An append that fails one byte short poisons the log.  When the write of an accepted
    record delivers all but its newline, the append raises and yet the record counts: the
    file scans as if it had been acknowledged.  The next acknowledged append joins its own
    record to that line, and from then on every append to the log is refused, whatever the
    record and the device. *)
Theorem unterminated_record_poisons s r r2 s0 (Hc : configured s = true) (Hw : whole (default EmptyString (event_log s)))
    (Hr : py_wf (PDict r) = true) (Ha : append_record r (with_device None s) = (Ok r2, s0)) :
  ∃ e torn, append_record r (with_device (Some (pred (String.length (line_of r2)))) s) = (Err e, torn) ∧
    _scan_attempt_tails (event_log torn) = _scan_attempt_tails (event_log s0) ∧
    ∀ r' r2' s1, py_wf (PDict r') = true → append_record r' (with_device None torn) = (Ok r2', s1) →
      ∀ r'' d, ∃ e', append_record r'' (with_device d s1) = (Err e', with_device d s1).
Proof.
  destruct (append_torn r s r2 s0 (pred (String.length (line_of r2))) Ha Hc) as (e & torn & Ht & Hct & Hlog).
  exists e, torn. split; [exact Ht|]. apply append_wf in Ha as Hr2; [|done..].
  assert (str_take (pred (String.length (line_of r2))) (line_of r2) = json_write " " true (stored (PDict r2))) as Htake.
  { unfold line_of. rewrite str_app_length. cbn [newline String.length]. rewrite Nat.add_1_r. apply str_take_app. }
  rewrite Htake in Hlog. pose proof (line_inner r2 Hr2) as Hin. split.
  - apply append_Ok in Ha as (r1 & m & m2 & _ & _ & _ & ->); [|done..].
    rewrite Hlog. cbn [event_log with_log with_tails with_device _scan_attempt_tails].
    rewrite !universal_newlines_lines. unfold line_of. rewrite !(split_lines_app _ (default _ _)) by done.
    rewrite split_lines_line by done. by rewrite (split_unterminated _ (json_write _ _ _)) by done.
  - intros r' r2' s1 Hr' Ha' r'' d. apply append_wf in Ha' as Hr2'; [|done..].
    apply append_Ok in Ha' as (r1 & m & m2 & _ & _ & _ & ->); [|done..].
    match goal with |- ∃ e', append_record _ ?s = _ => assert (∃ x, _scan_attempt_tails (event_log s) = Err x) as (x & Hx) end.
    2:{ eapply append_unreadable; [|exact Hx]. done. }
    cbn [event_log with_log with_tails with_device]. rewrite Hlog. cbn [from_option id].
    destruct (_scan_attempt_tails _) as [m'|x] eqn:E; [|eauto]. exfalso.
    apply scan_Ok in E as (rs & Hrs & _). unfold log_records in Hrs. cbn [from_option id] in Hrs.
    unfold line_of in Hrs. rewrite str_app_assoc, split_lines_app, <- str_app_assoc in Hrs by done.
    rewrite split_lines_line in Hrs by (rewrite str_forallb_app, Hin; by apply line_inner).
    eapply parse_lines_elem in Hrs as (v & Hv); [|apply elem_of_app; right; left|exact (blank_start "{"%char _ eq_refl)].
    destruct (joined_documents_err " " true (stored (PDict r2)) (stored_dict r2')) as (x & Hx);
      [done|by apply stored_doc|by apply stored_dict_wf|].
    unfold json_loads in *. change (PDict (stored_dict r2')) with (stored (PDict r2')) in Hx. congruence.
Qed.
End facts.

(** * Witnesses *)
#[local] Existing Instance Sha256_Digest.
#[local] Existing Instance Dyadic_FloatText.

Module Witness.
Definition transition (n : Z) (state : string) : dict := [
  ("event_type", PStr "attempt_transition");
  ("payload", PDict [("task_id", PStr "t-1"); ("attempt_id", PStr "a-1"); ("sequence", PInt n);
                     ("state", PStr state)])].
Definition empty : store := {|
  event_log := None; manifest := Absent; hold := false; owner_manifest := Ok false; device := None;
  configured := true; _writer_generation := None; _enforce_generation := false; _attempt_tails := ∅ |}.
Definition after (r : dict) (s : store) : store := (append_record r s).2.
Definition written (r : dict) (s : store) : dict := match (append_record r s).1 with Ok r => r | Err _ => [] end.
Definition first : dict := transition 1 "PLANNED".
Definition second : dict := transition 2 "RUNNING".
End Witness.
Import Witness.

Lemma empty_implements : implements None ∅.
Proof. split; [by left|]. by exists [], ∅. Qed.

Lemma unterminated_record_poisons_witness :
  ∃ e torn, append_record first (with_device (Some (pred (String.length (line_of (written first empty))))) empty) = (Err e, torn) ∧
    (∃ r, (append_record second (with_device None torn)).1 = Ok r) ∧
    ∃ e', (append_record second (after second (with_device None torn))).1 = Err e'.
Proof.
  assert (append_record first (with_device None empty) = (Ok (written first empty), after first empty)) as Ha
    by (vm_compute; reflexivity).
  destruct (unterminated_record_poisons empty first (written first empty) (after first empty) eq_refl
              (or_introl eq_refl) eq_refl Ha) as (e & torn & Ht & _ & Hp).
  exists e, torn. split; [exact Ht|].
  assert (is_ok (append_record second (with_device None torn)).1 = true) as Hok.
  { assert (torn = after first (with_device (Some (pred (String.length (line_of (written first empty))))) empty)) as ->
      by (unfold after; rewrite Ht; reflexivity). vm_compute. reflexivity. }
  unfold after. destruct (append_record second (with_device None torn)) as [[r|x] s1] eqn:E; [|discriminate Hok].
  split; [exists r; reflexivity|].
  destruct (Hp second r s1 eq_refl E second (device s1)) as (e' & He). exists e'.
  assert (with_device (device s1) s1 = s1) as Es by (destruct s1; reflexivity). rewrite Es in He. cbn [snd]. rewrite He. reflexivity.
Defined.
