(* ===== verification/EventBus.v ===== *)
(** * The event bus
    ([NexusEventBus] of [src/src/nexus_runtime/kernel/events/transport.py])

    Publishing appends the record to the log and then calls the observers: the subscribers
    of the event type and the remote broadcaster.  An attempt's transitions are numbered
    through the bus, which remembers the last number of each attempt; feedback decisions go
    to their own store.

    The bus without a writer factory.  [host] is the code behind the observers: given a
    handler and the payload it may do anything to the bus, returns or raises, and leaves the
    payload (one mapping, handed from observer to observer) as it likes.  The clock and the
    trace id are arguments. *)
From Stdlib Require Import Ascii String SpecFloat.
From S2P Require Import Prelude PyValue Json Lines Digest Instances.
From S2P Require WriterGeneration DeveloperFeedback AttemptEvent Continuity.
From S2P Require Import AttemptLog.

Definition SEMANTIC_EVENT_TYPES : list string := [
  "audit_failed"; "learning_decision"; "evidence_accepted"; "healing_artifact_announced"; "lifecycle_hook";
  "phase_transition"; "spec_bind"; "attempt_transition"].
Definition RAW_EVENT_TYPES : list string := [
  "phase_start"; "phase_end"; "lifecycle_pre"; "external_signal_injected"; "persist_event"; "test_event"].
Definition FEEDBACK_TYPE := "developer_feedback_decision".

(** An observer: a subscriber, by number, or the broadcaster. *)
Inductive observer : Set := Subscriber (n : nat) | Broadcaster.
Definition observer_name (o : observer) : string :=
  match o with Subscriber _ => "subscriber" | Broadcaster => "remote_broadcaster" end.

Record bus : Type := {
  log : store; feedback : DeveloperFeedback.store;
  global_seq : Z; attempt_sequences : gmap attempt_key Z;
  subscribers : gmap string (list nat); has_broadcaster : bool;
  observer_error_count : Z; last_observer_error : option dict
}.
Definition with_log (l : store) (b : bus) : bus := {|
  log := l; feedback := feedback b; global_seq := global_seq b; attempt_sequences := attempt_sequences b;
  subscribers := subscribers b; has_broadcaster := has_broadcaster b;
  observer_error_count := observer_error_count b; last_observer_error := last_observer_error b |}.
Definition with_feedback (f : DeveloperFeedback.store) (b : bus) : bus := {|
  log := log b; feedback := f; global_seq := global_seq b; attempt_sequences := attempt_sequences b;
  subscribers := subscribers b; has_broadcaster := has_broadcaster b;
  observer_error_count := observer_error_count b; last_observer_error := last_observer_error b |}.
Definition with_seq (n : Z) (b : bus) : bus := {|
  log := log b; feedback := feedback b; global_seq := n; attempt_sequences := attempt_sequences b;
  subscribers := subscribers b; has_broadcaster := has_broadcaster b;
  observer_error_count := observer_error_count b; last_observer_error := last_observer_error b |}.
Definition with_sequences (m : gmap attempt_key Z) (b : bus) : bus := {|
  log := log b; feedback := feedback b; global_seq := global_seq b; attempt_sequences := m;
  subscribers := subscribers b; has_broadcaster := has_broadcaster b;
  observer_error_count := observer_error_count b; last_observer_error := last_observer_error b |}.
Definition subscribe (event_type : string) (handler : nat) (b : bus) : bus := {|
  log := log b; feedback := feedback b; global_seq := global_seq b; attempt_sequences := attempt_sequences b;
  subscribers := <[event_type := default [] (subscribers b !! event_type) ++ [handler]]> (subscribers b);
  has_broadcaster := has_broadcaster b; observer_error_count := observer_error_count b;
  last_observer_error := last_observer_error b |}.
Definition set_remote_broadcaster (b : bus) : bus := {|
  log := log b; feedback := feedback b; global_seq := global_seq b; attempt_sequences := attempt_sequences b;
  subscribers := subscribers b; has_broadcaster := true;
  observer_error_count := observer_error_count b; last_observer_error := last_observer_error b |}.
Definition _record_observer_error (event_type : string) (o : observer) (e : exn) (b : bus) : bus := {|
  log := log b; feedback := feedback b; global_seq := global_seq b; attempt_sequences := attempt_sequences b;
  subscribers := subscribers b; has_broadcaster := has_broadcaster b;
  observer_error_count := observer_error_count b + 1;
  last_observer_error := Some [
    ("event_type", PStr event_type); ("observer", PStr (observer_name o));
    ("error_type", PStr (exn_class_name (exn_type e))); ("error", PStr (exn_msg e));
    ("observer_only", PBool true)] |}.
Definition observer_telemetry (b : bus) : dict := [
  ("schema", PStr "nexus.event_observer_telemetry.v1"); ("observer_error_count", PInt (observer_error_count b));
  ("last_observer_error", PDict (default [] (last_observer_error b)));
  ("enforcement_authority", PStr "synchronous_lifecycle_guards"); ("observer_only", PBool true)].

(** Operations of the two stores. *)
Definition in_log {A} (m : prog store A) : prog bus A := λ b,
  let '(r, l) := m (log b) in (r, with_log l b).
Definition in_feedback {A} (m : prog DeveloperFeedback.store A) : prog bus A := λ b,
  let '(r, f) := m (feedback b) in (r, with_feedback f b).

Section bus.
Context `{FloatText} `{Digest} (host : observer → string → dict → bus → result unit * dict * bus).

(** One call, its exception recorded; a [BaseException] goes through. *)
Definition notify (event_type : string) (o : observer) (payload : dict) : prog bus dict := λ b,
  let '(r, payload, b) := host o event_type payload b in
  match r with
  | Ok _ => (Ok payload, b)
  | Err e => if exn_is ExceptionC e then (Ok payload, _record_observer_error event_type o e b) else (Err e, b)
  end.
Fixpoint notify_all (event_type : string) (os : list observer) (payload : dict) : prog bus dict :=
  match os with
  | [] => mret payload
  | o :: os => payload ← notify event_type o payload; notify_all event_type os payload
  end.
(** The subscribers are those before the first call; whether there is a broadcaster is
    looked up after the last. *)
Definition observers (event_type : string) (payload : dict) : prog bus dict :=
  b ← get_state;
  payload ← notify_all event_type (map Subscriber (default [] (subscribers b !! event_type))) payload;
  b ← get_state;
  notify_all event_type (if has_broadcaster b then [Broadcaster] else []) payload.

(** The payload of the record: a copy with the number, the time and the trace id. *)
Definition local_payload (payload : dict) (seq : Z) (now : spec_float) (trace_id : string) : dict :=
  let payload := dict_set "internal_ts" (PFloat now) (dict_set "_seq" (PInt seq) payload) in
  if has_key "_trace_id" payload then payload else dict_set "_trace_id" (PStr trace_id) payload.
Definition event_record (event_type : string) (payload : dict) (seq : Z) (now : spec_float) : dict := [
  ("event_type", PStr event_type); ("timestamp", PFloat now); ("seq", PInt seq); ("payload", PDict payload)].
(** [publish] up to its observers. *)
Definition record_event (event_type : string) (payload : dict) (now : spec_float) (trace_id : string) :
    prog bus dict :=
  _ ← lift (raise_if (String.eqb event_type FEEDBACK_TYPE) ValueError
        "developer feedback decisions require the typed emitter");
  b ← get_state;
  let seq := (global_seq b + 1)%Z in
  _ ← modify_state (with_seq seq);
  let payload := local_payload payload seq now trace_id in
  _ ← in_log (append_record (event_record event_type payload seq now));
  mret payload.
Definition publish (event_type : string) (payload : dict) (now : spec_float) (trace_id : string) : prog bus unit :=
  payload ← record_event event_type payload now trace_id;
  _ ← observers event_type payload;
  mret ().

(** ** Transitions of an attempt *)
Definition numbered (e : AttemptEvent.AttemptTransitionEvent) (n : Z) : AttemptEvent.AttemptTransitionEvent := {|
  AttemptEvent.task_id := AttemptEvent.task_id e; AttemptEvent.attempt_id := AttemptEvent.attempt_id e;
  AttemptEvent.sequence := PInt n; AttemptEvent.state := AttemptEvent.state e;
  AttemptEvent.reason := AttemptEvent.reason e;
  AttemptEvent.continuity_event_type := AttemptEvent.continuity_event_type e;
  AttemptEvent.strategy_delta := AttemptEvent.strategy_delta e; AttemptEvent.action := AttemptEvent.action e;
  AttemptEvent.observation := AttemptEvent.observation e; AttemptEvent.do_not_repeat := AttemptEvent.do_not_repeat e;
  AttemptEvent.unresolved_risks := AttemptEvent.unresolved_risks e; AttemptEvent.unknowns := AttemptEvent.unknowns e;
  AttemptEvent.next_action := AttemptEvent.next_action e; AttemptEvent.claim_ceiling := AttemptEvent.claim_ceiling e;
  AttemptEvent.candidate_refs := AttemptEvent.candidate_refs e;
  AttemptEvent.evidence_refs := AttemptEvent.evidence_refs e;
  AttemptEvent.source_revision := AttemptEvent.source_revision e;
  AttemptEvent.contract_revision := AttemptEvent.contract_revision e;
  AttemptEvent.timestamp := AttemptEvent.timestamp e; AttemptEvent.schema := AttemptEvent.schema e |}.
Definition event_key (e : AttemptEvent.AttemptTransitionEvent) : attempt_key :=
  (text_of (AttemptEvent.task_id e), text_of (AttemptEvent.attempt_id e)).
Definition remembered (b : bus) (key : attempt_key) : Z := default 0%Z (attempt_sequences b !! key).
(** [emit_attempt_transition] of the event [e] whose sequence is the integer [n]. *)
Definition emit_attempt_transition (e : AttemptEvent.AttemptTransitionEvent) (n : Z) (now : spec_float)
    (trace_id : string) : prog bus dict :=
  b ← get_state;
  let previous := remembered b (event_key e) in
  _ ← lift (raise_if (negb (previous =? 0)%Z && negb (n =? previous + 1)%Z) ValueError
        "attempt transition sequence must be contiguous");
  let payload := AttemptEvent.transition_dict (numbered e n) in
  _ ← publish "attempt_transition" payload now trace_id;
  _ ← modify_state (λ b, with_sequences (<[event_key e := n]> (attempt_sequences b)) b);
  mret payload.
Definition next_attempt_sequence (key : attempt_key) : prog bus Z :=
  persisted ← in_log (attempt_tail key);
  b ← get_state;
  mret (Z.max (remembered b key) persisted + 1)%Z.
(** The numbers remembered after [configure]: the persisted ones, if any. *)
Fixpoint refresh_sequences (keys : list attempt_key) (m : gmap attempt_key Z) : prog bus (gmap attempt_key Z) :=
  match keys with
  | [] => mret m
  | key :: keys =>
      tail ← in_log (attempt_tail key);
      refresh_sequences keys (if (tail =? 0)%Z then m else <[key := tail]> m)
  end.
(** [configure] with [create=True] of the root of the log; the signal inbox apart. *)
Definition configure (writer : option WriterGeneration.EventWriterGeneration) (enforce : bool) (root : string) :
    prog bus unit :=
  _ ← in_log (configure writer enforce);
  _ ← modify_state (λ b, with_feedback (DeveloperFeedback.configure root (feedback b)) b);
  b ← get_state;
  m ← refresh_sequences (map fst (map_to_list (attempt_sequences b))) ∅;
  modify_state (with_sequences m).

(** ** Other emitters *)
Definition emit_developer_feedback_decision (d : DeveloperFeedback.DeveloperFeedbackDecision)
    (expected_tail : option string) : prog bus DeveloperFeedback.append_result :=
  record ← in_feedback (DeveloperFeedback.append d expected_tail);
  if DeveloperFeedback.replayed record then mret record
  else
    _ ← observers FEEDBACK_TYPE (DeveloperFeedback.entry record);
    mret record.
Definition emit_audit_failure (task reason evidence : string) : spec_float → string → prog bus unit :=
  publish "audit_failed" [("task_id", PStr task); ("reason", PStr reason); ("evidence_id", PStr evidence)].
Definition emit_learning_decision (task action : string) (reasons : option (list string)) :
    spec_float → string → prog bus unit :=
  publish "learning_decision"
    [("task_id", PStr task); ("action", PStr action); ("reasons", str_list (default [] reasons))].
Definition emit_evidence_accepted (task evidence kind : string) : spec_float → string → prog bus unit :=
  publish "evidence_accepted"
    [("task_id", PStr task); ("evidence_id", PStr evidence); ("evidence_type", PStr kind)].

(** ** Reading back *)
Definition get_recent_events (event_type : string) (limit : Z) : prog bus (list pyval) :=
  catch_prog ExceptionC (in_log (read_recent event_type limit)) (λ _, mret []).
Definition listed (types : list string) (l : list string) : list string := List.filter (λ t, text_in t types) l.
Definition is_unknown (t : string) : bool := negb (text_in t SEMANTIC_EVENT_TYPES) && negb (text_in t RAW_EVENT_TYPES).
(** [str(event.get("event_type") or "")] of each event. *)
Definition event_type_of (v : pyval) : result string :=
  d ← as_mapping v "get"; Ok (str_or (py_get d "event_type") EmptyString).
Definition audit_event_contracts (limit : Z) (fail_on_raw : bool) (raw_policy : option string) : prog bus dict :=
  let raw_policy := default (if fail_on_raw then "block" else "warn") raw_policy in
  _ ← lift (raise_if (negb (text_in raw_policy ["allow"; "warn"; "block"; "strict"])) ValueError
        ("unsupported raw event policy: " +:+ raw_policy));
  events ← get_recent_events EmptyString limit;
  types ← lift (mapM_result event_type_of events);
  let semantic := listed SEMANTIC_EVENT_TYPES types in
  let raw := List.filter (λ t, negb (text_in t SEMANTIC_EVENT_TYPES) && text_in t RAW_EVENT_TYPES) types in
  let unknown := List.filter is_unknown types in
  let fail_raw := text_in raw_policy ["block"; "strict"] in
  let any (l : list string) := negb (bool_decide (l = [])) in
  mret [
    ("schema_version", PStr "nexus_event_contract_audit.v1"); ("events_scanned", PInt (Z.of_nat (length events)));
    ("semantic_event_count", PInt (Z.of_nat (length semantic))); ("raw_event_count", PInt (Z.of_nat (length raw)));
    ("unknown_event_count", PInt (Z.of_nat (length unknown)));
    ("semantic_event_types", str_list (sort_unique semantic)); ("raw_event_types", str_list (sort_unique raw));
    ("unknown_event_types", str_list (sort_unique unknown));
    ("transition_status", PStr (if any raw then "raw_events_present" else "semantic_only"));
    ("strict_raw_mode", PBool fail_raw); ("raw_policy", PStr raw_policy);
    ("warning_reasons", str_list (if negb fail_raw && String.eqb raw_policy "warn" && any raw
                                  then ["raw_event_types_present"] else []));
    ("failure_reasons", str_list ((if any unknown then ["unknown_event_types_present"] else [])
                                  ++ (if fail_raw && any raw then ["raw_event_types_present"] else [])));
    ("passed", PBool (negb (any unknown) && negb (fail_raw && any raw)))].
End bus.

(** * Facts *)
Section facts.
Context `{FloatText} `{Digest}.
Implicit Types (host : observer → string → dict → bus → result unit * dict * bus).

Lemma implements_scan l h : implements l h → ∃ m, _scan_attempt_tails l = Ok m ∧
  ∀ key, (default (0%Z, EmptyString) (m !! key)).1 = Z.of_nat (length (history h key)).
Proof.
  intros (_ & rs & m & Hrs & Hl & Hh). exists m. split; [apply scan_Ok; eauto|]. intros key.
  rewrite <- (implements_tail h m rs key) by done. unfold tail_of. by destruct (m !! key).
Qed.
Lemma attempt_tail_history s h key : configured s = true → implements (event_log s) h →
  ∃ m, attempt_tail key s = (Ok (Z.of_nat (length (history h key))), with_tails m s).
Proof.
  intros Hc (m & Hm & Ht)%implements_scan. exists m. unfold attempt_tail. run_prog. rewrite Hc, Hm. by rewrite Ht.
Qed.
Lemma next_sequence_history b h key : configured (log b) = true → implements (event_log (log b)) h →
  ∃ m, next_attempt_sequence key b =
    (Ok (Z.max (remembered b key) (Z.of_nat (length (history h key))) + 1)%Z, with_log (with_tails m (log b)) b).
Proof.
  intros Hc Hi. destruct (attempt_tail_history (log b) h key Hc Hi) as (m & Ht). exists m.
  unfold next_attempt_sequence, in_log. run_prog. by rewrite Ht.
Qed.

(** ** Observers *)
Definition base_exception (e : exn) : Prop := exn_is ExceptionC e = false.
Lemma notify_raises host t o p b e b' : notify host t o p b = (Err e, b') → base_exception e.
Proof. unfold notify. destruct (host o t p b) as [[[]p'] b1]; [done|]. case_match eqn:E; [done|]. by intros [= <- _]. Qed.
Lemma notify_all_raises host t os p b e b' : notify_all host t os p b = (Err e, b') → base_exception e.
Proof.
  revert p b. induction os as [|o os IH]; intros p b; cbn [notify_all]; [done|]. run_prog.
  destruct (notify host t o p b) as [[p'|e'] b1] eqn:En; [apply IH|].
  intros [= <- _]. by eapply notify_raises.
Qed.
Lemma observers_raise host t p b e b' : observers host t p b = (Err e, b') → base_exception e.
Proof.
  unfold observers. run_prog.
  destruct (notify_all _ _ _ p b) as [[p'|e'] b1] eqn:En; [apply notify_all_raises|].
  intros [= <- _]. by eapply notify_all_raises.
Qed.

Section exceptional.
Context host (Hhost : ∀ o t p b x, (host o t p b).1.1 = Err x → exn_is ExceptionC x = true).
Lemma notify_all_exceptional t os p b : ∃ p' b', notify_all host t os p b = (Ok p', b').
Proof.
  revert p b. induction os as [|o os IH]; intros p b; cbn [notify_all]; run_prog; [eauto|].
  unfold notify. specialize (Hhost o t p b). destruct (host o t p b) as [[[?|x] p'] b1]; [apply IH|].
  rewrite (Hhost x) by done. apply IH.
Qed.
Lemma observers_exceptional t p b x b' : observers host t p b ≠ (Err x, b').
Proof.
  unfold observers. run_prog.
  destruct (notify_all_exceptional t (map Subscriber (default [] (subscribers b !! t))) p b) as (p1 & b1 & ->).
  destruct (notify_all_exceptional t (if has_broadcaster b1 then [Broadcaster] else []) p1 b1) as (p2 & b2 & ->). done.
Qed.
End exceptional.

(** ** Recording *)
(** A writer the manifest admits. *)
Definition may_write (s : store) : Prop :=
  configured s = true ∧ device s = None ∧ hold s = false ∧ owner_manifest s = Ok false ∧
  WriterGeneration.read_generation (manifest s) = Ok (_writer_generation s) ∧
  (_writer_generation s = None → _enforce_generation s = false).
Lemma may_write_admitted s t p seq now : may_write s → ∃ r1, admitted s (event_record t p seq now) r1.
Proof.
  intros (_ & _ & Hh & Ho & Hg & He). unfold admitted, _check_generation_locked.
  destruct (_writer_generation s) as [g|].
  - rewrite bool_decide_true by done. cbn. eauto.
  - rewrite He, bool_decide_false by naive_solver. cbn. eauto.
Qed.
Lemma local_payload_wf p seq now tr : py_wf (PDict p) = true → float_valid now = true →
  py_wf (PDict (local_payload p seq now tr)) = true.
Proof.
  intros Hp Hn. unfold local_payload.
  assert (py_wf (PDict (dict_set "internal_ts" (PFloat now) (dict_set "_seq" (PInt seq) p))) = true) as Hw
    by (apply Contract.py_wf_set; [by apply Contract.py_wf_set|done]).
  destruct (has_key _ _); [done|]. by apply Contract.py_wf_set.
Qed.
Lemma event_record_wf t p seq now : py_wf (PDict p) = true → float_valid now = true →
  py_wf (PDict (event_record t p seq now)) = true.
Proof. intros Hp Hn. cbn in *. rewrite Hn, Hp. done. Qed.

(** The record of a publication is in the log before an observer is called, or it is
    refused. *)
Lemma record_event_implements t p now tr b h : implements (event_log (log b)) h → configured (log b) = true →
  device (log b) = None → py_wf (PDict p) = true → float_valid now = true → t ≠ FEEDBACK_TYPE →
  let r := event_record t (local_payload p (global_seq b + 1) now tr) (global_seq b + 1) now in
  match record_event t p now tr b with
  | (Ok _, b') => ∃ h', spec_append h r = Some h' ∧ implements (event_log (log b')) h'
  | (Err _, b') => event_log (log b') = event_log (log b) ∧ (may_write (log b) → spec_append h r = None)
  end.
Proof.
  intros Hi Hc Hd Hp Hn Ht r. unfold record_event, in_log. run_prog.
  rewrite (proj2 (String.eqb_neq _ _) Ht). cbn [raise_if log with_seq].
  pose proof (append_simulates (log b) h r Hi) as Ha.
  assert (py_wf (PDict r) = true) as Hr by (apply event_record_wf; [by apply local_payload_wf|done]).
  specialize (Ha Hr eq_refl Hc Hd). fold r. destruct (append_record r (log b)) as [[r2|e] l].
  - destruct Ha as (h' & Hs & Hi' & _). exists h'. by split.
  - destruct Ha as [Hl Ha]. split; [done|]. intros Hm. by apply Ha, may_write_admitted.
Qed.
Lemma publish_record host t p now tr b : publish host t p now tr b =
  match record_event t p now tr b with
  | (Ok p', b1) => match observers host t p' b1 with (Ok _, b2) => (Ok (), b2) | (Err e, b2) => (Err e, b2) end
  | (Err e, b1) => (Err e, b1)
  end.
Proof. done. Qed.

Lemma publish_outcome host t p now tr b h (Hi : implements (event_log (log b)) h)
    (Hc : configured (log b) = true) (Hd : device (log b) = None) (Hp : py_wf (PDict p) = true)
    (Hn : float_valid now = true) (Ht : t ≠ FEEDBACK_TYPE) :
  (∃ e b', publish host t p now tr b = (Err e, b') ∧ event_log (log b') = event_log (log b)
     ∧ record_event t p now tr b = (Err e, b')) ∨
  (∃ p' b1 h', record_event t p now tr b = (Ok p', b1) ∧
     spec_append h (event_record t (local_payload p (global_seq b + 1) now tr) (global_seq b + 1) now) = Some h' ∧
     implements (event_log (log b1)) h' ∧
     ∀ e b', publish host t p now tr b = (Err e, b') → base_exception e).
Proof.
  pose proof (record_event_implements t p now tr b h Hi Hc Hd Hp Hn Ht) as Hr. cbn zeta in Hr.
  setoid_rewrite publish_record. destruct (record_event t p now tr b) as [[p'|e] b1] eqn:Er.
  - right. destruct Hr as (h' & Hs & Hi'). exists p', b1, h'. split_and!; try done. intros e b'.
    destruct (observers host t p' b1) as [[]] eqn:Eo; [done|]. intros [= <- _]. by eapply observers_raise.
  - left. exists e, b1. by destruct Hr.
Qed.

(** ** Numbers *)
Lemma bounded_texts_wf v : AttemptEvent.bounded_texts v → py_wf (PList (AttemptEvent.tuple_items v)) = true.
Proof.
  intros (l & -> & Hl & _). cbn. apply Forall_forallb. apply Forall_forallb in Hl.
  eapply Forall_impl; [exact Hl|]. by intros [].
Qed.
Lemma filled_str v : AttemptEvent.filled v = true → v = PStr (text_of v) ∧ blank (text_of v) = false.
Proof. destruct v; try done. cbn. by intros ?%negb_true_iff. Qed.
Lemma transition_wf e n : AttemptEvent.check_transition e = Ok () → py_wf (AttemptEvent.timestamp e) = true →
  py_wf (PDict (AttemptEvent.transition_dict (numbered e n))) = true.
Proof.
  intros (Hf & _ & Hs & _ & Hsch & Hb)%AttemptEvent.check_transition_Ok Ht.
  repeat match goal with H : Forall _ (_ :: _) |- _ => inversion_clear H end.
  assert (∀ v, is_str v = true → py_wf v = true) as Hstr by (by intros []).
  assert (∀ v, AttemptEvent.filled v = true → py_wf v = true) as Hfil by (by intros []).
  apply andb_true_intro. split; [by apply bool_decide_eq_true_2, (bool_decide_eq_true_1 _)|].
  apply Forall_forallb. unfold AttemptEvent.transition_dict.
  repeat (apply List.Forall_cons; [cbn [snd]; first [exact Ht|by apply bounded_texts_wf|by apply Hstr|by apply Hfil|idtac]|]).
  - done.
  - cbn. by rewrite Hsch.
  - done.
Qed.
Lemma local_payload_get p seq now tr k : k ∉ ["_seq"; "internal_ts"; "_trace_id"] →
  dict_get k (local_payload p seq now tr) = dict_get k p.
Proof.
  intros Hk. unfold local_payload. destruct (has_key _ _); rewrite !dict_get_set_ne; set_solver.
Qed.
Definition transition_record (e : AttemptEvent.AttemptTransitionEvent) (n seq : Z) (now : spec_float) (tr : string) : dict :=
  event_record "attempt_transition" (local_payload (AttemptEvent.transition_dict (numbered e n)) seq now tr) seq now.
Lemma transition_keyed e n seq now tr : AttemptEvent.check_transition e = Ok () → (1 ≤ n)%Z →
  keyed (transition_record e n seq now tr) (event_key e) n.
Proof.
  intros (Hf & _)%AttemptEvent.check_transition_Ok Hn.
  repeat match goal with H : Forall _ (_ :: _) |- _ => inversion_clear H end.
  split; [done|]. eexists. split; [done|]. unfold py_get. rewrite !local_payload_get by set_solver.
  repeat match goal with H : AttemptEvent.filled _ = true |- _ => apply filled_str in H as [? ?] end.
  split_and!; [done|done|done|by apply blank_nonempty|by apply blank_nonempty|done].
Qed.
Lemma spec_append_keyed h r key n : keyed r key n → spec_append h r =
  if (n =? Z.of_nat (length (history h key)) + 1)%Z
  then Some (<[key := history h key ++ [content (stored_dict r)]]> h) else None.
Proof.
  intros Hk. unfold spec_append. rewrite (proj2 (attempt_key_Some r key)) by eauto. by rewrite (keyed_sequence _ _ _ Hk).
Qed.

(** What [emit_attempt_transition] does once the number is not refused at once. *)
Lemma emit_steps host e n now tr b : (remembered b (event_key e) = 0 ∨ n = remembered b (event_key e) + 1)%Z →
  emit_attempt_transition host e n now tr b =
  match publish host "attempt_transition" (AttemptEvent.transition_dict (numbered e n)) now tr b with
  | (Ok _, b') => (Ok (AttemptEvent.transition_dict (numbered e n)),
                   with_sequences (<[event_key e := n]> (attempt_sequences b')) b')
  | (Err x, b') => (Err x, b')
  end.
Proof.
  intros Hn. unfold emit_attempt_transition. run_prog. rewrite raise_if_false; [done|].
  apply andb_false_iff. destruct Hn as [->| ->]; [by left|right]. by rewrite Z.eqb_refl.
Qed.

Section numbering.
Context (b : bus) (h : gmap attempt_key (list dict)) (e : AttemptEvent.AttemptTransitionEvent) (now : spec_float) (tr : string)
  (Hi : implements (event_log (log b)) h) (He : AttemptEvent.check_transition e = Ok ())
  (Ht : py_wf (AttemptEvent.timestamp e) = true) (Hn : float_valid now = true).
Abbreviation key := (event_key e).
Abbreviation past := (Z.of_nat (length (history h key))).

Lemma emit_refused host n : configured (log b) = true → device (log b) = None → (1 ≤ n)%Z → n ≠ (past + 1)%Z →
  ∃ x b', emit_attempt_transition host e n now tr b = (Err x, b') ∧ event_log (log b') = event_log (log b).
Proof.
  intros Hc Hd Hpos Hne.
  destruct (decide (remembered b key = 0 ∨ n = remembered b key + 1)%Z) as [Hs|Hs].
  - rewrite emit_steps by done.
    destruct (publish_outcome host "attempt_transition" (AttemptEvent.transition_dict (numbered e n)) now tr b h)
      as [(x & b' & -> & Hl & _)|(p' & b1 & h' & _ & Hsp & _)]; try done; [by apply transition_wf|eauto|].
    exfalso. rewrite (spec_append_keyed _ _ key n) in Hsp by by apply transition_keyed.
    by rewrite (proj2 (Z.eqb_neq _ _) Hne) in Hsp.
  - exists (Exn ValueError "attempt transition sequence must be contiguous"), b. split; [|done].
    unfold emit_attempt_transition. run_prog.
    rewrite (proj2 (Z.eqb_neq (remembered b key) 0)), (proj2 (Z.eqb_neq n (remembered b key + 1))) by lia. done.
Qed.

(** The number the bus offers is accepted.  While the bus remembers nothing or the last
    logged number of an attempt, [next_attempt_sequence] is one more than the transitions
    logged; a valid event under that number enters the history of the attempt before any
    observer is called, and its emission returns, whatever the observers do, unless one
    raises beyond [Exception]. *)
Theorem next_sequence_accepted host (Hw : may_write (log b))
    (Hm : remembered b key = 0%Z ∨ remembered b key = past)
    (Hhost : ∀ o t p b x, (host o t p b).1.1 = Err x → exn_is ExceptionC x = true) :
  ∃ b1 p b2 r, next_attempt_sequence key b = (Ok (past + 1)%Z, b1) ∧
    record_event "attempt_transition" (AttemptEvent.transition_dict (numbered e (past + 1))) now tr b1 = (Ok p, b2) ∧
    implements (event_log (log b2)) (<[key := history h key ++ [r]]> h) ∧
    ∃ b3, emit_attempt_transition host e (past + 1) now tr b1 =
      (Ok (AttemptEvent.transition_dict (numbered e (past + 1))), b3) ∧ remembered b3 key = (past + 1)%Z.
Proof.
  pose proof Hw as (Hc & Hd & _). destruct (next_sequence_history b h key Hc Hi) as (m & Hnext).
  replace (Z.max (remembered b key) past) with past in Hnext by lia. set (b1 := with_log _ b) in Hnext. exists b1.
  assert (implements (event_log (log b1)) h) as Hi1 by done.
  pose proof (transition_keyed e (past + 1) (global_seq b1 + 1) now tr He ltac:(lia)) as Hk.
  destruct (publish_outcome host "attempt_transition" (AttemptEvent.transition_dict (numbered e (past + 1))) now tr b1 h)
    as [(x & b' & _ & _ & Hrec)|(p & b2 & h' & Hrec & Hsp & Hi2 & Hpub)]; try done; [by apply transition_wf|exfalso|].
  - pose proof (record_event_implements "attempt_transition" (AttemptEvent.transition_dict (numbered e (past + 1))) now tr b1 h
      Hi1 Hc Hd ltac:(by apply transition_wf) Hn ltac:(done)) as Hr. cbn zeta in Hr. rewrite Hrec in Hr.
    destruct Hr as [_ Hr]. specialize (Hr Hw). rewrite (spec_append_keyed _ _ key (past + 1)) in Hr by done.
    by rewrite Z.eqb_refl in Hr.
  - exists p, b2, (content (stored_dict (transition_record e (past + 1) (global_seq b1 + 1) now tr))).
    rewrite (spec_append_keyed _ _ key (past + 1)), Z.eqb_refl in Hsp by done. injection Hsp as <-.
    do 3 (split; [assumption|]).
    assert (remembered b1 key = 0 ∨ past + 1 = remembered b1 key + 1)%Z as Hor by (change (remembered b1 key) with (remembered b key); destruct Hm as [-> | ->]; auto).
    rewrite emit_steps by exact Hor. destruct (publish _ _ _ _ _ b1) as [[[]|x] b'] eqn:Ep.
    + eexists. split; [reflexivity|]. unfold remembered. cbn. by rewrite lookup_insert_eq.
    + exfalso. pose proof (Hpub x b' eq_refl) as Hb. rewrite publish_record, Hrec in Ep.
      destruct (observers host _ p b2) as [[?|y] b''] eqn:Eo; [done|]. injection Ep as -> _.
      by apply (observers_exceptional host Hhost) in Eo.
Qed.

(** A bus left behind is stuck.  When another process has logged transitions of an
    attempt this bus has already numbered, [next_attempt_sequence] offers one more than the
    log's number, but every transition of the attempt is refused from then on, under
    whatever number, that one included, and nothing is written. *)
Theorem stale_numbers_refused host n (Hc : configured (log b) = true) (Hd : device (log b) = None)
    (Hm : (0 < remembered b key < past)%Z) (Hpos : (1 ≤ n)%Z) :
  (∃ b1, next_attempt_sequence key b = (Ok (past + 1)%Z, b1)) ∧
  ∃ x b', emit_attempt_transition host e n now tr b = (Err x, b') ∧ event_log (log b') = event_log (log b).
Proof.
  split.
  - destruct (next_sequence_history b h key Hc Hi) as (m & ->). rewrite Z.max_r by lia. eauto.
  - destruct (decide (n = past + 1)%Z) as [->|Hne]; [|by apply emit_refused].
    eexists _, b. split; [|done]. unfold emit_attempt_transition. run_prog.
    rewrite (proj2 (Z.eqb_neq (remembered b key) 0)), (proj2 (Z.eqb_neq (past + 1) (remembered b key + 1))) by lia. done.
Qed.
End numbering.
End facts.

(** * Witnesses *)
#[local] Existing Instance Sha256_Digest.
#[local] Existing Instance Dyadic_FloatText.

Module Witness.
Definition key : attempt_key := ("t-1", "a-1").
(** A subscriber that fails. *)
Definition host (o : observer) (t : string) (p : dict) (b : bus) : result unit * dict * bus :=
  (raise ValueError "observer", [], b).
Definition event : AttemptEvent.AttemptTransitionEvent := {|
  AttemptEvent.task_id := PStr "t-1"; AttemptEvent.attempt_id := PStr "a-1"; AttemptEvent.sequence := PInt 1;
  AttemptEvent.state := PStr "RUNNING"; AttemptEvent.reason := PStr EmptyString;
  AttemptEvent.continuity_event_type := PStr "OBSERVATION_RECORDED"; AttemptEvent.strategy_delta := PStr EmptyString;
  AttemptEvent.action := PStr EmptyString; AttemptEvent.observation := PStr EmptyString;
  AttemptEvent.do_not_repeat := PTuple []; AttemptEvent.unresolved_risks := PTuple [];
  AttemptEvent.unknowns := PTuple []; AttemptEvent.next_action := PStr EmptyString;
  AttemptEvent.claim_ceiling := PStr EmptyString; AttemptEvent.candidate_refs := PTuple [];
  AttemptEvent.evidence_refs := PTuple []; AttemptEvent.source_revision := PStr "r1";
  AttemptEvent.contract_revision := PStr "c1"; AttemptEvent.timestamp := PInt 5;
  AttemptEvent.schema := PStr AttemptEvent.TRANSITION_SCHEMA |}.
(** Two transitions logged; the bus remembers [n] of them. *)
Definition logged : store := Eval vm_compute in
  (append_record AttemptLog.Witness.second (append_record AttemptLog.Witness.first AttemptLog.Witness.empty).2).2.
Definition bus_at (l : store) (n : Z) : bus := {|
  log := l; feedback := {| DeveloperFeedback.path := None; DeveloperFeedback.streams := ∅ |};
  global_seq := 0; attempt_sequences := <[key := n]> ∅; subscribers := <["attempt_transition" := [0]]> ∅;
  has_broadcaster := true; observer_error_count := 0; last_observer_error := None |}.
End Witness.

Lemma logged_implements : ∃ h, implements (event_log Witness.logged) h ∧ length (history h Witness.key) = 2.
Proof.
  pose proof (append_simulates AttemptLog.Witness.empty ∅ AttemptLog.Witness.first empty_implements eq_refl eq_refl eq_refl eq_refl) as H1.
  assert (is_ok (append_record AttemptLog.Witness.first AttemptLog.Witness.empty).1 = true) as Hok1 by (vm_compute; reflexivity).
  set (s1 := (append_record AttemptLog.Witness.first AttemptLog.Witness.empty).2).
  assert (is_ok (append_record AttemptLog.Witness.second s1).1 = true) as Hok2 by (vm_compute; reflexivity).
  assert (configured s1 = true ∧ device s1 = None) as [Hc1 Hd1] by (vm_compute; split; reflexivity).
  assert ((append_record AttemptLog.Witness.second s1).2 = Witness.logged) as E2 by (vm_compute; reflexivity).
  unfold s1 in *. destruct (append_record AttemptLog.Witness.first AttemptLog.Witness.empty) as [[r1|] s1']; [|discriminate Hok1].
  destruct H1 as (h1 & Hs1 & Hi1 & _). cbn [snd] in *.
  pose proof (append_simulates s1' h1 AttemptLog.Witness.second Hi1 eq_refl eq_refl Hc1 Hd1) as H2.
  destruct (append_record AttemptLog.Witness.second s1') as [[r2|] s2']; [|discriminate Hok2].
  destruct H2 as (h2 & Hs2 & Hi2 & _). cbn [snd] in E2. subst s2'. exists h2. split; [exact Hi2|].
  apply spec_append_Some in Hs1 as [[Hn _]|(k1 & Hk1 & ->)]; [discriminate Hn|].
  apply spec_append_Some in Hs2 as [[Hn _]|(k2 & Hk2 & ->)]; [discriminate Hn|].
  assert (∀ r n, _attempt_key r = Ok (Some Witness.key) → ∀ k, keyed r k n → k = Witness.key) as Hkey.
  { intros r n Er k Hk. apply attempt_key_Some in Er as (n' & Hk'). by destruct (keyed_fun _ _ _ _ _ Hk Hk'). }
  rewrite (Hkey AttemptLog.Witness.first _ eq_refl k1 Hk1), (Hkey AttemptLog.Witness.second _ eq_refl k2 Hk2).
  unfold history. rewrite lookup_insert_eq. cbn [from_option id]. rewrite lookup_insert_eq. reflexivity.
Qed.

Lemma next_sequence_accepted_witness :
  (next_attempt_sequence Witness.key (Witness.bus_at Witness.logged 2)).1 = Ok 3%Z ∧
  ∃ b, (emit_attempt_transition Witness.host Witness.event 3 (S754_zero false) "trace" b).1 =
       Ok (AttemptEvent.transition_dict (numbered Witness.event 3)).
Proof.
  destruct logged_implements as (h & Hi & Hlen).
  assert (AttemptEvent.check_transition Witness.event = Ok ()) as He by (vm_compute; reflexivity).
  assert (may_write Witness.logged) as Hw by (vm_compute; repeat split; reflexivity).
  destruct (next_sequence_accepted (Witness.bus_at Witness.logged 2) h Witness.event (S754_zero false) "trace" Hi He
    eq_refl eq_refl Witness.host Hw) as (b1 & p & b2 & r & Hnext & _ & _ & b3 & Hemit & _).
  - right. change (event_key Witness.event) with Witness.key. rewrite Hlen. reflexivity.
  - intros o t q b x Hx. injection Hx as <-. reflexivity.
  - change (event_key Witness.event) with Witness.key in *. rewrite Hlen in Hnext, Hemit.
    split; [exact (f_equal fst Hnext)|]. exists b1. exact (f_equal fst Hemit).
Defined.
Lemma stale_numbers_refused_witness :
  (∃ b, next_attempt_sequence Witness.key (Witness.bus_at Witness.logged 1) = (Ok 3%Z, b)) ∧
  ∃ x b, emit_attempt_transition Witness.host Witness.event 3 (S754_zero false) "trace" (Witness.bus_at Witness.logged 1) = (Err x, b).
Proof.
  destruct logged_implements as (h & Hi & Hlen).
  assert (AttemptEvent.check_transition Witness.event = Ok ()) as He by (vm_compute; reflexivity).
  destruct (stale_numbers_refused (Witness.bus_at Witness.logged 1) h Witness.event (S754_zero false) "trace" Hi He
    eq_refl eq_refl Witness.host 3%Z eq_refl eq_refl) as [(b1 & Hnext) (x & b' & Hemit & _)].
  - change (event_key Witness.event) with Witness.key. rewrite Hlen. split; vm_compute; reflexivity.
  - vm_compute. discriminate.
  - change (event_key Witness.event) with Witness.key in Hnext. rewrite Hlen in Hnext.
    split; [exists b1; exact Hnext|]. exists x, b'. exact Hemit.
Defined.
