(* ===== verification/AttemptProjection.v ===== *)
(** * From the log of an attempt to its projection

    The composition of [AttemptLog] and [Continuity]: the records the log keeps of an
    attempt, when they are transitions in ASCII, are what the decoder of the continuity
    projection accepts.  The two digest a record differently (its characters in the log,
    their ASCII escapes in the decoder), so the texts agree on ASCII only. *)
From Stdlib Require Import Ascii String.
From S2P Require Import Prelude PyValue Json Lines Digest Contract Instances.
From S2P Require AttemptEvent.
From S2P Require Import AttemptLog Continuity.

(** ** ASCII values *)
Definition ascii_char (c : ascii) : bool := (code c <=? 126)%N.
Definition ascii_text : string → bool := str_forallb ascii_char.
Fixpoint ascii_value (v : pyval) : bool :=
  match v with
  | PStr s => ascii_text s
  | PList l | PTuple l => forallb ascii_value l
  | PDict d => forallb (λ kv, ascii_text kv.1 && ascii_value kv.2) d
  | _ => true
  end.

(** [e] is the event behind the record [r]: its payload holds the event, perhaps among other
    members. *)
Definition carries (r : dict) (e : AttemptEvent.AttemptTransitionEvent) : Prop :=
  ∃ payload, py_get r "payload" = PDict payload ∧
    ∀ k v, dict_get k (AttemptEvent.transition_dict e) = Some v → dict_get k payload = Some v.
(** An event the projection can take: of a known type and bound to revisions. *)
Definition projectable (source contract : string) (e : AttemptEvent.AttemptTransitionEvent) : Prop :=
  AttemptEvent.check_transition e = Ok () ∧
  AttemptEvent.source_revision e = PStr source ∧ blank source = false ∧
  AttemptEvent.contract_revision e = PStr contract ∧ blank contract = false ∧
  text_of (AttemptEvent.continuity_event_type e) ∈ EVENT_TYPES.

Lemma json_string_ascii_eq s : ascii_text s = true → json_string false s = json_string true s.
Proof.
  unfold json_string. intros Hs. f_equal. f_equal. induction s as [|c s IH]; [done|].
  cbn [ascii_text str_forallb] in Hs. apply andb_true_iff in Hs as [Hc Hs]. cbn [json_chars]. rewrite IH by done. f_equal.
  unfold json_char. unfold ascii_char in Hc. apply N.leb_le in Hc.
  rewrite (proj2 (N.ltb_ge 126 (code c))) by done. done.
Qed.
Section projection.
Context `{FloatText} `{Digest}.

Lemma json_write_ascii_eq gap v : ascii_value v = true → json_write gap false v = json_write gap true v.
Proof.
  induction v as [| | | |s|l IH|l IH|d IH|] using pyval_ind'; cbn [json_write ascii_value]; intros Hv; try done.
  - by apply json_string_ascii_eq.
  - do 3 f_equal. apply map_ext_Forall. apply Forall_forallb in Hv. rewrite Forall_forall in *. auto.
  - do 3 f_equal. apply map_ext_Forall. apply Forall_forallb in Hv. rewrite Forall_forall in *. auto.
  - do 3 f_equal. apply map_ext_Forall. apply Forall_forallb in Hv. rewrite Forall_forall in *.
    intros kv Hkv. specialize (Hv kv Hkv). cbn in Hv. apply andb_true_iff in Hv as [Hk Hv].
    by rewrite json_string_ascii_eq, IH.
Qed.
Lemma ascii_jnorm v : ascii_value (jnorm v) = ascii_value v.
Proof.
  induction v as [| | | |s|l IH|l IH|d IH|] using pyval_ind'; cbn; try done.
  1,2: rewrite forallb_map; by apply forallb_ext_Forall.
  rewrite (forallb_perm _ _ _ (sort_items_perm _)), forallb_map. cbn. apply forallb_ext_Forall.
  eapply Forall_impl; [exact IH|]. cbn. by intros kv ->.
Qed.
Lemma ascii_del k d : ascii_value (PDict d) = true → ascii_value (PDict (dict_del k d)) = true.
Proof.
  cbn. rewrite !Forall_forallb, !Forall_forall. intros Hd x Hx. by apply Hd, (dict_del_subset k).
Qed.
Lemma json_doc_del k d : json_doc (PDict d) = true → json_doc (PDict (dict_del k d)) = true.
Proof.
  cbn. rewrite !andb_true_iff, !Forall_forallb, !Forall_forall, !bool_decide_eq_true. intros [Hn Hd].
  split; [by apply NoDup_dict_del|]. intros x Hx. by apply Hd, (dict_del_subset k).
Qed.
(** On ASCII the decoder computes the digest of the log. *)
Lemma ascii_digest r : json_doc (PDict r) = true → ascii_value (PDict r) = true →
  Continuity._digest (PDict (dict_del "_attempt_record_digest" r)) = Ok (record_seal r).
Proof.
  intros Hd Ha. assert (json_doc (PDict (unsigned r)) = true) as Hu by by apply json_doc_del.
  rewrite digest_plain by by apply json_doc_wf. unfold record_seal, record_text. rewrite stored_id by done.
  rewrite json_write_ascii_eq; [done|]. rewrite ascii_jnorm. by apply ascii_del.
Qed.

(** ** One record *)
Definition filled_tuple (v : pyval) : Prop :=
  ∃ l, v = PTuple l ∧ forallb nonblank l = true ∧ length l ≤ MAX_CONTINUITY_COLLECTION_ITEMS.
Lemma text_tuple_filled name v : filled_tuple v → ∃ l, text_tuple name v = Ok l.
Proof.
  intros (l & -> & Hl & Hn). unfold text_tuple. rewrite Hl, (proj2 (Nat.ltb_ge _ _)) by done. cbn. eauto.
Qed.
Lemma clean_text_filled b name v : nonblank v = true → clean_text b name v = Ok (text_of v).
Proof. destruct v; try done. cbn. intros ->%negb_true_iff. by rewrite andb_false_r. Qed.
Lemma clean_text_str name v : is_str v = true → clean_text false name v = Ok (text_of v).
Proof. by destruct v. Qed.
Lemma new_event_total a : a_schema a = PStr SCHEMA →
  Forall (λ v, nonblank v = true) [a_task_id a; a_attempt_id a; a_source_revision a; a_contract_revision a] →
  (∃ n, a_sequence a = PInt n ∧ (1 ≤ n)%Z) → (∃ kind, a_event_type a = PStr kind ∧ kind ∈ EVENT_TYPES) →
  Forall (λ v, is_str v = true) [a_summary a; a_action a; a_observation a; a_rationale a; a_failure_reason a;
    a_strategy_delta a; a_next_action a; a_claim_ceiling a; a_previous_hash a] →
  Forall filled_tuple [a_do_not_repeat a; a_evidence_refs a; a_unresolved_risks a; a_unknowns a] →
  ∃ e, new_event a = Ok e.
Proof.
  intros Hsch Hf (n & Hn & Hpos) (kind & Hk & Hin) Hs Ht.
  rewrite !Forall_cons in Ht. destruct Ht as (T1 & T2 & T3 & T4 & _).
  apply (text_tuple_filled "do_not_repeat") in T1 as (l1 & T1). apply (text_tuple_filled "evidence_refs") in T2 as (l2 & T2).
  apply (text_tuple_filled "unresolved_risks") in T3 as (l3 & T3). apply (text_tuple_filled "unknowns") in T4 as (l4 & T4).
  repeat match goal with H : Forall _ (_ :: _) |- _ => inversion_clear H end.
  unfold new_event. assert (is_text (a_schema a) SCHEMA = true) as -> by by rewrite Hsch. cbn [negb raise_if mbind result_bind].
  rewrite (clean_text_filled true _ (a_task_id a)), (clean_text_filled true _ (a_attempt_id a)),
    (clean_text_filled true _ (a_source_revision a)), (clean_text_filled true _ (a_contract_revision a)) by done. rewrite Hn, Hk. cbn [positive_int]. rewrite (proj2 (Z.ltb_ge n 1)) by done.
  cbn [mbind result_bind in_text_set text_of]. rewrite (proj2 (text_in_spec kind EVENT_TYPES)) by done. cbn [negb raise_if mbind result_bind].
  rewrite !clean_text_str by done. cbn [mbind result_bind].
  rewrite T1. cbn [mbind result_bind]. rewrite T2. cbn [mbind result_bind]. rewrite T3. cbn [mbind result_bind].
  rewrite T4. cbn [mbind result_bind].
  rewrite event_payload_digest. cbn. eauto.
Qed.

(** The members of the payload the decoder reads. *)
Lemma carries_get e payload : (∀ k v, dict_get k (AttemptEvent.transition_dict e) = Some v → dict_get k payload = Some v) →
  ∀ k v, dict_get k (AttemptEvent.transition_dict e) = Some v → py_get payload k = v.
Proof. intros Hp k v Hk%Hp. unfold py_get. by rewrite Hk. Qed.
Lemma tuple_field_filled payload name alias v : AttemptEvent.bounded_texts v →
  dict_get name payload = Some (PList (AttemptEvent.tuple_items v)) →
  tuple_field payload name alias = Ok v ∧ filled_tuple v.
Proof.
  intros (l & -> & Hl & Hn) Hg. unfold tuple_field. rewrite Hg. cbn [from_option id AttemptEvent.tuple_items].
  change AttemptEvent.filled with nonblank in Hl. rewrite Hl, (proj2 (Nat.ltb_ge _ _)) by done. split; [done|].
  by exists l.
Qed.
Lemma decode_placed r e key n parent p source contract :
  placed n parent key r → json_doc (PDict r) = true → ascii_value (PDict r) = true →
  carries r e → projectable source contract e →
  ∃ ev, decode_record r key.1 key.2 p parent = Ok (ev, record_seal r) ∧
    sequence ev = (n + 1)%Z ∧ summary ev = text_of (AttemptEvent.state e) ∧ same_revision source contract ev.
Proof.
  intros ((_ & payload & Hpl & Ht & Ha & Hsq & _ & _ & Hpos) & Hparent & Hdigest) Hd Hascii
    (payload' & Hpl' & Hc) (Hok & Hsrc & Hsb & Hcon & Hcb & Hkind).
  rewrite Hpl in Hpl'. injection Hpl' as <-.
  apply AttemptEvent.check_transition_Ok in Hok as (Hf & Hrej & Hs & _ & _ & Hb).
  rewrite !Forall_cons in Hf. rewrite !Forall_cons in Hs. rewrite !Forall_cons in Hb.
  destruct Hf as (F1 & F2 & F3 & F4 & _), Hs as (S1 & S2 & S3 & S4 & S5 & S6 & _), Hb as (B1 & B2 & B3 & _ & B5 & _).
  pose proof (carries_get e payload Hc) as Hget.
  pose proof (Hget "task_id" _ eq_refl) as Gt. pose proof (Hget "attempt_id" _ eq_refl) as Ga.
  pose proof (Hget "state" _ eq_refl) as Gs. pose proof (Hget "source_revision" _ eq_refl) as Gsrc.
  pose proof (Hget "contract_revision" _ eq_refl) as Gcon. pose proof (Hget "continuity_event_type" _ eq_refl) as Gk.
  rewrite Hsrc in Gsrc. rewrite Hcon in Gcon. change AttemptEvent.filled with nonblank in *.
  assert (∀ name v, dict_get name (AttemptEvent.transition_dict e) = Some v → text_field payload name = v) as Htext.
  { intros name v Hv%Hc. unfold text_field. by rewrite Hv. }
  destruct (AttemptEvent.continuity_event_type e) as [| | | |kind| | | |] eqn:Ek; try done. cbn [text_of] in Hkind.
  destruct (AttemptEvent.state e) as [| | | |state| | | |] eqn:Est; try done. cbn [text_of] in *.
  assert (continuity_type payload state = Ok kind) as Htype.
  { unfold continuity_type. rewrite Gk. cbn [mbind result_bind]. cbn in F4. apply negb_true_iff in F4. rewrite F4.
    destruct (text_in state REJECTED_STATES) eqn:Er; [|done]. cbn [andb].
    apply text_in_spec in Er. assert (kind = "ATTEMPT_REJECTED") as -> by (specialize (Hrej Er); congruence). done. }
  destruct (tuple_field_filled payload "do_not_repeat" "rejected_strategies" _ B1) as [T1 T1']; [by apply Hc|].
  destruct (tuple_field_filled payload "evidence_refs" EmptyString _ B5) as [T2 T2']; [by apply Hc|].
  destruct (tuple_field_filled payload "unresolved_risks" EmptyString _ B2) as [T3 T3']; [by apply Hc|].
  destruct (tuple_field_filled payload "unknowns" EmptyString _ B3) as [T4 T4']; [by apply Hc|].
  set (a := {|
    a_task_id := PStr key.1; a_attempt_id := PStr key.2; a_sequence := PInt (n + 1);
    a_event_type := PStr kind; a_summary := PStr state;
    a_action := AttemptEvent.action e; a_observation := AttemptEvent.observation e;
    a_rationale := PStr EmptyString; a_failure_reason := AttemptEvent.reason e;
    a_strategy_delta := AttemptEvent.strategy_delta e;
    a_do_not_repeat := AttemptEvent.do_not_repeat e; a_evidence_refs := AttemptEvent.evidence_refs e;
    a_unresolved_risks := AttemptEvent.unresolved_risks e; a_unknowns := AttemptEvent.unknowns e;
    a_next_action := AttemptEvent.next_action e; a_claim_ceiling := AttemptEvent.claim_ceiling e;
    a_source_revision := PStr source; a_contract_revision := PStr contract;
    a_previous_hash := PStr p; a_schema := PStr SCHEMA |}).
  destruct (new_event_total a) as (ev & Hev).
  { done. }
  { assert (∀ s, blank s = false → nonblank (PStr s) = true) as Hnb by (unfold nonblank; by intros ? ->).
    repeat apply List.Forall_cons; [..|done]; cbn [a_task_id a_attempt_id a_source_revision a_contract_revision a];
      [by rewrite <- Ht, Gt|by rewrite <- Ha, Ga|by apply Hnb..]. }
  { by exists (n + 1)%Z. }
  { by exists kind. }
  { by repeat constructor. }
  { by repeat constructor. }
  exists ev. split.
  - unfold decode_record. rewrite Hpl.
    assert (existsb (λ key, negb (has_key key payload)) required_fields = false) as ->.
    { apply not_true_iff_false. intros (k & Hk & Hn)%existsb_exists. unfold has_key in Hn.
      assert (∃ v, dict_get k (AttemptEvent.transition_dict e) = Some v) as (v & Hv%Hc); [|by rewrite Hv in Hn].
      repeat destruct Hk as [<-|Hk]; cbn; eauto. done. }
    rewrite Ht, Ha. assert (∀ s, is_text (PStr s) s = true) as Hrefl by (intros; by apply is_text_spec).
    rewrite !Hrefl, Gs, Gsrc, Gcon, Hparent, Hdigest. cbn [negb orb raise_if mbind result_bind nonblank text_of].
    cbn in F3. apply negb_true_iff in F3. rewrite F3, Hsb, Hcb. cbn [negb raise_if mbind result_bind].
    rewrite ascii_digest by done. cbn [mbind result_bind]. rewrite !String.eqb_refl. cbn [negb raise_if mbind result_bind].
    rewrite Htype. cbn [mbind result_bind]. rewrite T1. cbn [mbind result_bind]. rewrite T2. cbn [mbind result_bind].
    rewrite T3. cbn [mbind result_bind]. rewrite T4. cbn [mbind result_bind].
    rewrite Hsq, (Htext "action" _ eq_refl), (Htext "observation" _ eq_refl), (Htext "reason" _ eq_refl),
      (Htext "strategy_delta" _ eq_refl), (Htext "next_action" _ eq_refl), (Htext "claim_ceiling" _ eq_refl).
    fold a. by rewrite Hev.
  - apply new_event_Ok in Hev as (_ & _ & _ & _ & _ & _ & Ea). 
    pose proof (f_equal a_sequence Ea) as E1. pose proof (f_equal a_summary Ea) as E2.
    pose proof (f_equal a_source_revision Ea) as E3. pose proof (f_equal a_contract_revision Ea) as E4.
    cbn in E1, E2, E3, E4. unfold same_revision. injection E1 as <-. injection E2 as <-. injection E3 as <-. injection E4 as <-. done.
Qed.

(** ** An attempt *)
(** The events behind the records of an attempt, the attempt being a chain after [n]
    transitions, decode to a chain of continuity events. *)
Lemma decode_chain key n parent p rs es source contract :
  AttemptLog.chained key n parent rs → Forall (λ r, json_doc (PDict r) = true ∧ ascii_value (PDict r) = true) rs →
  Forall2 carries rs es → Forall (projectable source contract) es →
  ∃ l, decode_records (map PDict rs) key.1 key.2 p parent = Ok l ∧
    map sequence l = map (λ i, n + 1 + Z.of_nat i)%Z (seq 0 (length rs)) ∧ length l = length rs ∧
    map summary l = map (λ e, text_of (AttemptEvent.state e)) es ∧ Forall (same_revision source contract) l.
Proof.
  intros Hch Hwf Hc. revert n parent p Hch. induction Hc as [|r e rs es Hr Hc IH]; intros n parent p Hch Hes; [by exists []|].
  destruct Hch as [Hplaced Hch]. apply Forall_cons in Hwf as [[Hd Ha] Hwf]. apply Forall_cons in Hes as [He Hes].
  destruct (decode_placed r e key n parent p source contract) as (ev & Hev & Hseq & Hsum & Hrev); [done..|].
  destruct (IH Hwf (n + 1)%Z (record_seal r) (event_hash ev) Hch Hes) as (l & Hl & Hseqs & Hlen & Hsums & Hrevs).
  exists (ev :: l). cbn [map decode_records length seq].
  assert (attempt_record (PDict r) = Some r) as ->.
  { destruct Hplaced as ((Ht & _) & _). cbn [attempt_record]. by rewrite Ht. }
  rewrite Hev. cbn [mbind result_bind]. rewrite Hl. cbn [mbind result_bind]. split; [done|].
  rewrite Hseqs, Hlen, Hsums, Hseq, Hsum, <- seq_shift, map_map. split_and!; [|done|done|by constructor].
  f_equal; [lia|]. apply map_ext. lia.
Qed.

(** A decoded stream in sequence projects. *)
Lemma decoded_project_total records task attempt source contract l :
  decode_records records task attempt EmptyString no_parent = Ok l → l ≠ [] →
  map sequence l = map Z.of_nat (seq 1 (length l)) → Forall (same_revision source contract) l →
  ∃ s, project l = Ok s ∧ first_sequence s = 1%Z ∧ last_sequence s = Z.of_nat (length l).
Proof.
  intros Hd%decode_records_iff Hne Hseq Hrev. destruct l as [|first rest]; [done|].
  assert (Continuity.chained task attempt 1 EmptyString (first :: rest)) as Hch.
  { eapply decodes_chained; [exact Hd|]. rewrite Hseq, <- seq_shift, map_map. apply map_ext. lia. }
  exists (snapshot_of first (first :: rest)). split; [|split].
  - apply project_iff. exists first, rest. split; [done|].
    destruct (chained_ids _ _ _ _ _ first Hch) as (-> & -> & _); [by left|]. split; [done|]. split; [|done].
    pose proof Hrev as [[<- <-] _]%Forall_cons. done.
  - by inversion Hch.
  - cbn [snapshot_of sealed last_sequence]. destruct (exists_last Hne) as (l' & e & El). rewrite El in *.
    rewrite last_event_snoc, (chained_last _ _ _ _ _ _ Hch), length_app. cbn. lia.
Qed.

(** C36: what an attempt logged can be resumed.  Take a readable log in which every record of
    an attempt is in ASCII and carries a constructed transition event of a known type bound
    to one pair of non-blank revisions; the records of other attempts may hold anything.
    Its records decode to continuity events, one for each in order, and these project to a
    snapshot that ends at the number of the log's tail, with the states of the events as
    summaries. *)
Theorem logged_attempt_projects log m rs task attempt es source contract
    (Hscan : _scan_attempt_tails log = Ok m) (Hrs : log_records log = Ok rs)
    (Hc : Forall2 carries (attempt_records (task, attempt) rs) es) (Hne : es ≠ [])
    (Hascii : Forall (λ r, ascii_value (PDict r) = true) (attempt_records (task, attempt) rs)) (Hes : Forall (projectable source contract) es) :
  ∃ l s, events_from_attempt_records (map PDict (attempt_records (task, attempt) rs)) task attempt = Ok l ∧
    project l = Ok s ∧ first_sequence s = 1%Z ∧ last_sequence s = (tail_of m (task, attempt)).1 ∧
    map summary l = map (λ e, text_of (AttemptEvent.state e)) es.
Proof.
  apply scan_Ok in Hscan as (rs' & Hrs' & Hl). rewrite Hrs in Hrs'. injection Hrs' as <-.
  destruct (link_all_chains _ _ _ Hl (task, attempt)) as [Hch Htail].
  pose proof (parse_lines_doc _ _ Hrs) as Hdoc. set (mine := attempt_records (task, attempt) rs) in *.
  assert (Forall (λ r, json_doc (PDict r) = true ∧ ascii_value (PDict r) = true) mine) as Hwf.
  { rewrite !Forall_forall in *. intros r Hr. split; [apply Hdoc|by apply Hascii].
    apply list_elem_of_In in Hr. apply List.filter_In in Hr as [Hr _]. by apply list_elem_of_In. }
  destruct (decode_chain _ _ _ EmptyString mine es source contract Hch Hwf Hc Hes) as (l & Hdec & Hseq & Hlen & Hsum & Hrev).
  assert (length mine = length es) as Hme by by eapply Forall2_length.
  assert (l ≠ []) as Hl0 by (intros ->; rewrite Hme in Hlen; by destruct es).
  assert (map sequence l = map Z.of_nat (seq 1 (length l))) as Hseqs.
  { rewrite Hseq, Hlen, <- seq_shift, map_map. apply map_ext. intros i.
    change (tail_of ∅ (task, attempt)).1 with 0%Z. lia. }
  destruct (decoded_project_total _ _ _ _ _ _ Hdec Hl0 Hseqs Hrev) as (s & Hs & Hfirst & Hlast).
  exists l, s. split; [|split; [exact Hs|split; [exact Hfirst|split; [|exact Hsum]]]].
  - unfold events_from_attempt_records. change zero_digest with no_parent. cbn [fst snd] in Hdec.
    change (tail_of ∅ (task, attempt)).2 with no_parent in Hdec. rewrite Hdec. by destruct l.
  - rewrite Htail, Hlast, Hlen. unfold chain_end. change (tail_of ∅ (task, attempt)).1 with 0%Z. cbn [fst]. lia.
Qed.
End projection.

(** * Witness *)
#[local] Existing Instance Sha256_Digest.
#[local] Existing Instance Dyadic_FloatText.

Module Witness.
Definition event (n : Z) (state kind : string) (dnr : list pyval) : AttemptEvent.AttemptTransitionEvent := {|
  AttemptEvent.task_id := PStr "t-1"; AttemptEvent.attempt_id := PStr "a-1"; AttemptEvent.sequence := PInt n;
  AttemptEvent.state := PStr state; AttemptEvent.reason := PStr EmptyString;
  AttemptEvent.continuity_event_type := PStr kind; AttemptEvent.strategy_delta := PStr EmptyString;
  AttemptEvent.action := PStr EmptyString; AttemptEvent.observation := PStr EmptyString;
  AttemptEvent.do_not_repeat := PTuple dnr; AttemptEvent.unresolved_risks := PTuple [];
  AttemptEvent.unknowns := PTuple []; AttemptEvent.next_action := PStr EmptyString;
  AttemptEvent.claim_ceiling := PStr EmptyString; AttemptEvent.candidate_refs := PTuple [];
  AttemptEvent.evidence_refs := PTuple []; AttemptEvent.source_revision := PStr "r1";
  AttemptEvent.contract_revision := PStr "c1"; AttemptEvent.timestamp := PInt 5;
  AttemptEvent.schema := PStr AttemptEvent.TRANSITION_SCHEMA |}.
Definition record (e : AttemptEvent.AttemptTransitionEvent) : dict := [
  ("event_type", PStr "attempt_transition"); ("payload", PDict (AttemptEvent.transition_dict e))].
Definition planned : AttemptEvent.AttemptTransitionEvent := event 1 "PLANNED" "PLAN_FORMED" [].
Definition refused : AttemptEvent.AttemptTransitionEvent :=
  event 2 "REJECTED" "ATTEMPT_REJECTED" [PStr "widen the scope"].
(** Another task's record, not in ASCII. *)
Definition foreign : dict := [
  ("event_type", PStr "attempt_transition");
  ("payload", PDict [("task_id", PStr "t-2"); ("attempt_id", PStr "a-1"); ("sequence", PInt 1);
                     ("state", PStr "PLANNED"); ("action", PStr (String "233" EmptyString))])].
Definition log : option string :=
  Eval vm_compute in
    event_log (foldl (λ s r, (append_record r s).2) AttemptLog.Witness.empty [record planned; foreign; record refused]).
Definition rs : list dict := Eval vm_compute in match log_records log with Ok l => l | Err _ => [] end.
Definition m : tails := match _scan_attempt_tails log with Ok m => m | Err _ => ∅ end.
End Witness.

Lemma logged_attempt_projects_witness :
  (length Witness.rs = 3 ∧ forallb (λ r, ascii_value (PDict r)) Witness.rs = false) ∧
  ∃ l s, events_from_attempt_records (map PDict (attempt_records ("t-1", "a-1") Witness.rs)) "t-1" "a-1" = Ok l ∧
    project l = Ok s ∧ first_sequence s = 1%Z ∧ last_sequence s = (tail_of Witness.m ("t-1", "a-1")).1 ∧
    map summary l = ["PLANNED"; "REJECTED"].
Proof.
  split; [split; vm_compute; reflexivity|].
  refine (logged_attempt_projects Witness.log Witness.m Witness.rs "t-1" "a-1" [Witness.planned; Witness.refused] "r1" "c1"
    _ _ _ _ _ _).
  - unfold Witness.m. assert (is_ok (_scan_attempt_tails Witness.log) = true) as Hok by (vm_compute; reflexivity).
    destruct (_scan_attempt_tails Witness.log); [reflexivity|discriminate Hok].
  - vm_compute. reflexivity.
  - assert (attempt_records ("t-1", "a-1") Witness.rs =
      match Witness.rs with [r1; _; r2] => [r1; r2] | _ => [] end) as -> by (vm_compute; reflexivity).
    apply List.Forall2_cons; [|apply List.Forall2_cons; [|apply List.Forall2_nil]];
      (eexists; split; [reflexivity|intros k v Hk; exact Hk]).
  - discriminate.
  - apply Forall_forallb. vm_compute. reflexivity.
  - repeat apply List.Forall_cons; [..|apply List.Forall_nil];
      (split; [vm_compute; reflexivity|]; split; [reflexivity|]; split; [vm_compute; reflexivity|]; split; [reflexivity|];
       split; [vm_compute; reflexivity|]; apply text_in_spec; vm_compute; reflexivity).
Defined.
