(* ===== verification/ContextBudget.v ===== *)
(** * The token budget of a task context
    ([src/src/nexus_runtime/task_context/budget.py])

    Required sources are kept whatever they cost; the others are taken in the order of their
    priority while they fit.  The fields of a source have the types their annotations say; a
    source given as a mapping is converted, which may raise. *)
From Stdlib Require Import String.
From S2P Require Import Prelude PyValue SortBy Instances.

Definition CONTEXT_BUDGET_RECEIPT_SCHEMA := "nexus_context_budget_receipt.v1".
Definition REQUIRED_CONTEXT_KINDS : list string := ["L0"; "L1"].

Record ContextBudgetSource : Type := {
  source_id : string; kind : string; estimated_tokens : Z; priority : Z; required : bool; metadata : dict
}.
(** [__post_init__]. *)
Definition new_source (s : ContextBudgetSource) : result ContextBudgetSource :=
  _ ← raise_if (blank (source_id s)) ValueError "missing_source_id";
  _ ← raise_if (blank (kind s)) ValueError "missing_kind";
  _ ← raise_if (estimated_tokens s <? 0)%Z ValueError "negative_estimated_tokens";
  Ok s.
Definition source_dict (s : ContextBudgetSource) : dict := [
  ("source_id", PStr (source_id s)); ("kind", PStr (kind s)); ("estimated_tokens", PInt (estimated_tokens s));
  ("priority", PInt (priority s)); ("required", PBool (required s)); ("metadata", PDict (metadata s))].

Record ContextBudgetReceipt : Type := {
  token_budget : Z; used_tokens : Z; kept_sources : list ContextBudgetSource; dropped_sources : list dict;
  preserved_l0_l1 : bool; status : string; blockers : list string
}.
Definition receipt_dict (r : ContextBudgetReceipt) : dict := [
  ("schema", PStr CONTEXT_BUDGET_RECEIPT_SCHEMA); ("status", PStr (status r));
  ("token_budget", PInt (token_budget r)); ("estimated_tokens", PInt (used_tokens r));
  ("kept_sources", PList (map (λ s, PDict (source_dict s)) (kept_sources r)));
  ("dropped_sources", PList (map PDict (dropped_sources r)));
  ("preserved_L0_L1", PBool (preserved_l0_l1 r)); ("blockers", str_list (blockers r))].

Inductive item : Type := Source (s : ContextBudgetSource) | Mapping (d : dict).

Definition _is_required (s : ContextBudgetSource) : bool := required s || text_in (kind s) REQUIRED_CONTEXT_KINDS.
Definition _preserved_l0_l1 (sources : list ContextBudgetSource) : bool :=
  forallb (λ k, text_in k (map kind sources)) REQUIRED_CONTEXT_KINDS.
Definition _drop (reason : string) (s : ContextBudgetSource) : dict := [
  ("source_id", PStr (source_id s)); ("kind", PStr (kind s)); ("estimated_tokens", PInt (estimated_tokens s));
  ("drop_reason_code", PStr reason)].
Definition total (l : list ContextBudgetSource) : Z := foldr (λ s n, (estimated_tokens s + n)%Z) 0%Z l.
(** [(a.priority, a.source_id) <= (b.priority, b.source_id)]. *)
Definition source_le (a b : ContextBudgetSource) : bool :=
  ((priority a <? priority b) || (priority a =? priority b) && String.leb (source_id a) (source_id b))%Z.
(** The loop over the optional sources. *)
Fixpoint fill (budget used : Z) (l : list ContextBudgetSource) :
    list ContextBudgetSource * list ContextBudgetSource * Z :=
  match l with
  | [] => ([], [], used)
  | s :: l =>
      if (used + estimated_tokens s <=? budget)%Z then
        let '(kept, dropped, used) := fill budget (used + estimated_tokens s) l in (s :: kept, dropped, used)
      else
        let '(kept, dropped, used) := fill budget used l in (kept, s :: dropped, used)
  end.

Section budget.
Context `{FloatText}.

Definition _source (i : item) : result ContextBudgetSource :=
  match i with
  | Source s => Ok s
  | Mapping d =>
      tokens ← py_int (py_or (py_get d "estimated_tokens") (PInt 0));
      priority ← py_int (default (PInt 100) (dict_get "priority" d));
      metadata ← py_dict (py_or (default (PDict []) (dict_get "metadata" d)) (PDict []));
      new_source {| source_id := str_or (py_get d "source_id") EmptyString; kind := str_or (py_get d "kind") EmptyString;
                    estimated_tokens := tokens; priority := priority;
                    required := truthy (default (PBool false) (dict_get "required" d)); metadata := metadata |}
  end.

Definition build_context_budget_receipt (sources : list item) (token_budget : Z) : result ContextBudgetReceipt :=
  normalized ← mapM_result _source sources;
  let required_sources := List.filter _is_required normalized in
  let optional_sources := List.filter (λ s, negb (_is_required s)) normalized in
  let required_total := total required_sources in
  let preserved := _preserved_l0_l1 required_sources in
  let blockers :=
    (if (token_budget <=? 0)%Z then ["invalid_token_budget"] else [])
    ++ (if preserved then [] else ["missing_required_l0_l1"])
    ++ (if (0 <? token_budget)%Z && (token_budget <? required_total)%Z then ["required_context_over_budget"] else []) in
  Ok (match blockers with
      | [] =>
          let '(kept, dropped, used) := fill token_budget required_total (stable_sort source_le optional_sources) in
          {| token_budget := token_budget; used_tokens := used; kept_sources := required_sources ++ kept;
             dropped_sources := map (_drop "budget_exhausted") dropped; preserved_l0_l1 := preserved;
             status := "PASS"; blockers := [] |}
      | _ =>
          {| token_budget := token_budget; used_tokens := required_total; kept_sources := required_sources;
             dropped_sources := map (_drop "budget_not_evaluated_due_to_blocker") optional_sources;
             preserved_l0_l1 := preserved; status := "RETURN"; blockers := sort_unique blockers |}
      end).

Definition validate_context_budget_receipt (payload : dict) : result (list string) :=
  budget ← py_int (py_or (py_get payload "token_budget") (PInt 0));
  tokens ← py_int (py_or (py_get payload "estimated_tokens") (PInt 0));
  Ok (sort_unique (
    (if negb (is_text (py_get payload "schema") CONTEXT_BUDGET_RECEIPT_SCHEMA) then ["invalid_context_budget_schema"] else [])
    ++ (if (budget <=? 0)%Z then ["invalid_token_budget"] else [])
    ++ (if negb (truthy (py_get payload "preserved_L0_L1")) then ["missing_required_l0_l1"] else [])
    ++ (if (budget <? tokens)%Z then ["estimated_tokens_exceed_budget"] else []))).
End budget.

(** * Facts *)
Lemma total_cons s l : total (s :: l) = (estimated_tokens s + total l)%Z.
Proof. done. Qed.
Lemma total_app l k : total (l ++ k) = (total l + total k)%Z.
Proof. induction l as [|s l IH]; [done|]. cbn [app]. rewrite !total_cons, IH. lia. Qed.
Lemma fill_spec budget l : ∀ used kept dropped used', fill budget used l = (kept, dropped, used') →
  used' = (used + total kept)%Z ∧ kept ++ dropped ≡ₚ l ∧ (used ≤ budget → used' ≤ budget)%Z ∧
  (Forall (λ s, 0 ≤ estimated_tokens s)%Z l →
   (used ≤ used')%Z ∧ Forall (λ s, budget < used' + estimated_tokens s)%Z dropped).
Proof.
  induction l as [|s l IH]; intros used kept dropped used'; cbn [fill].
  { intros [= <- <- <-]. change (total []) with 0%Z. split_and!; [lia|done|done|]. intros _. split; [lia|constructor]. }
  destruct (used + estimated_tokens s <=? budget)%Z eqn:E.
  - destruct (fill budget (used + estimated_tokens s) l) as [[k d] u] eqn:Ef. intros [= <- <- <-].
    destruct (IH _ _ _ _ Ef) as (-> & Hp & Hb & Hmax). apply Z.leb_le in E. rewrite total_cons. cbn [app]. split_and!; [lia|by rewrite Hp|auto|].
    intros [Hs Hl]%Forall_cons. destruct (Hmax Hl). split; [lia|done].
  - destruct (fill budget used l) as [[k d] u] eqn:Ef. intros [= <- <- <-].
    destruct (IH _ _ _ _ Ef) as (-> & Hp & Hb & Hmax). apply Z.leb_gt in E. split_and!; [done| |done|].
    + by rewrite <- Permutation_middle, Hp.
    + intros [Hs Hl]%Forall_cons. destruct (Hmax Hl). split; [done|]. constructor; [lia|done].
Qed.
Lemma filter_partition {A} (p : A → bool) l : List.filter p l ++ List.filter (λ x, negb (p x)) l ≡ₚ l.
Proof.
  induction l as [|x l IH]; cbn; [done|]. destruct (p x); cbn; [by rewrite IH|].
  by rewrite <- Permutation_middle, IH.
Qed.

(** ** The order of the optional sources *)
Lemma source_le_spec a b : source_le a b = true ↔
  (priority a < priority b)%Z ∨ priority a = priority b ∧ String.leb (source_id a) (source_id b) = true.
Proof. unfold source_le. rewrite orb_true_iff, andb_true_iff, Z.ltb_lt, Z.eqb_eq. done. Qed.
Lemma source_le_trans a b c : source_le a b = true → source_le b c = true → source_le a c = true.
Proof.
  rewrite !source_le_spec. intros [?|[? H1]] [?|[? H2]]; try (left; lia).
  right. split; [lia|]. apply Is_true_true. apply (string_le_trans _ (source_id b)); by apply Is_true_true.
Qed.
Lemma source_le_total a b : source_le a b = true ∨ source_le b a = true.
Proof.
  rewrite !source_le_spec. destruct (String.leb_total (source_id a) (source_id b)), (Z.lt_total (priority a) (priority b)) as [|[]];
    eauto 6.
Qed.
(** What the sources before [s] cost, of those kept. *)
Definition before (s : ContextBudgetSource) (kept : list ContextBudgetSource) : Z :=
  total (List.filter (λ k, source_le k s) kept).
Lemma fill_priority budget l : StronglySorted (λ a b, source_le a b = true) l → Forall (λ s, 0 ≤ estimated_tokens s)%Z l →
  ∀ used kept dropped used', fill budget used l = (kept, dropped, used') →
  Forall (λ s, budget < used + before s kept + estimated_tokens s)%Z dropped.
Proof.
  assert (∀ s k, Forall (λ s, 0 ≤ estimated_tokens s)%Z k → 0 ≤ before s k)%Z as Hbefore.
  { intros s k. unfold before. induction 1 as [|x k Hx _ IH]; cbn; [done|]. destruct (source_le x s); [rewrite total_cons; lia|done]. }
  induction 1 as [|s l Hs IH Hle]; intros Hpos used kept dropped used'; cbn [fill]; [by intros [= <- <- <-]|].
  apply Forall_cons in Hpos as [Hs0 Hpos]. destruct (used + estimated_tokens s <=? budget)%Z eqn:E.
  - destruct (fill budget (used + estimated_tokens s) l) as [[k d] u] eqn:Ef. intros [= <- <- <-].
    destruct (fill_spec _ _ _ _ _ _ Ef) as (_ & Hp & _). specialize (IH Hpos _ _ _ _ Ef). rewrite Forall_forall in IH, Hle.
    apply Forall_forall. intros x Hx. specialize (IH x Hx). unfold before in *. cbn [List.filter].
    rewrite Hle by (rewrite <- Hp; apply elem_of_app; by right). rewrite total_cons. lia.
  - destruct (fill budget used l) as [[k d] u] eqn:Ef. intros [= <- <- <-].
    destruct (fill_spec _ _ _ _ _ _ Ef) as (_ & Hp & _). constructor; [|by eapply IH].
    apply Z.leb_gt in E. rewrite <- Hp in Hpos. apply Forall_app in Hpos as [Hk _]. specialize (Hbefore s k Hk). lia.
Qed.

Section facts.
Context `{FloatText}.

(** A source object satisfies its constructor. *)
Definition constructed (i : item) : Prop :=
  match i with Source s => (0 ≤ estimated_tokens s)%Z | Mapping _ => True end.
Lemma source_tokens i s : constructed i → _source i = Ok s → (0 ≤ estimated_tokens s)%Z.
Proof.
  destruct i as [s'|d]; cbn; [by intros ? [= <-]|]. intros _ (n & _ & (p & _ & (m & _ & E)%bind_Ok_inv)%bind_Ok_inv)%bind_Ok_inv.
  unfold new_source in E. apply bind_Ok_inv in E as ([] & _ & ([] & _ & ([] & Hn%raise_if_Ok_inv%Z.ltb_ge & [= <-])%bind_Ok_inv)%bind_Ok_inv).
  done.
Qed.

(** What a receipt says of its sources: [kept] and [dropped] are all of them. *)
Definition accounts (normalized : list ContextBudgetSource) (r : ContextBudgetReceipt) (dropped : list ContextBudgetSource) : Prop :=
  kept_sources r ++ dropped ≡ₚ normalized ∧ used_tokens r = total (kept_sources r) ∧
  (∃ reason, dropped_sources r = map (_drop reason) dropped) ∧
  Forall (λ s, _is_required s = true → s ∈ kept_sources r) normalized.
Definition affordable (normalized : list ContextBudgetSource) (budget : Z) : Prop :=
  (0 < budget)%Z ∧ _preserved_l0_l1 (List.filter _is_required normalized) = true ∧
  (total (List.filter _is_required normalized) ≤ budget)%Z.

Lemma required_kept normalized kept : Forall (λ s, _is_required s = true → s ∈ List.filter _is_required normalized ++ kept) normalized.
Proof.
  apply Forall_forall. intros s Hs Hr. apply elem_of_app. left. apply list_elem_of_In, filter_In.
  split; [by apply list_elem_of_In|done].
Qed.
(** What a receipt says of the normalized sources. *)
Definition decided (normalized : list ContextBudgetSource) (budget : Z) (r : ContextBudgetReceipt) : Prop :=
  let req := List.filter _is_required normalized in
  token_budget r = budget ∧ preserved_l0_l1 r = _preserved_l0_l1 req ∧
  ∃ kept dropped,
    kept_sources r = req ++ kept ∧ accounts normalized r dropped ∧
    (status r = "PASS" ∧ blockers r = [] ∧ affordable normalized budget ∧ (used_tokens r ≤ budget)%Z ∧
       Forall (λ s, budget < total req + before s kept + estimated_tokens s)%Z dropped
     ∨ status r = "RETURN" ∧ blockers r ≠ [] ∧ ¬ affordable normalized budget ∧ kept = []).
Lemma receipt_outcome sources budget normalized : Forall constructed sources → mapM_result _source sources = Ok normalized →
  ∃ r, build_context_budget_receipt sources budget = Ok r ∧ decided normalized budget r.
Proof.
  intros Hc Hn. unfold build_context_budget_receipt. rewrite Hn. cbn [mbind result_bind].
  assert (Forall (λ s, 0 ≤ estimated_tokens s)%Z normalized) as Hpos.
  { apply mapM_result_Ok_inv in Hn. revert Hc. induction Hn as [|i s l k Hi _ IH]; intros Hc; constructor.
    - apply Forall_cons in Hc as [Hi' _]. by eapply source_tokens.
    - apply Forall_cons in Hc as [_ Hc]. auto. }
  set (req := List.filter _is_required normalized). set (opt := List.filter _ normalized).
  assert (affordable normalized budget ↔
    (if (budget <=? 0)%Z then ["invalid_token_budget"] else [])
    ++ (if _preserved_l0_l1 req then [] else ["missing_required_l0_l1"])
    ++ (if (0 <? budget)%Z && (budget <? total req)%Z then ["required_context_over_budget"] else []) = []) as Haff.
  { unfold affordable. fold req. destruct (_preserved_l0_l1 req); destruct (Z.leb_spec budget 0), (Z.ltb_spec 0 budget),
      (Z.ltb_spec budget (total req)); cbn [app andb]; try lia; split; intros E; try done; try (split_and!; [lia|done|lia]);
      destruct E as (? & ? & ?); done || lia. }
  destruct (_ ++ _ ++ _) as [|x xs] eqn:Eb.
  - destruct (fill budget (total req) (stable_sort source_le opt)) as [[kept dropped] used] eqn:Ef.
    destruct (fill_spec _ _ _ _ _ _ Ef) as (Hu & Hp & Hb & _). eexists. split; [reflexivity|].
    pose proof (fill_priority budget _ (stable_sort_sorted _ source_le_trans source_le_total opt)) as Hmax.
    pose proof (proj2 Haff eq_refl) as Ha. destruct Ha as (Hb0 & Hpres & Hreq) eqn:Eaff. clear Eaff.
    rewrite stable_sort_perm in Hp.
    assert (Forall (λ s, 0 ≤ estimated_tokens s)%Z (stable_sort source_le opt)) as Hopt.
    { rewrite stable_sort_perm. apply Forall_forall. intros s Hs. rewrite Forall_forall in Hpos. apply Hpos.
      apply list_elem_of_In, filter_In in Hs as [Hs _]. by apply list_elem_of_In. }
    split; [done|]. split; [done|]. exists kept, dropped. split; [done|]. split; [|left].
    + unfold accounts. cbn [kept_sources used_tokens dropped_sources].
      split_and!; [by rewrite <- app_assoc, Hp; apply filter_partition|rewrite total_app; lia|by eexists|].
      apply required_kept.
    + cbn [status blockers used_tokens]. split_and!; [done|done|by apply Haff|by apply Hb|by eapply Hmax].
  - eexists. split; [reflexivity|]. split; [done|]. split; [done|]. exists [], opt. split; [by rewrite app_nil_r|]. split; [|right].
    + unfold accounts. cbn [kept_sources used_tokens dropped_sources]. split_and!; [apply filter_partition|done|by eexists|].
      pose proof (required_kept normalized []) as Hr. by rewrite app_nil_r in Hr.
    + cbn [status blockers]. split_and!; [done| |by intros ?%Haff|done].
      intros Hnil. by apply (proj1 (sort_unique_nil _)) in Hnil.
Qed.

(** * Theorems *)

(** C37: the budget receipt of any sources is decided as follows, and building it raises only where
    reading a source raises.  Kept and dropped sources are all the sources, the tokens used are what
    the kept ones cost, and required sources (L0 and L1 among them) are always kept.  The receipt
    passes exactly when the budget is positive, L0 and L1 are present and the required sources fit;
    then the budget is not exceeded, and an optional source is dropped only because it does not fit
    beside the required ones and the kept ones before it in the order of priority. *)
Theorem budget_receipt_decided sources budget (Hc : Forall constructed sources) :
  match mapM_result _source sources with
  | Ok normalized => ∃ r, build_context_budget_receipt sources budget = Ok r ∧ decided normalized budget r
  | Err e => build_context_budget_receipt sources budget = Err e
  end.
Proof.
  destruct (mapM_result _source sources) as [n|e] eqn:E; [by apply receipt_outcome|].
  unfold build_context_budget_receipt. by rewrite E.
Qed.

(** The receipt document carries its verdict.  The validator accepts a serialized receipt
    exactly when the receipt passed, whatever the sources and the budget. *)
Theorem validator_agrees_with_receipt sources budget r (Hc : Forall constructed sources)
    (E : build_context_budget_receipt sources budget = Ok r) :
  ∃ found, validate_context_budget_receipt (receipt_dict r) = Ok found ∧ (found = [] ↔ status r = "PASS").
Proof.
  pose proof E as (normalized & Hn & _)%bind_Ok_inv.
  destruct (receipt_outcome _ budget _ Hc Hn) as (r' & E' & Hb & Hp & kept & dropped & Hk & (_ & Hu & _) & Hd).
  rewrite E in E'. injection E' as <-.
  assert (∀ n, py_int (py_or (PInt n) (PInt 0)) = Ok n) as Hint.
  { intros n. unfold py_or. cbn. by destruct (Z.eqb_spec n 0) as [->|]. }
  unfold validate_context_budget_receipt, receipt_dict, py_get. cbn -[py_int py_or]. rewrite !Hint. cbn [mbind result_bind].
  eexists. split; [reflexivity|]. rewrite sort_unique_nil, Hb, Hp. unfold affordable in Hd.
  destruct (_preserved_l0_l1 _), (Z.leb_spec budget 0), (Z.ltb_spec budget (used_tokens r)); cbn [app truthy negb];
    destruct Hd as [(-> & _ & Ha & Hle & _)|(-> & _ & Ha & ->)]; try (split; [done|done]);
    split; try done; try lia.
  all: intros _; exfalso; rewrite app_nil_r in Hk; rewrite Hk in Hu; apply Ha; split_and!; [lia|done|lia].
Qed.
End facts.

(** * Witnesses *)
#[local] Existing Instance Dyadic_FloatText.
Module Witness.
Definition source (id kind : string) (tokens priority : Z) : item :=
  Source {| source_id := id; kind := kind; estimated_tokens := tokens; priority := priority; required := false; metadata := [] |}.
(** The larger optional source is preferred but does not fit; the later one takes the rest. *)
Definition sources : list item := [
  source "note" "memory" 8 50; source "plan" "L0" 10 100; source "log" "memory" 50 1;
  Mapping [("source_id", PStr "goal"); ("kind", PStr "L1"); ("estimated_tokens", PStr "7")]].
Lemma sources_constructed : Forall constructed sources.
Proof. unfold sources. rewrite !Forall_cons. cbn. repeat split; try lia. constructor. Qed.
Definition normalized : list ContextBudgetSource :=
  match mapM_result _source sources with Ok l => l | Err _ => [] end.
Definition receipt (budget : Z) : result ContextBudgetReceipt := build_context_budget_receipt sources budget.
Example kept_at_25 : receipt 25 = Ok {|
  token_budget := 25; used_tokens := 25;
  kept_sources := List.filter _is_required normalized ++ List.filter (λ s, String.eqb (source_id s) "note") normalized;
  dropped_sources := [[("source_id", PStr "log"); ("kind", PStr "memory"); ("estimated_tokens", PInt 50);
                       ("drop_reason_code", PStr "budget_exhausted")]];
  preserved_l0_l1 := true; status := "PASS"; blockers := [] |}.
Proof. vm_compute. reflexivity. Qed.
End Witness.

Lemma budget_receipt_decided_witness :
  ∃ r, Witness.receipt 25 = Ok r ∧ decided Witness.normalized 25 r.
Proof.
  assert (Forall constructed Witness.sources) as Hc by (apply Witness.sources_constructed).
  exact (budget_receipt_decided Witness.sources 25 Hc).
Defined.
Lemma validator_agrees_with_receipt_witness :
  ∃ r found, Witness.receipt 10 = Ok r ∧ status r = "RETURN" ∧
    validate_context_budget_receipt (receipt_dict r) = Ok found ∧ (found = [] ↔ status r = "PASS").
Proof.
  assert (Forall constructed Witness.sources) as Hc by (apply Witness.sources_constructed).
  destruct (Witness.receipt 10) as [r|e] eqn:E; [|discriminate E].
  destruct (validator_agrees_with_receipt Witness.sources 10 r Hc E) as (found & Hf & Hi).
  exists r, found. split; [reflexivity|]. split; [|split; [exact Hf|exact Hi]].
  vm_compute in E. injection E as <-. reflexivity.
Defined.
