(* ===== verification/ClaimBoundary.v ===== *)
(** * Claim boundaries
    ([src/src/nexus_runtime/planning/evidence/claim_boundary.py])

    What a receipt may claim.  A boundary is evaluated from its own fields, never unlocks a
    public claim, and its [simulated] flag is derived from the evidence of an execution.  The
    fields are Python values: [from_dict] loads what a producer wrote.  Nested outcomes are
    trees, so the source's guard against an outcome containing itself is always true. *)
From Stdlib Require Import String SpecFloat.
From S2P Require Import Prelude PyValue Instances.

Definition _DEFAULT_BLOCK_REASON := "defaults_fail_closed".
Definition _NO_RELEASE_AUTHORITY := "public_release_authority_required".

Record ClaimBoundary : Type := {
  simulated : pyval; claim_eligible : pyval; receipt_present : pyval; model_calls : pyval;
  visible_tests_passed : pyval; hidden_tests_passed : pyval; public_claim_allowed : pyval;
  claim_block_reason : pyval; value_measured : pyval; monetary_claim_allowed : pyval;
  routing_surface_changed : pyval; production_ready : pyval; internal_only : pyval;
  solve_eligible : pyval; training_export_allowed : pyval; eligibility_complete : pyval;
  evidence_complete : pyval
}.

(** The reasons [evaluate] collects. *)
Definition block_reasons (b : ClaimBoundary) : list string :=
  (if truthy (simulated b) then ["simulated=true"] else [])
  ++ (if truthy (receipt_present b) then [] else ["receipt_present=false"])
  ++ (if truthy (claim_eligible b) then [] else ["claim_eligible=false"])
  ++ (if py_eq (model_calls b) (PInt 0) then ["model_calls=0"] else []).
Definition evaluate (b : ClaimBoundary) : ClaimBoundary :=
  let reasons := block_reasons b in {|
    simulated := simulated b; claim_eligible := claim_eligible b; receipt_present := receipt_present b;
    model_calls := model_calls b; visible_tests_passed := visible_tests_passed b;
    hidden_tests_passed := hidden_tests_passed b; public_claim_allowed := PBool false;
    claim_block_reason := PStr (match reasons with
      | [] => _NO_RELEASE_AUTHORITY
      | _ => str_join "; " reasons +:+ "; " +:+ _NO_RELEASE_AUTHORITY end);
    value_measured := value_measured b; monetary_claim_allowed := PBool false;
    routing_surface_changed := routing_surface_changed b; production_ready := PBool false;
    internal_only := internal_only b; solve_eligible := solve_eligible b; training_export_allowed := PBool false;
    eligibility_complete := PBool (match reasons with [] => true | _ => false end);
    evidence_complete := PBool (truthy (receipt_present b) && negb (truthy (simulated b))) |}.
Definition to_dict (b : ClaimBoundary) : dict := [
  ("simulated", simulated b); ("claim_eligible", claim_eligible b); ("receipt_present", receipt_present b);
  ("model_calls", model_calls b); ("visible_tests_passed", visible_tests_passed b);
  ("hidden_tests_passed", hidden_tests_passed b); ("public_claim_allowed", PBool false);
  ("claim_block_reason", py_or (claim_block_reason b) (PStr _DEFAULT_BLOCK_REASON));
  ("value_measured", value_measured b); ("monetary_claim_allowed", PBool false);
  ("routing_surface_changed", routing_surface_changed b); ("production_ready", PBool false);
  ("internal_only", internal_only b); ("solve_eligible", solve_eligible b);
  ("training_export_allowed", PBool false); ("eligibility_complete", eligibility_complete b);
  ("evidence_complete", evidence_complete b)].

(** The keyword arguments [from_dict] passes on, with the defaults of the class. *)
Definition load (raw : dict) : ClaimBoundary :=
  let field k d := default d (dict_get k raw) in {|
    simulated := field "simulated" (PBool true); claim_eligible := field "claim_eligible" (PBool false);
    receipt_present := field "receipt_present" (PBool false); model_calls := field "model_calls" (PInt 0);
    visible_tests_passed := field "visible_tests_passed" (PInt 0);
    hidden_tests_passed := field "hidden_tests_passed" (PInt 0);
    public_claim_allowed := field "public_claim_allowed" (PBool false);
    claim_block_reason := field "claim_block_reason" (PStr _DEFAULT_BLOCK_REASON);
    value_measured := field "value_measured" (PBool false);
    monetary_claim_allowed := field "monetary_claim_allowed" (PBool false);
    routing_surface_changed := field "routing_surface_changed" (PBool false);
    production_ready := field "production_ready" (PBool false); internal_only := field "internal_only" (PBool true);
    solve_eligible := field "solve_eligible" (PBool false);
    training_export_allowed := field "training_export_allowed" (PBool false);
    eligibility_complete := field "eligibility_complete" (PBool false);
    evidence_complete := field "evidence_complete" (PBool false) |}.
(** The locked fields, and a block reason for a boundary without one. *)
Definition lock (b : ClaimBoundary) : ClaimBoundary := {|
  simulated := simulated b; claim_eligible := claim_eligible b; receipt_present := receipt_present b;
  model_calls := model_calls b; visible_tests_passed := visible_tests_passed b;
  hidden_tests_passed := hidden_tests_passed b; public_claim_allowed := PBool false;
  claim_block_reason := py_or (claim_block_reason b) (PStr _DEFAULT_BLOCK_REASON);
  value_measured := value_measured b; monetary_claim_allowed := PBool false;
  routing_surface_changed := routing_surface_changed b; production_ready := PBool false;
  internal_only := internal_only b; solve_eligible := solve_eligible b; training_export_allowed := PBool false;
  eligibility_complete := eligibility_complete b; evidence_complete := evidence_complete b |}.
Definition from_dict (data : option dict) : ClaimBoundary :=
  let raw := dict_del "training_export_allowed" (dict_del "monetary_claim_allowed"
    (dict_del "production_ready" (dict_del "public_claim_allowed" (default [] data)))) in
  evaluate (lock (load raw)).

(** [evaluate_claim_boundary], with the defaults of its last arguments as [optional] has them. *)
Record optional_facts : Type := {
  o_visible : Z; o_hidden : Z; o_measured : bool; o_surface : bool; o_internal : bool; o_solve : bool
}.
Definition no_facts : optional_facts :=
  {| o_visible := 0; o_hidden := 0; o_measured := false; o_surface := false; o_internal := true; o_solve := false |}.
Definition evaluate_claim_boundary (simulated claim_eligible receipt_present : bool) (model_calls : Z)
    (o : optional_facts) : ClaimBoundary :=
  evaluate {|
    simulated := PBool simulated; claim_eligible := PBool claim_eligible; receipt_present := PBool receipt_present;
    model_calls := PInt model_calls; visible_tests_passed := PInt (o_visible o); hidden_tests_passed := PInt (o_hidden o);
    public_claim_allowed := PBool false; claim_block_reason := PStr _DEFAULT_BLOCK_REASON;
    value_measured := PBool (o_measured o); monetary_claim_allowed := PBool false;
    routing_surface_changed := PBool (o_surface o); production_ready := PBool false;
    internal_only := PBool (o_internal o); solve_eligible := PBool (o_solve o);
    training_export_allowed := PBool false; eligibility_complete := PBool false; evidence_complete := PBool false |}.

(** ** The attestation of an execution *)
Definition NON_EXECUTION_ACTIONS : list string := [
  "auth_gate"; "skip"; "resolve"; "resolve_service"; "resolve_module"; "resolve_providers"; "probe"; "fixture";
  "construct"; "should_run"; "health_check"; "bind"; "cleanup"; "hash_fallback"; "import_success";
  "deterministic_confidence_probe"].
Definition _NON_EXECUTION_STATUS_PREFIXES : list string := [
  "SKIP"; "STUB"; "NOT_"; "SELECTED_NOT_EXECUTED"; "SIMULATED"; "BLOCKED_EXECUTOR_UNAVAILABLE"].
Definition _NON_EXECUTION_CALLABLE_MARKERS : list string := [
  "capability_registry.structural_stub"; "capability_registry.explicit_skip";
  "capability_registry.escalate_unavailable"].
Definition _NON_EXECUTION_REASON_MARKERS : list string := [
  "skip"; "stub"; "simulat"; "not_executed"; "not_invoked"; "construct"].

(** [v is True]. *)
Definition is_true (v : pyval) : bool := match v with PBool b => b | _ => false end.
(** [value.startswith(prefixes)]. *)
Definition starts_with_any (prefixes : list string) (s : string) : bool := existsb (λ p, starts_with p s) prefixes.

Section attestation.
Context `{FloatText}.

Definition status_marked (v : pyval) : bool :=
  let value := upper (strip (str_or v EmptyString)) in
  negb (String.eqb value EmptyString) && starts_with_any _NON_EXECUTION_STATUS_PREFIXES value.
(** What an outcome says of itself, its nested outcomes apart. *)
Definition self_marked (outcome : dict) : bool :=
  is_true (py_get outcome "skipped") || is_true (py_get outcome "stub") || is_true (py_get outcome "simulated")
  || truthy (py_get outcome "auth_required") || truthy (py_get outcome "shallow_rejected")
  || text_in (str_or (py_get outcome "action") EmptyString) NON_EXECUTION_ACTIONS
  || String.eqb (str_or (py_get outcome "error") EmptyString) "import_construct_not_execution"
  || status_marked (py_get outcome "semantic_status") || status_marked (py_get outcome "status").
Fixpoint _non_execution_outcome (outcome : pyval) : bool :=
  match outcome with
  | PDict d =>
      let nested := fix nested (k : string) (l : dict) : bool :=
        match l with
        | [] => false
        | (k', v) :: l => if String.eqb k k' then _non_execution_outcome v else nested k l
        end in
      self_marked d || nested "outcome" d || nested "response" d
  | _ => false
  end.

Record execution : Type := {
  invoked : bool; evidence_refs : pyval; physical_callable : option pyval; outcome : pyval;
  skipped : bool; stub : bool; failure_reason : pyval
}.
(** [evidence_refs or ()], and the references that are not blank. *)
Definition refs_of (refs : pyval) : result (list string) :=
  l ← py_tuple (py_or refs (PTuple []));
  Ok (map (λ r, strip (py_str r)) (List.filter (λ r, negb (blank (str_or r EmptyString))) l)).
Definition execution_simulated (e : execution) : result bool :=
  if negb (invoked e) || skipped e || stub e then Ok true
  else
    refs ← refs_of (evidence_refs e);
    Ok match refs with
       | [] => true
       | _ =>
           match physical_callable e with
           | Some c =>
               let callable_text := strip (str_or c EmptyString) in
               String.eqb callable_text EmptyString || starts_with_any _NON_EXECUTION_CALLABLE_MARKERS callable_text
           | None => false
           end
           || (let reason := lower (str_or (failure_reason e) EmptyString) in
               negb (String.eqb reason EmptyString) && existsb (λ m, str_contains m reason) _NON_EXECUTION_REASON_MARKERS)
           || _non_execution_outcome (outcome e)
       end.
(** [except (TypeError, ValueError)]. *)
Definition calls_of (model_calls : pyval) : result Z :=
  catch (catch (py_int (py_or model_calls (PInt 0))) TypeError (λ _, Ok 0%Z)) ValueError (λ _, Ok 0%Z).
Definition attested_claim_boundary (e : execution) (gate_passed : bool) (model_calls : pyval) : result ClaimBoundary :=
  simulated ← execution_simulated e;
  refs ← refs_of (evidence_refs e);
  calls ← calls_of model_calls;
  Ok (evaluate_claim_boundary simulated (negb simulated && gate_passed)
        (match refs with [] => false | _ => true end) calls no_facts).
End attestation.

(** * Facts *)
(** The keys of a producer's document a boundary depends on. *)
Definition READ : list string := [
  "simulated"; "claim_eligible"; "receipt_present"; "model_calls"; "visible_tests_passed"; "hidden_tests_passed";
  "value_measured"; "routing_surface_changed"; "internal_only"; "solve_eligible"].
Definition locked (b : ClaimBoundary) : Prop :=
  public_claim_allowed b = PBool false ∧ production_ready b = PBool false ∧
  monetary_claim_allowed b = PBool false ∧ training_export_allowed b = PBool false.

Lemma load_reads d d' : Forall (λ k, dict_get k d = dict_get k d') READ → evaluate (lock (load d)) = evaluate (lock (load d')).
Proof.
  unfold READ. rewrite !Forall_cons. intros (E1 & E2 & E3 & E4 & E5 & E6 & E7 & E8 & E9 & E10 & _).
  unfold evaluate, lock, load, block_reasons. cbn. by rewrite E1, E2, E3, E4, E5, E6, E7, E8, E9, E10.
Qed.
Lemma from_dict_load d : from_dict (Some d) = evaluate (lock (load d)).
Proof.
  unfold from_dict. cbn [default]. apply load_reads. unfold READ.
  repeat (apply Forall_cons; split; [by rewrite !dict_get_del_ne|]). constructor.
Qed.
Lemma evaluated_eligible b : eligibility_complete (evaluate b) = PBool true ↔
  truthy (simulated b) = false ∧ truthy (receipt_present b) = true ∧ truthy (claim_eligible b) = true ∧
  py_eq (model_calls b) (PInt 0) = false.
Proof.
  cbn. unfold block_reasons.
  destruct (truthy (simulated b)), (truthy (receipt_present b)), (truthy (claim_eligible b)), (py_eq (model_calls b) (PInt 0));
    cbn; naive_solver.
Qed.

(** ** Nested outcomes *)
(** [d] is the outcome [v] or one nested in it, at any depth. *)
Inductive nested_in : pyval → dict → Prop :=
  | nested_here d : nested_in (PDict d) d
  | nested_below d k v d' : k = "outcome" ∨ k = "response" → dict_get k d = Some v → nested_in v d' → nested_in (PDict d) d'.

Section facts.
Context `{FloatText}.

Lemma non_execution_dict d : _non_execution_outcome (PDict d) =
  self_marked d || default false (_non_execution_outcome <$> dict_get "outcome" d)
  || default false (_non_execution_outcome <$> dict_get "response" d).
Proof.
  assert (∀ k l, (fix nested (k : string) (l : dict) : bool := match l with
      | [] => false
      | (k', v) :: l => if String.eqb k k' then _non_execution_outcome v else nested k l end) k l =
    default false (_non_execution_outcome <$> dict_get k l)) as E.
  { intros k l. induction l as [|[k' v] l IH]; [done|]. cbn [dict_get]. by destruct (String.eqb k k'). }
  cbn [_non_execution_outcome]. by rewrite !E.
Qed.
Lemma non_execution_iff v : _non_execution_outcome v = true ↔ ∃ d, nested_in v d ∧ self_marked d = true.
Proof.
  split.
  - induction v as [| | | | | | |d IH|] using pyval_ind'; try done.
    rewrite non_execution_dict, !orb_true_iff. intros [[Hd|Hd]|Hd]; [exists d; split; [apply nested_here|exact Hd]|..].
    all: destruct (dict_get _ d) as [v|] eqn:E; [|done]; cbn in Hd.
    all: rewrite Forall_forall in IH; destruct (IH _ (dict_get_In _ _ _ E) Hd) as (d' & Hn & Hm).
    all: exists d'; split; [eapply nested_below; [|exact E|exact Hn]; auto|done].
  - intros (d & Hn & Hm). induction Hn as [d|d k v d' Hk E _ IH]; rewrite non_execution_dict; [by rewrite Hm|].
    specialize (IH Hm). destruct Hk as [->| ->]; rewrite E; cbn; rewrite IH; rewrite ?orb_true_r; done.
Qed.

(** The evidence says that the executor ran. *)
Definition executed (e : execution) : Prop :=
  invoked e = true ∧ skipped e = false ∧ stub e = false ∧
  (∃ r refs, refs_of (evidence_refs e) = Ok (r :: refs)) ∧
  (∀ c, physical_callable e = Some c → ∃ text, text = strip (str_or c EmptyString) ∧ text ≠ EmptyString ∧
    Forall (λ p, starts_with p text = false) _NON_EXECUTION_CALLABLE_MARKERS) ∧
  Forall (λ m, str_contains m (lower (str_or (failure_reason e) EmptyString)) = false) _NON_EXECUTION_REASON_MARKERS ∧
  ∀ d, nested_in (outcome e) d → self_marked d = false.

Lemma existsb_Forall {A} (p : A → bool) l : existsb p l = false ↔ Forall (λ x, p x = false) l.
Proof. induction l as [|x l IH]; cbn; [by split|]. rewrite orb_false_iff, Forall_cons, IH. done. Qed.
Lemma non_execution_false v : _non_execution_outcome v = false ↔ ∀ d, nested_in v d → self_marked d = false.
Proof.
  rewrite <- not_true_iff_false, non_execution_iff. split.
  - intros Hn d Hd. apply not_true_iff_false. intros Hm. apply Hn. by exists d.
  - intros Hn (d & Hd & Hm). by rewrite Hn in Hm.
Qed.
Lemma reason_unmarked reason : negb (String.eqb reason EmptyString) && existsb (λ m, str_contains m reason) _NON_EXECUTION_REASON_MARKERS = false ↔
  Forall (λ m, str_contains m reason = false) _NON_EXECUTION_REASON_MARKERS.
Proof.
  rewrite <- existsb_Forall. destruct (String.eqb_spec reason EmptyString) as [->|]; [|done].
  by split; [vm_compute|].
Qed.
Lemma callable_unmarked text : String.eqb text EmptyString || starts_with_any _NON_EXECUTION_CALLABLE_MARKERS text = false ↔
  text ≠ EmptyString ∧ Forall (λ p, starts_with p text = false) _NON_EXECUTION_CALLABLE_MARKERS.
Proof. unfold starts_with_any. by rewrite orb_false_iff, existsb_Forall, String.eqb_neq. Qed.
Lemma simulated_false_iff e : execution_simulated e = Ok false ↔ executed e.
Proof.
  unfold execution_simulated, executed.
  destruct (invoked e), (skipped e), (stub e); cbn [negb orb]; try (split; [done|by intros (? & ? & ? & _)]).
  rewrite <- reason_unmarked, <- non_execution_false.
  destruct (refs_of (evidence_refs e)) as [[|r refs]|x]; cbn [mbind result_bind];
    [split; [done|by intros (_ & _ & _ & (? & ? & ?) & _)]| |split; [done|by intros (_ & _ & _ & (? & ? & ?) & _)]].
  assert (∀ b, Ok b = Ok false ↔ b = false) as -> by (intros b; split; [by intros [= ->]|by intros ->]).
  rewrite !orb_false_iff. split.
  - intros [[Hc Hr] Ho]. split_and!; try done; [by eauto|]. intros c Hp. rewrite Hp in Hc. eexists. split; [done|]. by apply callable_unmarked.
  - intros (_ & _ & _ & _ & Hc & Hr & Ho). split_and!; try done.
    destruct (physical_callable e) as [c|]; [|done]. destruct (Hc c eq_refl) as (t & -> & Ht). by apply callable_unmarked.
Qed.
Lemma calls_of_err v x : calls_of v = Err x → exn_type x = OverflowError ∧ ∃ s, v = PFloat (S754_infinity s).
Proof.
  unfold calls_of, catch. destruct (py_int (py_or v (PInt 0))) as [n|x'] eqn:E; [done|].
  destruct (exn_is TypeError x') eqn:Et; [done|]. destruct (exn_is ValueError x') eqn:Ev; [done|]. intros [= <-].
  unfold exn_is in Et, Ev. destruct (py_int_err _ _ E) as [Hx|[Hx|(Hx & s & Hv)]]; [by rewrite Hx in Et|by rewrite Hx in Ev|].
  split; [done|]. unfold py_or in Hv. destruct (truthy v); [by eauto|done].
Qed.
End facts.

(** * Theorems *)

(** A producer cannot unlock a claim.  What [from_dict] builds depends only on the ten keys
    of [READ]: two documents that agree on them give the same boundary, whatever they say about
    public claims, production, money, training export, the block reason or completeness.  The
    four locked flags of the boundary and of its document are false, and so they are in the
    document of any boundary at all. *)
Theorem producer_cannot_unlock d d' (Hd : Forall (λ k, dict_get k d = dict_get k d') READ) :
  from_dict (Some d) = from_dict (Some d') ∧ locked (from_dict (Some d)) ∧
  ∀ b, Forall (λ k, py_get (to_dict b) k = PBool false)
    ["public_claim_allowed"; "production_ready"; "monetary_claim_allowed"; "training_export_allowed"].
Proof. rewrite !from_dict_load. split_and!; [by apply load_reads|done|]. intros b. repeat constructor. Qed.

(** An evaluated boundary survives its document: reading the document back gives the same
    boundary, and evaluating it again changes nothing. *)
Theorem boundary_roundtrip b :
  from_dict (Some (to_dict (evaluate b))) = evaluate b ∧ evaluate (evaluate b) = evaluate b.
Proof. done. Qed.

Section theorems.
Context `{FloatText}.

(** C28: an attested boundary is eligible exactly when the evidence shows an execution -- the
    executor was invoked and not skipped or stubbed, a reference is not blank, a recorded
    callable is physical, no failure reason and no outcome, at any depth of nesting, marks the
    run as anything else --, the gate passed and some model call is counted. *)
Theorem attested_eligible_iff e gate_passed calls b (E : attested_claim_boundary e gate_passed calls = Ok b) :
  (simulated b = PBool false ↔ executed e) ∧
  (eligibility_complete b = PBool true ↔ executed e ∧ gate_passed = true ∧ calls_of calls ≠ Ok 0%Z) ∧ locked b.
Proof.
  apply bind_Ok_inv in E as (s & Es & (refs & Er & (n & En & [= <-])%bind_Ok_inv)%bind_Ok_inv).
  rewrite <- simulated_false_iff, Es. unfold evaluate_claim_boundary. rewrite evaluated_eligible, En. cbn -[Z.eqb].
  assert (s = false → refs ≠ []) as Hr.
  { intros ->. apply simulated_false_iff in Es as (_ & _ & _ & (r & l & E) & _). rewrite E in Er. by injection Er as <-. }
  split_and!; [|split|done].
  - split; [by intros [= ->]|by intros [= ->]].
  - intros (-> & _ & Hg & Hn). cbn in Hg. split_and!; [done|done|]. intros [= ->]. done.
  - intros ([= ->] & -> & Hn). split_and!; [done|by destruct refs; [by destruct Hr|]|done|].
    apply Z.eqb_neq. congruence.
Qed.

(** What an attestation raises.  Either the references are not iterable (a [TypeError]), or
    the references are read and the number of model calls is an infinite float: its
    [OverflowError] is not among the exceptions the code turns into zero calls. *)
Theorem attestation_raises e gate_passed calls x :
  attested_claim_boundary e gate_passed calls = Err x ↔
  refs_of (evidence_refs e) = Err x ∧ exn_type x = TypeError ∨
  is_ok (refs_of (evidence_refs e)) = true ∧ calls_of calls = Err x ∧
    exn_type x = OverflowError ∧ ∃ s, calls = PFloat (S754_infinity s).
Proof.
  assert (∀ v y, refs_of v = Err y → exn_type y = TypeError) as Hrefs.
  { intros v y. unfold refs_of. destruct (py_or v (PTuple [])); cbn; try done; by intros [= <-]. }
  pose proof (Hrefs (evidence_refs e)) as Hr. pose proof (calls_of_err calls) as Hc. clear Hrefs.
  unfold attested_claim_boundary, execution_simulated.
  destruct (refs_of (evidence_refs e)) as [refs|x'], (calls_of calls) as [n|y]; cbn [is_ok];
    destruct (negb (invoked e) || skipped e || stub e); cbn [mbind result_bind]; split; try (by intros [[? _]|(? & ? & _)]; congruence);
    intros [= <-]; eauto 6.
Qed.
End theorems.

(** * Witnesses *)
#[local] Existing Instance Dyadic_FloatText.
Module Witness.
Definition run (nested : dict) : execution := {|
  invoked := true; evidence_refs := PList [PStr " "; PStr "log.txt"]; physical_callable := Some (PStr "tools.verify");
  outcome := PDict [("status", PStr "BLOCKED"); ("response", PDict [("outcome", PDict nested)])];
  skipped := false; stub := false; failure_reason := PStr EmptyString |}.
(** A gate that ran and blocked is an execution; a skip two levels down is not. *)
Example blocked_gate_ran : execution_simulated (run [("status", PStr "ok")]) = Ok false.
Proof. vm_compute. reflexivity. Qed.
Example nested_skip : execution_simulated (run [("status", PStr " skipped")]) = Ok true.
Proof. vm_compute. reflexivity. Qed.
Definition boundary : ClaimBoundary :=
  match attested_claim_boundary (run []) true (PInt 2) with Ok b => b | Err _ => load [] end.
Definition claims : dict := [("public_claim_allowed", PBool true); ("simulated", PBool false)].
End Witness.

Lemma attested_eligible_iff_witness : executed (Witness.run []) ∧ eligibility_complete Witness.boundary = PBool true.
Proof.
  assert (attested_claim_boundary (Witness.run []) true (PInt 2) = Ok Witness.boundary) as E by (vm_compute; reflexivity).
  destruct (attested_eligible_iff (Witness.run []) true (PInt 2) Witness.boundary E) as (Hs & _ & _).
  split; [|vm_compute; reflexivity]. apply (proj1 Hs). vm_compute. reflexivity.
Defined.
Lemma producer_cannot_unlock_witness :
  from_dict (Some Witness.claims) = from_dict (Some [("simulated", PBool false)]).
Proof.
  assert (Forall (λ k, dict_get k Witness.claims = dict_get k [("simulated", PBool false)]) READ) as Hr
    by (repeat (apply Forall_cons; split; [vm_compute; reflexivity|]); apply Forall_nil; exact I).
  exact (proj1 (producer_cannot_unlock Witness.claims [("simulated", PBool false)] Hr)).
Defined.
Example infinite_calls_raise :
  attested_claim_boundary (Witness.run []) true (PFloat (S754_infinity false)) =
  raise OverflowError "cannot convert float infinity to integer".
Proof. vm_compute. reflexivity. Qed.
