(* ===== verification/Replan.v ===== *)
(** * Replanning after a failed verification
    ([src/src/nexus_runtime/kernel/replan.py] and the execution depths and
    [ExecutionReplanAuthorization] of [planning/engine/capability_contracts.py])

    A replan request is derived from the outcome of the verifier stage: only a trusted failure
    asks for a second attempt, one depth deeper.  The names of the context the kernel reads
    ([ctx.next_execution_depth_after_failure], [ctx.EXECUTION_DEPTH_FULL]) are bound by
    [support/composition.py] to the definitions modelled here. *)
From Stdlib Require Import String.
From S2P Require Import Prelude PyValue Json Digest Contract Instances.

(** ** Execution depths *)
Definition EXECUTION_DEPTH_LIGHT := "LIGHT".
Definition EXECUTION_DEPTH_STANDARD := "STANDARD".
Definition EXECUTION_DEPTH_FULL := "FULL".
Definition VALID_EXECUTION_DEPTHS : list string :=
  [EXECUTION_DEPTH_LIGHT; EXECUTION_DEPTH_STANDARD; EXECUTION_DEPTH_FULL].
Definition _ROUTING_TIER_TO_EXECUTION_DEPTH : list (string * string) := [
  ("L0_micro_patch", EXECUTION_DEPTH_LIGHT); ("L1_green_lane", EXECUTION_DEPTH_LIGHT);
  ("L2_hardened", EXECUTION_DEPTH_STANDARD); ("L3_swarm_deep", EXECUTION_DEPTH_FULL)].
Definition execution_depth_for_routing_tier (routing_tier : string) : result string :=
  match dict_get routing_tier _ROUTING_TIER_TO_EXECUTION_DEPTH with
  | Some d => Ok d
  | None => raise ValueError ("unsupported_routing_tier:" +:+ routing_tier)
  end.
Definition next_execution_depth_after_failure (current_depth : string) : result string :=
  if String.eqb current_depth EXECUTION_DEPTH_LIGHT then Ok EXECUTION_DEPTH_STANDARD
  else if String.eqb current_depth EXECUTION_DEPTH_STANDARD then Ok EXECUTION_DEPTH_FULL
  else if String.eqb current_depth EXECUTION_DEPTH_FULL then Ok EXECUTION_DEPTH_FULL
  else raise ValueError ("invalid_execution_depth:" +:+ current_depth).
Definition depth_rank : list (string * Z) := [
  (EXECUTION_DEPTH_LIGHT, 1%Z); (EXECUTION_DEPTH_STANDARD, 2%Z); (EXECUTION_DEPTH_FULL, 3%Z)].
Definition rank_to_depth (n : Z) : result string :=
  match n with
  | 1%Z => Ok EXECUTION_DEPTH_LIGHT | 2%Z => Ok EXECUTION_DEPTH_STANDARD | 3%Z => Ok EXECUTION_DEPTH_FULL
  | _ => raise KeyError (int_text n)
  end.
Definition apply_execution_depth_floor (current_depth requested_floor : string) : result string :=
  match dict_get current_depth depth_rank with
  | None => raise ValueError ("invalid_execution_depth:" +:+ current_depth)
  | Some r =>
      match dict_get requested_floor depth_rank with
      | None => raise ValueError ("invalid_execution_depth:" +:+ requested_floor)
      | Some r' => rank_to_depth (Z.max r r')
      end
  end.

(** ** The authorization of a second attempt *)
Definition AUTHORIZATION_SCHEMA := "nexus.execution_replan_authorization.v1".
Record ExecutionReplanAuthorization : Type := {
  schema : string; task_id : string; workspace_revision : string; source_planner_decision_id : string;
  source_replan_request_id : string; source_receipt_hash : string; source_run_anchor_hash : string;
  requested_execution_depth : string; attempt_number : Z; max_attempts : Z
}.
(** [__post_init__]. *)
Definition new_authorization (a : ExecutionReplanAuthorization) : result ExecutionReplanAuthorization :=
  _ ← raise_if (negb (String.eqb (schema a) AUTHORIZATION_SCHEMA)) ValueError ("invalid_replan_authorization_schema:" +:+ schema a);
  _ ← raise_if (blank (task_id a)) ValueError "task_id_required";
  _ ← raise_if (blank (workspace_revision a)) ValueError "workspace_revision_required";
  _ ← raise_if (blank (source_planner_decision_id a)) ValueError "source_planner_decision_id_required";
  let req_id := strip (source_replan_request_id a) in
  _ ← raise_if (negb (starts_with "sha256:" req_id) || negb (is_hex64 (str_drop 7 req_id))) ValueError
        ("invalid_source_replan_request_id:" +:+ source_replan_request_id a);
  _ ← raise_if (negb (is_hex64 (strip (source_receipt_hash a)))) ValueError "invalid_source_receipt_hash";
  _ ← raise_if (negb (is_hex64 (strip (source_run_anchor_hash a)))) ValueError "invalid_source_run_anchor_hash";
  _ ← raise_if (negb (text_in (requested_execution_depth a) VALID_EXECUTION_DEPTHS)) ValueError
        ("invalid_execution_depth:" +:+ requested_execution_depth a);
  _ ← raise_if (negb (attempt_number a =? 2)%Z) ValueError "attempt_number_must_be_2";
  _ ← raise_if (negb (max_attempts a =? 2)%Z) ValueError "max_attempts_must_be_2";
  _ ← raise_if (max_attempts a <? attempt_number a)%Z ValueError "attempt_number_exceeds_max_attempts";
  Ok a.
Definition authorization_dict (a : ExecutionReplanAuthorization) : dict := [
  ("schema", PStr (schema a)); ("task_id", PStr (task_id a)); ("workspace_revision", PStr (workspace_revision a));
  ("source_planner_decision_id", PStr (source_planner_decision_id a));
  ("source_replan_request_id", PStr (source_replan_request_id a));
  ("source_receipt_hash", PStr (source_receipt_hash a)); ("source_run_anchor_hash", PStr (source_run_anchor_hash a));
  ("requested_execution_depth", PStr (requested_execution_depth a)); ("attempt_number", PInt (attempt_number a));
  ("max_attempts", PInt (max_attempts a))].

(** ** The request *)
(** What the verifier stage amounts to. *)
Record verdict : Type := {
  trigger : string; verifier_outcome_trusted : bool; replan_required : bool; depth_escalated : bool;
  manual_review_required : bool; requested_depth : string; verifier_status : string
}.

Section replan.
Context `{FloatText} `{Digest}.

(** The fields read off [verifier_stage]. *)
Record stage : Type := {
  invoked : bool; status_raw : string; gate_passed : bool; task_identity_shared : bool; evidence_present : bool;
  evidence_refs : list string
}.
Definition read_stage (verifier_stage : pyval) : result stage :=
  let d := match verifier_stage with PDict d => d | _ => [] end in
  refs ← py_tuple (py_or (default (PList []) (dict_get "evidence_refs" d)) (PList []));
  Ok {| invoked := negb (is_none verifier_stage) && truthy (default (PBool false) (dict_get "invoked" d));
        status_raw := upper (py_str (default (PStr EmptyString) (dict_get "status" d)));
        gate_passed := truthy (default (PBool false) (dict_get "gate_passed" d));
        task_identity_shared := truthy (default (PBool true) (dict_get "task_identity_shared" d));
        evidence_present := truthy (default (PBool false) (dict_get "evidence_present" d));
        evidence_refs := map py_str refs |}.

Definition untrusted (trigger current status : string) : verdict := {|
  trigger := trigger; verifier_outcome_trusted := false; replan_required := false; depth_escalated := false;
  manual_review_required := false; requested_depth := current; verifier_status := status |}.
Definition judge (s : stage) (none : bool) (current_depth : string) : result verdict :=
  if none || negb (invoked s) || text_in (status_raw s) ["NOT_RUN"; "NOT_REQUESTED"; EmptyString] then
    Ok (untrusted "verifier_not_observed" current_depth
          (if String.eqb (status_raw s) EmptyString then "NOT_RUN" else status_raw s))
  else if negb (task_identity_shared s) then Ok (untrusted "verifier_identity_mismatch" current_depth "FAILED")
  else if gate_passed s && String.eqb (status_raw s) "SUCCEEDED" then
    Ok {| trigger := "verifier_passed"; verifier_outcome_trusted := true; replan_required := false;
          depth_escalated := false; manual_review_required := false; requested_depth := current_depth;
          verifier_status := "SUCCEEDED" |}
  else if negb (evidence_present s) then Ok (untrusted "verifier_evidence_untrusted" current_depth "FAILED")
  else
    requested_depth ← next_execution_depth_after_failure current_depth;
    let full := String.eqb current_depth EXECUTION_DEPTH_FULL in
    Ok {| trigger := if full then "verifier_failed_at_full_depth" else "verifier_failed";
          verifier_outcome_trusted := true; replan_required := true; depth_escalated := negb full;
          manual_review_required := full; requested_depth := requested_depth; verifier_status := "FAILED" |}.

Definition payload_for_id (task_id planner_decision_id current_depth : string) (v : verdict) (refs : list string) : dict := [
  ("task_id", PStr task_id); ("source_planner_decision_id", PStr planner_decision_id);
  ("current_execution_depth", PStr current_depth); ("requested_execution_depth", PStr (requested_depth v));
  ("trigger", PStr (trigger v)); ("verifier_status", PStr (verifier_status v));
  ("verifier_evidence_refs", str_list (sort_strings refs))].
Definition request_dict (task_id planner_decision_id current_depth : string) (v : verdict) (refs : list string)
    (request_id : string) : dict := [
  ("schema", PStr "nexus.execution_replan_request.v1"); ("task_id", PStr task_id);
  ("source_planner_decision_id", PStr planner_decision_id); ("current_execution_depth", PStr current_depth);
  ("requested_execution_depth", PStr (requested_depth v)); ("trigger", PStr (trigger v));
  ("verifier_outcome_trusted", PBool (verifier_outcome_trusted v)); ("replan_required", PBool (replan_required v));
  ("depth_escalated", PBool (depth_escalated v)); ("manual_review_required", PBool (manual_review_required v));
  ("verifier_status", PStr (verifier_status v)); ("verifier_evidence_refs", str_list refs);
  ("replan_request_id", PStr request_id); ("public_claim_allowed", PBool false)].
Definition build_execution_replan_request (task_id planner_decision_id current_execution_depth : string)
    (verifier_stage : pyval) : result dict :=
  let current_depth := if String.eqb current_execution_depth EmptyString then "LIGHT" else current_execution_depth in
  s ← read_stage verifier_stage;
  v ← judge s (is_none verifier_stage) current_depth;
  h ← json_sha256 true true (PDict (payload_for_id task_id planner_decision_id current_depth v (evidence_refs s)));
  Ok (request_dict task_id planner_decision_id current_depth v (evidence_refs s) ("sha256:" +:+ h)).

(** [_mapping] of [kernel/identity.py], on values without a [to_dict] of their own. *)
Definition _mapping (v : pyval) : dict :=
  match v with
  | PDict d => d
  | _ => [("status", PStr "FAILED"); ("error", PStr "stage_result_not_mapping")]
  end.
Definition execution_replan_request_authority_projection (value : pyval) : dict :=
  match value with
  | PDict value =>
      let v_stage := _mapping (py_get value "verifier_stage") in
      let v_refs := py_or (py_or (py_get value "verifier_evidence_refs") (py_get v_stage "evidence_refs")) (PList []) in
      let sorted_refs := match as_array v_refs with Some l => sort_strings (map py_str l) | None => [] end in
      let text k := (k, PStr (str_or (py_get value k) EmptyString)) in
      let flag k := (k, PBool (truthy (py_get value k))) in
      [text "schema"; text "task_id"; text "source_planner_decision_id"; text "current_execution_depth";
       text "requested_execution_depth"; text "trigger"; flag "verifier_outcome_trusted"; flag "replan_required";
       flag "depth_escalated"; flag "manual_review_required"; text "verifier_status";
       ("verifier_evidence_refs", str_list sorted_refs); text "replan_request_id"; flag "public_claim_allowed"]
  | _ => []
  end.
End replan.

(** * Facts *)
(** ** Depths *)
Lemma rank_total d : dict_get d depth_rank = None ↔ d ∉ VALID_EXECUTION_DEPTHS.
Proof. apply (dict_get_None d depth_rank). Qed.
Lemma rank_cases d r : dict_get d depth_rank = Some r →
  d = EXECUTION_DEPTH_LIGHT ∧ r = 1%Z ∨ d = EXECUTION_DEPTH_STANDARD ∧ r = 2%Z ∨ d = EXECUTION_DEPTH_FULL ∧ r = 3%Z.
Proof.
  intros E%dict_get_In. unfold depth_rank in E. rewrite !elem_of_cons in E.
  destruct E as [[= -> ->]|[[= -> ->]|[[= -> ->]|[]%elem_of_nil]]]; auto.
Qed.

(** ** What the verifier stage says *)
Definition observed (s : stage) (none : bool) : Prop :=
  none = false ∧ invoked s = true ∧ status_raw s ∉ ["NOT_RUN"; "NOT_REQUESTED"; EmptyString].
(** The verifier ran on this task, did not pass, and left evidence. *)
Definition trusted_failure (s : stage) (none : bool) : Prop :=
  observed s none ∧ task_identity_shared s = true ∧ ¬ (gate_passed s = true ∧ status_raw s = "SUCCEEDED") ∧
  evidence_present s = true.
Definition passed (s : stage) (none : bool) : Prop :=
  observed s none ∧ task_identity_shared s = true ∧ gate_passed s = true ∧ status_raw s = "SUCCEEDED".

(** What a verdict may be. *)
Definition keeps_depth (current : string) (v : verdict) : Prop :=
  replan_required v = false ∧ depth_escalated v = false ∧ manual_review_required v = false ∧ requested_depth v = current.
Lemma judge_spec s none current v : judge s none current = Ok v →
  trusted_failure s none ∧ verifier_outcome_trusted v = true ∧ replan_required v = true ∧
    next_execution_depth_after_failure current = Ok (requested_depth v) ∧
    depth_escalated v = negb (String.eqb current EXECUTION_DEPTH_FULL) ∧
    manual_review_required v = String.eqb current EXECUTION_DEPTH_FULL
  ∨ passed s none ∧ verifier_outcome_trusted v = true ∧ keeps_depth current v
  ∨ ¬ trusted_failure s none ∧ ¬ passed s none ∧ verifier_outcome_trusted v = false ∧ keeps_depth current v.
Proof.
  unfold judge, trusted_failure, passed, observed. destruct (none || negb (invoked s) || text_in _ _) eqn:Eo.
  { intros [= <-]. right. right. rewrite !orb_true_iff, negb_true_iff, text_in_spec in Eo.
    assert (¬ (none = false ∧ invoked s = true ∧ status_raw s ∉ ["NOT_RUN"; "NOT_REQUESTED"; EmptyString])) as Hno.
    { intros (Hn & Hi & Hs). destruct Eo as [[Eo|Eo]|Eo]; [congruence|congruence|by apply Hs]. }
    split; [by intros [? _]|]. split; [by intros [? _]|]. done. }
  rewrite !orb_false_iff, negb_false_iff in Eo. destruct Eo as [[-> Hi] Hs].
  assert (status_raw s ∉ ["NOT_RUN"; "NOT_REQUESTED"; EmptyString]) as Hst.
  { intros Hin%text_in_spec. by rewrite Hin in Hs. }
  destruct (task_identity_shared s); cbn [negb]; [|intros [= <-]; right; right; repeat split; by intros (_ & ? & _)].
  destruct (gate_passed s && String.eqb (status_raw s) "SUCCEEDED") eqn:Eg.
  { intros [= <-]. right. left. apply andb_true_iff in Eg as [-> Es%String.eqb_eq]. done. }
  assert (¬ (gate_passed s = true ∧ status_raw s = "SUCCEEDED")) as Hg.
  { intros [Hg Es]. by rewrite Hg, Es in Eg. }
  destruct (evidence_present s); cbn [negb]; [|intros [= <-]; right; right; repeat split; [by intros (_ & _ & _ & ?)|by intros (_ & _ & ?)]].
  intros (d & Hd & [= <-])%bind_Ok_inv. left. done.
Qed.

Section facts.
Context `{FloatText} `{Digest}.

Definition depth_of (text : string) : string := if String.eqb text EmptyString then "LIGHT" else text.
Lemma build_inv task_id decision_id depth verifier d :
  build_execution_replan_request task_id decision_id depth verifier = Ok d →
  ∃ s v h, read_stage verifier = Ok s ∧ judge s (is_none verifier) (depth_of depth) = Ok v ∧
    json_sha256 true true (PDict (payload_for_id task_id decision_id (depth_of depth) v (evidence_refs s))) = Ok h ∧
    d = request_dict task_id decision_id (depth_of depth) v (evidence_refs s) ("sha256:" +:+ h).
Proof. intros (s & Hs & (v & Hv & (h & Hh & [= <-])%bind_Ok_inv)%bind_Ok_inv)%bind_Ok_inv. by exists s, v, h. Qed.
Lemma map_py_str l : map py_str (map PStr l) = l.
Proof. rewrite map_map. cbn. apply map_id. Qed.
Lemma py_eq_str_list l k : py_eq (str_list l) (str_list k) = true → l = k.
Proof.
  unfold str_list. cbn. revert k. induction l as [|x l IH]; intros [|y k]; cbn; try done.
  rewrite andb_true_iff. intros [->%String.eqb_eq Hl]. f_equal. by apply IH.
Qed.

(** Two values with equal projections agree on every field of authority. *)
Definition authority (d : dict) : list string * list bool * list string :=
  let refs := py_or (py_or (py_get d "verifier_evidence_refs")
    (py_get (_mapping (py_get d "verifier_stage")) "evidence_refs")) (PList []) in
  (map (λ k, str_or (py_get d k) EmptyString)
     ["schema"; "task_id"; "source_planner_decision_id"; "current_execution_depth"; "requested_execution_depth";
      "trigger"; "verifier_status"; "replan_request_id"],
   map (λ k, truthy (py_get d k))
     ["verifier_outcome_trusted"; "replan_required"; "depth_escalated"; "manual_review_required"; "public_claim_allowed"],
   match as_array refs with Some l => sort_strings (map py_str l) | None => [] end).
Lemma projection_eq d e :
  py_eq (PDict (execution_replan_request_authority_projection (PDict d)))
        (PDict (execution_replan_request_authority_projection (PDict e))) = true → authority d = authority e.
Proof.
  unfold execution_replan_request_authority_projection, authority.
  set (rd := match as_array (py_or (py_or (py_get d _) _) _) with Some _ => _ | None => _ end).
  set (re := match as_array (py_or (py_or (py_get e _) _) _) with Some _ => _ | None => _ end).
  clearbody rd re. cbn -[str_or py_get truthy str_list]. unfold str_list at 1 2.
  fold (str_list rd) (str_list re).
  rewrite !andb_true_iff, !String.eqb_eq, !Bool.eqb_true_iff.
  intros (-> & -> & -> & -> & -> & -> & -> & -> & -> & -> & -> & ->%py_eq_str_list & -> & -> & _). done.
Qed.
Lemma authority_request task_id decision_id depth v refs id :
  authority (request_dict task_id decision_id depth v refs id) =
    (["nexus.execution_replan_request.v1"; task_id; decision_id; depth; requested_depth v; trigger v; verifier_status v; id],
     [verifier_outcome_trusted v; replan_required v; depth_escalated v; manual_review_required v; false],
     sort_strings refs).
Proof.
  unfold authority, request_dict, py_get. cbn -[str_or str_list py_or]. rewrite !str_or_text.
  f_equal. destruct refs as [|r refs]; [done|]. change (sort_strings (map py_str (map PStr (r :: refs))) = sort_strings (r :: refs)).
  by rewrite map_py_str.
Qed.

(** Payloads with one canonical text are the same payload. *)
Lemma request_payload_inj t i c v refs t' i' c' v' refs' :
  jnorm (PDict (payload_for_id t i c v refs)) = jnorm (PDict (payload_for_id t' i' c' v' refs')) →
  t = t' ∧ i = i' ∧ c = c' ∧ requested_depth v = requested_depth v' ∧ trigger v = trigger v' ∧
  verifier_status v = verifier_status v' ∧ sort_strings refs = sort_strings refs'.
Proof.
  intros E. assert (∀ k, jnorm <$> dict_get k (payload_for_id t i c v refs) = jnorm <$> dict_get k (payload_for_id t' i' c' v' refs')) as Hk.
  { intros k. by apply jnorm_dict_get; [apply (bool_decide_eq_true_1 _)..|]. }
  pose proof (Hk "task_id") as [= E1]. pose proof (Hk "source_planner_decision_id") as [= E2].
  pose proof (Hk "current_execution_depth") as [= E3]. pose proof (Hk "requested_execution_depth") as [= E4].
  pose proof (Hk "trigger") as [= E5]. pose proof (Hk "verifier_status") as [= E6].
  assert (jnorm (str_list (sort_strings refs)) = jnorm (str_list (sort_strings refs'))) as E7%jnorm_str_list.
  { pose proof (Hk "verifier_evidence_refs") as E7. cbn -[jnorm str_list] in E7. congruence. }
  done.
Qed.
Lemma request_payload_wf t i c v refs : py_wf (PDict (payload_for_id t i c v refs)) = true.
Proof. cbn -[str_list]. by rewrite str_list_wf. Qed.

(** * Theorems *)


(** The document the id of a request hashes, read off the request. *)
Definition id_document (d : dict) : pyval :=
  PDict (map (λ k, (k, py_get d k))
    ["task_id"; "source_planner_decision_id"; "current_execution_depth"; "requested_execution_depth"; "trigger"; "verifier_status"]
    ++ [("verifier_evidence_refs", str_list (authority d).2)]).
Definition ids_collide (d d' : dict) : Prop :=
  ∃ s s', json_dumps true true (id_document d) = Ok s ∧ json_dumps true true (id_document d') = Ok s' ∧
    collision (utf8 s) (utf8 s').
Lemma id_document_request t i c v refs id :
  id_document (request_dict t i c v refs id) = PDict (payload_for_id t i c v refs).
Proof. unfold id_document. by rewrite authority_request. Qed.

(** The request id binds what was decided on which evidence: two requests with one id agree
    on the task, the planner decision, both depths, the trigger, the status of the verifier and
    the set of evidence references, or the texts their ids hash are a SHA-256 collision. *)
Theorem request_id_binds t i c verifier d t' i' c' verifier' d'
    (E : build_execution_replan_request t i c verifier = Ok d)
    (E' : build_execution_replan_request t' i' c' verifier' = Ok d')
    (Hid : py_get d "replan_request_id" = py_get d' "replan_request_id") :
  Forall (λ k, py_get d k = py_get d' k)
    ["task_id"; "source_planner_decision_id"; "current_execution_depth"; "requested_execution_depth"; "trigger"; "verifier_status"]
  ∧ (authority d).2 = (authority d').2
  ∨ ids_collide d d'.
Proof.
  apply build_inv in E as (s & v & h & _ & _ & Hh & ->). apply build_inv in E' as (s' & v' & h' & _ & _ & Hh' & ->).
  injection Hid as Hid. change (h = h') in Hid. subst h'.
  destruct (json_sha256_inj _ _ _ _ _ (request_payload_wf _ _ _ _ _) (request_payload_wf _ _ _ _ _) Hh Hh') as [Ej|(x & y & Hx & Hy & Hc)];
    [left|right; exists x, y; by rewrite !id_document_request].
  apply request_payload_inj in Ej as (-> & -> & Hc & Hr & Ht & Hv & Hrefs). rewrite !authority_request.
  split; [|done]. unfold request_dict, py_get. cbn. rewrite Hc, Hr, Ht, Hv. by repeat constructor.
Qed.

(** Depths form a scale.  Applying a floor gives the deeper of the two valid depths, so the
    result is neither below the depth nor below the floor and the order does not matter; an
    invalid depth on either side raises.  The next depth after a failure is one step deeper, FULL
    staying FULL. *)
Theorem depth_floor_is_max current floor :
  apply_execution_depth_floor current floor =
    match dict_get current depth_rank, dict_get floor depth_rank with
    | Some r, Some r' => Ok (if (r <=? r')%Z then floor else current)
    | None, _ => raise ValueError ("invalid_execution_depth:" +:+ current)
    | Some _, None => raise ValueError ("invalid_execution_depth:" +:+ floor)
    end
  ∧ ∀ r, dict_get current depth_rank = Some r →
      ∃ d, next_execution_depth_after_failure current = Ok d ∧ dict_get d depth_rank = Some (Z.min 3 (r + 1)).
Proof.
  split.
  - unfold apply_execution_depth_floor.
    destruct (dict_get current depth_rank) as [r|] eqn:E, (dict_get floor depth_rank) as [r'|] eqn:E'; try done.
    apply rank_cases in E, E'. by destruct E as [[-> ->]|[[-> ->]|[-> ->]]], E' as [[-> ->]|[[-> ->]|[-> ->]]].
  - intros r [[-> ->]|[[-> ->]|[-> ->]]]%rank_cases; by eexists.
Qed.
End facts.

(** * Witnesses *)
#[local] Existing Instance Sha256_Digest.
#[local] Existing Instance Dyadic_FloatText.
Module Witness.
Definition stage_doc : dict := [
  ("invoked", PBool true); ("status", PStr "failed"); ("gate_passed", PBool false); ("evidence_present", PBool true);
  ("evidence_refs", PList [PStr "log:2"; PStr "log:1"])].
Definition request_doc : result dict :=
  build_execution_replan_request "task-7" "d1" "LIGHT" (PDict stage_doc).
End Witness.

Lemma request_id_binds_witness : ∃ d d',
  build_execution_replan_request "task-7" "d1" EmptyString (PDict Witness.stage_doc) = Ok d ∧ Witness.request_doc = Ok d' ∧
  (py_get d "task_id" = py_get d' "task_id" ∨ ids_collide d d').
Proof.
  destruct (build_execution_replan_request "task-7" "d1" EmptyString (PDict Witness.stage_doc)) as [d|x] eqn:E; [|vm_compute in E; discriminate E].
  destruct Witness.request_doc as [d'|x] eqn:E'; [|vm_compute in E'; discriminate E'].
  exists d, d'. split; [reflexivity|]. split; [reflexivity|].
  assert (py_get d "replan_request_id" = py_get d' "replan_request_id") as Hid.
  { change (build_execution_replan_request "task-7" "d1" EmptyString (PDict Witness.stage_doc) = Ok d) with (Witness.request_doc = Ok d) in E. congruence. }
  unfold Witness.request_doc in E'.
  destruct (request_id_binds _ _ _ _ _ _ _ _ _ _ E E' Hid) as [[Hf _]|Hc]; [left|right; exact Hc].
  rewrite !Forall_cons in Hf. exact (proj1 Hf).
Defined.
