(* ===== verification/ReceiptBase.v ===== *)
(** * Receipt bases
    ([src/src/nexus_runtime/planning/evidence/receipt_base.py])

    The hash graph of receipts: the anchor of a run, the hashes of its stages, the aggregate
    hash of a receipt, and the validator that recomputes them.  Here are the hashes, the
    builders and the validator; the document [attach_r3_receipt_base] makes is in
    ReceiptAttach.  Arguments the source passes through [str()] are given as the texts their
    annotations say. *)
From Stdlib Require Import Ascii String.
From S2P Require Import Prelude PyValue Json Digest Contract Instances.
From S2P Require ClaimBoundary.

Definition RECEIPT_BASE_SCHEMA := "nexus.receipt_base.v1".
Definition RECEIPT_BASE_SCHEMA_VERSION := "1.0".
Definition KNOWN_RECEIPT_BASE_MAJORS : list string :=
  ["nexus.receipt_base"; "nexus.receipt_base.experimental"; "nexus.receipt_base.historical"].
Definition REQUIRED_RECEIPT_BASE_FIELDS : list string := [
  "schema"; "schema_version"; "task_id"; "run_anchor_hash"; "receipt_hash"; "parent_receipt_hashes";
  "structured_evidence_refs"; "claim_boundary"; "public_claim_allowed"].

(** [d.get(k)] where it is a mapping. *)
Definition sub (d : dict) (k : string) : option dict := match py_get d k with PDict m => Some m | _ => None end.
Definition orelse (s d : string) : string := if String.eqb s EmptyString then d else s.

Section hashes.
Context `{FloatText} `{Digest}.

(** Every error of the encoder becomes a [TypeError]. *)
Definition canonical_json_hash (v : pyval) : result string :=
  match json_sha256 false false v with
  | Ok h => Ok h
  | Err e => if exn_is TypeError e || exn_is ValueError e then raise TypeError "canonical_json_hash_non_json_safe" else Err e
  end.

Record run_anchor : Type := {
  a_task_id : string; a_workspace_revision : string; a_planner_decision_id : string; a_treatment_run_id : string;
  a_packet_hash : string; a_shared_bundle_hash : string; a_selection_authority : string;
  a_mainchain_route_version : string; a_route_freeze : bool; a_mainchain_entry : bool
}.
Definition anchor_payload (a : run_anchor) : dict := [
  ("task_id", PStr (a_task_id a)); ("workspace_revision", PStr (a_workspace_revision a));
  ("planner_decision_id", PStr (a_planner_decision_id a)); ("treatment_run_id", PStr (a_treatment_run_id a));
  ("packet_hash", PStr (a_packet_hash a)); ("shared_bundle_hash", PStr (a_shared_bundle_hash a));
  ("selection_authority", PStr (orelse (a_selection_authority a) "CapabilityPlanner"));
  ("mainchain_route_version", PStr (a_mainchain_route_version a)); ("route_freeze", PBool (a_route_freeze a));
  ("mainchain_entry", PBool (a_mainchain_entry a))].
Definition compute_run_anchor_hash (a : run_anchor) : result string := canonical_json_hash (PDict (anchor_payload a)).

Definition build_structured_evidence_ref (evidence_id schema content_hash source task_id scope timestamp : string) : dict :=
  let ch := strip content_hash in
  let unavailable := String.eqb ch EmptyString in [
    ("evidence_id", PStr (strip evidence_id)); ("schema", PStr schema); ("content_hash", PStr ch);
    ("hash_status", PStr (if unavailable then "UNAVAILABLE" else "PRESENT")); ("claim_contribution", PBool (negb unavailable));
    ("source", PStr source); ("task_id", PStr task_id); ("scope", PStr scope); ("timestamp", PStr timestamp)].
Definition legacy_evidence_refs_to_structured (refs : list pyval) (task_id source scope : string) : list dict :=
  let text v := if is_none v then EmptyString else strip (py_str v) in
  map (λ t, build_structured_evidence_ref t "nexus.evidence_ref.legacy_string.v1" EmptyString source task_id scope EmptyString)
    (List.filter (λ t, negb (String.eqb t EmptyString)) (map text refs)).
Definition build_consumption_chain_entry (capability : string)
    (selected injected used evidence_present gate_passed outcome_contributed : bool) (consumer : string) : dict := [
  ("capability", PStr capability); ("selected", PBool selected); ("injected", PBool injected); ("used", PBool used);
  ("evidence_present", PBool evidence_present); ("gate_passed", PBool gate_passed);
  ("outcome_contributed", PBool (outcome_contributed && gate_passed && evidence_present)); ("consumer", PStr consumer)].

Definition stage_payload (stage : dict) (stage_name : string) : dict :=
  [("stage", PStr stage_name); ("payload", PDict (dict_del "receipt_hash" stage))].
Definition hash_stage_payload (stage : dict) (stage_name : string) : result string :=
  canonical_json_hash (PDict (stage_payload stage stage_name)).
Record attempt_identity : Type := {
  t_task_id : string; t_workspace_revision : string; t_attempt_number : Z; t_parent_receipt_hash : string;
  t_source_replan_request_id : string; t_planner_decision_id : string; t_execution_depth : string
}.
Definition build_execution_attempt_id (t : attempt_identity) : result string :=
  h ← canonical_json_hash (PDict [
    ("task_id", PStr (t_task_id t)); ("workspace_revision", PStr (t_workspace_revision t));
    ("attempt_number", PInt (t_attempt_number t)); ("parent_receipt_hash", PStr (t_parent_receipt_hash t));
    ("source_replan_request_id", PStr (t_source_replan_request_id t));
    ("planner_decision_id", PStr (t_planner_decision_id t)); ("execution_depth", PStr (t_execution_depth t))]);
  Ok ("sha256:" +:+ h).

(** The stages a receipt hashes, in order: each a mapping that is not empty, with its name. *)
Definition stage_of (d : dict) (k name : string) : list (string * dict) :=
  match py_get d k with PDict ((_ :: _) as m) => [(name, m)] | _ => [] end.
Definition receipt_stages (receipt : dict) : list (string * dict) :=
  concat (map (λ k, stage_of receipt k k) ["local"; "online"; "verifier"; "learning"])
  ++ match sub receipt "capability_results" with
     | Some caps => concat (map (λ k, stage_of caps k ("cap:" +:+ k)) (sort_strings (keys caps)))
     | None => []
     end.
Definition derive_receipt_child_hashes (receipt : dict) : result (list string) :=
  mapM_result (λ nm, hash_stage_payload nm.2 nm.1) (receipt_stages receipt).

Definition effect_journal_bindings_hash (bindings : pyval) : result string :=
  match as_array bindings with Some ((_ :: _) as l) => canonical_json_hash (PList l) | _ => Ok EmptyString end.

(** What [compute_receipt_hash] aggregates. *)
Record lineage : Type := {
  l_run_anchor_hash : string; l_children : list string; l_claim_boundary : dict; l_shared_bundle_hash : string;
  l_consumer_payload_hash : string; l_artifact_hash : string; l_source_candidate_hash : string;
  l_applied_candidate_hash : string; l_evidence_refs : list dict; l_consumption_chain : list dict;
  l_attempt_hash : string; l_replan_request_hash : string; l_bindings_hash : string
}.
Definition lineage_payload (l : lineage) : dict := [
  ("run_anchor_hash", PStr (l_run_anchor_hash l)); ("ordered_child_hashes", str_list (l_children l));
  ("claim_boundary", PDict (l_claim_boundary l)); ("shared_bundle_hash", PStr (l_shared_bundle_hash l));
  ("consumer_payload_hash", PStr (l_consumer_payload_hash l)); ("artifact_hash", PStr (l_artifact_hash l));
  ("source_candidate_hash", PStr (l_source_candidate_hash l)); ("applied_candidate_hash", PStr (l_applied_candidate_hash l));
  ("structured_evidence_refs", PList (map PDict (l_evidence_refs l)));
  ("consumption_chain", PList (map PDict (l_consumption_chain l)));
  ("execution_attempt_hash", PStr (l_attempt_hash l)); ("execution_replan_request_hash", PStr (l_replan_request_hash l))]
  ++ (if String.eqb (l_bindings_hash l) EmptyString then [] else [("effect_journal_bindings_hash", PStr (l_bindings_hash l))]).
Definition compute_receipt_hash (l : lineage) : result string := canonical_json_hash (PDict (lineage_payload l)).

(** [claim_boundary_projection] of a mapping or of [None]. *)
Definition claim_boundary_projection (claim : option dict) : dict :=
  match claim with
  | Some d => ClaimBoundary.to_dict (ClaimBoundary.from_dict (Some d))
  | None => ClaimBoundary.to_dict (ClaimBoundary.load [])
  end.
End hashes.

(** ** The validator *)
(** [text[:i], text[i + 1:]] at the last [".v"]. *)
Fixpoint split_version (s : string) : option (string * string) :=
  match s with
  | EmptyString => None
  | String c r =>
      match split_version r with
      | Some (major, minor) => Some (String c major, minor)
      | None => if starts_with ".v" s then Some (EmptyString, r) else None
      end
  end.
Definition _parse_schema_parts (schema : string) : string * option string :=
  let text := strip schema in
  if String.eqb text EmptyString then (EmptyString, None)
  else match split_version text with Some (major, minor) => (major, Some minor) | None => (text, None) end.

Inductive mode : Type := Compatibility | Product | Strict.
Definition parse_mode (m : string) : mode :=
  let m := lower (strip (orelse m "compatibility")) in
  if String.eqb m "product" then Product else if String.eqb m "strict" then Strict else Compatibility.
Definition is_strict (m : mode) : bool := match m with Strict => true | _ => false end.
(** [c.isdigit()], which admits the superscript digits of Latin-1. *)
Definition py_isdigit (c : ascii) : bool := is_digit c || existsb (N.eqb (code c)) [178; 179; 185]%N.

Record report : Type := {
  ok : bool; report_mode : mode; parsed : option (string * string * option string * string);
  blockers : list string; warnings : list string
}.
Definition block (b : bool) (msg : string) : list string := if b then [msg] else [].

Section validator.
Context `{FloatText} `{Digest}.

Definition txt (d : dict) (k : string) : string := str_or (py_get d k) EmptyString.
Definition stxt (d : dict) (k : string) : string := strip (txt d k).

Definition schema_blockers (m : mode) (schema major : string) : list string :=
  if String.eqb schema EmptyString then ["missing_schema"]
  else if negb (text_in major KNOWN_RECEIPT_BASE_MAJORS) then ["unknown_major:" +:+ orelse major schema]
  else if text_in major ["nexus.receipt_base.experimental"; "nexus.receipt_base.historical"] && is_strict m then
    ["non_product_schema_in_strict:" +:+ schema]
  else [].
Definition schema_warnings (m : mode) (schema major version : string) : list string :=
  block (negb (String.eqb schema EmptyString) && negb (is_strict m)
         && text_in major ["nexus.receipt_base.experimental"; "nexus.receipt_base.historical"]) ("compatibility_schema:" +:+ schema)
  ++ match m, version with
     | Compatibility, _ | _, EmptyString => []
     | _, String c _ => block (negb (py_isdigit c)) ("non_numeric_schema_version:" +:+ version)
     end.

(** One reason per list of parent references: the loop stops at the first. *)
Fixpoint parent_refs_blockers (l : list pyval) : list string :=
  match l with
  | [] => []
  | PDict d :: l =>
      if text_in (txt d "type") ["run_anchor"; "stage"; "receipt"] then parent_refs_blockers l
      else ["parent_ref_unknown_type"]
  | _ :: _ => ["parent_ref_not_mapping"]
  end.
Definition product_blockers (payload base : dict) : list string :=
  map (λ f, "missing_field:" +:+ f) (List.filter (λ f, negb (has_key f base)) REQUIRED_RECEIPT_BASE_FIELDS)
  ++ (let parents := py_get base "parent_receipt_hashes" in
      block (negb (is_none parents) && match as_array parents with None => true | _ => false end) "parent_receipt_hashes_not_list")
  ++ (let refs := py_get payload "evidence_refs" in
      if is_none refs then []
      else match as_array refs with
           | None => ["legacy_evidence_refs_not_list"]
           | Some l => block (negb (forallb is_str l)) "legacy_evidence_refs_not_list_str"
           end)
  ++ block (String.eqb (stxt base "task_id") EmptyString) "empty_task_id"
  ++ block (String.eqb (stxt base "run_anchor_hash") EmptyString) "empty_run_anchor_hash"
  ++ block (String.eqb (stxt base "receipt_hash") EmptyString) "empty_receipt_hash"
  ++ (let prefs := py_get base "parent_refs" in
      if is_none prefs then []
      else match as_array prefs with None => ["parent_refs_not_list"] | Some l => parent_refs_blockers l end).

Definition envelope_blockers (payload base : dict) : list string :=
  concat (map (λ k, block (negb (String.eqb (stxt payload k) (stxt base k))) ("envelope_" +:+ k +:+ "_mismatch"))
    ["task_id"; "workspace_revision"; "planner_decision_id"; "run_anchor_hash"; "receipt_hash"]).

Definition dict_eq (a b : dict) : bool := py_eq (PDict a) (PDict b).
Definition is_missing {A} (o : option A) : bool := match o with None => true | Some _ => false end.
(** [a or b], for mappings. *)
Definition or_else (a b : option dict) : option dict := match a with Some (_ :: _) => a | _ => b end.
Record attempts : Type := { root_attempt : option dict; planner_attempt : option dict; ctx_attempt : option dict }.
Definition attempts_of (payload : dict) : attempts :=
  let inner k := match sub payload k with Some m => sub m "execution_attempt" | None => None end in
  {| root_attempt := sub payload "execution_attempt"; planner_attempt := inner "planner"; ctx_attempt := inner "context_trace" |}.
Definition copies_blockers (t : attempts) (base : dict) : list string :=
  if is_missing (root_attempt t) && is_missing (planner_attempt t) && is_missing (ctx_attempt t)
     && String.eqb (stxt base "execution_attempt_hash") EmptyString then []
  else
    let differs o := match root_attempt t, o with Some a, Some b => negb (dict_eq a b) | _, _ => false end in
    block (is_missing (root_attempt t)) "execution_attempt_missing_from_root"
    ++ block (is_missing (planner_attempt t)) "execution_attempt_missing_from_planner"
    ++ block (is_missing (ctx_attempt t)) "execution_attempt_missing_from_context_trace"
    ++ block (differs (planner_attempt t)) "execution_attempt_planner_mismatch"
    ++ block (differs (ctx_attempt t)) "execution_attempt_context_trace_mismatch".
Definition identity_of_attempt (a base : dict) : result attempt_identity :=
  let either k := orelse (txt a k) (txt base k) in
  n ← py_int (py_or (py_get a "attempt_number") (PInt 1));
  Ok {| t_task_id := either "task_id"; t_workspace_revision := either "workspace_revision"; t_attempt_number := n;
        t_parent_receipt_hash := txt a "parent_receipt_hash"; t_source_replan_request_id := txt a "source_replan_request_id";
        t_planner_decision_id := either "planner_decision_id"; t_execution_depth := txt a "execution_depth" |}.
Definition attempt_blockers (payload base : dict) : result (list string) :=
  let t := attempts_of payload in
  let target := or_else (or_else (or_else (root_attempt t) (planner_attempt t)) (ctx_attempt t)) (sub base "execution_attempt") in
  more ← match target with
         | None => Ok []
         | Some a =>
             h ← canonical_json_hash (PDict a);
             i ← identity_of_attempt a base; id ← build_execution_attempt_id i;
             Ok (block (negb (String.eqb (txt base "execution_attempt_hash") h)) "execution_attempt_hash_mismatch"
                 ++ block (negb (String.eqb (txt a "attempt_id") id)) "execution_attempt_id_mismatch")
         end;
  Ok (copies_blockers t base ++ more).

Definition replan_blockers (payload base : dict) : result (list string) :=
  let stored := stxt base "execution_replan_request_hash" in
  match sub payload "execution_replan_request" with
  | Some r =>
      if String.eqb stored EmptyString then Ok ["execution_replan_request_hash_missing"]
      else h ← canonical_json_hash (PDict r); Ok (block (negb (String.eqb stored h)) "execution_replan_request_hash_mismatch")
  | None => Ok (block (negb (String.eqb stored EmptyString)) "execution_replan_request_missing_from_root")
  end.

(** [str(h) for h in l if str(h).strip()]. *)
Definition texts_of (l : list pyval) : list string := List.filter (λ s, negb (blank s)) (map py_str l).
Definition stored_children (base : dict) : pyval :=
  py_or (py_or (py_get base "ordered_child_hashes") (py_get base "child_hashes")) (PList []).
Definition children_blockers (payload base : dict) : result (list string) :=
  derived ← derive_receipt_child_hashes payload;
  l ← py_tuple (stored_children base);
  Ok (block (negb (bool_decide (derived = texts_of l))) "ordered_child_hashes_envelope_mismatch").

Definition anchor_of (base : dict) : run_anchor := {|
  a_task_id := stxt base "task_id"; a_workspace_revision := txt base "workspace_revision";
  a_planner_decision_id := txt base "planner_decision_id"; a_treatment_run_id := txt base "treatment_run_id";
  a_packet_hash := txt base "packet_hash"; a_shared_bundle_hash := txt base "shared_bundle_hash";
  a_selection_authority := orelse (txt base "selection_authority") "CapabilityPlanner";
  a_mainchain_route_version := txt base "mainchain_route_version";
  a_route_freeze := truthy (default (PBool false) (dict_get "route_freeze" base));
  a_mainchain_entry := truthy (default (PBool false) (dict_get "mainchain_entry" base)) |}.
Definition anchor_blockers (base : dict) : result (list string) :=
  let ra := stxt base "run_anchor_hash" in let rh := stxt base "receipt_hash" in
  let malformed h name := block (negb (String.eqb h EmptyString) && negb (is_hex64 h)) (name +:+ "_not_sha256") in
  more ← (if negb (String.eqb (stxt base "task_id") EmptyString) && is_hex64 ra then
            e ← compute_run_anchor_hash (anchor_of base); Ok (block (negb (String.eqb ra e)) "run_anchor_hash_tamper")
          else Ok []);
  Ok (malformed ra "run_anchor_hash" ++ malformed rh "receipt_hash" ++ more).

(** The children the aggregate hash is recomputed from. *)
Definition hashed_children (base : dict) : list string :=
  let l := default [] (as_array (stored_children base)) in
  let stage_h := stxt base "stage_hash" in
  texts_of (match l with [] => if String.eqb stage_h EmptyString then [] else [PStr stage_h] | _ => l end).
(** The hash of the effect bindings, and what is wrong with the stored one. *)
Definition bindings_of (envelope : bool) (payload base : dict) : result (string * list string) :=
  if envelope then
    if has_key "effect_journal_bindings_hash" base then
      h ← effect_journal_bindings_hash (py_get payload "effect_journal_bindings");
      Ok (h, block (negb (String.eqb h (txt base "effect_journal_bindings_hash"))) "effect_journal_bindings_hash_mismatch")
    else Ok (EmptyString, [])
  else Ok (txt base "effect_journal_bindings_hash", []).
(** [[dict(r) for r in list(v or ())]]. *)
Definition lineage_of (base : dict) (ra bindings_hash : string) : result lineage :=
  refs ← py_tuple (py_or (py_get base "structured_evidence_refs") (PTuple []));
  chain ← py_tuple (py_or (py_get base "consumption_chain") (PTuple []));
  refs ← mapM_result py_dict refs; chain ← mapM_result py_dict chain;
  Ok {| l_run_anchor_hash := ra; l_children := hashed_children base;
        l_claim_boundary := claim_boundary_projection (match sub base "claim_boundary" with Some [] => None | c => c end);
        l_shared_bundle_hash := txt base "shared_bundle_hash"; l_consumer_payload_hash := txt base "consumer_payload_hash";
        l_artifact_hash := txt base "artifact_hash"; l_source_candidate_hash := txt base "source_candidate_hash";
        l_applied_candidate_hash := txt base "applied_candidate_hash"; l_evidence_refs := refs; l_consumption_chain := chain;
        l_attempt_hash := txt base "execution_attempt_hash"; l_replan_request_hash := txt base "execution_replan_request_hash";
        l_bindings_hash := bindings_hash |}.
Definition hash_blockers (envelope : bool) (payload base : dict) : result (list string) :=
  let ra := stxt base "run_anchor_hash" in let rh := stxt base "receipt_hash" in
  if is_hex64 ra && is_hex64 rh then
    '(bindings_h, found) ← bindings_of envelope payload base;
    l ← lineage_of base ra bindings_h; e ← compute_receipt_hash l;
    Ok (found ++ block (negb (String.eqb rh e)) "receipt_hash_tamper")
  else Ok [].
Definition claim_blockers (base : dict) : result (list string) :=
  let cb := py_get base "claim_boundary" in
  parents ← py_tuple (py_or (py_get base "parent_receipt_hashes") (PList []));
  let rh := txt base "receipt_hash" in
  Ok (block (ClaimBoundary.is_true (py_get base "public_claim_allowed")) "public_claim_not_false"
      ++ block (negb (is_none cb) && negb (is_mapping cb)) "claim_boundary_not_mapping"
      ++ block (negb (String.eqb rh EmptyString) && bool_decide (rh ∈ map py_str parents)) "cyclic_parent_includes_self_hash"
      ++ block (match sub base "claim_boundary" with
                | Some c => ClaimBoundary.is_true (py_get c "public_claim_allowed") | None => false
                end) "claim_boundary_public_claim_true").
Definition strict_blockers (envelope : bool) (payload base : dict) : result (list string) :=
  attempt ← attempt_blockers payload base;
  replan ← replan_blockers payload base;
  children ← (if envelope then children_blockers payload base else Ok []);
  anchor ← anchor_blockers base;
  hashes ← hash_blockers envelope payload base;
  claims ← claim_blockers base;
  Ok ((if envelope then envelope_blockers payload base else []) ++ attempt ++ replan ++ children ++ anchor ++ hashes ++ claims).

(** The receipt itself, or the base inside it. *)
Definition is_envelope (payload : dict) : bool := is_mapping (py_get payload "receipt_base").
Definition base_of (payload : dict) : dict := default payload (sub payload "receipt_base").
Definition validate_receipt_base (receipt_or_base : option dict) (m : string) (raise_on_error : bool) : result report :=
  let m := parse_mode m in
  let finish r := _ ← raise_if (raise_on_error && negb (ok r)) ValueError
    ("receipt_base_validation_failed:" +:+ str_join "," (blockers r)); Ok r in
  match receipt_or_base with
  | None => finish {| ok := false; report_mode := m; parsed := None; blockers := ["missing_receipt_or_base"]; warnings := [] |}
  | Some payload =>
      let base := base_of payload in
      let schema := txt base "schema" in
      let '(major, minor) := _parse_schema_parts schema in
      let version := txt base "schema_version" in
      strict ← (match m with Strict => strict_blockers (is_envelope payload) payload base | _ => Ok [] end);
      let found := schema_blockers m schema major
        ++ (match m with Compatibility => [] | _ => product_blockers payload base end) ++ strict in
      finish {| ok := bool_decide (found = []); report_mode := m; parsed := Some (schema, major, minor, version);
                blockers := found; warnings := schema_warnings m schema major version |}
  end.
End validator.

(** * Facts *)
Lemma block_nil b msg : block b msg = [] ↔ b = false.
Proof. by destruct b. Qed.
Lemma orelse_nonempty s d : d ≠ EmptyString → orelse s d ≠ EmptyString.
Proof. intros Hd. unfold orelse. by destruct (String.eqb_spec s EmptyString). Qed.
Lemma orelse_id s d : s ≠ EmptyString → orelse s d = s.
Proof. intros Hs. unfold orelse. by destruct (String.eqb_spec s EmptyString). Qed.

Section facts.
Context `{FloatText} `{Digest}.

Lemma canonical_json_hash_Ok v h : canonical_json_hash v = Ok h → json_sha256 false false v = Ok h.
Proof.
  unfold canonical_json_hash. destruct (json_sha256 false false v) as [h'|e]; [done|].
  by destruct (exn_is TypeError e || exn_is ValueError e).
Qed.
Lemma canonical_json_hash_hex v h : canonical_json_hash v = Ok h → is_hex64 h = true.
Proof. intros E%canonical_json_hash_Ok. by eapply json_sha256_hex. Qed.
Lemma canonical_json_hash_inj v w h : py_wf v = true → py_wf w = true →
  canonical_json_hash v = Ok h → canonical_json_hash w = Ok h → jnorm v = jnorm w ∨ colliding [v; w].
Proof.
  intros Hv Hw Ev%canonical_json_hash_Ok Ew%canonical_json_hash_Ok. by eapply json_sha256_colliding.
Qed.
(** A value that cannot be written is the only error, a [TypeError]. *)
Lemma canonical_json_hash_err v e : canonical_json_hash v = Err e → exn_type e = TypeError.
Proof.
  unfold canonical_json_hash, json_sha256. destruct (json_dumps false false v) as [t|e'] eqn:E; [done|].
  cbn [mbind result_bind]. apply bind_Err_inv in E as [E|(? & _ & [=])].
  apply json_check_err in E. unfold exn_is. destruct E as [->| ->]; cbn; by intros [= <-].
Qed.

(** ** Anchors *)
Lemma anchor_wf a : py_wf (PDict (anchor_payload a)) = true.
Proof. done. Qed.
Lemma anchor_payload_inj a b : a_selection_authority a ≠ EmptyString → a_selection_authority b ≠ EmptyString →
  jnorm (PDict (anchor_payload a)) = jnorm (PDict (anchor_payload b)) → a = b.
Proof.
  intros Ha Hb E. apply jnorm_members in E; [|by apply (bool_decide_eq_true_1 _)|done].
  unfold anchor_payload in E. cbn in E. rewrite !orelse_id in E by done. destruct a, b; cbn in *. by injection E as -> -> -> -> -> -> -> -> -> ->.
Qed.

(** ** Stages *)
Definition stage_content (nm : string * dict) : string * pyval := (nm.1, jnorm (PDict (dict_del "receipt_hash" nm.2))).
Lemma stage_payload_inj s n s' n' :
  jnorm (PDict (stage_payload s n)) = jnorm (PDict (stage_payload s' n')) → stage_content (n, s) = stage_content (n', s').
Proof.
  intros E. apply jnorm_members in E; [|by apply (bool_decide_eq_true_1 _)|done].
  unfold stage_payload in E. cbn [map snd] in E. unfold stage_content. cbn [fst snd].
  generalize dependent (jnorm (PDict (dict_del "receipt_hash" s))). generalize (jnorm (PDict (dict_del "receipt_hash" s'))).
  intros v w E. by injection E as -> ->.
Qed.
Lemma stage_payload_wf s n : py_wf (PDict s) = true → py_wf (PDict (stage_payload s n)) = true.
Proof.
  intros Hs. pose proof (py_wf_del _ "receipt_hash" Hs) as Hd. unfold stage_payload.
  generalize dependent (PDict (dict_del "receipt_hash" s)). intros v Hv. cbn. by rewrite Hv.
Qed.
Definition stage_documents (l : list (string * dict)) : list pyval := map (λ nm, PDict (stage_payload nm.2 nm.1)) l.
Definition stages_wf (l : list (string * dict)) : Prop := Forall (λ nm, py_wf (PDict nm.2) = true) l.
Lemma stages_inj l : ∀ l' hs, stages_wf l → stages_wf l' →
  mapM_result (λ nm, hash_stage_payload nm.2 nm.1) l = Ok hs → mapM_result (λ nm, hash_stage_payload nm.2 nm.1) l' = Ok hs →
  map stage_content l = map stage_content l' ∨ colliding (stage_documents l ++ stage_documents l').
Proof.
  induction l as [|[n s] l IH]; intros [|[n' s'] l'] hs Hl Hl' E E'; cbn in E, E'.
  - by left.
  - injection E as <-. by apply bind_Ok_inv in E' as (h & _ & (r & _ & [=])%bind_Ok_inv).
  - injection E' as <-. by apply bind_Ok_inv in E as (h & _ & (r & _ & [=])%bind_Ok_inv).
  - apply bind_Ok_inv in E as (h & Eh & (r & Er & [= <-])%bind_Ok_inv).
    apply bind_Ok_inv in E' as (h' & Eh' & (r' & Er' & [= -> ->])%bind_Ok_inv).
    apply Forall_cons in Hl as [Hs Hl], Hl' as [Hs' Hl']. cbn [fst snd] in *.
    destruct (canonical_json_hash_inj _ _ _ (stage_payload_wf _ n Hs) (stage_payload_wf _ n' Hs') Eh Eh') as [Ej%stage_payload_inj|Hc];
      [|right; by apply (colliding_pair _ _ _ _ (list_elem_of_here _ _) (list_elem_of_here _ _) Hc)].
    destruct (IH _ _ Hl Hl' Er Er') as [Em|Hc]; [left; cbn [map]; by rewrite Ej, Em|right].
    revert Hc. apply colliding_mono. cbn [stage_documents map]. intros x [Hx|Hx]%elem_of_app; apply elem_of_app; [left|right]; by right.
Qed.
Lemma sub_wf d k m : py_wf (PDict d) = true → sub d k = Some m → py_wf (PDict m) = true.
Proof.
  unfold sub, py_get. intros Hd E. destruct (dict_get k d) as [v|] eqn:Ek; [|done]. cbn in E.
  destruct v; try done. injection E as ->. by eapply py_wf_get.
Qed.
Lemma stage_of_wf d k n : py_wf (PDict d) = true → stages_wf (stage_of d k n).
Proof.
  intros Hd. unfold stage_of. destruct (py_get d k) as [| | | | | | |m|] eqn:E; try constructor.
  destruct m as [|kv m]; [constructor|]. constructor; [|constructor]. eapply sub_wf; [done|]. unfold sub. by rewrite E.
Qed.
Lemma receipt_stages_wf p : py_wf (PDict p) = true → stages_wf (receipt_stages p).
Proof.
  intros Hp. unfold receipt_stages, stages_wf. apply Forall_app. split.
  - apply Forall_concat, Forall_map, Forall_true. intros k. by apply stage_of_wf.
  - destruct (sub p "capability_results") as [caps|] eqn:E; [|constructor].
    apply Forall_concat, Forall_map, Forall_true. intros k. apply stage_of_wf. by eapply sub_wf.
Qed.
End facts.

Section lineage.
Context `{FloatText} `{Digest}.

(** ** Dictionaries read from values *)
Lemma py_tuple_wf v l : py_wf v = true → py_tuple v = Ok l → Forall (λ x, py_wf x = true) l.
Proof.
  destruct v as [| | | |s|l'|l'|d|]; cbn [py_tuple]; try done.
  - intros _ [= <-]. induction s as [|c s IH]; constructor; [done|apply IH].
  - intros Hl [= <-]. by apply Forall_forallb.
  - intros Hl [= <-]. by apply Forall_forallb.
  - intros _ [= <-]. apply Forall_map, Forall_true. done.
Qed.
Lemma assoc_set_wf k x (d : list (pyval * pyval)) : py_wf x = true → Forall (λ kv, py_wf kv.2 = true) d →
  Forall (λ kv, py_wf kv.2 = true) (assoc_set k x d).
Proof.
  intros Hx. induction 1 as [|[k' x'] d Hkv Hd IH]; cbn; [by repeat constructor|].
  destruct (py_eq k' k); by repeat constructor.
Qed.
Lemma dict_of_wf (l : list (string * pyval)) : Forall (λ kv, py_wf kv.2 = true) l → py_wf (PDict (dict_of l)) = true.
Proof.
  intros Hl. assert (∀ acc, py_wf (PDict acc) = true → py_wf (PDict (foldl (λ d kv, dict_set kv.1 kv.2 d) acc l)) = true) as G.
  { induction Hl as [|[k v] l Hv Hl IH]; intros acc Hacc; [done|]. cbn [foldl fst snd]. apply IH. by apply py_wf_set. }
  by apply G.
Qed.
Lemma py_dict_wf v d : py_wf v = true → py_dict v = Ok d → py_wf (PDict d) = true.
Proof.
  intros Hv E. assert (v = PDict d ∨ ∃ l ps, py_tuple v = Ok l ∧ mapM_result dict_pair l = Ok ps ∧
    d = dict_of (map (λ kv, (text_of kv.1, kv.2)) (foldl (λ d kv, assoc_set kv.1 kv.2 d) [] ps))) as [->|(l & ps & Hl & Hps & ->)].
  { destruct v; cbn [py_dict] in E; try (apply bind_Ok_inv in E as (items & Hi & [= <-]); right;
      cbn [py_dict_items] in Hi; apply bind_Ok_inv in Hi as (ll & Hll & (ps & Hps & [= <-])%bind_Ok_inv); by exists ll, ps).
    left. congruence. }
  { done. }
  apply dict_of_wf, Forall_map. cbn [snd].
  assert (Forall (λ kv : pyval * pyval, py_wf kv.2 = true) ps) as Hall.
  { pose proof (py_tuple_wf _ _ Hv Hl) as Hw. apply mapM_result_Ok_inv in Hps. clear -Hw Hps.
    induction Hps as [|x [k y] l ps Hx _ IH]; constructor.
    - apply Forall_cons in Hw as [Hw _]. unfold dict_pair in Hx. destruct (py_tuple x) as [[|a [|b [|]]]|] eqn:Et; try done.
      destruct (hashable a); [|done]. injection Hx as -> ->. pose proof (py_tuple_wf _ _ Hw Et) as Hab. rewrite !Forall_cons in Hab.
      cbn. by destruct Hab as (_ & ? & _).
    - apply Forall_cons in Hw as [_ Hw]. by apply IH. }
  assert (∀ acc, Forall (λ kv : pyval * pyval, py_wf kv.2 = true) acc →
    Forall (λ kv : pyval * pyval, py_wf kv.2 = true) (foldl (λ d kv, assoc_set kv.1 kv.2 d) acc ps)) as G; [|by apply G].
  clear -Hall. induction Hall as [|[k y] ps Hy _ IH]; intros acc Hacc; [done|]. cbn [foldl fst snd]. apply IH. by apply assoc_set_wf.
Qed.
Lemma dicts_wf v l ds : py_wf v = true → py_tuple (py_or v (PTuple [])) = Ok l → mapM_result py_dict l = Ok ds →
  Forall (λ d, py_wf (PDict d) = true) ds.
Proof.
  intros Hv Hl Hds. assert (Forall (λ x, py_wf x = true) l) as Hw.
  { eapply py_tuple_wf; [|exact Hl]. unfold py_or. by destruct (truthy v). }
  apply mapM_result_Ok_inv in Hds. clear Hl. induction Hds as [|x d l ds Hx _ IH]; [constructor|].
  apply Forall_cons in Hw as [Hx' Hw]. constructor; [by eapply py_dict_wf|by apply IH].
Qed.

(** ** The lineage of a base *)
Definition lineage_wf (l : lineage) : Prop :=
  py_wf (PDict (l_claim_boundary l)) = true ∧ Forall (λ d, py_wf (PDict d) = true) (l_evidence_refs l) ∧
  Forall (λ d, py_wf (PDict d) = true) (l_consumption_chain l).
Lemma dict_list_wf ds : Forall (λ d, py_wf (PDict d) = true) ds → py_wf (PList (map PDict ds)) = true.
Proof. intros Hd. cbn [py_wf]. apply Forall_forallb, Forall_map. exact Hd. Qed.
Lemma lineage_keys l : NoDup (keys (lineage_payload l)).
Proof.
  unfold lineage_payload. destruct (String.eqb (l_bindings_hash l) EmptyString); by apply (bool_decide_eq_true_1 _).
Qed.
Lemma lineage_payload_wf l : lineage_wf l → py_wf (PDict (lineage_payload l)) = true.
Proof.
  intros (Hc & Hr & Hch). pose proof (lineage_keys l) as Hk. cbn [py_wf]. apply andb_true_iff. split; [by apply bool_decide_eq_true|].
  unfold lineage_payload. rewrite forallb_app. apply andb_true_iff. split.
  - apply dict_list_wf in Hr, Hch. cbn -[py_wf str_list]. rewrite str_list_wf, Hc, Hr, Hch. done.
  - by destruct (String.eqb (l_bindings_hash l) EmptyString).
Qed.
Lemma claim_projection_wf c : (∀ d, c = Some d → py_wf (PDict d) = true) → py_wf (PDict (claim_boundary_projection c)) = true.
Proof.
  intros Hc. destruct c as [d|]; [|done]. specialize (Hc d eq_refl). cbn [claim_boundary_projection].
  rewrite ClaimBoundary.from_dict_load.
  assert (∀ k v, py_wf v = true → py_wf (default v (dict_get k d)) = true) as Hf.
  { intros k v Hv. destruct (dict_get k d) as [w|] eqn:E; [by eapply py_wf_get|done]. }
  assert (∀ t u, py_wf (py_or (PStr t) (PStr u)) = true) as Ho by (intros t u; unfold py_or; by destruct (truthy (PStr t))).
  unfold ClaimBoundary.to_dict. cbn -[py_or dict_get ClaimBoundary.block_reasons default].
  rewrite !Hf, Ho by done. done.
Qed.

(** The payload determines the lineage, up to the order of keys inside it. *)
Lemma lineage_inj l m : lineage_wf l → lineage_wf m → jnorm (PDict (lineage_payload l)) = jnorm (PDict (lineage_payload m)) →
  l_run_anchor_hash l = l_run_anchor_hash m ∧ l_children l = l_children m ∧
  jnorm (PDict (l_claim_boundary l)) = jnorm (PDict (l_claim_boundary m)) ∧
  l_attempt_hash l = l_attempt_hash m ∧ l_replan_request_hash l = l_replan_request_hash m ∧
  l_bindings_hash l = l_bindings_hash m.
Proof.
  intros Hl Hm E.
  assert (∀ k, jnorm <$> dict_get k (lineage_payload l) = jnorm <$> dict_get k (lineage_payload m)) as Hk.
  { intros k. by apply jnorm_dict_get; [apply lineage_keys..|]. }
  pose proof (Hk "run_anchor_hash") as E1. pose proof (Hk "ordered_child_hashes") as E2. pose proof (Hk "claim_boundary") as E3.
  pose proof (Hk "execution_attempt_hash") as E4. pose proof (Hk "execution_replan_request_hash") as E5.
  pose proof (Hk "effect_journal_bindings_hash") as E6. unfold lineage_payload in E1, E2, E3, E4, E5, E6.
  cbn -[jnorm str_list] in E1, E2, E3, E4, E5, E6.
  assert (∀ a b, Some (jnorm (PStr a)) = Some (jnorm (PStr b)) → a = b) as Hs by (by intros a b [= ->]).
  split; [by apply Hs|]. split; [apply jnorm_str_list; congruence|]. split; [congruence|].
  split; [by apply Hs|]. split; [by apply Hs|].
  destruct (String.eqb_spec (l_bindings_hash l) EmptyString) as [->|], (String.eqb_spec (l_bindings_hash m) EmptyString) as [->|];
    cbn -[jnorm] in E6; try done. by apply Hs.
Qed.
End lineage.

Section validated.
Context `{FloatText} `{Digest}.

(** ** What a strictly valid receipt satisfies *)
Definition strictly_valid (p : dict) : Prop :=
  ∃ r, validate_receipt_base (Some p) "strict" false = Ok r ∧ ok r = true.
Record checks (p : dict) : Prop := {
  c_product : product_blockers p (base_of p) = []; c_attempt : attempt_blockers p (base_of p) = Ok [];
  c_replan : replan_blockers p (base_of p) = Ok [];
  c_envelope : is_envelope p = true → envelope_blockers p (base_of p) = [] ∧ children_blockers p (base_of p) = Ok [];
  c_anchor : anchor_blockers (base_of p) = Ok []; c_hash : hash_blockers (is_envelope p) p (base_of p) = Ok [];
  c_claims : claim_blockers (base_of p) = Ok []
}.
Lemma strictly_valid_iff p : strictly_valid p ↔ checks p ∧
  let schema := txt (base_of p) "schema" in schema_blockers Strict schema (_parse_schema_parts schema).1 = [].
Proof.
  unfold strictly_valid, validate_receipt_base. change (parse_mode "strict") with Strict. cbv zeta.
  destruct (_parse_schema_parts (txt (base_of p) "schema")) as [major minor]. cbn [fst andb].
  split.
  - intros (r & E & Hok). apply bind_Ok_inv in E as (s & Es & (u & _ & [= <-])%bind_Ok_inv). cbn [ok] in Hok.
    apply bool_decide_eq_true in Hok. apply app_eq_nil in Hok as [Hschema Hok]. apply app_eq_nil in Hok as [Hprod ->].
    split; [|done]. unfold strict_blockers in Es.
    apply bind_Ok_inv in Es as (a & Ha & Es). apply bind_Ok_inv in Es as (b & Hb & Es). apply bind_Ok_inv in Es as (c & Hc & Es).
    apply bind_Ok_inv in Es as (d & Hd & Es). apply bind_Ok_inv in Es as (e & He & Es). apply bind_Ok_inv in Es as (f & Hf & Es).
    injection Es as Es. repeat (apply app_eq_nil in Es as [? Es]). subst. destruct (is_envelope p) eqn:Eenv; constructor; rewrite ?Eenv; done.
  - intros [[Hp Ha Hr He Han Hh Hc] Hs]. unfold strict_blockers. rewrite Ha, Hr, Han, Hh, Hc. cbn [mbind result_bind].
    assert ((if is_envelope p then children_blockers p (base_of p) else Ok []) = Ok [] ∧
      (if is_envelope p then envelope_blockers p (base_of p) else []) = []) as [-> ->].
    { destruct (is_envelope p); [|done]. destruct (He eq_refl). done. }
    cbn [mbind result_bind app]. rewrite Hs, Hp. eexists. split; [reflexivity|]. by apply bool_decide_eq_true.
Qed.

(** The hashes of a valid receipt, unfolded. *)
Lemma valid_hashes p : checks p →
  let base := base_of p in let ra := stxt base "run_anchor_hash" in
  compute_run_anchor_hash (anchor_of base) = Ok ra ∧
  ∃ bh l, bindings_of (is_envelope p) p base = Ok (bh, []) ∧ lineage_of base ra bh = Ok l ∧
    compute_receipt_hash l = Ok (stxt base "receipt_hash").
Proof.
  intros [Hp _ _ _ Ha Hh _]. unfold product_blockers in Hp.
  repeat (apply app_eq_nil in Hp as [? Hp]).
  repeat match goal with Hb : block _ _ = [] |- _ => apply block_nil in Hb end.
  apply bind_Ok_inv in Ha as (more & Hmore & Ha). injection Ha as Ha.
  apply app_eq_nil in Ha as [Hra Ha]. apply app_eq_nil in Ha as [Hrh ->]. apply block_nil in Hra, Hrh.
  set (base := base_of p) in *. set (ra := stxt base "run_anchor_hash") in *. set (rh := stxt base "receipt_hash") in *.
  assert (is_hex64 ra = true) as Ehra.
  { apply not_false_iff_true. intros E. rewrite E in Hra. destruct (String.eqb ra EmptyString) eqn:E'; [congruence|done]. }
  assert (is_hex64 rh = true) as Ehrh.
  { apply not_false_iff_true. intros E. rewrite E in Hrh. destruct (String.eqb rh EmptyString) eqn:E'; [congruence|done]. }
  split.
  - rewrite Ehra, andb_true_r in Hmore. destruct (String.eqb (stxt base "task_id") EmptyString) eqn:Et; [congruence|].
    cbn [negb] in Hmore. apply bind_Ok_inv in Hmore as (e & He & [= Hb]). apply block_nil, negb_false_iff, String.eqb_eq in Hb.
    change (compute_run_anchor_hash (anchor_of base) = Ok ra). by rewrite Hb.
  - unfold hash_blockers in Hh. cbv zeta in Hh. fold ra rh in Hh. rewrite Ehra, Ehrh in Hh. cbn [andb] in Hh.
    apply bind_Ok_inv in Hh as ([bh found] & Hb & Hh). apply bind_Ok_inv in Hh as (l & Hl & Hh).
    apply bind_Ok_inv in Hh as (e & He & Hh). injection Hh as Hh. apply app_eq_nil in Hh as [-> Hh].
    apply block_nil, negb_false_iff, String.eqb_eq in Hh. exists bh, l.
    split; [exact Hb|]. split; [exact Hl|]. change (compute_receipt_hash l = Ok rh). by rewrite Hh.
Qed.
Lemma lineage_of_wf base ra bh l : py_wf (PDict base) = true → lineage_of base ra bh = Ok l → lineage_wf l.
Proof.
  intros Hb E. apply bind_Ok_inv in E as (rl & Hrl & E). apply bind_Ok_inv in E as (cl & Hcl & E).
  apply bind_Ok_inv in E as (refs & Hrefs & E). apply bind_Ok_inv in E as (chain & Hchain & [= <-]). split_and!; cbn.
  - apply claim_projection_wf. intros d Hd. destruct (sub base "claim_boundary") as [[|kv c]|] eqn:Es; try done.
    injection Hd as <-. by eapply sub_wf.
  - eapply dicts_wf; [|exact Hrl|exact Hrefs]. by apply py_wf_py_get.
  - eapply dicts_wf; [|exact Hcl|exact Hchain]. by apply py_wf_py_get.
Qed.
Lemma base_of_wf p : py_wf (PDict p) = true → py_wf (PDict (base_of p)) = true.
Proof. intros Hp. unfold base_of. destruct (sub p "receipt_base") as [b|] eqn:E; [by eapply sub_wf|done]. Qed.
End validated.

(** * Theorems *)
Section binding.
Context `{FloatText} `{Digest}.

(** The children of the base are a list, and its hash does not fall back on a stage hash. *)
Definition children_listed (p : dict) : Prop :=
  ∃ l, as_array (stored_children (base_of p)) = Some l ∧ (l ≠ [] ∨ stxt (base_of p) "stage_hash" = EmptyString).
(** The effect bindings the receipt hash covers. *)
Definition covered_bindings (p : dict) : list pyval :=
  if has_key "effect_journal_bindings_hash" (base_of p)
  then default [] (as_array (py_get p "effect_journal_bindings")) else [].
Definition document (o : option dict) : option pyval := (λ d, jnorm (PDict d)) <$> o.
(** The receipts say the same, up to the order of keys. *)
Definition same_run (p q : dict) : Prop :=
  anchor_of (base_of p) = anchor_of (base_of q) ∧
  map stage_content (receipt_stages p) = map stage_content (receipt_stages q) ∧
  document (sub p "execution_replan_request") = document (sub q "execution_replan_request") ∧
  jnorm (PList (covered_bindings p)) = jnorm (PList (covered_bindings q)) ∧
  (sub p "execution_attempt" ≠ Some [] → sub q "execution_attempt" ≠ Some [] →
    document (sub p "execution_attempt") = document (sub q "execution_attempt")).

(** The documents the hashes of a receipt are taken of. *)
Definition lineage_document (p : dict) : list pyval :=
  match bindings_of (is_envelope p) p (base_of p) with
  | Ok (bh, _) =>
      match lineage_of (base_of p) (stxt (base_of p) "run_anchor_hash") bh with
      | Ok l => [PDict (lineage_payload l)] | Err _ => []
      end
  | Err _ => []
  end.
Definition member_document (p : dict) (k : string) : list pyval := match sub p k with Some d => [PDict d] | None => [] end.
Definition hashed_documents (p : dict) : list pyval :=
  PDict (anchor_payload (anchor_of (base_of p))) :: lineage_document p ++ stage_documents (receipt_stages p)
  ++ member_document p "execution_replan_request" ++ member_document p "execution_attempt" ++ [PList (covered_bindings p)].
Definition receipts_collide (p q : dict) : Prop := colliding (hashed_documents p ++ hashed_documents q).

Lemma collide_at p q v w : v ∈ hashed_documents p → w ∈ hashed_documents q → colliding [v; w] → receipts_collide p q.
Proof. apply colliding_pair. Qed.
Lemma lineage_hashed p bh f l : bindings_of (is_envelope p) p (base_of p) = Ok (bh, f) →
  lineage_of (base_of p) (stxt (base_of p) "run_anchor_hash") bh = Ok l → PDict (lineage_payload l) ∈ hashed_documents p.
Proof.
  intros Hb Hl. unfold hashed_documents, lineage_document. rewrite Hb, Hl. right. apply elem_of_app. left. by left.
Qed.
Lemma stages_hashed p : stage_documents (receipt_stages p) ⊆ hashed_documents p.
Proof. intros v Hv. right. rewrite !elem_of_app. by right; left. Qed.
Lemma member_hashed p k d : k = "execution_replan_request" ∨ k = "execution_attempt" → sub p k = Some d →
  PDict d ∈ hashed_documents p.
Proof.
  intros Hk E. assert (PDict d ∈ member_document p k) as Hd by (unfold member_document; rewrite E; by left).
  unfold hashed_documents. right. rewrite !elem_of_app. destruct Hk as [-> | ->]; auto.
Qed.
Lemma bindings_hashed p : PList (covered_bindings p) ∈ hashed_documents p.
Proof. unfold hashed_documents. right. rewrite !elem_of_app. do 4 right. by left. Qed.

Lemma texts_of_texts l : texts_of (map PStr l) = List.filter (λ s, negb (blank s)) l.
Proof. unfold texts_of. rewrite map_map. cbn. by rewrite map_id. Qed.
Lemma derived_children p : checks p → is_envelope p = true → children_listed p →
  derive_receipt_child_hashes p = Ok (hashed_children (base_of p)).
Proof.
  intros Hc He (l & Hl & Hne). destruct (c_envelope _ Hc He) as [_ Hch].
  apply bind_Ok_inv in Hch as (d & Hd & Hch). apply bind_Ok_inv in Hch as (l' & Hl' & Hch). injection Hch as Hch.
  apply block_nil, negb_false_iff, bool_decide_eq_true in Hch. rewrite Hd. f_equal. rewrite Hch. unfold hashed_children.
  assert (l' = l) as -> by (destruct (stored_children (base_of p)); cbn in Hl, Hl'; congruence).
  rewrite Hl. cbn [default]. destruct l as [|x l]; [|done]. destruct Hne as [Hne|Hs]; [done|].
  by rewrite Hs.
Qed.
Lemma bindings_hash_inj p q h : py_wf (PDict p) = true → py_wf (PDict q) = true →
  bindings_of true p (base_of p) = Ok (h, []) → bindings_of true q (base_of q) = Ok (h, []) →
  jnorm (PList (covered_bindings p)) = jnorm (PList (covered_bindings q)) ∨ receipts_collide p q.
Proof.
  assert (∀ p, py_wf (PDict p) = true → bindings_of true p (base_of p) = Ok (h, []) →
    match covered_bindings p with
    | [] => h = EmptyString
    | l => canonical_json_hash (PList l) = Ok h ∧ py_wf (PList l) = true
    end) as Hone.
  { clear p q. intros p Hp E. unfold bindings_of in E. unfold covered_bindings.
    destruct (has_key _ (base_of p)); [|by injection E].
    apply bind_Ok_inv in E as (h' & Eh & [= -> _]). unfold effect_journal_bindings_hash in Eh.
    pose proof (py_wf_py_get p "effect_journal_bindings" Hp) as Hw.
    destruct (py_get p "effect_journal_bindings") as [| | | | |l|l| |]; cbn in Eh |- *; try congruence; by destruct l; [congruence|]. }
  intros Hp Hq Ep%Hone Eq%Hone; try done.
  destruct (covered_bindings p) as [|x l] eqn:Ebp, (covered_bindings q) as [|y m] eqn:Ebq.
  - by left.
  - subst h. destruct Eq as [Eq _]. by apply canonical_json_hash_hex in Eq.
  - subst h. destruct Ep as [Ep _]. by apply canonical_json_hash_hex in Ep.
  - destruct Ep as [Ep Hwp], Eq as [Eq Hwq].
    destruct (canonical_json_hash_inj _ _ _ Hwp Hwq Ep Eq) as [Ej|Hc]; [by left|right].
    eapply collide_at; [apply bindings_hashed..|]. by rewrite Ebp, Ebq.
Qed.
Lemma replan_hash_inj p q : checks p → checks q → py_wf (PDict p) = true → py_wf (PDict q) = true →
  txt (base_of p) "execution_replan_request_hash" = txt (base_of q) "execution_replan_request_hash" →
  document (sub p "execution_replan_request") = document (sub q "execution_replan_request") ∨ receipts_collide p q.
Proof.
  intros Hp Hq Hwp Hwq E.
  assert (∀ p, checks p → match sub p "execution_replan_request" with
    | Some r => canonical_json_hash (PDict r) = Ok (stxt (base_of p) "execution_replan_request_hash")
    | None => stxt (base_of p) "execution_replan_request_hash" = EmptyString
    end) as Hone.
  { clear. intros p Hp. pose proof (c_replan _ Hp) as Hr. unfold replan_blockers in Hr.
    destruct (sub p "execution_replan_request") as [r|].
    - destruct (String.eqb (stxt (base_of p) "execution_replan_request_hash") EmptyString); [done|].
      apply bind_Ok_inv in Hr as (h & Hh & [= Hb]). apply block_nil, negb_false_iff, String.eqb_eq in Hb. by rewrite Hb.
    - injection Hr as Hb. apply block_nil, negb_false_iff, String.eqb_eq in Hb. done. }
  apply Hone in Hp, Hq. unfold stxt in *. rewrite E in Hp.
  destruct (sub p "execution_replan_request") as [r|] eqn:Er, (sub q "execution_replan_request") as [r'|] eqn:Er'.
  - destruct (canonical_json_hash_inj _ _ _ (sub_wf _ _ _ Hwp Er) (sub_wf _ _ _ Hwq Er') Hp Hq) as [Ej|Hc];
      [left|right; exact (collide_at _ _ _ _ (member_hashed _ _ _ (or_introl eq_refl) Er) (member_hashed _ _ _ (or_introl eq_refl) Er') Hc)].
    unfold document. cbn [fmap option_fmap option_map]. by rewrite Ej.
  - rewrite Hq in Hp. by apply canonical_json_hash_hex in Hp.
  - rewrite Hp in Hq. by apply canonical_json_hash_hex in Hq.
  - by left.
Qed.
(** The base holds the hash of the root attempt, or none when there is no attempt; an empty
    attempt escapes the check. *)
Lemma attempt_hash_of p : checks p → sub p "execution_attempt" ≠ Some [] →
  match sub p "execution_attempt" with
  | Some a => canonical_json_hash (PDict a) = Ok (txt (base_of p) "execution_attempt_hash")
  | None => stxt (base_of p) "execution_attempt_hash" = EmptyString
  end.
Proof.
  intros Hp Hne. pose proof (c_attempt _ Hp) as Hr. unfold attempt_blockers in Hr.
  apply bind_Ok_inv in Hr as (more & Hm & Hr). injection Hr as Hr. apply app_eq_nil in Hr as [Hcp ->].
  unfold attempts_of in Hm, Hcp. unfold copies_blockers in Hcp. cbn [root_attempt planner_attempt ctx_attempt] in Hm, Hcp.
  destruct (sub p "execution_attempt") as [[|kv a]|]; [done| |].
  - clear Hcp. cbn [or_else] in Hm. apply bind_Ok_inv in Hm as (h & Hh & Hm). apply bind_Ok_inv in Hm as (i & _ & Hm).
    apply bind_Ok_inv in Hm as (id & _ & Hm). injection Hm as Hm. apply app_eq_nil in Hm as [Hm _].
    apply block_nil, negb_false_iff, String.eqb_eq in Hm. by rewrite Hm.
  - clear Hm. destruct (String.eqb_spec (stxt (base_of p) "execution_attempt_hash") EmptyString) as [|Hn]; [done|].
    rewrite andb_false_r in Hcp. cbn [is_missing block app] in Hcp. done.
Qed.
Lemma attempt_hash_inj p q : checks p → checks q → py_wf (PDict p) = true → py_wf (PDict q) = true →
  txt (base_of p) "execution_attempt_hash" = txt (base_of q) "execution_attempt_hash" →
  sub p "execution_attempt" ≠ Some [] → sub q "execution_attempt" ≠ Some [] →
  document (sub p "execution_attempt") = document (sub q "execution_attempt") ∨ receipts_collide p q.
Proof.
  intros Hp Hq Hwp Hwq E Ha%attempt_hash_of Hb%attempt_hash_of; [|done..]. unfold stxt in *. rewrite E in Ha.
  assert (∀ a, canonical_json_hash (PDict a) = Ok (txt (base_of q) "execution_attempt_hash") →
    strip (txt (base_of q) "execution_attempt_hash") ≠ EmptyString) as Hx.
  { intros a Hx%canonical_json_hash_hex. rewrite hex64_strip by done. by apply hex64_nonempty. }
  destruct (sub p "execution_attempt") as [a|] eqn:Ea, (sub q "execution_attempt") as [b|] eqn:Eb.
  - destruct (canonical_json_hash_inj _ _ _ (sub_wf _ _ _ Hwp Ea) (sub_wf _ _ _ Hwq Eb) Ha Hb) as [Ej|Hc];
      [left|right; exact (collide_at _ _ _ _ (member_hashed _ _ _ (or_intror eq_refl) Ea) (member_hashed _ _ _ (or_intror eq_refl) Eb) Hc)].
    unfold document. cbn [fmap option_fmap option_map]. by rewrite Ej.
  - by apply Hx in Ha.
  - by apply Hx in Hb.
  - by left.
Qed.


(** ** Swapping the only stage *)
(** [p] with another verifier stage: the children of the base become a mapping, whose keys
    the envelope check reads and the hash check ignores, and [stage_hash] keeps the old one. *)
Definition swap_verifier (p m : dict) (old new : string) : dict :=
  dict_set "receipt_base"
    (PDict (dict_set "stage_hash" (PStr old) (dict_set "ordered_child_hashes" (PDict [(new, PNone)]) (base_of p))))
    (dict_set "verifier" (PDict m) p).

Lemma stage_of_cases d k n : stage_of d k n = [] ∨ ∃ m, stage_of d k n = [(n, m)].
Proof. unfold stage_of. destruct (py_get d k) as [| | | | | | |[|]|]; eauto. Qed.
(** A receipt whose only stage is the verifier has nothing else to hash. *)
Lemma single_verifier p m : receipt_stages p = [("verifier", m)] →
  stage_of p "local" "local" = [] ∧ stage_of p "online" "online" = [] ∧ stage_of p "learning" "learning" = [] ∧
  match sub p "capability_results" with
  | Some caps => concat (map (λ k, stage_of caps k ("cap:" +:+ k)) (sort_strings (keys caps)))
  | None => []
  end = [].
Proof.
  unfold receipt_stages. cbn [map concat]. rewrite app_nil_r.
  set (caps := match sub p "capability_results" with Some caps => _ | None => [] end).
  assert (∀ m' rest, caps ≠ ("verifier", m') :: rest) as Hcaps.
  { intros m' rest. unfold caps. destruct (sub p "capability_results") as [c|]; [|done].
    induction (sort_strings (keys c)) as [|k l IH]; [done|]. cbn [map concat].
    destruct (stage_of_cases c k ("cap:" +:+ k)) as [-> |[x ->]]; [done|]. intros [=]. }
  destruct (stage_of_cases p "local" "local") as [-> |[x ->]]; [|done].
  destruct (stage_of_cases p "online" "online") as [-> |[x ->]]; [|done].
  destruct (stage_of_cases p "verifier" "verifier") as [-> |[x ->]].
  - destruct (stage_of_cases p "learning" "learning") as [-> |[x ->]]; [|done].
    cbn [app]. intros E. by apply Hcaps in E.
  - cbn [app]. intros [= _ E]. by apply app_eq_nil in E as [-> ->].
Qed.

Section swap.
Context (p m : dict) (old new : string).
Abbreviation p' := (swap_verifier p m old new).
Abbreviation base := (base_of p).
Abbreviation base' := (base_of (swap_verifier p m old new)).

Lemma swap_envelope : is_envelope p' = true.
Proof. unfold is_envelope, swap_verifier. by rewrite py_get_set. Qed.
Lemma swap_base : base' =
  dict_set "stage_hash" (PStr old) (dict_set "ordered_child_hashes" (PDict [(new, PNone)]) base).
Proof. unfold base_of at 1, sub, swap_verifier. by rewrite py_get_set. Qed.
Lemma swap_payload_get k : k ≠ "receipt_base" → k ≠ "verifier" → dict_get k p' = dict_get k p.
Proof. intros. unfold swap_verifier. by rewrite !dict_get_set_ne. Qed.
Lemma swap_base_get k : k ≠ "stage_hash" → k ≠ "ordered_child_hashes" → dict_get k base' = dict_get k base.
Proof. intros. rewrite swap_base. by rewrite !dict_get_set_ne. Qed.
Lemma swap_stages : m ≠ [] → (∃ m0, receipt_stages p = [("verifier", m0)]) →
  receipt_stages p' = [("verifier", m)].
Proof.
  intros Hm [m0 (H1 & H2 & H3 & H4)%single_verifier].
  assert (∀ k, k ≠ "receipt_base" → k ≠ "verifier" → py_get p' k = py_get p k) as Hk.
  { intros k ??. unfold py_get. by rewrite swap_payload_get. }
  assert (∀ k n, k ≠ "receipt_base" → k ≠ "verifier" → stage_of p' k n = stage_of p k n) as Hs.
  { intros k n ??. unfold stage_of. by rewrite Hk. }
  assert (stage_of p' "verifier" "verifier" = [("verifier", m)]) as Hv.
  { unfold stage_of, swap_verifier. rewrite py_get_set_ne, py_get_set by done. by destruct m. }
  unfold receipt_stages. cbn [map concat]. rewrite Hv, !Hs, H1, H2, H3 by done.
  unfold sub in *. rewrite Hk by done. by rewrite H4.
Qed.
Lemma swap_hashed_children h : hashed_children base = [h] → is_hex64 old = true → old = h →
  hashed_children base' = hashed_children base.
Proof.
  intros Hh Hold <-. rewrite Hh. unfold hashed_children, stored_children. rewrite swap_base.
  assert (stxt (dict_set "stage_hash" (PStr old)
    (dict_set "ordered_child_hashes" (PDict [(new, PNone)]) base)) "stage_hash" = old) as ->.
  { unfold stxt, txt, str_or, py_or. rewrite py_get_set.
    assert (truthy (PStr old) = true) as -> by (apply hex64_nonempty in Hold; by destruct old). by apply hex64_strip. }
  rewrite py_get_set_ne, py_get_set by done. cbn -[texts_of].
  rewrite (proj2 (String.eqb_neq _ _)) by by apply hex64_nonempty.
  unfold texts_of. cbn [map List.filter py_str]. by rewrite (proj2 (proj1 (stripped_key_spec old) (hex64_key _ Hold))).
Qed.
Lemma swap_children : derive_receipt_child_hashes p' = Ok [new] → blank new = false → children_blockers p' base' = Ok [].
Proof.
  intros Hd Hb. unfold children_blockers. rewrite Hd. cbn [mbind result_bind]. unfold stored_children. rewrite swap_base.
  rewrite py_get_set_ne, py_get_set by done. cbn -[texts_of bool_decide]. unfold texts_of. cbn [map List.filter py_str]. rewrite Hb.
  cbn [negb]. by rewrite bool_decide_eq_true_2.
Qed.

(** What the validator compares on either side is unchanged, but for the children. *)
Lemma swap_unchanged :
  product_blockers p' base' = product_blockers p base ∧ envelope_blockers p' base' = envelope_blockers p base ∧
  attempt_blockers p' base' = attempt_blockers p base ∧ replan_blockers p' base' = replan_blockers p base ∧
  anchor_blockers base' = anchor_blockers base ∧ claim_blockers base' = claim_blockers base ∧
  bindings_of true p' base' = bindings_of true p base.
Proof.
  pose proof swap_payload_get as Hp. pose proof swap_base_get as Hb. split_and!.
  - unfold product_blockers, REQUIRED_RECEIPT_BASE_FIELDS. cbn [List.filter].
    unfold has_key, stxt, txt, py_get. by rewrite !Hb, !Hp by done.
  - unfold envelope_blockers. cbn [map]. unfold stxt, txt, py_get. by rewrite !Hb, !Hp by done.
  - unfold attempt_blockers, copies_blockers, attempts_of, identity_of_attempt, stxt, txt, sub, py_get.
    by rewrite !Hb, !Hp by done.
  - unfold replan_blockers, stxt, txt, sub, py_get. by rewrite !Hb, !Hp by done.
  - unfold anchor_blockers, anchor_of, stxt, txt, py_get. by rewrite !Hb by done.
  - unfold claim_blockers, txt, sub, py_get. by rewrite !Hb by done.
  - unfold bindings_of, has_key, txt, py_get. by rewrite !Hb, !Hp by done.
Qed.
Lemma swap_hashes : is_envelope p = true → hashed_children base' = hashed_children base →
  hash_blockers true p' base' = hash_blockers true p base.
Proof.
  intros He Hc. pose proof swap_unchanged as (_ & _ & _ & _ & _ & _ & Hbind).
  unfold hash_blockers. rewrite Hbind. unfold lineage_of. rewrite Hc. unfold stxt, txt, sub, py_get.
  by rewrite !swap_base_get by done.
Qed.
Lemma swap_valid : strictly_valid p → is_envelope p = true → hashed_children base' = hashed_children base →
  children_blockers p' base' = Ok [] → strictly_valid p'.
Proof.
  intros [[H1 H2 H3 H4 H5 H6 H7] Hs]%strictly_valid_iff He Hc Hch.
  pose proof swap_unchanged as (E1 & E2 & E3 & E4 & E5 & E6 & _). pose proof (swap_hashes He Hc) as E7.
  apply strictly_valid_iff. split.
  - constructor; rewrite ?E1, ?E3, ?E4, ?E5, ?E6; [done..| |done| |done].
    + intros _. rewrite E2. split; [by apply H4|done].
    + rewrite swap_envelope, E7. by rewrite He in H6.
  - cbv zeta. unfold txt, py_get in *. by rewrite swap_base_get by done.
Qed.
End swap.

(** C35: the hash of a receipt does not bind its only stage.  Take any strictly valid receipt
    that lists its children and whose only stage is the verifier, and put any other stage
    that can be hashed in its place: when the children of the base become a mapping with the
    new stage's hash as its key (which the envelope check reads, while the hash check takes
    lists only and falls back on [stage_hash]) and [stage_hash] the hash of the old stage, the
    receipt is strictly valid again and carries the same receipt hash. *)
Theorem single_stage_unbound p m old l new h h'
    (Hwp : py_wf (PDict p) = true) (Hwn : py_wf (PDict new) = true)
    (Hp : strictly_valid p) (He : is_envelope p = true) (Hl : as_array (stored_children (base_of p)) = Some l)
    (Hst : receipt_stages p = [("verifier", old)]) (Hne : new ≠ [])
    (Hh : hash_stage_payload old "verifier" = Ok h) (Hh' : hash_stage_payload new "verifier" = Ok h')
    (Hm : m = swap_verifier p new h h') :
  strictly_valid m ∧ is_envelope m = true ∧ py_wf (PDict m) = true ∧
  stxt (base_of m) "receipt_hash" = stxt (base_of p) "receipt_hash" ∧ receipt_stages m = [("verifier", new)].
Proof.
  subst m. assert (is_hex64 h = true ∧ is_hex64 h' = true) as [Hx Hx'] by (split; by eapply canonical_json_hash_hex).
  pose proof (proj1 (strictly_valid_iff p) Hp) as [Hc _].
  assert (hashed_children (base_of p) = [h]) as Hch.
  { destruct (c_envelope _ Hc He) as [_ Hb]. unfold children_blockers, derive_receipt_child_hashes in Hb.
    rewrite Hst in Hb. cbn [mapM_result fst snd] in Hb. rewrite Hh in Hb. cbn [mbind result_bind] in Hb.
    apply bind_Ok_inv in Hb as (l' & Hl' & Hb). injection Hb as Hb.
    apply block_nil, negb_false_iff, bool_decide_eq_true in Hb.
    assert (l' = l) as -> by (destruct (stored_children (base_of p)); cbn in Hl, Hl'; congruence).
    unfold hashed_children. rewrite Hl. cbn [default]. by destruct l. }
  assert (receipt_stages (swap_verifier p new h h') = [("verifier", new)]) as Hs by (apply swap_stages; eauto).
  split_and!.
  - apply swap_valid; [done..|by eapply swap_hashed_children|].
    apply swap_children; [|by apply stripped_key_spec, hex64_key].
    unfold derive_receipt_child_hashes. rewrite Hs. cbn [mapM_result fst snd]. by rewrite Hh'.
  - apply swap_envelope.
  - unfold swap_verifier. apply py_wf_set; [by apply py_wf_set|]. by repeat apply py_wf_set; try apply base_of_wf.
  - unfold stxt, txt, py_get. by rewrite swap_base_get by done.
  - done.
Qed.
End binding.

(** * Witnesses *)
#[local] Existing Instance Sha256_Digest.
#[local] Existing Instance Dyadic_FloatText.
Module Witness.
Definition result_or {A} (d : A) (m : result A) : A := match m with Ok a => a | Err _ => d end.
(** A base over the given children, and the envelope of a run with the given stages. *)
Definition base (ordered : pyval) (stage_hash : string) (receipt_hash : string) : dict := [
  ("schema", PStr RECEIPT_BASE_SCHEMA); ("schema_version", PStr RECEIPT_BASE_SCHEMA_VERSION); ("task_id", PStr "task-7");
  ("run_anchor_hash", PStr (result_or EmptyString (compute_run_anchor_hash {|
     a_task_id := "task-7"; a_workspace_revision := EmptyString; a_planner_decision_id := EmptyString;
     a_treatment_run_id := EmptyString; a_packet_hash := EmptyString; a_shared_bundle_hash := EmptyString;
     a_selection_authority := "CapabilityPlanner"; a_mainchain_route_version := EmptyString;
     a_route_freeze := false; a_mainchain_entry := false |})));
  ("receipt_hash", PStr receipt_hash); ("parent_receipt_hashes", PList []); ("structured_evidence_refs", PList []);
  ("claim_boundary", PDict []); ("public_claim_allowed", PBool false); ("ordered_child_hashes", ordered);
  ("stage_hash", PStr stage_hash)].
Definition receipt (stages : dict) (b : dict) : dict :=
  [("task_id", PStr "task-7"); ("run_anchor_hash", py_get b "run_anchor_hash"); ("receipt_hash", py_get b "receipt_hash");
   ("receipt_base", PDict b)] ++ stages.
Definition stage (status : string) : dict := [("status", PStr status); ("invoked", PBool true)].
Definition child (status : string) : string := result_or EmptyString (hash_stage_payload (stage status) "verifier").
(** The hash of the run whose verifier failed. *)
Definition failed_hash : string :=
  result_or EmptyString (l ← lineage_of (base (PList [PStr (child "FAILED")]) EmptyString EmptyString)
    (txt (base PNone EmptyString EmptyString) "run_anchor_hash") EmptyString; compute_receipt_hash l).
Definition honest : dict :=
  receipt [("verifier", PDict (stage "FAILED"))] (base (PList [PStr (child "FAILED")]) EmptyString failed_hash).
(** The same receipt with a field no hash covers. *)
Definition annotated : dict := honest ++ [("note", PStr "unhashed")].
(** The same hash over no stage at all. *)
Definition stripped : dict := receipt [] (base (PList []) (child "FAILED") failed_hash).
(** What validation answers. *)
Definition accepted (p : dict) : bool :=
  match validate_receipt_base (Some p) "strict" false with Ok r => ok r | Err _ => false end.
End Witness.

(** The stage can also be left out altogether. *)
Example stripped_valid :
  Witness.accepted Witness.stripped = true ∧ stxt (base_of Witness.stripped) "receipt_hash" = Witness.failed_hash ∧
  receipt_stages Witness.stripped = [].
Proof. split_and!; vm_compute; reflexivity. Qed.
(** A verifier that failed, swapped for one that passed. *)
Definition forged : dict :=
  swap_verifier Witness.honest (Witness.stage "SUCCEEDED") (Witness.child "FAILED") (Witness.child "SUCCEEDED").
Lemma single_stage_unbound_witness :
  map stage_content (receipt_stages Witness.honest) ≠ map stage_content (receipt_stages forged) ∧
  strictly_valid forged ∧ is_envelope forged = true ∧ py_wf (PDict forged) = true ∧
  stxt (base_of forged) "receipt_hash" = stxt (base_of Witness.honest) "receipt_hash" ∧
  receipt_stages forged = [("verifier", Witness.stage "SUCCEEDED")].
Proof.
  assert (strictly_valid Witness.honest) as Hv by (eexists; split; vm_compute; reflexivity).
  split; [discriminate|].
  exact (single_stage_unbound Witness.honest forged (Witness.stage "FAILED") _ (Witness.stage "SUCCEEDED") (Witness.child "FAILED")
    (Witness.child "SUCCEEDED") eq_refl eq_refl Hv eq_refl eq_refl eq_refl ltac:(discriminate)
    ltac:(vm_compute; reflexivity) ltac:(vm_compute; reflexivity) eq_refl).
Defined.
