(* ===== verification/ReceiptAttach.v ===== *)
(** * The receipt base of a run
    ([attach_r3_receipt_base] and the hash resolvers of
    [src/src/nexus_runtime/planning/evidence/receipt_base.py])

    The document a finished run attaches to its receipt: anchor, stage hashes, claim boundary,
    consumption chain and the aggregate hash, in the form the validator of ReceiptBase
    recomputes.  The verifier of evidence bundles and the hash of consumer payloads
    ([planning/services/capability_evidence_bundle.py]) and the clock are parameters. *)
From Stdlib Require Import String.
From S2P Require Import Prelude PyValue Json Digest Contract Instances ReceiptBase.
From S2P Require Replan.
From S2P Require ClaimBoundary.

(** What [verify_capability_evidence_bundle] answers; it never raises. *)
Record verdict : Type := { v_ok : bool; v_blockers : list string; v_expected : pyval; v_bundle_hash : pyval }.
Record bundle_seal : Type := {
  seal_hash : string; seal_verified : bool; seal_status : string; seal_computed : string; seal_blockers : list string;
  seal_expected : string
}.
Record consumer_seal : Type := {
  c_hash : string; c_status : string; c_consumed : bool; c_blockers : list string; c_expected : option string;
  c_bounded : string; c_shared : string
}.
Record artifact_seal : Type := { art_hash : string; art_status : string; art_gate : option bool }.

Section resolvers.
Context `{FloatText} `{Digest}.
Variable verify_capability_evidence_bundle : dict → verdict.
Variable hash_consumer_payloads : list dict → result string.

(** [try: canonical_json_hash(v) except TypeError: d]. *)
Definition hash_or (v : pyval) (d : string) : result string := catch (canonical_json_hash v) TypeError (λ _, Ok d).
Definition resolve_shared_bundle_hash (bundle : option dict) (explicit_hash : string) : result bundle_seal :=
  let explicit := strip explicit_hash in
  match bundle with
  | None | Some [] => Ok {| seal_hash := EmptyString; seal_verified := false; seal_status := "EMPTY";
      seal_computed := EmptyString; seal_blockers := ["bundle_missing_or_empty"]; seal_expected := EmptyString |}
  | Some bundle =>
      computed ← hash_or (PDict (dict_del "bundle_hash" bundle)) EmptyString;
      let v := verify_capability_evidence_bundle bundle in
      let expected := strip (str_or (v_expected v) EmptyString) in
      let claimed := strip (str_or (py_or (v_bundle_hash v) (py_get bundle "bundle_hash")) EmptyString) in
      let fingerprint := orelse computed expected in
      if negb (v_ok v) then
        let l := v_blockers v in
        let l := if negb (String.eqb claimed EmptyString) && negb (String.eqb expected EmptyString) && negb (String.eqb claimed expected)
                 then from_keys (l ++ ["bundle_hash_mismatch"; "tampered_bundle"]) else l in
        let l := if existsb (λ k, has_key k bundle) ["sealed"; "seal_verified"; "verified"; "seal_status"]
                 then from_keys (l ++ ["producer_seal_bool_rejected"]) else l in
        Ok {| seal_hash := EmptyString; seal_verified := false;
              seal_status := (match l with [] => "UNAVAILABLE" | _ => "UNSEALED" end); seal_computed := fingerprint;
              seal_blockers := l; seal_expected := expected |}
      else
        let seal := orelse expected claimed in
        if negb (String.eqb explicit EmptyString) && negb (String.eqb explicit seal) then
          Ok {| seal_hash := EmptyString; seal_verified := false; seal_status := "UNSEALED"; seal_computed := fingerprint;
                seal_blockers := ["explicit_hash_mismatch"; "expected:" +:+ str_take 16 seal]; seal_expected := expected |}
        else
          Ok {| seal_hash := seal; seal_verified := true; seal_status := "VERIFIED"; seal_computed := fingerprint;
                seal_blockers := []; seal_expected := expected |}
  end.

(** [capability_evidence_bundle.entry_prompt_visible]. *)
Definition entry_prompt_visible (entry : dict) : bool :=
  match dict_get "consumer_visibility" entry with None => true | Some v => is_text v "prompt" end.
Definition ID_ONLY_KEYS : list string :=
  ["consumed_evidence_ids"; "contributed_capabilities"; "executed_capabilities"; "evidence_ids"; "evidence_refs"].
(** [v not in (None, "", [], (), {})]. *)
Definition filled (v : pyval) : bool :=
  negb (existsb (py_eq v) [PNone; PStr EmptyString; PList []; PTuple []; PDict []]).
Definition no_hash (status : string) (blockers : list string) (shared : string) : consumer_seal :=
  {| c_hash := EmptyString; c_status := status; c_consumed := false; c_blockers := blockers; c_expected := None;
     c_bounded := EmptyString; c_shared := shared |}.
Definition mismatch (h bounded shared : string) : consumer_seal :=
  {| c_hash := EmptyString; c_status := "UNAVAILABLE"; c_consumed := false;
     c_blockers := ["explicit_consumer_hash_mismatch"]; c_expected := Some h; c_bounded := bounded; c_shared := shared |}.
Definition hashed (status : string) (consumed : bool) (h bounded shared : string) : consumer_seal :=
  {| c_hash := h; c_status := status; c_consumed := consumed; c_blockers := []; c_expected := None; c_bounded := bounded;
     c_shared := shared |}.
(** The last steps of both unsealed branches. *)
Definition settle (explicit h : string) : consumer_seal :=
  if negb (String.eqb explicit EmptyString) && negb (String.eqb explicit h) then mismatch h h EmptyString
  else hashed "CONSUMED" true h h EmptyString.

(** The consumer payloads of the visible entries. *)
Definition payloads_of (entries : pyval) : list dict :=
  match entries with
  | PList l => concat (map (λ e, match e with
      | PDict e =>
          if entry_prompt_visible e then match py_get e "consumer_payload" with PDict ((_ :: _) as cp) => [cp] | _ => [] end else []
      | _ => []
      end) l)
  | _ => []
  end.
Definition resolve_verified (bundle : dict) (explicit : string) (proven : bool) : result consumer_seal :=
  seal ← resolve_shared_bundle_hash (Some bundle) EmptyString;
  if negb (seal_verified seal) then
    Ok (no_hash "UNAVAILABLE" (match seal_blockers seal with [] => ["bundle_not_verified"] | l => l end) EmptyString)
  else
    match payloads_of (py_get bundle "entries") with
    | [] => Ok (no_hash (if proven then "UNAVAILABLE" else "ID_ONLY_NOT_CONSUMED") ["no_consumer_payloads_in_bundle"] (seal_hash seal))
    | payloads =>
        match hash_consumer_payloads payloads with
        | Err e =>
            if exn_is ExceptionC e then
              Ok (no_hash "UNAVAILABLE" [str_take 200 ("hash_consumer_payloads_failed:" +:+ exn_msg e)] (seal_hash seal))
            else Err e
        | Ok recomputed =>
            bounded ← hash_or (PDict [("shared_bundle_hash", PStr (seal_hash seal)); ("consumer_payload_hash", PStr recomputed)]) recomputed;
            Ok (if negb (String.eqb explicit EmptyString) && negb (String.eqb explicit recomputed)
                then mismatch recomputed bounded (seal_hash seal)
                else if negb proven then hashed "PRESENT_NOT_CONSUMED" false recomputed bounded (seal_hash seal)
                else hashed "CONSUMED" true recomputed bounded (seal_hash seal))
        end
    end.
Definition resolve_mapping (payload : dict) (explicit : string) (proven : bool) : result consumer_seal :=
  let ids := List.filter (λ k, has_key k payload) ID_ONLY_KEYS in
  if match payload with [] => false | _ => true end
     && forallb (λ k, text_in k (ID_ONLY_KEYS ++ ["stage"; "used"; "injected"])) (keys payload) then
    let has_ids := existsb (λ k, filled (py_get payload k)) ids in
    Ok (no_hash (if has_ids then "ID_ONLY_NOT_CONSUMED" else "UNAVAILABLE") (block has_ids "id_only_not_consumer_payload") EmptyString)
  else if negb (has_key "consumer_payload" payload) && negb (has_key "consumer_payloads" payload)
     && existsb (λ k, match as_array (py_get payload k) with Some _ => true | None => false end) ID_ONLY_KEYS
     && negb (existsb (λ k, is_mapping (py_get payload k) && truthy (py_get payload k)) ["fields"; "payload"; "bounded_payload"]) then
    Ok (no_hash "ID_ONLY_NOT_CONSUMED" ["id_only_not_consumer_payload"] EmptyString)
  else
    match List.filter (λ kv, filled kv.2 && negb (py_eq kv.2 (PBool false)) && negb (text_in kv.1 ID_ONLY_KEYS)) payload with
    | [] => Ok (no_hash "UNAVAILABLE" [] EmptyString)
    | meaningful =>
        if negb proven then Ok (no_hash "UNAVAILABLE" [] EmptyString)
        else
          match canonical_json_hash (PDict meaningful) with
          | Ok h => Ok (settle explicit h)
          | Err e => if exn_is TypeError e then Ok (no_hash "UNAVAILABLE" ["non_json_payload"] EmptyString) else Err e
          end
    end.
Definition resolve_items (payload : list pyval) (explicit : string) (proven : bool) : result consumer_seal :=
  if match payload with [] => false | _ => true end && forallb is_str payload then
    Ok (no_hash "ID_ONLY_NOT_CONSUMED" ["id_only_not_consumer_payload"] EmptyString)
  else
    match concat (map (λ x, match x with PDict ((_ :: _) as d) => [d] | _ => [] end) payload) with
    | [] => Ok (no_hash "UNAVAILABLE" [] EmptyString)
    | items =>
        if negb proven then Ok (no_hash "UNAVAILABLE" [] EmptyString)
        else
          match catch (hash_consumer_payloads items) ExceptionC (λ _, canonical_json_hash (PList (map PDict items))) with
          | Ok h => Ok (settle explicit h)
          | Err e =>
              if exn_is TypeError e then Ok (no_hash "UNAVAILABLE" ["payload_hash_failed"] EmptyString) else Err e
          end
    end.
Definition resolve_consumer_payload_hash (payload : pyval) (consumed : bool) (verified_bundle : option dict)
    (explicit_hash : string) (used : bool) : result consumer_seal :=
  let explicit := strip explicit_hash in
  match verified_bundle with
  | Some ((_ :: _) as b) => resolve_verified b explicit (used || consumed)
  | _ =>
      match payload with
      | PDict d => resolve_mapping d explicit (consumed || used)
      | PList l | PTuple l => resolve_items l explicit (consumed || used)
      | _ => Ok (no_hash "UNAVAILABLE" [] EmptyString)
      end
  end.
End resolvers.

Section attach.
Context `{FloatText} `{Digest}.
Variable verify_capability_evidence_bundle : dict → verdict.
Variable hash_consumer_payloads : list dict → result string.

Definition FAILED_STATUSES : list string := ["FAIL"; "FAILED"; "ERROR"].
(** [bool(v[k])] where [k] is present. *)
Definition flag (d : dict) (k : string) : option bool := truthy <$> dict_get k d.
(** [v.get(k) is False]. *)
Definition is_false (v : pyval) : bool := match v with PBool b => negb b | _ => false end.
Definition resolve_artifact_hash (artifact_hash applied_artifact_hash : string) (v : dict) : artifact_seal :=
  let explicit := strip (orelse artifact_hash applied_artifact_hash) in
  let status := upper (py_str (py_or (py_or (py_get v "status") (py_get v "verifier_status")) (PStr EmptyString))) in
  let gate_ok := default (text_in status ["PASS"; "PASSED"; "OK"; "VERIFIED"; "SUCCESS"]) (flag v "gate_passed") in
  let v_art := strip (py_str (py_or (py_or (py_or (py_get v "artifact_hash") (py_get v "verifier_artifact_hash"))
                                            (py_get v "verifier_artifact")) (PStr EmptyString))) in
  let empty := match v with [] => true | _ => false end in
  let failed := {| art_hash := EmptyString; art_status := "VERIFIER_FAILED"; art_gate := Some false |} in
  let gate := if empty then None else Some gate_ok in
  let none s := String.eqb s EmptyString in
  if negb (none explicit) && (empty || gate_ok || none status) then
    if text_in status FAILED_STATUSES && none v_art then failed
    else {| art_hash := explicit; art_status := "PRESENT"; art_gate := gate |}
  else if text_in status FAILED_STATUSES || negb empty && is_false (py_get v "gate_passed") then
    if negb (none v_art) && gate_ok then {| art_hash := v_art; art_status := "PRESENT"; art_gate := Some true |} else failed
  else if negb (none v_art) then {| art_hash := v_art; art_status := "PRESENT"; art_gate := Some gate_ok |}
  else {| art_hash := EmptyString; art_status := "UNAVAILABLE"; art_gate := gate |}.

Definition subd (d : dict) (k : string) : dict := default [] (sub d k).
(** [str(a or b or ... or "")]. *)
Definition first_text (l : list pyval) : string := py_str (foldr py_or (PStr EmptyString) l).
Definition list_or (v : pyval) : result (list pyval) := py_tuple (py_or v (PList [])).

(** Identity and route of the run, as the receipt tells them. *)
Definition decision_of (r : dict) : string :=
  let planner := subd r "planner" in
  first_text [py_get r "planner_decision_id"; py_get planner "planner_decision_id"; py_get planner "decision_id"].
Definition route_of (r : dict) : dict := subd (subd r "context_trace") "route".
Definition route_flag (r : dict) (k : string) : bool :=
  truthy (default (default (PBool false) (dict_get k (route_of r))) (dict_get k r)).
Definition run_anchor_of (r : dict) (shared_bundle_hash : string) : run_anchor :=
  let verified := subd r "verified_assist" in let packet := subd verified "packet" in {|
    a_task_id := txt r "task_id"; a_workspace_revision := txt r "workspace_revision"; a_planner_decision_id := decision_of r;
    a_treatment_run_id := first_text [py_get r "treatment_run_id"; py_get packet "treatment_run_id"];
    a_packet_hash := first_text [py_get r "packet_hash"; py_get packet "packet_hash"; py_get verified "packet_hash"];
    a_shared_bundle_hash := shared_bundle_hash;
    a_selection_authority := orelse (first_text [py_get r "selection_authority"; py_get (route_of r) "selection_authority"]) "CapabilityPlanner";
    a_mainchain_route_version := first_text [py_get r "mainchain_route_version"; py_get (route_of r) "mainchain_route_version"; py_get (route_of r) "version"];
    a_route_freeze := route_flag r "route_freeze"; a_mainchain_entry := route_flag r "mainchain_entry" |}.

(** The consumption chain read off the capability results. *)
Definition chain_entry (selected_caps : list string) (name : string) (stage : pyval) : list dict :=
  match stage with
  | PDict stage =>
      [build_consumption_chain_entry name (default (text_in name selected_caps) (flag stage "selected"))
         (truthy (py_get stage "injected")) (truthy (py_get stage "used"))
         (truthy (py_or (py_get stage "evidence_present") (py_get stage "evidence_refs")))
         (truthy (py_get stage "gate_passed")) (truthy (py_get stage "outcome_contributed"))
         (first_text [py_get stage "delegated_to"; py_get stage "consumer"])]
  | _ => []
  end.
Definition chain_of (r : dict) : result (list dict) :=
  l ← list_or (py_get r "selected_capabilities");
  Ok match sub r "capability_results" with
     | Some caps => concat (map (λ name, chain_entry (texts_of l) name (py_get caps name)) (sort_strings (keys caps)))
     | None => []
     end.
Definition project (v : pyval) : dict := claim_boundary_projection (match v with PDict d => Some d | _ => None end).
Definition hash_of_mapping (o : option dict) : result string :=
  match o with Some d => canonical_json_hash (PDict d) | None => Ok EmptyString end.

(** [build_receipt_base_dict], with the arguments [attach_r3_receipt_base] gives it. *)
Definition build_receipt_base_dict (a : run_anchor) (l : lineage) (receipt_hash : string) (parents : list string)
    (source_world source_component : string) (with_nexus_armor : bool) (timestamp : string) : dict := [
  ("schema", PStr RECEIPT_BASE_SCHEMA); ("schema_version", PStr RECEIPT_BASE_SCHEMA_VERSION);
  ("task_id", PStr (a_task_id a)); ("workspace_revision", PStr (a_workspace_revision a));
  ("planner_decision_id", PStr (a_planner_decision_id a)); ("treatment_run_id", PStr (a_treatment_run_id a));
  ("packet_hash", PStr (a_packet_hash a)); ("run_anchor_hash", PStr (l_run_anchor_hash l)); ("receipt_hash", PStr receipt_hash);
  ("parent_receipt_hashes", str_list (List.filter (λ s, negb (blank s)) parents));
  ("shared_bundle_hash", PStr (l_shared_bundle_hash l)); ("consumer_payload_hash", PStr (l_consumer_payload_hash l));
  ("artifact_hash", PStr (l_artifact_hash l)); ("source_candidate_hash", PStr (l_source_candidate_hash l));
  ("applied_candidate_hash", PStr (l_applied_candidate_hash l)); ("execution_attempt_hash", PStr (l_attempt_hash l));
  ("execution_replan_request_hash", PStr (l_replan_request_hash l));
  ("consumption_chain", PList (map PDict (l_consumption_chain l)));
  ("structured_evidence_refs", PList (map PDict (l_evidence_refs l)));
  ("claim_boundary", PDict (claim_boundary_projection (Some (l_claim_boundary l))));
  ("public_claim_allowed", PBool false); ("production_ready", PBool false); ("source_world", PStr source_world);
  ("source_component", PStr source_component); ("execution_topology", PStr EmptyString);
  ("selection_authority", PStr (orelse (a_selection_authority a) "CapabilityPlanner"));
  ("mainchain_entry", PBool (a_mainchain_entry a)); ("mainchain_route_version", PStr (a_mainchain_route_version a));
  ("route_freeze", PBool (a_route_freeze a)); ("with_nexus_armor", PBool with_nexus_armor); ("wall_time_ms", PNone);
  ("model_calls", PNone); ("total_tokens", PNone); ("timestamp", PStr timestamp)].
(** The members set on the base afterwards. *)
Definition base_members (run_anchor : string) (l : lineage) (b : bundle_seal) (c : consumer_seal) (a : artifact_seal) : dict := [
  ("parent_refs", PList [PDict [("type", PStr "run_anchor"); ("hash", PStr run_anchor)]]);
  ("ordered_child_hashes", str_list (l_children l))]
  ++ (if String.eqb (l_bindings_hash l) EmptyString then [] else [("effect_journal_bindings_hash", PStr (l_bindings_hash l))])
  ++ [("shared_bundle_verified", PBool (seal_verified b)); ("shared_bundle_hash_status", PStr (orelse (seal_status b) "UNAVAILABLE"));
      ("computed_bundle_content_hash", PStr (seal_computed b));
      ("consumer_payload_hash_status", PStr (orelse (c_status c) "UNAVAILABLE"));
      ("artifact_hash_status", PStr (orelse (art_status a) "UNAVAILABLE")); ("bounded_input_payload_hash", PStr (c_bounded c))]
  ++ match c_blockers c with [] => [] | l => [("consumer_payload_blockers", str_list l)] end.

(** Everything that goes into the aggregate hash. *)
Definition lineage_of_receipt (r : dict) (stage_hashes : list pyval) (consumption_chain : list dict) (ra : string)
    (b : bundle_seal) : result (lineage * consumer_seal * artifact_seal) :=
  refs ← (match py_get r "evidence_refs" with
          | PList l => Ok l
          | v => if truthy v then py_tuple v else Ok []
          end);
  let structured := legacy_evidence_refs_to_structured refs (txt r "task_id") "unified_runtime.evidence_refs" "shared" in
  children ← (match texts_of stage_hashes with [] => derive_receipt_child_hashes r | l => Ok l end);
  let claim := project (PDict (project (py_get r "claim_boundary"))) in
  consumed ← list_or (py_get r "consumed_evidence_ids");
  contributed ← list_or (py_get r "contributed_capabilities");
  executed ← list_or (py_get r "executed_capabilities");
  let used := truthy (py_get r "consumer_used") || truthy (py_get r "payload_consumed")
              || existsb (λ c, truthy (py_get c "used")) consumption_chain in
  consumer ← resolve_consumer_payload_hash verify_capability_evidence_bundle hash_consumer_payloads
    (PDict [("consumed_evidence_ids", PList consumed); ("contributed_capabilities", PList contributed);
            ("executed_capabilities", PList executed)]) used
    (if seal_verified b then sub r "capability_evidence_bundle" else None) (txt r "consumer_payload_hash") used;
  chain ← (match consumption_chain with [] => chain_of r | l => Ok l end);
  let verifier := subd r "verifier" in
  let art := resolve_artifact_hash (txt r "artifact_hash") (txt r "applied_artifact_hash") verifier in
  let cleared := match verifier with [] => false | _ => true end
    && (is_false (py_get verifier "gate_passed") || text_in (upper (txt verifier "status")) FAILED_STATUSES
        || is_false (py_get verifier "hidden_verifier_passed")) in
  attempt_hash ← hash_of_mapping (sub r "execution_attempt");
  replan_hash ← hash_of_mapping (sub r "execution_replan_request");
  bindings_hash ← effect_journal_bindings_hash (py_get r "effect_journal_bindings");
  Ok ({| l_run_anchor_hash := ra; l_children := children; l_claim_boundary := claim; l_shared_bundle_hash := seal_hash b;
         l_consumer_payload_hash := c_hash consumer; l_artifact_hash := art_hash art;
         l_source_candidate_hash := txt r "source_candidate_hash";
         l_applied_candidate_hash := if cleared then EmptyString else txt r "applied_candidate_hash";
         l_evidence_refs := structured; l_consumption_chain := chain; l_attempt_hash := attempt_hash;
         l_replan_request_hash := replan_hash; l_bindings_hash := bindings_hash |}, consumer, art).
(** The members set on the receipt. *)
Definition with_base (r : dict) (base : dict) (ra rh : string) : dict :=
  let r := dict_set "public_claim_allowed" (PBool false)
    (dict_set "receipt_hash" (PStr rh) (dict_set "run_anchor_hash" (PStr ra) (dict_set "receipt_base" (PDict base) r))) in
  match dict_get "claim_boundary" r with
  | Some (PDict c) => dict_set "claim_boundary" (PDict (dict_set "public_claim_allowed" (PBool false) c)) r
  | _ => r
  end.
Definition attach_r3_receipt_base (receipt : pyval) (stage_hashes : list pyval) (consumption_chain : list dict)
    (now : string) : result dict :=
  match receipt with
  | PDict r =>
      b ← resolve_shared_bundle_hash verify_capability_evidence_bundle (sub r "capability_evidence_bundle") (txt r "shared_bundle_hash");
      let anchor := run_anchor_of r (seal_hash b) in
      ra ← compute_run_anchor_hash anchor;
      '(l, consumer, art) ← lineage_of_receipt r stage_hashes consumption_chain ra b;
      rh ← compute_receipt_hash l;
      Ok (with_base r (build_receipt_base_dict anchor l rh [ra] "A" "unified_runtime" (route_flag r "with_nexus_armor") now
                         ++ base_members ra l b consumer art) ra rh)
  | _ => raise TypeError "R3 receipt must be a dict"
  end.
End attach.

(** * Facts *)
Lemma dict_get_app {A} k (d e : list (string * A)) :
  dict_get k (d ++ e) = match dict_get k d with Some v => Some v | None => dict_get k e end.
Proof. induction d as [|[k' v] d IH]; [done|]. cbn. by destruct (String.eqb k k'). Qed.

Section facts.
Context `{FloatText} `{Digest} (vb : dict → verdict) (hc : list dict → result string).

(** ** The receipt with its base *)
Definition SET : list string := ["receipt_base"; "run_anchor_hash"; "receipt_hash"; "public_claim_allowed"; "claim_boundary"].
Lemma with_base_get r base ra rh k : k ∉ SET → py_get (with_base r base ra rh) k = py_get r k.
Proof.
  unfold SET. rewrite !not_elem_of_cons. intros (H1 & H2 & H3 & H4 & H5 & _). unfold with_base, py_get.
  destruct (dict_get "claim_boundary" _) as [[]|]; rewrite ?dict_get_set_ne by done; done.
Qed.
Lemma with_base_new r base ra rh :
  py_get (with_base r base ra rh) "receipt_base" = PDict base ∧
  py_get (with_base r base ra rh) "run_anchor_hash" = PStr ra ∧ py_get (with_base r base ra rh) "receipt_hash" = PStr rh.
Proof.
  unfold with_base, py_get. destruct (dict_get "claim_boundary" _) as [[]|];
    rewrite ?(dict_get_set_ne _ "claim_boundary"), ?(dict_get_set_ne _ "public_claim_allowed") by done;
    rewrite ?(dict_get_set_eq "receipt_hash"), ?(dict_get_set_ne _ "receipt_hash") by done;
    rewrite ?(dict_get_set_eq "run_anchor_hash"), ?(dict_get_set_ne _ "run_anchor_hash"), ?dict_get_set_eq by done; done.
Qed.
Lemma receipt_stages_get r r' : (∀ k, k ∉ SET → py_get r' k = py_get r k) → receipt_stages r' = receipt_stages r.
Proof.
  intros E. assert (∀ k, bool_decide (k ∉ SET) = true → py_get r' k = py_get r k) as G.
  { intros k Hk%bool_decide_eq_true. by apply E. }
  unfold receipt_stages, stage_of, sub. cbn [map]. by rewrite !G by reflexivity.
Qed.

(** ** Hashes as texts *)
Lemma hex_not_blank h : is_hex64 h = true → blank h = false.
Proof. intros Hh. unfold blank. rewrite hex64_strip by done. by apply String.eqb_neq, hex64_nonempty. Qed.
Lemma texts_of_hexes l : Forall (λ h, is_hex64 h = true) l → texts_of (map PStr l) = l.
Proof.
  intros Hl. rewrite texts_of_texts. induction Hl as [|h l Hh _ IH]; [done|]. cbn. by rewrite hex_not_blank, IH.
Qed.
Lemma derived_hexes r hs : derive_receipt_child_hashes r = Ok hs → Forall (λ h, is_hex64 h = true) hs.
Proof.
  unfold derive_receipt_child_hashes. intros E%mapM_result_Ok_inv. induction E as [|nm h l hs Hh _ IH]; constructor; [|done].
  by eapply canonical_json_hash_hex.
Qed.
Lemma first_text_Some x l : truthy x = true → first_text (x :: l) = py_str x.
Proof. intros Hx. unfold first_text. cbn [foldr]. unfold py_or at 1. by rewrite Hx. Qed.

(** ** Projection *)
Lemma project_twice v : project (PDict (project (PDict (project v)))) = project (PDict (project v)).
Proof.
  unfold project at 1 2 4. cbn [claim_boundary_projection]. rewrite (ClaimBoundary.from_dict_load (project v)).
  by rewrite (proj1 (ClaimBoundary.boundary_roundtrip _)).
Qed.

(** ** The base *)
Definition base_for (a : run_anchor) (l : lineage) (rh : string) (armor : bool) (now : string) (b : bundle_seal)
    (c : consumer_seal) (art : artifact_seal) : dict :=
  build_receipt_base_dict a l rh [l_run_anchor_hash l] "A" "unified_runtime" armor now
    ++ base_members (l_run_anchor_hash l) l b c art.
Lemma base_get_head a l rh armor now b c art k v :
  dict_get k (build_receipt_base_dict a l rh [l_run_anchor_hash l] "A" "unified_runtime" armor now) = Some v →
  dict_get k (base_for a l rh armor now b c art) = Some v.
Proof. intros E. unfold base_for. by rewrite dict_get_app, E. Qed.
Lemma base_get_tail a l rh armor now b c art k :
  dict_get k (build_receipt_base_dict a l rh [l_run_anchor_hash l] "A" "unified_runtime" armor now) = None →
  dict_get k (base_for a l rh armor now b c art) = dict_get k (base_members (l_run_anchor_hash l) l b c art).
Proof. intros E. unfold base_for. by rewrite dict_get_app, E. Qed.
End facts.

Section validation.
Context `{FloatText} `{Digest} (vb : dict → verdict) (hc : list dict → result string).

(** ** What the base says, field by field *)
Section base.
Context (a : run_anchor) (l : lineage) (rh : string) (armor : bool) (now : string) (b : bundle_seal)
  (c : consumer_seal) (art : artifact_seal).
Let base := base_for a l rh armor now b c art.
Lemma base_txt k v :
  dict_get k (build_receipt_base_dict a l rh [l_run_anchor_hash l] "A" "unified_runtime" armor now) = Some (PStr v) →
  txt base k = v.
Proof. intros E. unfold txt, py_get, base. rewrite (base_get_head _ _ _ _ _ _ _ _ _ _ E). apply str_or_text. Qed.
Lemma base_bindings_key : dict_get "effect_journal_bindings_hash" base =
  if String.eqb (l_bindings_hash l) EmptyString then None else Some (PStr (l_bindings_hash l)).
Proof.
  unfold base. rewrite base_get_tail by done. unfold base_members.
  destruct (String.eqb (l_bindings_hash l) EmptyString); [|done]. by destruct (c_blockers c).
Qed.
Lemma base_children : stored_children base = str_list (l_children l) ∨ l_children l = [] ∧ stored_children base = PList [].
Proof.
  assert (py_get base "ordered_child_hashes" = str_list (l_children l)) as E1.
  { unfold py_get, base. by rewrite base_get_tail by done. }
  assert (py_get base "child_hashes" = PNone) as E2.
  { unfold py_get, base. rewrite base_get_tail by done. unfold base_members.
    destruct (String.eqb (l_bindings_hash l) EmptyString), (c_blockers c); done. }
  unfold stored_children. rewrite E1, E2. destruct (l_children l) as [|h hs]; [by right|by left].
Qed.
Lemma base_absent k : k ∈ ["stage_hash"; "execution_attempt"] → dict_get k base = None.
Proof.
  intros Hk. unfold base. rewrite !elem_of_cons, elem_of_nil in Hk.
  destruct Hk as [->|[->|[]]]; rewrite base_get_tail by done; unfold base_members;
    destruct (String.eqb (l_bindings_hash l) EmptyString), (c_blockers c); done.
Qed.
End base.
End validation.

Section readback.
Context `{FloatText} `{Digest} (vb : dict → verdict) (hc : list dict → result string).

Lemma mapM_py_dict ds : mapM_result py_dict (map PDict ds) = Ok ds.
Proof. induction ds as [|d ds IH]; [done|]. cbn. by rewrite IH. Qed.
Lemma tuple_or_nil ds : py_tuple (py_or (PList (map PDict ds)) (PTuple [])) = Ok (map PDict ds).
Proof. by destruct ds. Qed.
(** The lineage of an attached base: its claim is projected, its children are hashes. *)
Definition settled_lineage (l : lineage) : Prop :=
  (∃ v, l_claim_boundary l = project (PDict (project v))) ∧ Forall (λ h, is_hex64 h = true) (l_children l).
Lemma lineage_readback a l rh armor now b c art : settled_lineage l → is_hex64 (l_run_anchor_hash l) = true →
  lineage_of (base_for a l rh armor now b c art) (l_run_anchor_hash l) (l_bindings_hash l) = Ok l.
Proof.
  intros [[v Hclaim] Hhex] Hra. unfold lineage_of.
  assert (py_get (base_for a l rh armor now b c art) "structured_evidence_refs" = PList (map PDict (l_evidence_refs l))) as ->
    by (unfold py_get; by erewrite base_get_head by done).
  assert (py_get (base_for a l rh armor now b c art) "consumption_chain" = PList (map PDict (l_consumption_chain l))) as ->
    by (unfold py_get; by erewrite base_get_head by done).
  rewrite !tuple_or_nil. cbn [mbind result_bind]. rewrite !mapM_py_dict. cbn [mbind result_bind].
  assert (hashed_children (base_for a l rh armor now b c art) = l_children l) as ->.
  { unfold hashed_children. destruct (base_children a l rh armor now b c art) as [->|[-> ->]].
    - unfold str_list. cbn [as_array default]. cbv [Datatypes.id].
      destruct (l_children l) as [|h hs] eqn:E; [|exact (texts_of_hexes (h :: hs) Hhex)].
      assert (stxt (base_for a l rh armor now b c art) "stage_hash" = EmptyString) as ->; [|done].
      unfold stxt, txt, py_get. by rewrite base_absent by (by left).
    - cbn [as_array default]. assert (stxt (base_for a l rh armor now b c art) "stage_hash" = EmptyString) as ->; [|done].
      unfold stxt, txt, py_get. by rewrite base_absent by (by left). }
  assert (claim_boundary_projection (match sub (base_for a l rh armor now b c art) "claim_boundary" with Some [] => None | x => x end)
    = l_claim_boundary l) as ->.
  { unfold sub, py_get. erewrite base_get_head by done. cbn [default]. cbv [Datatypes.id].
    change (project (PDict (project (PDict (l_claim_boundary l)))) = l_claim_boundary l).
    rewrite Hclaim. by rewrite !project_twice. }
  f_equal. erewrite !base_txt by done. by destruct l.
Qed.
Lemma anchor_readback r l rh armor now b c art :
  l_shared_bundle_hash l = a_shared_bundle_hash (run_anchor_of r (seal_hash b)) →
  strip (txt r "task_id") = txt r "task_id" →
  anchor_of (base_for (run_anchor_of r (seal_hash b)) l rh armor now b c art) = run_anchor_of r (seal_hash b).
Proof.
  intros Hs Ht. unfold anchor_of, stxt. erewrite !base_txt by done. rewrite Hs.
  set (a := run_anchor_of r (seal_hash b)).
  assert (a_task_id a = txt r "task_id") as Ea by done. rewrite Ea, Ht, <- Ea.
  assert (a_selection_authority a ≠ EmptyString) as Hne by (by apply orelse_nonempty).
  rewrite !(orelse_id _ "CapabilityPlanner" Hne).
  erewrite !base_get_head by done. by destruct a as [].
Qed.
End readback.

Section attached.
Context `{FloatText} `{Digest} (vb : dict → verdict) (hc : list dict → result string).

(** ** What makes a receipt attachable *)
Definition ids_of (r : dict) : dict := [
  ("task_id", PStr (txt r "task_id")); ("workspace_revision", PStr (txt r "workspace_revision"));
  ("planner_decision_id", PStr (decision_of r))].
(** No execution attempt, or three copies of one with the id its fields give. *)
Definition coherent_attempts (r : dict) : Prop :=
  let t := attempts_of r in
  match root_attempt t with
  | None => planner_attempt t = None ∧ ctx_attempt t = None
  | Some a => a ≠ [] ∧ ∃ b c i, planner_attempt t = Some b ∧ ctx_attempt t = Some c ∧ dict_eq a b = true ∧ dict_eq a c = true ∧
      identity_of_attempt a (ids_of r) = Ok i ∧ build_execution_attempt_id i = Ok (txt a "attempt_id")
  end.
Record attachable (r : dict) : Prop := {
  t_wf : py_wf (PDict r) = true; t_stripped : strip (txt r "task_id") = txt r "task_id";
  t_nonempty : txt r "task_id" ≠ EmptyString; t_decision : stxt r "planner_decision_id" = strip (decision_of r);
  t_refs : py_get r "evidence_refs" = PNone ∨ ∃ l, as_array (py_get r "evidence_refs") = Some l ∧ forallb is_str l = true;
  t_attempts : coherent_attempts r
}.

(** ** What the attachment computes *)
Lemma lineage_of_receipt_Ok r chain ra b l consumer art :
  py_wf (PDict r) = true → Forall (λ d, py_wf (PDict d) = true) chain →
  lineage_of_receipt vb hc r [] chain ra b = Ok (l, consumer, art) →
  lineage_wf l ∧ settled_lineage l ∧ l_run_anchor_hash l = ra ∧ l_shared_bundle_hash l = seal_hash b ∧
  derive_receipt_child_hashes r = Ok (l_children l) ∧
  hash_of_mapping (sub r "execution_attempt") = Ok (l_attempt_hash l) ∧
  hash_of_mapping (sub r "execution_replan_request") = Ok (l_replan_request_hash l) ∧
  effect_journal_bindings_hash (py_get r "effect_journal_bindings") = Ok (l_bindings_hash l).
Proof.
  intros Hwf Hchain E. unfold lineage_of_receipt in E.
  apply bind_Ok_inv in E as (refs & Hrefs & E). apply bind_Ok_inv in E as (children & Hch & E). cbn in Hch.
  apply bind_Ok_inv in E as (consumed & _ & E). apply bind_Ok_inv in E as (contributed & _ & E).
  apply bind_Ok_inv in E as (executed & _ & E). apply bind_Ok_inv in E as (cs & _ & E).
  apply bind_Ok_inv in E as (ch & Hc & E). apply bind_Ok_inv in E as (ah & Hah & E).
  apply bind_Ok_inv in E as (rh & Hrh & E). apply bind_Ok_inv in E as (bh & Hbh & E). injection E as <- _ _.
  split; [|split; [split; [by eexists|exact (derived_hexes _ _ Hch)]|by repeat split]].
  assert (∀ v, py_wf v = true → py_wf (PDict (project v)) = true) as Hproject.
  { intros v Hv. apply claim_projection_wf. intros d Hd. destruct v; try done. by injection Hd as ->. }
  split; [|split]; cbn [l_claim_boundary l_evidence_refs l_consumption_chain].
  - by apply Hproject, Hproject, py_wf_py_get.
  - unfold legacy_evidence_refs_to_structured. apply Forall_map, Forall_true. intros t. reflexivity.
  - destruct chain as [|d chain]; [|injection Hc as <-; exact Hchain]. unfold chain_of in Hc.
    apply bind_Ok_inv in Hc as (sel & _ & [= <-]). destruct (sub r "capability_results") as [caps|]; [|constructor].
    apply Forall_concat, Forall_map, Forall_true. intros name. unfold chain_entry. destruct (py_get caps name); try exact (List.Forall_nil _). constructor; [reflexivity|constructor].
Qed.
Lemma attempts_of_get r r' : (∀ k, k ∉ SET → py_get r' k = py_get r k) → attempts_of r' = attempts_of r.
Proof.
  intros E. assert (∀ k, bool_decide (k ∉ SET) = true → py_get r' k = py_get r k) as G.
  { intros k Hk%bool_decide_eq_true. by apply E. }
  unfold attempts_of, sub. by rewrite !G by reflexivity.
Qed.
Lemma attempt_id_ext a b b' : Forall (λ k, txt b k = txt b' k) ["task_id"; "workspace_revision"; "planner_decision_id"] →
  identity_of_attempt a b = identity_of_attempt a b'.
Proof. rewrite !Forall_cons. intros (E1 & E2 & E3 & _). unfold identity_of_attempt. by rewrite E1, E2, E3. Qed.
Lemma anchor_is_not_receipt a l h : lineage_wf l → compute_run_anchor_hash a = Ok h → compute_receipt_hash l = Ok h →
  colliding [PDict (anchor_payload a); PDict (lineage_payload l)].
Proof.
  intros Hl Ha Hh. destruct (canonical_json_hash_inj _ _ _ (anchor_wf a) (lineage_payload_wf _ Hl) Ha Hh) as [E|Hc]; [|done].
  apply (jnorm_dict_get _ _ "task_id") in E; [|by apply (bool_decide_eq_true_1 _)|apply lineage_keys].
  unfold lineage_payload in E. cbn in E. by destruct (String.eqb (l_bindings_hash l) EmptyString).
Qed.
End attached.

Section strict.
Context `{FloatText} `{Digest}.
(** A receipt with its attached base, given what [lineage_of_receipt_Ok] says. *)
Context (r : dict) (l : lineage) (ra rh : string) (armor : bool) (now : string) (b : bundle_seal) (c : consumer_seal)
  (art : artifact_seal).
Context (Hr : attachable r) (Hl : lineage_wf l) (Hset : settled_lineage l) (Hra : l_run_anchor_hash l = ra)
  (Hb : l_shared_bundle_hash l = seal_hash b) (Hch : derive_receipt_child_hashes r = Ok (l_children l))
  (Hatt : hash_of_mapping (sub r "execution_attempt") = Ok (l_attempt_hash l))
  (Hrep : hash_of_mapping (sub r "execution_replan_request") = Ok (l_replan_request_hash l))
  (Hbind : effect_journal_bindings_hash (py_get r "effect_journal_bindings") = Ok (l_bindings_hash l))
  (Hanchor : compute_run_anchor_hash (run_anchor_of r (seal_hash b)) = Ok ra) (Hhash : compute_receipt_hash l = Ok rh).
Let base := base_for (run_anchor_of r (seal_hash b)) l rh armor now b c art.
Let r' := with_base r base ra rh.

Lemma ra_hex : is_hex64 ra = true.
Proof. by eapply canonical_json_hash_hex. Qed.
Lemma rh_hex : is_hex64 rh = true.
Proof. by eapply canonical_json_hash_hex. Qed.
Lemma get_new k : k ∉ SET → py_get r' k = py_get r k.
Proof. apply with_base_get. Qed.
Lemma base_is : base_of r' = base.
Proof. unfold base_of, sub, r'. by rewrite (proj1 (with_base_new r base ra rh)). Qed.
Lemma envelope_is : is_envelope r' = true.
Proof. unfold is_envelope, r'. by rewrite (proj1 (with_base_new r base ra rh)). Qed.
Lemma base_ra : txt base "run_anchor_hash" = ra.
Proof. unfold base. by erewrite base_txt by done. Qed.
Lemma base_rh : txt base "receipt_hash" = rh.
Proof. unfold base. by erewrite base_txt by done. Qed.
Lemma base_task : txt base "task_id" = txt r "task_id".
Proof. unfold base. by erewrite base_txt by done. Qed.

Lemma strict_product : product_blockers r' base = [].
Proof.
  unfold product_blockers, stxt. rewrite base_ra, base_rh, base_task, (hex64_strip _ ra_hex), (hex64_strip _ rh_hex), (t_stripped _ Hr).
  rewrite (get_new "evidence_refs") by (by apply (bool_decide_eq_true_1 _)).
  rewrite (proj2 (String.eqb_neq _ _) (hex64_nonempty _ ra_hex)), (proj2 (String.eqb_neq _ _) (hex64_nonempty _ rh_hex)),
    (proj2 (String.eqb_neq _ _) (t_nonempty _ Hr)).
  assert (py_get base "parent_refs" = PList [PDict [("type", PStr "run_anchor"); ("hash", PStr (l_run_anchor_hash l))]]) as ->.
  { unfold py_get, base. by rewrite base_get_tail by done. }
  assert (List.filter (λ f, negb (has_key f base)) REQUIRED_RECEIPT_BASE_FIELDS = []) as -> by reflexivity.
  assert (∃ hs, py_get base "parent_receipt_hashes" = str_list hs) as [hs ->].
  { eexists. unfold py_get, base. by erewrite base_get_head by done. }
  destruct (t_refs _ Hr) as [->|(refs & Hrefs & Hstr)]; [reflexivity|].
  destruct (py_get r "evidence_refs"); try done; cbn in Hrefs; injection Hrefs as ->; cbn; by rewrite Hstr.
Qed.
Lemma strict_attempt : attempt_blockers r' base = Ok [].
Proof.
  unfold attempt_blockers. rewrite (attempts_of_get r r' get_new).
  assert (txt base "execution_attempt_hash" = l_attempt_hash l) as Eah by (unfold base; by erewrite base_txt by done).
  pose proof (t_attempts _ Hr) as Hc. unfold coherent_attempts in Hc. unfold copies_blockers, stxt. rewrite Eah.
  change (root_attempt (attempts_of r)) with (sub r "execution_attempt") in *.
  destruct (sub r "execution_attempt") as [a|] eqn:Ea.
  - destruct Hc as (Hne & x & y & i & Ex & Ey & Hx & Hy & Hi & Hid). rewrite Ex, Ey. cbn [is_missing andb block app].
    rewrite Hx, Hy. destruct a as [|kv a]; [by destruct Hne|]. cbn [or_else]. cbn [hash_of_mapping] in Hatt. rewrite Hatt. cbn [mbind result_bind].
    rewrite (attempt_id_ext _ base (ids_of r)), Hi.
    + cbn [mbind result_bind]. rewrite Hid. cbn [mbind result_bind]. by rewrite !String.eqb_refl.
    + unfold base. repeat (apply Forall_cons; split; [erewrite base_txt by done; symmetry; apply str_or_text|]). constructor.
  - destruct Hc as [Ex Ey]. rewrite Ex, Ey. cbn [hash_of_mapping] in Hatt. injection Hatt as Hatt. rewrite <- Hatt.
    cbn [or_else]. assert (sub base "execution_attempt" = None) as ->.
    { unfold sub, py_get, base. rewrite base_absent; [done|]. by right; left. }
    reflexivity.
Qed.
Lemma strict_replan : replan_blockers r' base = Ok [].
Proof.
  unfold replan_blockers, stxt. assert (txt base "execution_replan_request_hash" = l_replan_request_hash l) as ->
    by (unfold base; by erewrite base_txt by done).
  unfold sub. rewrite get_new by (by apply (bool_decide_eq_true_1 _)). fold (sub r "execution_replan_request").
  destruct (sub r "execution_replan_request") as [q|]; cbn [hash_of_mapping] in Hrep.
  - pose proof (canonical_json_hash_hex _ _ Hrep) as Hh. rewrite (hex64_strip _ Hh), (proj2 (String.eqb_neq _ _) (hex64_nonempty _ Hh)), Hrep.
    cbn [mbind result_bind]. by rewrite String.eqb_refl.
  - injection Hrep as Hrep'. by rewrite <- Hrep'.
Qed.
Lemma strict_envelope : envelope_blockers r' base = [] ∧ children_blockers r' base = Ok [].
Proof.
  split.
  - unfold envelope_blockers, stxt. cbn [map concat].
    assert (txt r' "task_id" = txt r "task_id" ∧ txt r' "workspace_revision" = txt r "workspace_revision" ∧
      txt r' "planner_decision_id" = txt r "planner_decision_id") as (-> & -> & ->).
    { unfold txt. by rewrite !get_new by (by apply (bool_decide_eq_true_1 _)). }
    assert (txt r' "run_anchor_hash" = ra ∧ txt r' "receipt_hash" = rh) as [-> ->].
    { destruct (with_base_new r base ra rh) as (_ & E1 & E2). unfold txt, r'. rewrite E1, E2. by rewrite !str_or_text. }
    rewrite base_ra, base_rh, base_task. assert (txt base "workspace_revision" = txt r "workspace_revision") as -> by (unfold base; by erewrite base_txt by done).
    assert (txt base "planner_decision_id" = decision_of r) as -> by (unfold base; by erewrite base_txt by done).
    pose proof (t_decision _ Hr) as Hd. unfold stxt in Hd. rewrite Hd. by rewrite !String.eqb_refl.
  - unfold children_blockers, derive_receipt_child_hashes. rewrite (receipt_stages_get r r' get_new).
    fold (derive_receipt_child_hashes r). rewrite Hch. cbn [mbind result_bind]. destruct Hset as [_ Hhex].
    destruct (base_children (run_anchor_of r (seal_hash b)) l rh armor now b c art) as [E|[El E]]; fold base in E; rewrite E.
    + cbn [py_tuple str_list mbind result_bind]. unfold str_list. cbn [mbind result_bind py_tuple]. rewrite texts_of_hexes by done.
      by rewrite bool_decide_eq_true_2.
    + cbn. by rewrite El.
Qed.
Lemma strict_anchor : anchor_blockers base = Ok [].
Proof.
  unfold anchor_blockers, stxt. rewrite base_ra, base_rh, base_task, (t_stripped _ Hr), (hex64_strip _ ra_hex), (hex64_strip _ rh_hex), ra_hex, rh_hex.
  rewrite (proj2 (String.eqb_neq _ _) (t_nonempty _ Hr)). cbn [negb andb]. unfold base.
  rewrite anchor_readback; [|done|apply (t_stripped _ Hr)]. rewrite Hanchor. cbn [mbind result_bind].
  by rewrite String.eqb_refl, !andb_false_r.
Qed.
Lemma strict_bindings : bindings_of true r' base = Ok (l_bindings_hash l, []).
Proof.
  unfold bindings_of, has_key. pose proof (base_bindings_key (run_anchor_of r (seal_hash b)) l rh armor now b c art) as Ek. fold base in Ek.
  unfold txt, py_get. rewrite Ek. destruct (String.eqb_spec (l_bindings_hash l) EmptyString) as [->|]; [done|].
  fold (py_get r' "effect_journal_bindings"). rewrite get_new by (by apply (bool_decide_eq_true_1 _)). rewrite Hbind.
  cbn [mbind result_bind default]. cbv [Datatypes.id]. by rewrite str_or_text, String.eqb_refl.
Qed.
Lemma strict_lineage : lineage_of base (stxt base "run_anchor_hash") (l_bindings_hash l) = Ok l.
Proof.
  unfold stxt. rewrite base_ra, (hex64_strip _ ra_hex). rewrite <- Hra at 1. unfold base.
  apply lineage_readback; [done|rewrite Hra; apply ra_hex].
Qed.
Lemma strict_hash : hash_blockers true r' base = Ok [].
Proof.
  unfold hash_blockers, stxt. rewrite base_ra, base_rh, (hex64_strip _ ra_hex), (hex64_strip _ rh_hex), ra_hex, rh_hex. cbn [andb].
  rewrite strict_bindings. cbn [mbind result_bind]. rewrite <- Hra at 1. unfold base. rewrite lineage_readback; [|done|rewrite Hra; apply ra_hex].
  cbn [mbind result_bind]. rewrite Hhash. cbn [mbind result_bind]. by rewrite String.eqb_refl.
Qed.
Lemma strict_claims : ra ≠ rh → claim_blockers base = Ok [].
Proof.
  intros Hne. unfold claim_blockers. rewrite base_rh.
  assert (py_get base "parent_receipt_hashes" = str_list [ra]) as ->.
  { unfold py_get, base. erewrite base_get_head by done. cbn [List.filter default]. rewrite Hra, (hex_not_blank _ ra_hex). done. }
  assert (∃ b', py_get base "claim_boundary" = PDict (ClaimBoundary.to_dict b')) as [b' Ecb].
  { eexists. unfold py_get, base. by erewrite base_get_head by done. }
  assert (sub base "claim_boundary" = Some (ClaimBoundary.to_dict b')) as -> by (unfold sub; by rewrite Ecb).
  assert (py_get base "public_claim_allowed" = PBool false) as -> by (unfold py_get, base; by erewrite base_get_head by done).
  rewrite Ecb. change (py_tuple (py_or (str_list [ra]) (PList []))) with (Ok [PStr ra]). cbn -[bool_decide]. rewrite bool_decide_eq_false_2; [by rewrite andb_false_r|].
  intros [E|[]%elem_of_nil]%elem_of_cons. by apply Hne.
Qed.
Lemma strict_schema : let schema := txt base "schema" in schema_blockers Strict schema (_parse_schema_parts schema).1 = [].
Proof. reflexivity. Qed.
Lemma own_documents :
  [PDict (anchor_payload (run_anchor_of r (seal_hash b))); PDict (lineage_payload l)] ⊆ hashed_documents r'.
Proof.
  intros v [->|[->|[]%elem_of_nil]%elem_of_cons]%elem_of_cons.
  - assert (anchor_of (base_of r') = run_anchor_of r (seal_hash b)) as <-.
    { rewrite base_is. unfold base. rewrite anchor_readback; [done|done|apply (t_stripped _ Hr)]. }
    apply list_elem_of_here.
  - apply (lineage_hashed _ (l_bindings_hash l) []); rewrite base_is, ?envelope_is; [apply strict_bindings|apply strict_lineage].
Qed.
Lemma attached_valid : strictly_valid r' ∨ colliding (hashed_documents r').
Proof.
  destruct (String.string_dec ra rh) as [E|Hne].
  { right. rewrite <- E in Hhash. eapply colliding_mono; [apply own_documents|]. by eapply anchor_is_not_receipt. }
  left. apply strictly_valid_iff. rewrite base_is. split; [|apply strict_schema]. constructor; rewrite ?base_is, ?envelope_is.
  - apply strict_product.
  - apply strict_attempt.
  - apply strict_replan.
  - intros _. apply strict_envelope.
  - apply strict_anchor.
  - apply strict_hash.
  - by apply strict_claims.
Qed.
End strict.

(** * Theorems *)
Section theorems.
Context `{FloatText} `{Digest} (vb : dict → verdict) (hc : list dict → result string).

(** C19: what a run attaches, the validator accepts.  Take a receipt whose task id is not empty and
    has no blanks around it, whose top-level decision id is the one of its planner, whose evidence
    references are texts, and which either has no execution attempt in any of the three places or
    the same non-empty one in all three, under the attempt id its fields give.  With its stage
    hashes derived (none given by the caller) it gets a base under which it is strictly valid, and
    nothing else of it changes but the members the base sets -- unless the documents its hashes are
    taken of have a SHA-256 collision among them. *)
Theorem attached_receipt_valid r chain now r' (Hr : attachable r)
    (Hc : Forall (λ d, py_wf (PDict d) = true) chain)
    (E : attach_r3_receipt_base vb hc (PDict r) [] chain now = Ok r') :
  (∀ k, k ∉ SET → py_get r' k = py_get r k) ∧ (strictly_valid r' ∧ is_envelope r' = true ∨ colliding (hashed_documents r')).
Proof.
  apply bind_Ok_inv in E as (b & _ & E). apply bind_Ok_inv in E as (ra & Hra & E).
  apply bind_Ok_inv in E as ([[l consumer] art] & Hl & E). apply bind_Ok_inv in E as (rh & Hrh & [= <-]).
  destruct (lineage_of_receipt_Ok _ _ _ _ _ _ _ _ _ (t_wf _ Hr) Hc Hl) as (Hwf & Hset & Era & Hb & Hch & Hatt & Hrep & Hbind).
  split; [intros k; apply with_base_get|].
  pose proof (attached_valid r l ra rh (route_flag r "with_nexus_armor") now b consumer art Hr Hwf Hset Era Hb Hch Hatt Hrep Hbind Hra Hrh)
    as Hv. unfold base_for in Hv. rewrite Era in Hv. destruct Hv as [Hv|Hcol]; [left|by right]. split; [exact Hv|].
  unfold is_envelope. by rewrite (proj1 (with_base_new _ _ _ _)).
Qed.
End theorems.

(** * Witnesses *)
#[local] Existing Instance Sha256_Digest.
#[local] Existing Instance Dyadic_FloatText.
Module Witness.
Definition no_bundle (d : dict) : verdict := {| v_ok := false; v_blockers := []; v_expected := PNone; v_bundle_hash := PNone |}.
Definition no_payloads (l : list dict) : result string := raise ValueError "no payloads".
Definition verifier : dict := [
  ("invoked", PBool true); ("status", PStr "failed"); ("gate_passed", PBool false); ("evidence_present", PBool true);
  ("evidence_refs", PList [PStr "log:2"; PStr "log:1"])].
Definition request : dict :=
  match Replan.build_execution_replan_request "task-7" "d1" "LIGHT" (PDict verifier) with Ok d => d | Err _ => [] end.
(** A receipt as the runtime assembles it, for the given task and number of the attempt. *)
Definition identity (task : string) (n : Z) : attempt_identity := {|
  t_task_id := task; t_workspace_revision := "r1"; t_attempt_number := n; t_parent_receipt_hash := EmptyString;
  t_source_replan_request_id := EmptyString; t_planner_decision_id := "d1"; t_execution_depth := "LIGHT" |}.
Definition attempt (task : string) (n : Z) : dict := [
  ("task_id", PStr task); ("workspace_revision", PStr "r1"); ("attempt_number", PInt n); ("planner_decision_id", PStr "d1");
  ("execution_depth", PStr "LIGHT");
  ("attempt_id", PStr (match build_execution_attempt_id (identity task n) with Ok t => t | Err _ => EmptyString end))].
Definition raw (task : string) (n : Z) (bindings : list pyval) : dict := [
  ("schema", PStr "nexus.unified_runtime.receipt.v1"); ("task_id", PStr task); ("workspace_revision", PStr "r1");
  ("planner_decision_id", PStr "d1"); ("planner", PDict [("execution_attempt", PDict (attempt task n))]);
  ("context_trace", PDict [("execution_attempt", PDict (attempt task n))]); ("execution_attempt", PDict (attempt task n));
  ("execution_depth", PStr "LIGHT"); ("receipt_complete", PBool false); ("terminal_status", PStr "INCOMPLETE");
  ("verifier", PDict verifier); ("capability_results", PDict [("lint", PDict [("invoked", PBool true)])]);
  ("evidence_refs", PList [PStr "log:1"]); ("execution_replan_request", PDict request);
  ("effect_journal_bindings", PList bindings)].
Definition attached (task : string) (n : Z) (bindings : list pyval) : dict :=
  match attach_r3_receipt_base no_bundle no_payloads (PDict (raw task n bindings)) [] [] "2026-01-01T00:00:00+00:00" with
  | Ok d => d | Err _ => []
  end.
(** A task id with a blank before it: the anchor hashes the id as it is, the validator strips it. *)
Example padded_task_refused :
  match validate_receipt_base (Some (attached " task-7" 1 [])) "strict" false with Ok r => blockers r | Err _ => [] end =
    ["run_anchor_hash_tamper"].
Proof. vm_compute. reflexivity. Qed.
(** A receipt with its attempt emptied in the three places: no hash of it is checked, so the
    receipt stays valid under the same hash. *)
Definition emptied (r : dict) : dict :=
  let inner k := PDict (dict_set "execution_attempt" (PDict []) (default [] (sub r k))) in
  dict_set "context_trace" (inner "context_trace")
    (dict_set "planner" (inner "planner") (dict_set "execution_attempt" (PDict []) r)).
Example emptied_attempt_valid :
  let r := attached "task-7" 2 [] in
  ReceiptBase.Witness.accepted r = true ∧ ReceiptBase.Witness.accepted (emptied r) = true ∧
  stxt (base_of (emptied r)) "receipt_hash" = stxt (base_of r) "receipt_hash".
Proof. split_and!; vm_compute; reflexivity. Qed.
End Witness.
Lemma sample_attachable : attachable (Witness.raw "task-7" 1 [PDict [("effect_id", PStr "e"); ("state", PStr "COMPLETED")]]).
Proof.
  constructor.
  - vm_compute. reflexivity.
  - vm_compute. reflexivity.
  - vm_compute. discriminate.
  - vm_compute. reflexivity.
  - right. eexists. split; vm_compute; reflexivity.
  - split; [discriminate|]. exists (Witness.attempt "task-7" 1), (Witness.attempt "task-7" 1), (Witness.identity "task-7" 1).
    split_and!; vm_compute; reflexivity.
Qed.
Lemma attached_receipt_valid_witness :
  let p := Witness.attached "task-7" 1 [PDict [("effect_id", PStr "e"); ("state", PStr "COMPLETED")]] in
  strictly_valid p ∧ is_envelope p = true ∨ colliding (hashed_documents p).
Proof.
  set (p := Witness.attached _ _ _).
  assert (attach_r3_receipt_base Witness.no_bundle Witness.no_payloads
    (PDict (Witness.raw "task-7" 1 [PDict [("effect_id", PStr "e"); ("state", PStr "COMPLETED")]])) [] [] "2026-01-01T00:00:00+00:00" = Ok p)
    as E by (vm_compute; reflexivity).
  exact (proj2 (attached_receipt_valid _ _ _ [] _ p sample_attachable (List.Forall_nil _) E)).
Defined.
