(* ===== verification/ReplanGate.v ===== *)
(** * The gate of the second attempt ([UnifiedRuntime.run_replan] of
    [src/src/nexus_runtime/kernel/unified_runtime.py])

    [run_replan] takes the receipt of a first attempt and either raises or runs one more
    attempt under an authorization.  The prior receipt is validated by ReceiptBase and the
    effects of the first attempt are looked up in the journal of EffectJournal; the run itself
    ([_run_once]), the planner, the ownership checks of [kernel/receipts.py] and the files of
    receipts belong to the context the runtime is given and are parameters.  The runtime has no consumer ports bound,
    so its arguments reach the gate as the caller gave them. *)
From Stdlib Require Import String.
From S2P Require Import Prelude PyValue Json Digest Contract Instances EffectJournal Replan ReceiptBase.
From S2P Require ReceiptAttach.

Definition RECEIPT_SCHEMA := "nexus.unified_runtime.receipt.v1".

(** The journal object the caller supplies. *)
Record journal_port : Type := { journal_generation : EventWriterGeneration; journal_root : string }.

Section request.
Context {bundle : Type}.

Record UnifiedRuntimeRequest : Type := {
  r_task_id : string; r_workspace_revision : string; route : dict; canonical_planning_bundle : option bundle
}.
Definition with_bundle (r : UnifiedRuntimeRequest) (b : bundle) : UnifiedRuntimeRequest := {|
  r_task_id := r_task_id r; r_workspace_revision := r_workspace_revision r; route := route r;
  canonical_planning_bundle := Some b |}.

(** [kernel/admission.py]. *)
Definition _validate_workforce_route (route : dict) : result unit :=
  let boolean name := raise_if (match dict_get name route with None | Some (PBool _) => false | _ => true end)
    ValueError (name +:+ "_must_be_boolean") in
  _ ← boolean "workforce_admission_enabled"; _ ← boolean "workforce_rebind_authorized";
  raise_if (match dict_get "workforce_rebind_authorized" route with
            | Some (PBool true) =>
                match dict_get "workforce_rebind_reason" route with Some (PStr s) => blank s | _ => true end
            | _ => false
            end) ValueError "workforce_rebind_reason_required".
Definition _workforce_admission_required (r : UnifiedRuntimeRequest) (physical_local physical_online : bool) : bool :=
  match canonical_planning_bundle r with Some _ => true | None => false end
  || match dict_get "workforce_admission_enabled" (route r) with Some (PBool b) => b | _ => false end
  || physical_local || physical_online.
End request.
Arguments UnifiedRuntimeRequest : clear implicits.

Section gate.
Context `{FloatText} `{Digest} {bundle : Type}.
(** The three checks of [kernel/receipts.py], on the path of the receipt. *)
Variable validate_runtime_owner : pyval → result unit.
(** [Path(target).is_file()] and [Path(target).read_text(encoding="utf-8")]. *)
Variable is_file : pyval → result bool.
Variable read_text : pyval → result string.
(** [ctx.replan_canonical_task_bundle] on the canonical context of the request. *)
Variable replan_canonical_task_bundle : UnifiedRuntimeRequest bundle → ExecutionReplanAuthorization → result bundle.

Definition BINDING_KEYS : list string :=
  ["operation_id"; "effect_id"; "request_digest"; "generation"; "state"; "result_digest"; "project_root"].
Definition text_default (d : dict) (k : string) : string := py_str (default (PStr EmptyString) (dict_get k d)).
Definition demand (b : bool) (msg : string) : result unit := raise_if (negb b) ValueError msg.

(** The prior receipt on its own. *)
Definition check_prior (previous : dict) : result unit :=
  res ← validate_receipt_base (Some previous) "strict" false;
  _ ← demand (ok res) ("prior_receipt_base_invalid:" +:+
        str_join "," (match blockers res with [] => ["validation_failed"] | l => l end));
  _ ← demand (is_text (py_get previous "schema") RECEIPT_SCHEMA) "unsupported_prior_receipt_schema";
  _ ← demand (negb (truthy (py_get previous "receipt_complete"))) "prior_receipt_not_incomplete";
  _ ← demand (String.eqb (text_default previous "terminal_status") "INCOMPLETE") "prior_receipt_not_incomplete";
  demand (negb (truthy (py_get previous "public_claim_allowed"))) "prior_receipt_public_claim_not_false".

(** One binding of the receipt against the record of the journal. *)
Definition check_binding (p : journal_port) (binding : pyval) : prog store unit :=
  match binding with
  | PDict b =>
      _ ← lift (demand (is_text (py_get b "state") "COMPLETED") "replan_effect_binding_incomplete");
      record ← EffectJournal.get (journal_generation p) (journal_root p) (py_str (py_get b "effect_id"));
      lift (demand (match record with
                    | Some r => forallb (λ k, py_eq (py_get r k) (py_get b k)) BINDING_KEYS
                    | None => false
                    end) "replan_effect_binding_mismatch")
  | _ => lift (raise ValueError "replan_effect_binding_incomplete")
  end.
Fixpoint check_bindings (p : journal_port) (l : list pyval) : prog store unit :=
  match l with [] => mret () | b :: l => _ ← check_binding p b; check_bindings p l end.
Definition check_effects (previous : dict) (subject : string) (journal : option journal_port) : prog store unit :=
  let bindings := py_get previous "effect_journal_bindings" in
  match journal with
  | None => lift (demand (negb (truthy bindings)) "replan_effect_journal_required")
  | Some p =>
      l ← lift (py_tuple (py_or bindings (PList [])));
      _ ← check_bindings p l;
      unresolved ← unresolved_for_subject (journal_generation p) (journal_root p) subject;
      lift (demand (match unresolved with [] => true | _ => false end) "replan_effect_binding_incomplete")
  end.

(** The runtime's own copy of the prior receipt, where there is one. *)
Definition check_durable (previous : dict) : result unit :=
  let target := py_get previous "receipt_path" in
  let mismatch {A} : result A := raise ValueError "replan_effect_binding_mismatch" in
  if is_none target then Ok ()
  else
    present ← is_file target;
    if negb present then Ok ()
    else
      durable ← catch (catch (t ← read_text target; json_loads t) OSError (λ _, mismatch)) ValueError (λ _, mismatch);
      match durable with
      | PDict durable =>
          let bindings d := py_or (py_get d "effect_journal_bindings") (PList []) in
          demand (py_eq (bindings durable) (bindings previous)
                  && py_eq (py_get durable "receipt_hash") (py_get previous "receipt_hash"))
            "replan_effect_binding_mismatch"
      | _ => mismatch
      end.

(** The request the prior receipt carries, against the request rebuilt from its evidence. *)
Definition check_request (previous : dict) (request : UnifiedRuntimeRequest bundle) (physical_online : bool) : result dict :=
  _ ← demand (String.eqb (text_default previous "task_id") (r_task_id request)) "replan_task_id_mismatch";
  _ ← demand (String.eqb (text_default previous "workspace_revision") (r_workspace_revision request))
        "replan_workspace_revision_mismatch";
  let replan_req := py_get previous "execution_replan_request" in
  _ ← demand (match replan_req with
              | PDict d => is_text (py_get d "schema") "nexus.execution_replan_request.v1" | _ => false end)
        "replan_request_missing";
  let req := match replan_req with PDict d => d | _ => [] end in
  _ ← demand (String.eqb (text_default req "task_id") (r_task_id request)) "replan_task_id_mismatch";
  _ ← demand (String.eqb (text_default req "source_planner_decision_id") (text_default previous "planner_decision_id"))
        "replan_request_integrity_mismatch";
  _ ← demand (truthy (py_get req "verifier_outcome_trusted")) "replan_request_not_trusted";
  _ ← demand (truthy (py_get req "replan_required")) "replan_not_required";
  _ ← demand (negb (truthy (py_get req "manual_review_required"))) "replan_manual_review_required";
  _ ← demand (negb (truthy (py_get req "public_claim_allowed"))) "replan_request_not_trusted";
  _ ← demand (negb (has_key "workforce_admission" previous)
              || _workforce_admission_required request false physical_online
              || is_mapping (py_get previous "canonical_execution")) "replan_workforce_admission_required";
  recomputed ← build_execution_replan_request (r_task_id request) (text_default previous "planner_decision_id")
                 (text_default previous "execution_depth") (py_get previous "verifier");
  _ ← demand (py_eq (PDict (execution_replan_request_authority_projection replan_req))
                    (PDict (execution_replan_request_authority_projection (PDict recomputed))))
        "replan_request_integrity_mismatch";
  Ok req.
(** Depth and number of the next attempt. *)
Definition check_step (previous req : dict) : result unit :=
  let current_depth := str_or (py_get previous "execution_depth") "LIGHT" in
  _ ← demand (negb (String.eqb current_depth EXECUTION_DEPTH_FULL)) "replan_manual_review_required";
  expected ← next_execution_depth_after_failure current_depth;
  _ ← demand (String.eqb (text_default req "requested_execution_depth") expected) "replan_depth_transition_invalid";
  prior ← match py_get previous "execution_attempt" with
          | PDict a => py_int (default (PInt 1) (dict_get "attempt_number" a))
          | _ => Ok 1%Z
          end;
  demand (prior <? 2)%Z "replan_attempt_budget_exhausted".
Definition authorize (previous req : dict) : result ExecutionReplanAuthorization :=
  let base := match py_get previous "receipt_base" with PDict b => b | _ => previous end in
  let canonical k := py_str (py_or (py_or (py_get base k) (py_get previous k)) (PStr EmptyString)) in
  new_authorization {|
    schema := AUTHORIZATION_SCHEMA; task_id := canonical "task_id"; workspace_revision := canonical "workspace_revision";
    source_planner_decision_id := canonical "planner_decision_id";
    source_replan_request_id := text_default req "replan_request_id"; source_receipt_hash := canonical "receipt_hash";
    source_run_anchor_hash := canonical "run_anchor_hash";
    requested_execution_depth := text_default req "requested_execution_depth"; attempt_number := 2; max_attempts := 2 |}.
(** A canonical receipt is replanned under a fresh bundle. *)
Definition rebind (previous : dict) (request : UnifiedRuntimeRequest bundle) (a : ExecutionReplanAuthorization) :
    result (UnifiedRuntimeRequest bundle) :=
  if is_mapping (py_get previous "canonical_execution") then
    _ ← raise_if (match canonical_planning_bundle request with Some _ => true | None => false end) ValueError
          "canonical_replan_requires_fresh_planning_bundle";
    b ← replan_canonical_task_bundle request a; Ok (with_bundle request b)
  else Ok request.

(** Everything before the run: the request and the authorization it runs with. *)
Definition admission (previous : dict) (request : UnifiedRuntimeRequest bundle) (physical_online : bool) (receipt_path : pyval)
    (journal : option journal_port) : prog store (UnifiedRuntimeRequest bundle * ExecutionReplanAuthorization) :=
  _ ← lift (_validate_workforce_route (route request));
  _ ← lift (check_prior previous);
  _ ← lift (validate_runtime_owner (py_or receipt_path (py_get previous "receipt_path")));
  _ ← check_effects previous (r_task_id request) journal;
  _ ← lift (check_durable previous);
  req ← lift (check_request previous request physical_online);
  _ ← lift (check_step previous req);
  a ← lift (authorize previous req);
  request ← lift (rebind previous request a);
  mret (request, a).
(** [_run_once(request, replan_authorization, attempt_number=2, parent_receipt=previous)]. *)
Definition run_replan {A} (_run_once : UnifiedRuntimeRequest bundle → ExecutionReplanAuthorization → Z → dict → prog store A)
    (previous : dict) (request : UnifiedRuntimeRequest bundle) (physical_online : bool) (receipt_path : pyval)
    (journal : option journal_port) : prog store A :=
  '(request, a) ← admission previous request physical_online receipt_path journal;
  _run_once request a 2%Z previous.
End gate.

(** * Facts *)
Section facts.
Context `{FloatText} `{Digest} {bundle : Type}.

Lemma demand_Ok b msg u : demand b msg = Ok u → b = true.
Proof. intros Hb%raise_if_Ok_inv. by apply negb_false_iff. Qed.

(** ** What admission establishes *)
Definition settled (r : effect_record) : Prop := state r = "COMPLETED".
(** Every binding of the prior receipt is a completed effect of the journal, and the journal has
    no other effect of the task. *)
Definition effects_settled (previous : dict) (subj : string) (journal : option journal_port) (s : store) : Prop :=
  let bindings := py_get previous "effect_journal_bindings" in
  match journal with
  | None => truthy bindings = false
  | Some p => ∃ j l,
      load (journal_generation p) (journal_root p) s = (Ok j, s) ∧
      Forall (λ kr, subject kr.2 = subj → settled kr.2) (records j) ∧
      py_tuple (py_or bindings (PList [])) = Ok l ∧
      Forall (λ b, ∃ d r, b = PDict d ∧ dict_get (py_str (py_get d "effect_id")) (records j) = Some r ∧ settled r ∧
        Forall (λ k, py_eq (py_get (record_dict r) k) (py_get d k) = true) BINDING_KEYS) l
  end.
(** One step deeper than the prior receipt, which was not at full depth. *)
Definition deepens (previous : dict) (depth : string) : Prop :=
  let current := str_or (py_get previous "execution_depth") "LIGHT" in
  current = EXECUTION_DEPTH_LIGHT ∧ depth = EXECUTION_DEPTH_STANDARD ∨
  current = EXECUTION_DEPTH_STANDARD ∧ depth = EXECUTION_DEPTH_FULL.
Definition first_attempt (previous : dict) : Prop :=
  ∀ d, py_get previous "execution_attempt" = PDict d →
    ∃ n, py_int (default (PInt 1) (dict_get "attempt_number" d)) = Ok n ∧ (n < 2)%Z.
(** The verifier of the prior receipt failed on trusted evidence, and the request the receipt
    carries is the one this evidence gives. *)
Definition warranted_by_evidence (previous : dict) (request_id : string) : Prop :=
  ∃ st d, read_stage (py_get previous "verifier") = Ok st ∧
    trusted_failure st (is_none (py_get previous "verifier")) ∧
    build_execution_replan_request (text_default previous "task_id") (text_default previous "planner_decision_id")
      (text_default previous "execution_depth") (py_get previous "verifier") = Ok d ∧
    py_get d "replan_request_id" = PStr request_id.

Lemma quiet_load_at p : quiet (load (journal_generation p) (journal_root p)) (λ s j,
  load (journal_generation p) (journal_root p) s = (Ok j, s)).
Proof.
  intros s. destruct (quiet_load (journal_generation p) (journal_root p) s) as [Hs _]. split; [done|].
  intros j Hj. destruct (load _ _ s) as [r s']. cbn in *. by subst.
Qed.
Lemma record_bindings r d : Forall (λ k, py_eq (py_get (record_dict r) k) (py_get d k) = true) BINDING_KEYS →
  is_text (py_get d "state") "COMPLETED" = true → settled r.
Proof.
  unfold BINDING_KEYS. rewrite !Forall_cons. intros (_ & _ & _ & _ & Hs & _) Hd. unfold is_text in Hd.
  destruct (py_get d "state"); try done. cbn in Hd. apply String.eqb_eq in Hd as ->. by apply String.eqb_eq.
Qed.
Lemma quiet_binding p b : quiet (check_binding p b) (λ s _, ∀ j, load (journal_generation p) (journal_root p) s = (Ok j, s) →
  ∃ d r, b = PDict d ∧ dict_get (py_str (py_get d "effect_id")) (records j) = Some r ∧ settled r ∧
    Forall (λ k, py_eq (py_get (record_dict r) k) (py_get d k) = true) BINDING_KEYS).
Proof.
  destruct b as [| | | | | | |d|]; try (intros ?; split; [done|intros ? [=]]). unfold check_binding.
  eapply quiet_bind; [apply quiet_lift|]. intros u1. unfold EffectJournal.get.
  eapply quiet_bind with (Q := λ s o, ∃ j, load (journal_generation p) (journal_root p) s = (Ok j, s) ∧
    o = record_dict <$> dict_get (py_str (py_get d "effect_id")) (records j)).
  { eapply quiet_bind; [apply quiet_lift|]. intros u2. eapply quiet_bind; [apply quiet_load_at|].
    intros j s. split; [done|]. intros o [= <-] Hj _. by exists j. }
  intros o s. split; [done|]. intros u2 Hu (j & Hj & Ho) Hd j' Hj'. rewrite Hj in Hj'. injection Hj' as <-.
  apply demand_Ok in Hd. cbn [lift fst] in Hu. apply demand_Ok in Hu.
  destruct (dict_get _ (records j)) as [r|] eqn:Er; subst o; [|done]. cbn [fmap option_fmap option_map] in Hu. apply Forall_forallb in Hu. exists d, r. split; [done|]. split; [done|]. split; [|done].
  by eapply record_bindings.
Qed.
Lemma quiet_bindings p l : quiet (check_bindings p l) (λ s _, ∀ j, load (journal_generation p) (journal_root p) s = (Ok j, s) →
  Forall (λ b, ∃ d r, b = PDict d ∧ dict_get (py_str (py_get d "effect_id")) (records j) = Some r ∧ settled r ∧
    Forall (λ k, py_eq (py_get (record_dict r) k) (py_get d k) = true) BINDING_KEYS) l).
Proof.
  induction l as [|b l IH]; [intros s; by split|]. cbn [check_bindings].
  eapply quiet_bind; [apply quiet_binding|]. intros u s. destruct (IH s) as [Hs Hq]. split; [done|].
  intros u' Hu Hb j Hj. constructor; [by apply Hb|by eapply Hq].
Qed.
Lemma quiet_effects previous subj journal :
  quiet (check_effects previous subj journal) (λ s _, effects_settled previous subj journal s).
Proof.
  unfold check_effects, effects_settled. destruct journal as [p|].
  2: { intros s. split; [done|]. intros a Ha%demand_Ok. by apply negb_true_iff. }
  eapply quiet_bind; [apply quiet_lift|]. intros l. eapply quiet_bind; [apply quiet_bindings|]. intros u.
  eapply quiet_bind with (Q := λ s rs, ∃ j, load (journal_generation p) (journal_root p) s = (Ok j, s) ∧
    rs = map record_dict (List.filter (λ r, String.eqb (subject r) subj && negb (String.eqb (state r) "COMPLETED"))
                      (map snd (records j)))).
  { unfold unresolved_for_subject. eapply quiet_bind; [apply quiet_lift|]. intros u1.
    eapply quiet_bind; [apply quiet_load_at|]. intros j s. split; [done|]. intros o [= <-] Hj _. by exists j. }
  intros rs s. split; [done|]. intros a Ha (j & Hj & Hrs) Hb Hl. exists j, l. split; [done|]. split; [|by eauto].
  cbn in Ha. apply demand_Ok in Ha. destruct rs; [|done]. symmetry in Hrs. apply map_eq_nil in Hrs.
  apply Forall_forall. intros kr Hkr Hs. unfold settled. destruct (String.eqb_spec (state kr.2) "COMPLETED") as [|Hne]; [done|].
  assert (In kr.2 (List.filter (λ r, String.eqb (subject r) subj && negb (String.eqb (state r) "COMPLETED"))
                      (map snd (records j)))) as Hin; [|by rewrite Hrs in Hin].
  apply filter_In. split; [apply in_map; by apply list_elem_of_In|].
  by rewrite Hs, String.eqb_refl, (proj2 (String.eqb_neq _ _) Hne).
Qed.

(** ** The pure checks *)
Lemma check_request_Ok previous (request : UnifiedRuntimeRequest bundle) physical req :
  check_request previous request physical = Ok req →
  text_default previous "task_id" = r_task_id request ∧
  text_default previous "workspace_revision" = r_workspace_revision request ∧
  ∃ st d id, read_stage (py_get previous "verifier") = Ok st ∧
    trusted_failure st (is_none (py_get previous "verifier")) ∧
    build_execution_replan_request (text_default previous "task_id") (text_default previous "planner_decision_id")
      (text_default previous "execution_depth") (py_get previous "verifier") = Ok d ∧
    py_get d "replan_request_id" = PStr ("sha256:" +:+ id) ∧
    str_or (py_get req "replan_request_id") EmptyString = "sha256:" +:+ id.
Proof.
  intros E. apply bind_Ok_inv in E as (u1 & Ht%demand_Ok%String.eqb_eq & E).
  apply bind_Ok_inv in E as (u2 & Hw%demand_Ok%String.eqb_eq & E).
  apply bind_Ok_inv in E as (u3 & Hm%demand_Ok & E).
  destruct (py_get previous "execution_replan_request") as [| | | | | | |r|]; try done. cbv zeta in E.
  apply bind_Ok_inv in E as (u4 & _ & E). apply bind_Ok_inv in E as (u5 & _ & E). apply bind_Ok_inv in E as (u6 & _ & E).
  apply bind_Ok_inv in E as (u7 & Hreq%demand_Ok & E). apply bind_Ok_inv in E as (u8 & _ & E).
  apply bind_Ok_inv in E as (u9 & _ & E). apply bind_Ok_inv in E as (u10 & _ & E).
  apply bind_Ok_inv in E as (d & Hd & E). apply bind_Ok_inv in E as (u11 & Hp%demand_Ok & [= <-]).
  split; [done|]. split; [done|]. rewrite <- Ht in Hd. pose proof Hd as (st & v & h & Hs & Hv & _ & ->)%build_inv.
  exists st, (request_dict (text_default previous "task_id") (text_default previous "planner_decision_id")
    (depth_of (text_default previous "execution_depth")) v (evidence_refs st) ("sha256:" +:+ h)), h.
  apply projection_eq in Hp. rewrite authority_request in Hp. injection Hp as _ _ _ _ _ _ _ Hid _ Hrp _ _ _ _.
  split; [done|]. split; [|split; [done|split; [done|done]]].
  assert (replan_required v = true) as Hv' by congruence.
  destruct (judge_spec _ _ _ _ Hv) as [[Htf _]|[(_ & _ & Hk & _)|(_ & _ & _ & Hk & _)]]; [done|congruence|congruence].
Qed.
Lemma check_step_Ok previous req : check_step previous req = Ok () →
  deepens previous (text_default req "requested_execution_depth") ∧ first_attempt previous.
Proof.
  unfold check_step, deepens, first_attempt. set (current := str_or _ _). clearbody current. intros E.
  apply bind_Ok_inv in E as (u1 & Hf%demand_Ok & E). apply bind_Ok_inv in E as (e & He & E).
  apply bind_Ok_inv in E as (u2 & Hd%demand_Ok%String.eqb_eq & E).
  apply bind_Ok_inv in E as (n & Hn & Hlt%demand_Ok%Z.ltb_lt). rewrite Hd. split.
  - apply negb_true_iff, String.eqb_neq in Hf. unfold next_execution_depth_after_failure in He.
    destruct (String.eqb_spec current EXECUTION_DEPTH_LIGHT) as [->|]; [injection He as <-; by left|].
    destruct (String.eqb_spec current EXECUTION_DEPTH_STANDARD) as [->|]; [injection He as <-; by right|].
    by destruct (String.eqb_spec current EXECUTION_DEPTH_FULL).
  - intros d Hd'. rewrite Hd' in Hn. by exists n.
Qed.
Lemma new_authorization_Ok a a' : new_authorization a = Ok a' → a' = a ∧
  starts_with "sha256:" (strip (source_replan_request_id a)) = true.
Proof. unfold new_authorization. intros E. run_ok E. split; [done|]. match goal with Hb : _ || _ = false |- _ => apply orb_false_iff in Hb as [Hs _] end. by apply negb_false_iff. Qed.
Lemma authorize_Ok previous req a : authorize previous req = Ok a →
  requested_execution_depth a = text_default req "requested_execution_depth" ∧
  source_replan_request_id a = text_default req "replan_request_id" ∧ attempt_number a = 2%Z ∧ max_attempts a = 2%Z ∧
  starts_with "sha256:" (strip (text_default req "replan_request_id")) = true.
Proof. intros [-> Hs]%new_authorization_Ok. done. Qed.
Lemma text_default_str_or d k id : starts_with "sha256:" (strip (text_default d k)) = true →
  str_or (py_get d k) EmptyString = "sha256:" +:+ id → text_default d k = "sha256:" +:+ id.
Proof.
  unfold text_default, py_get, str_or, py_or. destruct (dict_get k d) as [v|]; cbn [default]; cbv [Datatypes.id]; [|by intros [=]].
  destruct (truthy v) eqn:Ev; [intros _ E; exact E|]. intros _ E; discriminate E.
Qed.
Lemma check_prior_Ok previous : check_prior previous = Ok () →
  strictly_valid previous ∧ truthy (py_get previous "receipt_complete") = false ∧
  text_default previous "terminal_status" = "INCOMPLETE" ∧ truthy (py_get previous "public_claim_allowed") = false.
Proof.
  intros E. apply bind_Ok_inv in E as (res & Hres & E). apply bind_Ok_inv in E as (u1 & Hok%demand_Ok & E).
  apply bind_Ok_inv in E as (u2 & _ & E). apply bind_Ok_inv in E as (u3 & Hc%demand_Ok%negb_true_iff & E).
  apply bind_Ok_inv in E as (u4 & Ht%demand_Ok%String.eqb_eq & Hp%demand_Ok%negb_true_iff). split; [by exists res|done].
Qed.

(** What the gate lets through: the prior receipt is an incomplete one of this task and revision,
    whose verifier failed on trusted evidence at its first attempt, whose effects are settled, and
    the authorization names this evidence and the next depth. *)
Definition warranted (previous : dict) (request : UnifiedRuntimeRequest bundle) (journal : option journal_port) (s : store)
    (a : ExecutionReplanAuthorization) : Prop :=
  strictly_valid previous ∧
  (truthy (py_get previous "receipt_complete") = false ∧ text_default previous "terminal_status" = "INCOMPLETE" ∧
   truthy (py_get previous "public_claim_allowed") = false) ∧
  (text_default previous "task_id" = r_task_id request ∧
   text_default previous "workspace_revision" = r_workspace_revision request) ∧
  warranted_by_evidence previous (source_replan_request_id a) ∧ deepens previous (requested_execution_depth a) ∧
  first_attempt previous ∧ effects_settled previous (r_task_id request) journal s ∧
  attempt_number a = 2%Z ∧ max_attempts a = 2%Z.
(** The request of the run: the caller's, under a fresh planning bundle for a canonical receipt. *)
Definition same_task (previous : dict) (request request' : UnifiedRuntimeRequest bundle) : Prop :=
  if is_mapping (py_get previous "canonical_execution") then
    canonical_planning_bundle request = None ∧ ∃ b, request' = with_bundle request b
  else request' = request.

Context (owner : pyval → result unit) (is_file : pyval → result bool)
  (read_text : pyval → result string) (rebuild : UnifiedRuntimeRequest bundle → ExecutionReplanAuthorization → result bundle).
Lemma rebind_Ok previous request a request' : rebind rebuild previous request a = Ok request' → same_task previous request request'.
Proof.
  unfold rebind, same_task. destruct (is_mapping _); [|by intros [= ->]]. intros E.
  apply bind_Ok_inv in E as (u & Hn%raise_if_Ok_inv & (b & _ & [= <-])%bind_Ok_inv).
  split; [by destruct (canonical_planning_bundle request)|by exists b].
Qed.
Lemma quiet_admission previous request physical path journal :
  quiet (admission owner is_file read_text rebuild previous request physical path journal)
    (λ s ra, warranted previous request journal s ra.2 ∧ same_task previous request ra.1).
Proof.
  unfold admission. eapply quiet_bind; [apply quiet_lift|]. intros u1. eapply quiet_bind; [apply quiet_lift|]. intros u2.
  eapply quiet_bind; [apply quiet_lift|]. intros u3. eapply quiet_bind; [apply quiet_effects|]. intros u4.
  eapply quiet_bind; [apply quiet_lift|]. intros u5. eapply quiet_bind; [apply quiet_lift|]. intros req.
  eapply quiet_bind; [apply quiet_lift|]. intros u6. eapply quiet_bind; [apply quiet_lift|]. intros a.
  eapply quiet_bind; [apply quiet_lift|]. intros request' s. split; [done|].
  intros ra [= <-] Hr Ha Hstep Hreq _ Heff _ Hprior _. cbn [fst snd]. destruct u2, u6.
  apply check_prior_Ok in Hprior as (Hvalid & Hprior). apply check_step_Ok in Hstep as [Hdeep Hfirst].
  apply check_request_Ok in Hreq as (Ht & Hw & st & d & id & Hst & Htf & Hd & Hid & Hs).
  apply authorize_Ok in Ha as (Hdepth & Hrid & Hn & Hm & Hsha). apply rebind_Ok in Hr.
  split; [|done]. split; [done|]. split; [done|]. split; [done|]. split; [|split; [by rewrite Hdepth|done]].
  exists st, d. split_and!; try done. rewrite Hrid, Hid. f_equal. symmetry. by apply text_default_str_or.
Qed.
End facts.

(** * Theorem *)
Section theorem.
Context `{FloatText} `{Digest} {bundle A : Type}.
Context (owner : pyval → result unit) (is_file : pyval → result bool)
  (read_text : pyval → result string) (rebuild : UnifiedRuntimeRequest bundle → ExecutionReplanAuthorization → result bundle)
  (_run_once : UnifiedRuntimeRequest bundle → ExecutionReplanAuthorization → Z → dict → prog store A).

(** C6: whatever the caller supplies, [run_replan] raises with the effect journal untouched, or
    runs exactly attempt 2 under an authorization that is warranted: the prior receipt is a strictly
    valid, incomplete one of this task and revision that reports no attempt beyond the first, its
    verifier failed on trusted evidence, the request id of the authorization is the one this
    evidence gives, and the depth is the next deeper one (so a prior attempt at FULL is never
    replanned).  When a journal is given it holds every effect the receipt names as completed and
    no unfinished effect of the task; when none is given the receipt names no effects, and nothing
    is known of effects it does not name. *)
Theorem replan_warranted previous request physical path journal s :
  (∃ x, run_replan owner is_file read_text rebuild _run_once previous request physical path journal s = (Err x, s)) ∨
  ∃ request' a, warranted previous request journal s a ∧ same_task previous request request' ∧
    run_replan owner is_file read_text rebuild _run_once previous request physical path journal s =
      _run_once request' a 2%Z previous s.
Proof.
  destruct (quiet_admission owner is_file read_text rebuild previous request physical path journal s) as [Hs Hq].
  unfold run_replan, mbind, prog_bind. destruct (admission _ _ _ _ _ _ _ _ _ s) as [[[r a]|x] s']; cbn in Hs, Hq; subst s'.
  - right. exists r, a. by destruct (Hq (r, a) eq_refl).
  - left. by exists x.
Qed.
End theorem.

(** * Witness *)
#[local] Existing Instance Sha256_Digest.
#[local] Existing Instance Dyadic_FloatText.
Module Witness.
(** The first attempt executed the sample effect of EffectJournal to its end. *)
Definition settled_store : store := run_op (sample_execute (Ok sample_result)) empty_store.
Definition record : dict :=
  match (EffectJournal.get sample_gen "/project" sample_effect settled_store).1 with Ok (Some r) => r | _ => [] end.
(** The receipt of that attempt, as a run attaches it. *)
Definition receipt (attempt : Z) : dict := ReceiptAttach.Witness.attached "task-7" attempt [PDict record].
Definition request : UnifiedRuntimeRequest unit :=
  {| r_task_id := "task-7"; r_workspace_revision := "r1"; route := []; canonical_planning_bundle := None |}.
(** The run answers with the depth it was given. *)
Definition run (r : UnifiedRuntimeRequest unit) (a : ExecutionReplanAuthorization) (n : Z) (parent : dict) :
    prog store (string * Z) := mret (requested_execution_depth a, n).
Definition journal : option journal_port := Some {| journal_generation := sample_gen; journal_root := "/project" |}.
Definition owner (path : pyval) : result unit := Ok ().
Definition is_file (path : pyval) : result bool := Ok false.
Definition read_text (path : pyval) : result string := Ok EmptyString.
Definition rebuild (r : UnifiedRuntimeRequest unit) (a : ExecutionReplanAuthorization) : result unit := Ok ().
Abbreviation replan attempt := (run_replan owner is_file read_text rebuild run (receipt attempt) request false PNone journal).
Example replanned : (replan 1 settled_store).1 = Ok ("STANDARD", 2%Z).
Proof. vm_compute. reflexivity. Qed.
Example second_attempt_not_replanned : (replan 2 settled_store).1 = raise ValueError "replan_attempt_budget_exhausted".
Proof. vm_compute. reflexivity. Qed.
(** ... but it is once its attempt is emptied in the receipt, whose hash does not notice. *)
Example emptied_attempt_replanned :
  (run_replan owner is_file read_text rebuild run (ReceiptAttach.Witness.emptied (receipt 2)) request false PNone journal
     settled_store).1 = Ok ("STANDARD", 2%Z).
Proof. vm_compute. reflexivity. Qed.
(** After a crash between dispatch and completion the effect is unresolved. *)
Example unresolved_effect_not_replanned : (replan 1 after_crash).1 = raise ValueError "replan_effect_binding_mismatch".
Proof. vm_compute. reflexivity. Qed.
End Witness.

Lemma replan_warranted_witness : ∃ a,
  warranted (Witness.receipt 1) Witness.request Witness.journal Witness.settled_store a ∧ requested_execution_depth a = "STANDARD".
Proof.
  pose proof Witness.replanned as Hr.
  destruct (replan_warranted Witness.owner Witness.is_file Witness.read_text Witness.rebuild Witness.run (Witness.receipt 1)
    Witness.request false PNone Witness.journal Witness.settled_store) as [(x & Hx)|(r' & a & Hw & _ & He)].
  - exfalso. rewrite Hx in Hr. discriminate Hr.
  - exists a. split; [exact Hw|]. rewrite He in Hr. by injection Hr as ->.
Defined.
