(* ===== verification/ContextStore.v ===== *)
(** * The context store ([src/src/nexus_runtime/context_store/])

    Items and checkpoints of a session, kept in two SQLite tables and handed out through a
    service that checks access, integrity and bounds.

    A database is the rows of its two tables in the order of insertion, and a statement is
    what its text says on them; [BEGIN IMMEDIATE] makes a transaction one step.  Two rows of
    the checkpoints with one time come in the order of the index, the first inserted first.
    The clock and [uuid4().hex] are arguments; arguments have the types their annotations
    say, and payloads decode to characters up to U+00FF. *)
From Stdlib Require Import Ascii String SpecFloat.
From S2P Require Import Prelude PyValue Json Digest Contract Instances SortBy.

Definition WORKING_CONTEXT : string := "WORKING_CONTEXT_NON_AUTHORITATIVE".

(** ** Models *)
Record Scope : Type := {
  project_id : string; repository_id : string; task_id : string; campaign_id : option string; attempt_id : option string
}.
#[export] Instance Scope_eq_dec : EqDecision Scope.
Proof. solve_decision. Defined.
(** [Scope(...)]: the checks of [__post_init__]. *)
Definition new_scope (s : Scope) : result Scope :=
  let required name v := raise_if (blank v) ValueError (name +:+ " is required") in
  let present name v := raise_if (default false (blank <$> v)) ValueError (name +:+ " must be a non-empty string when present") in
  _ ← required "project_id" (project_id s); _ ← required "repository_id" (repository_id s); _ ← required "task_id" (task_id s);
  _ ← present "campaign_id" (campaign_id s); _ ← present "attempt_id" (attempt_id s); Ok s.

Record ingest_args : Type := {
  session_id : string; window_id : string; producer_id : string; role : string; payload : string; source_type : string;
  idempotency_key : string; subject_revision : option string; source_ref : option string; tool_namespace : option string;
  tool_name : option string; retention_class : string
}.
#[export] Instance ingest_args_eq_dec : EqDecision ingest_args.
Proof. solve_decision. Defined.
(** A row of [items]; the columns filled from arguments are [owner] and [args]. *)
Record item : Type := {
  item_id : string; item_scope : string; owner : Scope; args : ingest_args; created_at : spec_float;
  content_digest : string; request_digest : string; record_digest : string; authority_class : string
}.
(** A row of [checkpoints]. *)
Record checkpoint_row : Type := {
  checkpoint_id : string; checkpoint_scope : string; c_session_id : string; c_window_id : string; c_producer_id : string;
  hint : string; item_refs : string; checkpoint_digest : string; c_created_at : spec_float
}.
Record database : Type := { items : list item; checkpoints : list checkpoint_row }.
Definition empty_database : database := {| items := []; checkpoints := [] |}.

Record IngestReceipt : Type := {
  r_item_id : string; r_content_digest : string; r_request_digest : string; r_idempotency_key : string; replayed : bool
}.
Record CheckpointReceipt : Type := { r_checkpoint_id : string; r_checkpoint_digest : string; r_hint : string; r_item_refs : list string }.
Record ResumeBundle : Type := { b_hint : string; b_checkpoint_id : option string; b_item_refs : list pyval }.
Record SearchHit : Type := {
  h_item_id : string; h_session_id : string; h_window_id : string; h_role : string; h_source_type : string;
  h_subject_revision : option string; h_content_digest : string
}.
Record SearchPage : Type := { hits : list SearchHit; next_cursor : option string }.
Record ReadItemResult : Type := {
  i_item_id : string; i_payload : string; i_content_digest : string; i_source_type : string;
  i_subject_revision : option string; freshness : string; byte_start : Z; byte_end : Z
}.

(** [b.decode("utf-8")]. *)
Definition decode (b : string) : result string :=
  let t := utf8_decode b in if String.eqb (utf8 t) b then Ok t else raise UnicodeDecodeError "invalid utf-8".
(** Seconds: [t - ttl] and [t < u]. *)
Definition fsub : spec_float → spec_float → spec_float := SFsub float_prec float_emax.
Definition flt (x y : spec_float) : bool := SFltb x y.

Section store.
Context `{FloatText} `{Digest}.

Definition digest (v : pyval) : result string := json_sha256 true true v.
Definition scope_document (s : Scope) : dict := [
  ("project_id", PStr (project_id s)); ("repository_id", PStr (repository_id s)); ("task_id", PStr (task_id s));
  ("campaign_id", opt_str (campaign_id s)); ("attempt_id", opt_str (attempt_id s))].
Definition scope_digest (s : Scope) : result string := digest (PDict (scope_document s)).

Definition request_document (s : Scope) (sd : string) (a : ingest_args) (text : string) : dict := [
  ("scope", PStr sd); ("project_id", PStr (project_id s)); ("repository_id", PStr (repository_id s));
  ("task_id", PStr (task_id s)); ("campaign_id", opt_str (campaign_id s)); ("attempt_id", opt_str (attempt_id s));
  ("session_id", PStr (session_id a)); ("window_id", PStr (window_id a)); ("producer_id", PStr (producer_id a));
  ("role", PStr (role a)); ("payload", PStr text); ("source_type", PStr (source_type a)); ("source_ref", opt_str (source_ref a));
  ("subject_revision", opt_str (subject_revision a)); ("tool_namespace", opt_str (tool_namespace a));
  ("tool_name", opt_str (tool_name a)); ("retention_class", PStr (retention_class a));
  ("idempotency_key", PStr (idempotency_key a))].
Definition record_document (r : item) : dict := [
  ("item_id", PStr (item_id r)); ("scope_digest", PStr (item_scope r)); ("project_id", PStr (project_id (owner r)));
  ("repository_id", PStr (repository_id (owner r))); ("task_id", PStr (task_id (owner r)));
  ("campaign_id", opt_str (campaign_id (owner r))); ("attempt_id", opt_str (attempt_id (owner r)));
  ("created_at", PFloat (created_at r)); ("idempotency_key", PStr (idempotency_key (args r)));
  ("request_digest", PStr (request_digest r)); ("content_digest", PStr (content_digest r));
  ("authority_class", PStr (authority_class r)); ("retention_class", PStr (retention_class (args r)))].
Definition checkpoint_document (id : string) (at_ : spec_float) (sd session window producer hint : string)
    (refs : list pyval) : dict := [
  ("checkpoint_id", PStr id); ("created_at", PFloat at_); ("scope", PStr sd); ("session_id", PStr session);
  ("window_id", PStr window); ("producer_id", PStr producer); ("hint", PStr hint); ("item_refs", PList refs)].

Definition failure {A} : result A := raise IntegrityError "INTEGRITY_FAILURE".
Definition validate_item_row (s : Scope) (r : item) : result string :=
  let p := payload (args r) in
  let must b := if b : bool then Ok () else failure in
  sd ← scope_digest s;
  _ ← must (String.eqb (item_scope r) sd);
  _ ← must (String.eqb (sha256_hex p) (content_digest r));
  text ← catch (decode p) UnicodeDecodeError (λ _, failure);
  h ← digest (PDict (request_document s sd (args r) text));
  _ ← must (String.eqb h (request_digest r) && String.eqb (authority_class r) WORKING_CONTEXT);
  e ← digest (PDict (record_document r));
  _ ← must (String.eqb e (record_digest r));
  Ok p.

(** [BEGIN IMMEDIATE ... COMMIT]; an [Exception] rolls back and goes on. *)
Definition transaction {A} (m : prog database A) : prog database A := λ db,
  match m db with
  | (Ok a, db') => (Ok a, db')
  | (Err e, db') => (Err e, if exn_is ExceptionC e then db else db')
  end.
Definition unique_failed {A} (column : string) : result A :=
  Err (Exn (OtherException "IntegrityError") ("UNIQUE constraint failed: " +:+ column)).
Definition has_key_in (sd key : string) (r : item) : bool :=
  String.eqb (item_scope r) sd && String.eqb (idempotency_key (args r)) key.
Definition insert_item (r : item) : prog database unit := λ db,
  if existsb (λ q, String.eqb (item_id q) (item_id r)) (items db) then (unique_failed "items.item_id", db)
  else if existsb (has_key_in (item_scope r) (idempotency_key (args r))) (items db) then
    (unique_failed "items.scope_digest, items.idempotency_key", db)
  else (Ok (), {| items := items db ++ [r]; checkpoints := checkpoints db |}).
Definition insert_checkpoint (c : checkpoint_row) : prog database unit := λ db,
  if existsb (λ q, String.eqb (checkpoint_id q) (checkpoint_id c)) (checkpoints db) then
    (unique_failed "checkpoints.checkpoint_id", db)
  else (Ok (), {| items := items db; checkpoints := checkpoints db ++ [c] |}).

Definition in_scope (sd : string) (r : item) : bool := String.eqb (item_scope r) sd.
(** The checks on the arguments of [ingest], and the decoded payload. *)
Definition check_args (a : ingest_args) : result string :=
  let named name v := raise_if (blank v) ValueError (name +:+ " must be non-empty") in
  _ ← raise_if (String.eqb (source_type a) "retrieval_echo") ValueError "retrieval_echo cannot be indexed as a primary observation";
  _ ← raise_if (String.eqb (payload a) EmptyString) ValueError "payload must be non-empty bytes";
  text ← decode (payload a);
  _ ← named "session_id" (session_id a); _ ← named "window_id" (window_id a); _ ← named "producer_id" (producer_id a);
  _ ← named "role" (role a); _ ← named "source_type" (source_type a); _ ← named "idempotency_key" (idempotency_key a);
  Ok text.
Definition new_row (uuid sd : string) (s : Scope) (a : ingest_args) (now : spec_float) (rq rd : string) : item := {|
  item_id := "ctx_" +:+ uuid; item_scope := sd; owner := s; args := a; created_at := now;
  content_digest := sha256_hex (payload a); request_digest := rq; record_digest := rd; authority_class := WORKING_CONTEXT |}.
Definition receipt_of (r : item) (replay : bool) : IngestReceipt := {|
  r_item_id := item_id r; r_content_digest := content_digest r; r_request_digest := request_digest r;
  r_idempotency_key := idempotency_key (args r); replayed := replay |}.
Definition replay_item (s : Scope) (existing : item) (rq : string) : result IngestReceipt :=
  _ ← validate_item_row s existing;
  _ ← raise_if (negb (String.eqb (request_digest existing) rq)) IdempotencyConflict "IDEMPOTENCY_CONFLICT";
  Ok (receipt_of existing true).
Definition add_item (max_items : option Z) (now : spec_float) (uuid : string) (s : Scope) (sd : string) (a : ingest_args)
    (rq : string) : prog database IngestReceipt :=
  db ← get_state;
  let count := Z.of_nat (length (List.filter (in_scope sd) (items db))) in
  _ ← lift (raise_if (match max_items with Some m => (m <=? count)%Z | None => false end) QuotaExceeded "QUOTA_EXCEEDED");
  rd ← lift (digest (PDict (record_document (new_row uuid sd s a now rq EmptyString))));
  let r := new_row uuid sd s a now rq rd in
  _ ← insert_item r;
  mret (receipt_of r false).
Definition store_ingest (max_items : option Z) (now : spec_float) (uuid : string) (s : Scope) (a : ingest_args) :
    prog database IngestReceipt :=
  text ← lift (check_args a);
  sd ← lift (scope_digest s);
  rq ← lift (digest (PDict (request_document s sd a text)));
  transaction (
    db ← get_state;
    match List.find (has_key_in sd (idempotency_key a)) (items db) with
    | Some existing => lift (replay_item s existing rq)
    | None => add_item max_items now uuid s sd a rq
    end).

Definition store_read (s : Scope) (id : string) (db : database) : result (option item) :=
  sd ← scope_digest s; Ok (List.find (λ r, in_scope sd r && String.eqb (item_id r) id) (items db)).
(** Each reference names an item of the scope. *)
Fixpoint check_refs (s : Scope) (refs : list string) (db : database) : result unit :=
  match refs with
  | [] => Ok ()
  | id :: refs =>
      row ← store_read s id db;
      _ ← raise_if (match row with None => true | Some _ => false end) ValueError "ITEM_REF_NOT_FOUND";
      check_refs s refs db
  end.
Definition store_checkpoint (now : spec_float) (uuid : string) (s : Scope) (session window producer text : string)
    (refs : list string) : prog database CheckpointReceipt :=
  _ ← lift (raise_if (4096 <? Z.of_nat (String.length (utf8 text)))%Z ValueError "CHECKPOINT_TOO_LARGE");
  _ ← lift (raise_if (64 <? Z.of_nat (length refs))%Z ValueError "invalid item_refs");
  db ← get_state;
  _ ← lift (check_refs s refs db);
  sd ← lift (scope_digest s);
  let id := "cp_" +:+ uuid in
  h ← lift (digest (PDict (checkpoint_document id now sd session window producer text (map PStr refs))));
  refs_text ← lift (json_dumps true true (str_list refs));
  _ ← transaction (insert_checkpoint {|
    checkpoint_id := id; checkpoint_scope := sd; c_session_id := session; c_window_id := window; c_producer_id := producer;
    hint := utf8 text; item_refs := refs_text; checkpoint_digest := h; c_created_at := now |});
  mret {| r_checkpoint_id := id; r_checkpoint_digest := h; r_hint := text; r_item_refs := refs |}.

(** [ORDER BY created_at DESC LIMIT 1]. *)
Fixpoint latest (l : list checkpoint_row) : option checkpoint_row :=
  match l with
  | [] => None
  | c :: l => match latest l with Some d => Some (if flt (c_created_at c) (c_created_at d) then d else c) | None => Some c end
  end.
Definition latest_checkpoint (s : Scope) (db : database) : result (option checkpoint_row) :=
  sd ← scope_digest s; Ok (latest (List.filter (λ c, String.eqb (checkpoint_scope c) sd) (checkpoints db))).

(** The rows a query matches, in the order of their ids, and the condition [item_id > cursor]. *)
Definition matching (sd : string) (horizon : option spec_float) (query : string) (db : database) : list item :=
  sort_by item_id (List.filter (λ r, in_scope sd r
    && match horizon with Some t => SFleb t (created_at r) | None => true end
    && str_contains (utf8 query) (payload (args r))) (items db)).
Definition after (cursor : option string) (r : item) : bool :=
  match cursor with
  | None | Some EmptyString => true
  | Some c => negb (bool_decide (String.le (item_id r) c))
  end.
Definition store_search (ttl : option spec_float) (now : spec_float) (s : Scope) (query : string) (limit : Z)
    (cursor : option string) (db : database) : result (list item) :=
  sd ← scope_digest s;
  Ok (take (Z.to_nat (limit + 1)) (List.filter (after cursor) (matching sd (fsub now <$> ttl) query db))).
End store.

(** ** The service *)
Class AccessPolicy : Type := { can_read : Scope → string → bool; can_write : Scope → string → bool }.
Definition AllowAllFixturePolicy : AccessPolicy :=
  let some (_ : Scope) (principal : string) := negb (String.eqb principal EmptyString) in
  {| can_read := some; can_write := some |}.
Record ContextContinuityService : Type := {
  authenticated_principal : string; access_policy : AccessPolicy; ttl_seconds : option spec_float; max_items : option Z
}.
(** [ContextContinuityService(root, ...)]; the directory and the schema are created as a side effect. *)
Definition new_service (root principal : string) (policy : option AccessPolicy) (ttl : option spec_float) (quota : option Z) :
    result ContextContinuityService :=
  match policy with
  | None => raise ValueError "trusted access_policy is required"
  | Some p =>
      _ ← raise_if (blank principal) ValueError "authenticated_principal is required";
      _ ← raise_if (blank root) ValueError "explicit store root is required";
      Ok {| authenticated_principal := principal; access_policy := p; ttl_seconds := ttl; max_items := quota |}
  end.

Section service.
Context `{FloatText} `{Digest} (self : ContextContinuityService).

Definition _allowed (s : Scope) (write : bool) : result unit :=
  let ask := if write then @can_write (access_policy self) else @can_read (access_policy self) in
  raise_if (negb (ask s (authenticated_principal self))) PermissionError "SCOPE_DENIED".
Definition ingest (now : spec_float) (uuid : string) (s : Scope) (a : ingest_args) : prog database IngestReceipt :=
  _ ← lift (_allowed s true); store_ingest (max_items self) now uuid s a.
Definition checkpoint (now : spec_float) (uuid : string) (s : Scope) (session window producer hint : string)
    (refs : list string) : prog database CheckpointReceipt :=
  _ ← lift (_allowed s true); store_checkpoint now uuid s session window producer hint refs.
(** [t < time.time() - ttl_seconds]. *)
Definition expired (now t : spec_float) : bool :=
  match ttl_seconds self with Some ttl => flt t (fsub now ttl) | None => false end.
Definition resume (now : spec_float) (s : Scope) (db : database) : result ResumeBundle :=
  _ ← _allowed s false;
  row ← latest_checkpoint s db;
  match row with
  | None => Ok {| b_hint := EmptyString; b_checkpoint_id := None; b_item_refs := [] |}
  | Some c =>
      _ ← raise_if (expired now (c_created_at c)) ValueError "CHECKPOINT_EXPIRED";
      v ← json_loads (item_refs c);
      refs ← py_tuple v;
      sd ← scope_digest s;
      text ← decode (hint c);
      h ← digest (PDict (checkpoint_document (checkpoint_id c) (c_created_at c) sd (c_session_id c) (c_window_id c)
                           (c_producer_id c) text refs));
      _ ← raise_if (negb (String.eqb h (checkpoint_digest c))) IntegrityError "CHECKPOINT_INTEGRITY_FAILURE";
      Ok {| b_hint := text; b_checkpoint_id := Some (checkpoint_id c); b_item_refs := refs |}
  end.
Definition hit_of (r : item) : SearchHit := {|
  h_item_id := item_id r; h_session_id := session_id (args r); h_window_id := window_id (args r); h_role := role (args r);
  h_source_type := source_type (args r); h_subject_revision := subject_revision (args r); h_content_digest := content_digest r |}.
Definition search (now : spec_float) (s : Scope) (query : string) (limit : Z) (cursor : option string) (db : database) :
    result SearchPage :=
  _ ← _allowed s false;
  _ ← raise_if (String.eqb query EmptyString) ValueError "literal query is required";
  _ ← raise_if (negb ((1 <=? limit) && (limit <=? 20)))%Z ValueError "limit must be between 1 and 20";
  rows ← store_search (ttl_seconds self) now s query limit cursor db;
  _ ← mapM_result (validate_item_row s) rows;
  let more := (limit <? Z.of_nat (length rows))%Z in
  let page := map hit_of (take (Z.to_nat limit) rows) in
  Ok {| hits := page; next_cursor := if more then h_item_id <$> last page else None |}.
(** [p[i:j]] for [0 <= i] and [j <= len(p)]. *)
Definition slice (i j : Z) (p : string) : string := str_take (Z.to_nat (j - i)) (str_drop (Z.to_nat i) p).
Definition read_item (now : spec_float) (s : Scope) (id : string) (start : Z) (stop : option Z) (revision : option string)
    (db : database) : result ReadItemResult :=
  _ ← _allowed s false;
  _ ← raise_if ((start <? 0)%Z || match stop with Some e => (e <? start)%Z | None => false end) ValueError "invalid byte range";
  row ← store_read s id db;
  match row with
  | None => raise KeyError "ITEM_NOT_FOUND"
  | Some r =>
      p ← validate_item_row s r;
      _ ← raise_if (expired now (created_at r)) ValueError "ITEM_EXPIRED";
      let len := Z.of_nat (String.length p) in
      let e := default len stop in
      _ ← raise_if (64 * 1024 <? e - start)%Z ValueError "READ_TOO_LARGE";
      _ ← raise_if (len <? e)%Z ValueError "READ_RANGE_OUT_OF_BOUNDS";
      Ok {| i_item_id := id; i_payload := slice start e p; i_content_digest := content_digest r;
            i_source_type := source_type (args r); i_subject_revision := subject_revision (args r);
            freshness := match revision with
                         | None => "UNKNOWN_FRESHNESS"
                         | Some v => if bool_decide (Some v = subject_revision (args r)) then "CURRENT" else "STALE_FOR_EXECUTION"
                         end;
            byte_start := start; byte_end := e |}
  end.
End service.

(** * Facts *)
Section facts.
Context `{FloatText} `{Digest}.

(** ** Digests of documents *)
Definition doc_hash (v : pyval) : string := text_sha256 (json_print true (jnorm v)).
Definition docs_collide (v w : pyval) : Prop :=
  ∃ s t, json_dumps true true v = Ok s ∧ json_dumps true true w = Ok t ∧ collision (utf8 s) (utf8 t).
Lemma digest_of_plain v : json_plain v = true → digest v = Ok (doc_hash v).
Proof.
  intros Hv. unfold digest, json_sha256, json_dumps. rewrite json_check_ok by by rewrite json_plain_jnorm. done.
Qed.
Lemma doc_hash_inj v w : py_wf v = true → py_wf w = true → json_plain v = true → json_plain w = true →
  doc_hash v = doc_hash w → jnorm v = jnorm w ∨ docs_collide v w.
Proof.
  intros Hv Hw Pv Pw E. apply (json_sha256_inj true true _ _ (doc_hash v)); [done..|by apply digest_of_plain|].
  rewrite E. by apply digest_of_plain.
Qed.
Lemma opt_str_plain o : json_plain (opt_str o) = true ∧ py_wf (opt_str o) = true.
Proof. by destruct o. Qed.
Definition texts_only (d : dict) : Prop := Forall (λ kv, (∃ t, kv.2 = PStr t) ∨ ∃ o, kv.2 = opt_str o) d.
Lemma texts_only_plain d : texts_only d → json_plain (PDict d) = true.
Proof. intros Hd. cbn. apply Forall_forallb. eapply Forall_impl; [exact Hd|]. intros [k v] [[t E]|[o E]]; cbn in *; subst v; [done|apply opt_str_plain]. Qed.
Lemma texts_only_wf d : bool_decide (NoDup (keys d)) = true → texts_only d → py_wf (PDict d) = true.
Proof.
  intros Hk Hd. cbn [py_wf]. rewrite Hk. cbn [andb]. apply Forall_forallb. eapply Forall_impl; [exact Hd|].
  intros [k v] [[t E]|[o E]]; cbn in *; subst v; [done|apply opt_str_plain].
Qed.
Ltac texts := repeat (apply Forall_cons; split; [first [left; eexists; reflexivity|right; eexists; reflexivity]|]); apply Forall_nil; done.
Lemma scope_document_texts s : texts_only (scope_document s).
Proof. unfold scope_document. texts. Qed.
Lemma request_document_texts s sd a text : texts_only (request_document s sd a text).
Proof. unfold request_document. texts. Qed.
Lemma record_document_plain r : json_plain (PDict (record_document r)) = true.
Proof. unfold record_document. cbn. destruct (campaign_id (owner r)), (attempt_id (owner r)); done. Qed.

Definition scope_hash (s : Scope) : string := doc_hash (PDict (scope_document s)).
Lemma scope_digest_Ok s : scope_digest s = Ok (scope_hash s).
Proof. apply digest_of_plain, texts_only_plain, scope_document_texts. Qed.
Definition request_hash (s : Scope) (a : ingest_args) (text : string) : string :=
  doc_hash (PDict (request_document s (scope_hash s) a text)).
Lemma request_digest_Ok s a text : digest (PDict (request_document s (scope_hash s) a text)) = Ok (request_hash s a text).
Proof. apply digest_of_plain, texts_only_plain, request_document_texts. Qed.
Definition record_hash (r : item) : string := doc_hash (PDict (record_document r)).
Lemma record_digest_Ok r : digest (PDict (record_document r)) = Ok (record_hash r).
Proof. apply digest_of_plain, record_document_plain. Qed.

Lemma decode_Ok b t : decode b = Ok t ↔ b = utf8 t.
Proof.
  unfold decode. split.
  - destruct (String.eqb_spec (utf8 (utf8_decode b)) b) as [E|]; [|done]. intros [= <-]. done.
  - intros ->. by rewrite utf8_decode_utf8, String.eqb_refl.
Qed.
Lemma scope_document_inj s t : jnorm (PDict (scope_document s)) = jnorm (PDict (scope_document t)) → s = t.
Proof. intros E. unfold scope_document in E. doc_members E. destruct s, t; cbn in *; congruence. Qed.
Lemma request_document_inj s a text t b text' :
  jnorm (PDict (request_document s (scope_hash s) a text)) = jnorm (PDict (request_document t (scope_hash t) b text')) →
  decode (payload a) = Ok text → decode (payload b) = Ok text' → s = t ∧ a = b.
Proof.
  intros E Ha%decode_Ok Hb%decode_Ok. unfold request_document in E. doc_members E.
  destruct s, t, a, b; cbn in *. subst. split; congruence.
Qed.
(** Two scopes with one digest, two requests with one digest. *)
Definition scopes_collide (s t : Scope) : Prop := docs_collide (PDict (scope_document s)) (PDict (scope_document t)).
Lemma scope_hash_inj s t : scope_hash s = scope_hash t → s = t ∨ scopes_collide s t.
Proof.
  intros E. apply doc_hash_inj in E as [E|Hc]; [left; by apply scope_document_inj|by right|..].
  all: first [by apply texts_only_wf, scope_document_texts|by apply texts_only_plain, scope_document_texts].
Qed.
Definition requests_collide (s : Scope) (a b : ingest_args) : Prop := ∃ t u, decode (payload a) = Ok t ∧ decode (payload b) = Ok u ∧
  docs_collide (PDict (request_document s (scope_hash s) a t)) (PDict (request_document s (scope_hash s) b u)).
Lemma request_hash_inj s a b t u : decode (payload a) = Ok t → decode (payload b) = Ok u →
  request_hash s a t = request_hash s b u → a = b ∨ requests_collide s a b.
Proof.
  intros Ha Hb E. apply doc_hash_inj in E as [E|Hc].
  - left. by eapply request_document_inj.
  - right. by exists t, u.
  - apply texts_only_wf; [reflexivity|apply request_document_texts].
  - apply texts_only_wf; [reflexivity|apply request_document_texts].
  - apply texts_only_plain, request_document_texts.
  - apply texts_only_plain, request_document_texts.
Qed.

(** ** Rows *)
(** A row as the store writes it: the digests are those of what it holds. *)
Definition row_ok (r : item) : Prop :=
  item_scope r = scope_hash (owner r) ∧ sha256_hex (payload (args r)) = content_digest r ∧
  (∃ text, decode (payload (args r)) = Ok text ∧ request_digest r = request_hash (owner r) (args r) text) ∧
  authority_class r = WORKING_CONTEXT ∧ record_digest r = record_hash r.
Lemma validate_owner r : row_ok r → validate_item_row (owner r) r = Ok (payload (args r)).
Proof.
  intros (Hs & Hc & (text & Ht & Hr) & Ha & Hd). unfold validate_item_row. rewrite scope_digest_Ok. cbn [mbind result_bind].
  rewrite Hs, String.eqb_refl, Hc, String.eqb_refl, Ht. cbn [mbind result_bind catch].
  rewrite request_digest_Ok. cbn [mbind result_bind]. rewrite Hr, Ha, !String.eqb_refl. cbn [mbind result_bind andb].
  rewrite record_digest_Ok. cbn [mbind result_bind]. by rewrite Hd, String.eqb_refl.
Qed.
Lemma validate_inv s r p : validate_item_row s r = Ok p → p = payload (args r) ∧ item_scope r = scope_hash s.
Proof.
  unfold validate_item_row. rewrite scope_digest_Ok. cbn [mbind result_bind].
  destruct (String.eqb_spec (item_scope r) (scope_hash s)) as [E|]; [|done]. intros Hv. run_ok Hv. done.
Qed.
Lemma new_row_ok uuid s a now text : check_args a = Ok text →
  row_ok (new_row uuid (scope_hash s) s a now (request_hash s a text)
            (record_hash (new_row uuid (scope_hash s) s a now (request_hash s a text) EmptyString))).
Proof.
  intros Hc. unfold check_args in Hc. run_ok Hc. subst. unfold row_ok. cbn. split_and!; try done. eexists. split; [eassumption|done].
Qed.
Lemma check_args_decode a text : check_args a = Ok text → decode (payload a) = Ok text.
Proof. intros Hc. unfold check_args in Hc. run_ok Hc. by subst. Qed.

(** ** Transactions *)
Definition stored_row (uuid : string) (s : Scope) (a : ingest_args) (now : spec_float) (text : string) : item :=
  let rq := request_hash s a text in
  new_row uuid (scope_hash s) s a now rq (record_hash (new_row uuid (scope_hash s) s a now rq EmptyString)).
Definition room (quota : option Z) (sd : string) (db : database) : Prop :=
  ∀ m, quota = Some m → (Z.of_nat (length (List.filter (in_scope sd) (items db))) < m)%Z.
Definition with_item (r : item) (db : database) : database := {| items := items db ++ [r]; checkpoints := checkpoints db |}.
Definition lookup_key (s : Scope) (key : string) (db : database) : option item :=
  List.find (has_key_in (scope_hash s) key) (items db).

(** What an ingest does: replay the item of the key, add one, or fail and change nothing. *)
Inductive ingested (svc : ContextContinuityService) (now : spec_float) (uuid : string) (s : Scope) (a : ingest_args)
    (db : database) : result IngestReceipt → database → Prop :=
| ingest_replayed text r receipt : _allowed svc s true = Ok () → check_args a = Ok text → lookup_key s (idempotency_key a) db = Some r →
    replay_item s r (request_hash s a text) = Ok receipt → ingested svc now uuid s a db (Ok receipt) db
| ingest_added text : _allowed svc s true = Ok () → check_args a = Ok text → lookup_key s (idempotency_key a) db = None →
    room (max_items svc) (scope_hash s) db → stored_row uuid s a now text ∉ items db →
    ("ctx_" +:+ uuid) ∉ map item_id (items db) →
    ingested svc now uuid s a db (Ok (receipt_of (stored_row uuid s a now text) false)) (with_item (stored_row uuid s a now text) db)
| ingest_failed e : ingested svc now uuid s a db (Err e) db.
Lemma existsb_map_neg {A} (f : A → string) x l : existsb (λ q, String.eqb (f q) x) l = false → x ∉ map f l.
Proof.
  intros E (q & <- & Hq)%list_elem_of_In%in_map_iff. apply not_true_iff_false in E. apply E.
  apply existsb_exists. exists q. by rewrite String.eqb_refl.
Qed.
Lemma ingest_spec svc now uuid s a db :
  ingested svc now uuid s a db (ingest svc now uuid s a db).1 (ingest svc now uuid s a db).2.
Proof.
  unfold ingest, store_ingest. run_prog. destruct (_allowed svc s true) as [[]|e] eqn:Hw; [|apply ingest_failed].
  destruct (check_args a) as [text|e] eqn:Hc; [|apply ingest_failed]. rewrite scope_digest_Ok, request_digest_Ok.
  unfold transaction. fold (lookup_key s (idempotency_key a) db). destruct (lookup_key s (idempotency_key a) db) as [r|] eqn:Hk.
  - destruct (replay_item s r (request_hash s a text)) as [receipt|e] eqn:Hr; [by eapply (ingest_replayed svc now uuid s a db text r receipt Hw Hc Hk)|].
    destruct (exn_is ExceptionC e); apply ingest_failed.
  - unfold add_item. run_prog. destruct (raise_if _ QuotaExceeded _) as [[]|e] eqn:Hq.
    2: { destruct (exn_is ExceptionC e); apply ingest_failed. }
    rewrite record_digest_Ok. fold (stored_row uuid s a now text). unfold insert_item.
    match goal with |- context [if ?b then (unique_failed "items.item_id", db) else _] => destruct b eqn:Hid end; [apply ingest_failed|].
    match goal with |- context [if ?b then (unique_failed _, db) else _] => destruct b eqn:Hkey end; [apply ingest_failed|].
    apply existsb_map_neg in Hid. cbn [fst snd]. apply (ingest_added svc now uuid s a db text Hw Hc Hk); [| |exact Hid].
    + intros m E. rewrite E in Hq. apply raise_if_Ok_inv in Hq. lia.
    + intros Hin. apply Hid. by apply list_elem_of_In, (in_map item_id), list_elem_of_In.
Qed.

(** ** Checkpoints *)
Definition refs_exist (s : Scope) (refs : list string) (db : database) : Prop :=
  Forall (λ id, ∃ r, r ∈ items db ∧ item_scope r = scope_hash s ∧ item_id r = id) refs.
Lemma store_read_Ok s id db : store_read s id db = Ok (List.find (λ r, in_scope (scope_hash s) r && String.eqb (item_id r) id) (items db)).
Proof. unfold store_read. by rewrite scope_digest_Ok. Qed.
Lemma find_in_scope s id db r : List.find (λ r, in_scope (scope_hash s) r && String.eqb (item_id r) id) (items db) = Some r →
  r ∈ items db ∧ item_scope r = scope_hash s ∧ item_id r = id.
Proof.
  intros [Hin [Hs%String.eqb_eq Hi%String.eqb_eq]%andb_true_iff]%find_some. split; [by apply list_elem_of_In|done].
Qed.
Lemma check_refs_Ok s refs db : check_refs s refs db = Ok () → refs_exist s refs db.
Proof.
  unfold refs_exist. induction refs as [|id refs IH]; [constructor|]. cbn [check_refs]. rewrite store_read_Ok. cbn [mbind result_bind].
  destruct (List.find _ (items db)) as [r|] eqn:E; [|done]. cbn [raise_if mbind result_bind]. intros Hr. constructor; [|by apply IH].
  apply find_in_scope in E as (? & ? & ?). by exists r.
Qed.
Definition checkpoint_hash (id : string) (now : spec_float) (s : Scope) (session window producer text : string) (refs : list pyval) : string :=
  doc_hash (PDict (checkpoint_document id now (scope_hash s) session window producer text refs)).
Definition stored_checkpoint (uuid : string) (now : spec_float) (s : Scope) (session window producer text : string)
    (refs : list string) : checkpoint_row := {|
  checkpoint_id := "cp_" +:+ uuid; checkpoint_scope := scope_hash s; c_session_id := session; c_window_id := window;
  c_producer_id := producer; hint := utf8 text; item_refs := json_print true (str_list refs);
  checkpoint_digest := checkpoint_hash ("cp_" +:+ uuid) now s session window producer text (map PStr refs); c_created_at := now |}.
Definition with_checkpoint (c : checkpoint_row) (db : database) : database := {| items := items db; checkpoints := checkpoints db ++ [c] |}.
Inductive checkpointed (uuid : string) (now : spec_float) (s : Scope) (session window producer text : string)
    (refs : list string) (db : database) : result CheckpointReceipt → database → Prop :=
| checkpoint_added h : let c := stored_checkpoint uuid now s session window producer text refs in
    h = checkpoint_digest c → refs_exist s refs db → (Z.of_nat (length refs) ≤ 64)%Z → (Z.of_nat (String.length (utf8 text)) ≤ 4096)%Z →
    checkpoint_id c ∉ map checkpoint_id (checkpoints db) →
    checkpointed uuid now s session window producer text refs db
      (Ok {| r_checkpoint_id := checkpoint_id c; r_checkpoint_digest := h; r_hint := text; r_item_refs := refs |}) (with_checkpoint c db)
| checkpoint_failed e : checkpointed uuid now s session window producer text refs db (Err e) db.
Lemma checkpoint_document_plain id now sd session window producer text refs :
  json_plain (PDict (checkpoint_document id now sd session window producer text (map PStr refs))) = true.
Proof. pose proof (str_list_plain refs) as E. unfold str_list in E. cbn in E |- *. by rewrite E. Qed.
Lemma str_list_dumps refs : json_dumps true true (str_list refs) = Ok (json_print true (str_list refs)).
Proof.
  unfold json_dumps. rewrite jnorm_of_str_list, json_check_ok by by rewrite str_list_plain. done.
Qed.
Lemma checkpoint_spec svc now uuid s session window producer text refs db :
  let m := checkpoint svc now uuid s session window producer text refs db in
  checkpointed uuid now s session window producer text refs db m.1 m.2.
Proof.
  cbv zeta. unfold checkpoint, store_checkpoint. run_prog. destruct (_allowed svc s true) as [[]|e]; [|apply checkpoint_failed].
  destruct (raise_if _ _ "CHECKPOINT_TOO_LARGE") as [[]|e] eqn:Ht; [|apply checkpoint_failed].
  destruct (raise_if _ _ "invalid item_refs") as [[]|e] eqn:Hn; [|apply checkpoint_failed].
  destruct (check_refs s refs db) as [[]|e] eqn:Hr; [|apply checkpoint_failed].
  rewrite scope_digest_Ok, digest_of_plain by apply checkpoint_document_plain. rewrite str_list_dumps.
  unfold transaction, insert_checkpoint. cbn [checkpoint_id].
  destruct (existsb _ (checkpoints db)) eqn:Hid; [apply checkpoint_failed|].
  apply existsb_map_neg in Hid. apply raise_if_Ok_inv in Ht, Hn. cbn [fst snd].
  apply (checkpoint_added uuid now s session window producer text refs db); [done|by apply check_refs_Ok|lia|lia|exact Hid].
Qed.

(** ** Histories *)
Inductive operation : Type :=
| Ingest (svc : ContextContinuityService) (now : spec_float) (uuid : string) (s : Scope) (a : ingest_args)
| Checkpoint (svc : ContextContinuityService) (now : spec_float) (uuid : string) (s : Scope)
    (session window producer text : string) (refs : list string).
Definition perform (db : database) (o : operation) : database :=
  match o with
  | Ingest svc now uuid s a => (ingest svc now uuid s a db).2
  | Checkpoint svc now uuid s session window producer text refs =>
      (checkpoint svc now uuid s session window producer text refs db).2
  end.
(** The database after the operations, whichever services of the root carried them out. *)
Definition run (ops : list operation) (db : database) : database := foldl perform db ops.

Definition item_key (r : item) : string * string := (item_scope r, idempotency_key (args r)).
Definition checkpoint_ok (db : database) (c : checkpoint_row) : Prop := ∃ uuid now s session window producer text refs,
  c = stored_checkpoint uuid now s session window producer text refs ∧ refs_exist s refs db.
Record sound (db : database) : Prop := {
  s_rows : Forall row_ok (items db); s_ids : NoDup (map item_id (items db)); s_keys : NoDup (map item_key (items db));
  s_checkpoints : Forall (checkpoint_ok db) (checkpoints db); s_checkpoint_ids : NoDup (map checkpoint_id (checkpoints db))
}.
Definition extends (db db' : database) : Prop :=
  (∃ l, items db' = items db ++ l) ∧ ∃ l, checkpoints db' = checkpoints db ++ l.
#[export] Instance extends_preorder : PreOrder extends.
Proof.
  split.
  - intros db. split; exists []; by rewrite app_nil_r.
  - intros x y z [[l E] [k F]] [[l' E'] [k' F']]. split; [exists (l ++ l')|exists (k ++ k')]; by rewrite ?E', ?E, ?F', ?F, app_assoc.
Qed.
Lemma refs_exist_extends s refs db db' : extends db db' → refs_exist s refs db → refs_exist s refs db'.
Proof.
  intros [[l E] _] Hr. unfold refs_exist in *. eapply Forall_impl; [exact Hr|]. clear Hr. intros id (r & Hr & Hs). exists r. split; [|done]. rewrite E. apply elem_of_app. by left.
Qed.
Lemma lookup_key_None s key db : lookup_key s key db = None → (scope_hash s, key) ∉ map item_key (items db).
Proof.
  unfold lookup_key. intros E (r & Hr & Hin)%list_elem_of_In%in_map_iff. injection Hr as Hs Hk.
  pose proof (find_none _ _ E r Hin) as Hn. unfold has_key_in in Hn. by rewrite Hs, Hk, !String.eqb_refl in Hn.
Qed.
Lemma NoDup_map_inj {A B} (f : A → B) l a b : NoDup (map f l) → a ∈ l → b ∈ l → f a = f b → a = b.
Proof.
  intros Hn [i Hi]%list_elem_of_lookup [j Hj]%list_elem_of_lookup E. assert (i = j) as ->; [|congruence].
  apply (NoDup_lookup (map f l) i j (f a)); [done|..]; rewrite list_lookup_fmap; [by rewrite Hi|rewrite Hj; cbn; congruence].
Qed.
Lemma lookup_key_Some s db r : NoDup (map item_key (items db)) → r ∈ items db → item_scope r = scope_hash s →
  lookup_key s (idempotency_key (args r)) db = Some r.
Proof.
  intros Hn Hr Hs. unfold lookup_key. destruct (List.find _ (items db)) as [q|] eqn:E.
  - apply find_some in E as [Hq [Hqs%String.eqb_eq Hqk%String.eqb_eq]%andb_true_iff]. f_equal.
    apply list_elem_of_In in Hq. apply (NoDup_map_inj item_key (items db)); [done..|]. unfold item_key. congruence.
  - apply list_elem_of_In in Hr. pose proof (find_none _ _ E r Hr) as Hf. unfold has_key_in in Hf. by rewrite Hs, !String.eqb_refl in Hf.
Qed.
Lemma NoDup_snoc {A B} (f : A → B) l x : NoDup (map f l) → f x ∉ map f l → NoDup (map f (l ++ [x])).
Proof.
  intros Hl Hx. rewrite map_app. apply NoDup_app. split; [done|]. split; [|apply NoDup_singleton].
  intros y Hy [->|[]%elem_of_nil]%elem_of_cons. done.
Qed.
Lemma perform_sound db o : sound db → sound (perform db o) ∧ extends db (perform db o).
Proof.
  intros Hs. assert (extends db db) as Hrefl by reflexivity. destruct o as [svc now uuid s a|svc now uuid s se w p text refs]; cbn [perform].
  - destruct (ingest_spec svc now uuid s a db) as [text r receipt|text Hw Hc Hk Hroom _ Hid|e]; try done.
    split; [|split; [by eexists|exists []; by rewrite app_nil_r]]. split.
    + apply Forall_app. split; [apply Hs|]. apply Forall_singleton. by apply new_row_ok.
    + apply NoDup_snoc; [apply Hs|exact Hid].
    + apply NoDup_snoc; [apply Hs|]. by apply lookup_key_None.
    + eapply Forall_impl; [exact (s_checkpoints _ Hs)|]. intros c (u & t & s' & x1 & x2 & x3 & x4 & refs & E & Hrefs).
      exists u, t, s', x1, x2, x3, x4, refs. split; [done|]. eapply refs_exist_extends; [|exact Hrefs]. split; [by eexists|exists []; by rewrite app_nil_r].
    + apply Hs.
  - destruct (checkpoint_spec svc now uuid s se w p text refs db) as [h c _ Hrefs _ _ Hid|e]; [|done].
    split; [|split; [exists []; by rewrite app_nil_r|by eexists]]. split; [apply Hs..| |].
    + apply Forall_app. split; [apply Hs|]. apply Forall_singleton. exists uuid, now, s, se, w, p, text, refs. done.
    + apply NoDup_snoc; [apply Hs|exact Hid].
Qed.
Lemma run_sound ops : ∀ db, sound db → sound (run ops db) ∧ extends db (run ops db).
Proof.
  induction ops as [|o ops IH]; intros db Hs; [split; [done|reflexivity]|]. cbn [run foldl].
  destruct (perform_sound _ o Hs) as [Hs' He]. destruct (IH _ Hs') as [Hr He']. split; [done|]. by etrans.
Qed.
Lemma empty_sound : sound empty_database.
Proof. split; constructor. Qed.
Lemma reached_sound ops : sound (run ops empty_database).
Proof. apply run_sound, empty_sound. Qed.
Lemma run_app ops o db : run (ops ++ [o]) db = perform (run ops db) o.
Proof. unfold run. by rewrite foldl_app. Qed.
(** Every row was ingested, by a service allowed to write to its scope. *)
Definition ingested_by (ops : list operation) (r : item) : Prop := ∃ svc now uuid s a text,
  Ingest svc now uuid s a ∈ ops ∧ _allowed svc s true = Ok () ∧ check_args a = Ok text ∧ r = stored_row uuid s a now text.
Lemma provenance ops : Forall (ingested_by ops) (items (run ops empty_database)).
Proof.
  induction ops as [|o ops IH] using rev_ind; [constructor|]. rewrite run_app.
  assert (Forall (ingested_by (ops ++ [o])) (items (run ops empty_database))) as Hold.
  { eapply Forall_impl; [exact IH|]. intros r (svc & now & uuid & s & a & text & Hin & Hr).
    exists svc, now, uuid, s, a, text. split; [apply elem_of_app; by left|done]. }
  destruct o as [svc now uuid s a|svc now uuid s se w p text refs]; cbn [perform].
  - destruct (ingest_spec svc now uuid s a (run ops empty_database)) as [text r receipt|text Hw Hc|e]; try done.
    apply Forall_app. split; [done|]. apply Forall_singleton. exists svc, now, uuid, s, a, text.
    split; [apply elem_of_app; right; by left|done].
  - by destruct (checkpoint_spec svc now uuid s se w p text refs (run ops empty_database)).
Qed.

(** ** Reading *)
Lemma flt_asym x y : flt x y = true → flt y x = false.
Proof.
  unfold flt, SFltb. destruct x as [[]|[]| |[] m e], y as [[]|[]| |[] n f]; cbn; try done;
    (destruct (Z.compare_spec e f), (Z.compare_spec f e); try lia; try done; []; subst;
     change (Pos.compare_cont Eq m n) with (Pos.compare m n) in *; change (Pos.compare_cont Eq n m) with (Pos.compare n m) in *;
     rewrite (Pos.compare_antisym m n); by destruct (Pos.compare m n)).
Qed.
Lemma latest_None l : latest l = None → l = [].
Proof. destruct l as [|c l]; [done|]. cbn. by destruct (latest l). Qed.
Lemma latest_In l c : latest l = Some c → c ∈ l.
Proof.
  revert c. induction l as [|d l IH]; intros c; [done|]. cbn. destruct (latest l) as [q|] eqn:E.
  - destruct (flt _ _); intros [= <-]; [right; by apply IH|by left].
  - intros [= <-]. by left.
Qed.
Lemma latest_spec l c : c ∈ l → (∀ d, d ∈ l → d = c ∨ flt (c_created_at d) (c_created_at c) = true) → latest l = Some c.
Proof.
  induction l as [|d l IH]; [by intros []%elem_of_nil|]. intros Hc Hl. cbn.
  destruct (latest l) as [q|] eqn:E.
  - apply elem_of_cons in Hc as [<-|Hin].
    + apply latest_In in E. destruct (Hl q) as [->|Hq]; [by right|by destruct (flt _ _)|]. by rewrite (flt_asym _ _ Hq).
    + assert (Some q = Some c) as [= ->] by (apply IH; [done|intros; apply Hl; by right]).
      destruct (Hl d) as [->|Hd]; [by left| |by rewrite Hd]. by destruct (flt _ _).
  - apply latest_None in E as ->. by apply list_elem_of_singleton in Hc as ->.
Qed.
Lemma matching_perm s horizon query db : matching (scope_hash s) horizon query db ≡ₚ
  List.filter (λ r, in_scope (scope_hash s) r && match horizon with Some t => SFleb t (created_at r) | None => true end
    && str_contains (utf8 query) (payload (args r))) (items db).
Proof. apply sort_by_perm. Qed.
Lemma matching_in_scope s horizon query db r : r ∈ matching (scope_hash s) horizon query db → r ∈ items db ∧ item_scope r = scope_hash s.
Proof.
  rewrite matching_perm. intros [Hr [[Hs%String.eqb_eq _]%andb_true_iff _]%andb_true_iff]%list_elem_of_In%filter_In.
  split; [by apply list_elem_of_In|done].
Qed.
Lemma matching_ids s horizon query db : NoDup (map item_id (items db)) → NoDup (map item_id (matching (scope_hash s) horizon query db)).
Proof.
  intros Hn. rewrite (Permutation_map _ (matching_perm _ _ _ _)). by apply NoDup_map_filter.
Qed.
(** The cursor of an item keeps what comes after it. *)
Lemma after_cut l1 x l2 : NoDup (map item_id (l1 ++ x :: l2)) → StronglySorted (by_key item_id) (l1 ++ x :: l2) →
  item_id x ≠ EmptyString → List.filter (after (Some (item_id x))) (l1 ++ x :: l2) = l2.
Proof.
  intros Hn Hs Hx.
  assert (∀ y, after (Some (item_id x)) y = negb (bool_decide (String.le (item_id y) (item_id x)))) as Ea.
  { intros y. cbn. by destruct (item_id x). }
  rewrite List.filter_app. cbn [List.filter]. rewrite Ea, bool_decide_eq_true_2 by reflexivity. cbn [negb].
  rewrite map_app in Hn. cbn [map] in Hn. apply NoDup_app in Hn as (_ & _ & [Hx2 _]%NoDup_cons).
  apply StronglySorted_app in Hs as (Hs1 & _ & [_ Hs2]%StronglySorted_inv).
  assert (List.filter (after (Some (item_id x))) l1 = []) as ->.
  { apply filter_nil. intros y Hy. rewrite Ea, bool_decide_eq_true_2; [done|]. apply Hs1; [done|by left]. }
  cbn [app]. apply forallb_filter_id. rewrite forallb_forall. intros y Hy%list_elem_of_In.
  rewrite Ea, bool_decide_eq_false_2; [done|]. intros Hle. rewrite Forall_forall in Hs2. apply Hx2.
  rewrite <- (anti_symm String.le _ _ Hle (Hs2 y Hy)). by apply list_elem_of_In, in_map, list_elem_of_In.
Qed.

(** ** Pages *)
(** All pages of a search, following the cursors. *)
Fixpoint pages (fuel : nat) (svc : ContextContinuityService) (now : spec_float) (s : Scope) (query : string) (limit : Z)
    (cursor : option string) (db : database) : result (list (list SearchHit)) :=
  match fuel with
  | O => raise RuntimeError "out of fuel"
  | S fuel =>
      page ← search svc now s query limit cursor db;
      match next_cursor page with
      | None => Ok [hits page]
      | Some c => rest ← pages fuel svc now s query limit (Some c) db; Ok (hits page :: rest)
      end
  end.
Section paging.
Context (svc : ContextContinuityService) (now : spec_float) (s : Scope) (query : string) (limit : Z) (db : database).
Context (Hr : _allowed svc s false = Ok ()) (Hq : query ≠ EmptyString) (Hl : (1 ≤ limit ≤ 20)%Z).
Let found := matching (scope_hash s) (fsub now <$> ttl_seconds svc) query db.
Context (Hids : NoDup (map item_id found)) (Hne : ∀ r, r ∈ found → item_id r ≠ EmptyString).
Context (Hvalid : ∀ r, r ∈ found → is_ok (validate_item_row s r) = true).

Lemma search_page cursor rest : List.filter (after cursor) found = rest → (∀ r, r ∈ rest → r ∈ found) →
  let page := take (Z.to_nat limit) rest in
  search svc now s query limit cursor db = Ok {| hits := map hit_of page;
    next_cursor := if (limit <? Z.of_nat (length rest))%Z then item_id <$> last page else None |}.
Proof.
  intros E Hin. unfold search, store_search. rewrite Hr, scope_digest_Ok. cbn [mbind result_bind].
  rewrite (proj2 (String.eqb_neq _ _) Hq). cbn [raise_if mbind result_bind].
  assert ((1 <=? limit)%Z && (limit <=? 20)%Z = true) as -> by lia. cbn [negb raise_if mbind result_bind].
  fold found. rewrite E. replace (Z.to_nat (limit + 1)) with (S (Z.to_nat limit)) by lia.
  destruct (mapM_result_total (validate_item_row s) (take (S (Z.to_nat limit)) rest)) as (k & -> & _).
  { intros r Hrr. pose proof (Hvalid r (Hin r (subseteq_take _ _ r Hrr))) as Hv. destruct (validate_item_row s r); [eauto|done]. }
  cbn [mbind result_bind]. rewrite take_take, length_take. replace (Z.to_nat limit `min` S (Z.to_nat limit))%nat with (Z.to_nat limit) by lia.
  assert ((limit <? Z.of_nat (S (Z.to_nat limit) `min` length rest))%Z = (limit <? Z.of_nat (length rest))%Z) as ->.
  { destruct (Z.ltb_spec limit (Z.of_nat (S (Z.to_nat limit) `min` length rest))), (Z.ltb_spec limit (Z.of_nat (length rest))); done || lia. }
  f_equal. f_equal. destruct (limit <? _)%Z; [|done]. fold (hit_of <$> take (Z.to_nat limit) rest). rewrite fmap_last. by destruct (last _).
Qed.
Lemma pages_from fuel : ∀ cursor l rest, found = l ++ rest → List.filter (after cursor) found = rest → (length rest < fuel)%nat →
  ∃ ps, pages fuel svc now s query limit cursor db = Ok ps ∧ concat ps = map hit_of rest ∧
    Forall (λ p, (Z.of_nat (length p) ≤ limit)%Z) ps.
Proof.
  induction fuel as [|fuel IH]; intros cursor l rest Ef Ec Hlen; [lia|]. cbn [pages].
  rewrite (search_page cursor rest Ec) by (intros r Hrr; rewrite Ef; apply elem_of_app; by right).
  cbn [mbind result_bind next_cursor hits]. destruct (Z.ltb_spec limit (Z.of_nat (length rest))) as [Hmore|Hlast].
  - destruct (last (take (Z.to_nat limit) rest)) as [x|] eqn:Ex.
    2: { apply last_None in Ex. apply (f_equal length) in Ex. rewrite length_take in Ex. cbn in Ex. lia. }
    apply last_Some in Ex as [k Ek]. assert (rest = (k ++ [x]) ++ drop (Z.to_nat limit) rest) as Er by (rewrite <- Ek; by rewrite take_drop).
    cbn [fmap option_fmap option_map].
    destruct (IH (Some (item_id x)) (l ++ k ++ [x]) (drop (Z.to_nat limit) rest)) as (ps & -> & Hc & Hb).
    + rewrite <- app_assoc, <- Er. exact Ef.
    + assert (found = (l ++ k) ++ x :: drop (Z.to_nat limit) rest) as Ef' by (rewrite Ef, Er at 1; by rewrite <- !app_assoc).
      rewrite Ef'. apply after_cut; [by rewrite <- Ef'|rewrite <- Ef'; apply sort_by_sorted|].
      apply Hne. rewrite Ef'. apply elem_of_app. right. by left.
    + rewrite length_drop. lia.
    + eexists. split; [reflexivity|]. split.
      * cbn [concat]. rewrite Hc, <- map_app, take_drop. done.
      * constructor; [|done]. rewrite length_map, length_take. lia.
  - eexists. split; [reflexivity|]. cbn [concat]. rewrite app_nil_r, take_ge by lia. split; [done|].
    constructor; [|constructor]. rewrite length_map. lia.
Qed.
End paging.
Lemma owner_of ops r s : r ∈ items (run ops empty_database) → item_scope r = scope_hash s →
  row_ok r ∧ (owner r = s ∨ scopes_collide (owner r) s).
Proof.
  intros Hr Hs. pose proof (s_rows _ (reached_sound ops)) as Hrows. rewrite Forall_forall in Hrows.
  specialize (Hrows r Hr). split; [done|]. apply scope_hash_inj. destruct Hrows as (E & _). congruence.
Qed.
Lemma scopes_split ops s : (∀ r, r ∈ items (run ops empty_database) → item_scope r = scope_hash s → owner r = s) ∨
  ∃ r, r ∈ items (run ops empty_database) ∧ scopes_collide (owner r) s.
Proof.
  assert (∀ l : list item, (∀ r, r ∈ l → r ∈ items (run ops empty_database)) →
    (∀ r, r ∈ l → item_scope r = scope_hash s → owner r = s) ∨ ∃ r, r ∈ l ∧ scopes_collide (owner r) s) as Hall; [|by apply Hall].
  induction l as [|r l IH]; intros Hl; [left; by intros r []%elem_of_nil|].
  destruct IH as [IH|(q & Hq & Hc)]; [intros; apply Hl; by right| |right; exists q; split; [by right|done]].
  destruct (String.string_dec (item_scope r) (scope_hash s)) as [E|Hn].
  - destruct (owner_of ops r s (Hl r (list_elem_of_here _ _)) E) as [_ [Ho|Hc]]; [left|right; exists r; split; [by left|done]].
    intros q [->|Hq]%elem_of_cons; auto.
  - left. intros q [->|Hq]%elem_of_cons; auto. intros E. by destruct Hn.
Qed.
Lemma ids_nonempty ops r : r ∈ items (run ops empty_database) → item_id r ≠ EmptyString.
Proof.
  intros Hr. pose proof (provenance ops) as Hp. rewrite Forall_forall in Hp. by destruct (Hp r Hr) as (? & ? & ? & ? & ? & ? & _ & _ & _ & ->).
Qed.
(** The row an acknowledged ingest answers for. *)
Definition answers_for (s : Scope) (a : ingest_args) (text : string) (receipt : IngestReceipt) (r : item) : Prop :=
  item_scope r = scope_hash s ∧ idempotency_key (args r) = idempotency_key a ∧ is_ok (validate_item_row s r) = true ∧
  request_digest r = request_hash s a text ∧
  receipt = {| r_item_id := item_id r; r_content_digest := content_digest r; r_request_digest := request_digest r;
               r_idempotency_key := idempotency_key (args r); replayed := replayed receipt |}.
Lemma acknowledged svc now uuid s a db receipt : (ingest svc now uuid s a db).1 = Ok receipt →
  ∃ text r, check_args a = Ok text ∧ r ∈ items (ingest svc now uuid s a db).2 ∧ answers_for s a text receipt r ∧
    (replayed receipt = false → r = stored_row uuid s a now text).
Proof.
  intros E. destruct (ingest_spec svc now uuid s a db) as [text r rc _ Ht Hl Hrep|text _ Ht Hl _ _ _|e]; [| |done].
  - injection E as ->. exists text, r. unfold replay_item in Hrep. apply bind_Ok_inv in Hrep as (p & Hp & Hrep).
    apply bind_Ok_inv in Hrep as (u & Hd%raise_if_Ok_inv%negb_false_iff%String.eqb_eq & [= <-]).
    apply find_some in Hl as [Hin [Hsc%String.eqb_eq Hkey%String.eqb_eq]%andb_true_iff].
    unfold answers_for. rewrite Hp. split_and!; try done. by apply list_elem_of_In.
  - injection E as <-. exists text, (stored_row uuid s a now text).
    assert (row_ok (stored_row uuid s a now text)) as Hok by by apply new_row_ok.
    unfold answers_for. split_and!; try done; [apply elem_of_app; right; by left|].
    by rewrite (validate_owner _ Hok : validate_item_row s (stored_row uuid s a now text) = Ok (payload a)).
Qed.
Lemma later_sound ops svc now uuid s a ops' :
  let db := (ingest svc now uuid s a (run ops empty_database)).2 in sound (run ops' db) ∧ extends db (run ops' db).
Proof. apply run_sound. apply (perform_sound _ (Ingest svc now uuid s a)), reached_sound. Qed.
End facts.

(** * Theorems *)
Section theorems.
Context `{FloatText} `{Digest}.

(** C22: whatever the services of a root did, every row of the store carries the digests of what
    it holds and passes validation in its own scope; ids and the keys of a scope are unique; each
    checkpoint is one that was written, and the items it refers to are still there.  Nothing is
    ever changed or removed: every later database extends the earlier ones. *)
Theorem store_stays_sound ops ops' :
  let db := run ops empty_database in
  sound db ∧ Forall (λ r, validate_item_row (owner r) r = Ok (payload (args r))) (items db) ∧
  Forall (ingested_by ops) (items db) ∧ extends db (run ops' db).
Proof.
  cbv zeta. pose proof (reached_sound ops) as Hs. split; [done|]. split; [|split; [apply provenance|by apply run_sound]].
  eapply Forall_impl; [exact (s_rows _ Hs)|]. intros r. apply validate_owner.
Qed.

(** C18: a key is good for one request.  After an ingest was acknowledged, whatever happens next,
    ingesting the same request again, at any time and through any service that may write, returns
    the item stored first, marked as replayed, and adds nothing; another request under the same
    key is refused as a conflict -- or the digests of the two requests collide. *)
Theorem ingest_exactly_once ops svc now uuid s a receipt ops' svc' now' uuid' a' text'
    (E : (ingest svc now uuid s a (run ops empty_database)).1 = Ok receipt)
    (Hw : _allowed svc' s true = Ok ()) (Hc : check_args a' = Ok text') (Hk : idempotency_key a' = idempotency_key a) :
  let db := run ops' (ingest svc now uuid s a (run ops empty_database)).2 in
  let answer := if decide (a' = a)
    then Ok {| r_item_id := r_item_id receipt; r_content_digest := r_content_digest receipt;
               r_request_digest := r_request_digest receipt; r_idempotency_key := r_idempotency_key receipt; replayed := true |}
    else raise IdempotencyConflict "IDEMPOTENCY_CONFLICT" in
  ingest svc' now' uuid' s a' db = (answer, db) ∨ a' ≠ a ∧ requests_collide s a' a.
Proof.
  cbv zeta. destruct (acknowledged _ _ _ _ _ _ _ E) as (text & r & Ht & Hr & (Hsc & Hkey & Hv & Hrq & Erec) & _).
  destruct (later_sound ops svc now uuid s a ops') as [Hs2 [[l El] _]]. set (db2 := run ops' _) in *.
  assert (lookup_key s (idempotency_key a') db2 = Some r) as Hlook.
  { rewrite Hk, <- Hkey. apply lookup_key_Some; [apply Hs2| |done]. rewrite El. apply elem_of_app. by left. }
  assert (ingest svc' now' uuid' s a' db2 = (replay_item s r (request_hash s a' text'), db2)) as ->.
  { unfold ingest, store_ingest. run_prog. rewrite Hw, Hc, scope_digest_Ok, request_digest_Ok. unfold transaction.
    fold (lookup_key s (idempotency_key a') db2). rewrite Hlook. destruct (replay_item _ _ _); [done|]. by destruct (exn_is _ _). }
  unfold replay_item. destruct (validate_item_row s r) as [p|]; [|done]. cbn [mbind result_bind]. rewrite Hrq.
  pose proof (check_args_decode _ _ Ht) as Hd. pose proof (check_args_decode _ _ Hc) as Hd'.
  destruct (String.eqb_spec (request_hash s a text) (request_hash s a' text')) as [Eh|Hn].
  - symmetry in Eh. destruct (decide (a' = a)) as [->|Hne].
    + left. rewrite Erec. reflexivity.
    + right. split; [done|]. by destruct (request_hash_inj _ _ _ _ _ Hd' Hd Eh).
  - left. destruct (decide (a' = a)) as [->|Hne]; [|done]. rewrite Hd' in Hd. by injection Hd as ->.
Qed.

Lemma str_take_all p n : (String.length p ≤ n)%nat → str_take n p = p.
Proof. revert n. induction p as [|c p IH]; intros [|n] Hn; cbn in *; try done; [lia|]. f_equal. apply IH. lia. Qed.
Definition freshness_of (revision subject : option string) : string :=
  match revision with
  | None => "UNKNOWN_FRESHNESS"
  | Some v => if bool_decide (Some v = subject) then "CURRENT" else "STALE_FOR_EXECUTION"
  end.

(** What was ingested is read back.  After the acknowledgement of a new item, whatever is
    stored later, a reader of its scope gets the payload, byte for byte, its digest and how fresh
    it is for the revision asked for, until it expires and if it fits into one read. *)
Theorem item_reads_back ops svc now uuid s a receipt ops' svc' now' revision
    (E : (ingest svc now uuid s a (run ops empty_database)).1 = Ok receipt) (Hnew : replayed receipt = false)
    (Hr : _allowed svc' s false = Ok ()) (Hx : expired svc' now' now = false)
    (Hlen : (Z.of_nat (String.length (payload a)) ≤ 65536)%Z) :
  read_item svc' now' s (r_item_id receipt) 0 None revision (run ops' (ingest svc now uuid s a (run ops empty_database)).2) =
    Ok {| i_item_id := "ctx_" +:+ uuid; i_payload := payload a; i_content_digest := sha256_hex (payload a);
          i_source_type := source_type a; i_subject_revision := subject_revision a;
          freshness := freshness_of revision (subject_revision a);
          byte_start := 0; byte_end := Z.of_nat (String.length (payload a)) |}.
Proof.
  destruct (acknowledged _ _ _ _ _ _ _ E) as (text & r & Ht & Hin & (_ & _ & _ & _ & Erec) & Hfresh).
  specialize (Hfresh Hnew). assert (r_item_id receipt = item_id r) as -> by (by rewrite Erec). subst r. clear Erec.
  destruct (later_sound ops svc now uuid s a ops') as [Hs2 [[l El] _]]. set (db2 := run ops' _) in *.
  set (r := stored_row uuid s a now text) in *.
  assert (r ∈ items db2) as Hin2 by (rewrite El; apply elem_of_app; by left).
  assert (List.find (λ q, in_scope (scope_hash s) q && String.eqb (item_id q) (item_id r)) (items db2) = Some r) as Hf.
  { destruct (List.find _ (items db2)) as [q|] eqn:Ef.
    - apply find_in_scope in Ef as (Hq & _ & Hid). f_equal. by apply (NoDup_map_inj item_id (items db2)); [apply Hs2|..].
    - apply list_elem_of_In in Hin2. pose proof (find_none _ _ Ef r Hin2) as Hn. unfold in_scope in Hn. by rewrite !String.eqb_refl in Hn. }
  unfold read_item. rewrite Hr. cbn [mbind result_bind raise_if orb Z.ltb Z.compare]. rewrite store_read_Ok, Hf. cbn [mbind result_bind].
  assert (row_ok r) as Hok by by apply new_row_ok.
  rewrite (validate_owner _ Hok : validate_item_row s r = Ok (payload a)). cbn [mbind result_bind].
  change (created_at r) with now. rewrite Hx. cbn [raise_if mbind result_bind default]. set (n := Z.of_nat (String.length (payload a))) in *.
  cbv [Datatypes.id]. assert ((64 * 1024 <? n - 0)%Z = false) as -> by lia. rewrite Z.ltb_irrefl. cbn [raise_if mbind result_bind].
  unfold slice. rewrite Z.sub_0_r. change (Z.to_nat 0) with 0%nat. assert (str_drop 0 (payload a) = payload a) as -> by by destruct (payload a).
  rewrite str_take_all by lia. reflexivity.
Qed.

(** C20: a read hands out what was ingested into the scope asked for, and no more than asked for.
    A read that succeeds was allowed by the policy, on an item that a permitted writer ingested
    into that scope and that has not expired -- or the digests of two scopes collide --; it gives
    a slice of at most 64 KiB that ends within the payload. *)
Theorem read_isolated ops svc now s id i j revision res
    (E : read_item svc now s id i j revision (run ops empty_database) = Ok res) :
  ∃ svc0 now0 uuid s0 a text, Ingest svc0 now0 uuid s0 a ∈ ops ∧ _allowed svc0 s0 true = Ok () ∧ check_args a = Ok text ∧
    _allowed svc s false = Ok () ∧ id = "ctx_" +:+ uuid ∧ (s0 = s ∨ scopes_collide s0 s) ∧ expired svc now now0 = false ∧
    i_payload res = slice (byte_start res) (byte_end res) (payload a) ∧ i_content_digest res = sha256_hex (payload a) ∧
    freshness res = freshness_of revision (subject_revision a) ∧
    (0 ≤ byte_start res)%Z ∧ (byte_end res - byte_start res ≤ 65536)%Z ∧ (byte_end res ≤ Z.of_nat (String.length (payload a)))%Z.
Proof.
  unfold read_item in E. apply bind_Ok_inv in E as ([] & Hr & E). apply bind_Ok_inv in E as (u & Hij%raise_if_Ok_inv & E).
  rewrite store_read_Ok in E. cbn [mbind result_bind] in E. destruct (List.find _ _) as [r|] eqn:Ef; [|done].
  apply find_in_scope in Ef as (Hin & Hs & Hid). apply bind_Ok_inv in E as (p & [-> _]%validate_inv & E).
  apply bind_Ok_inv in E as (u1 & Hx%raise_if_Ok_inv & E). apply bind_Ok_inv in E as (u2 & H1%raise_if_Ok_inv & E).
  apply bind_Ok_inv in E as (u3 & H2%raise_if_Ok_inv & [= <-]).
  pose proof (provenance ops) as Hp. rewrite Forall_forall in Hp. destruct (Hp r Hin) as (svc0 & now0 & uuid & s0 & a & text & Hop & Hw & Hc & ->).
  exists svc0, now0, uuid, s0, a, text. cbn [i_payload byte_start byte_end i_content_digest freshness].
  assert (s0 = s ∨ scopes_collide s0 s) as Hsc by (by apply scope_hash_inj).
  cbn [args stored_row new_row created_at content_digest item_id] in *. apply orb_false_iff in Hij as [H0i _].
  split_and!; try done; lia.
Qed.

(** C21: following the cursors of a search gives everything it matches, once, in the order of ids
    and in pages of at most the limit: the items of the scope that have not expired and whose
    payload contains the query.  One page more than there are matches is always enough -- or the
    digests of two scopes collide. *)
Theorem pages_complete ops svc now s query limit
    (Hr : _allowed svc s false = Ok ()) (Hq : query ≠ EmptyString) (Hl : (1 ≤ limit ≤ 20)%Z) :
  let db := run ops empty_database in
  (∃ found ps, pages (S (length found)) svc now s query limit None db = Ok ps ∧ concat ps = map hit_of found ∧
     Forall (λ p, (Z.of_nat (length p) ≤ limit)%Z) ps ∧ StronglySorted (by_key item_id) found ∧ NoDup (map item_id found) ∧
     ∀ r, r ∈ found ↔ r ∈ items db ∧ item_scope r = scope_hash s ∧
       (∀ ttl, ttl_seconds svc = Some ttl → SFleb (fsub now ttl) (created_at r) = true) ∧
       str_contains (utf8 query) (payload (args r)) = true)
  ∨ ∃ r, r ∈ items db ∧ scopes_collide (owner r) s.
Proof.
  cbv zeta. destruct (scopes_split ops s) as [Hown|Hc]; [left|by right]. set (db := run ops empty_database) in *.
  set (found := matching (scope_hash s) (fsub now <$> ttl_seconds svc) query db).
  assert (NoDup (map item_id found)) as Hids by apply matching_ids, (s_ids _ (reached_sound ops)).
  destruct (pages_from svc now s query limit db Hr Hq Hl Hids) with (fuel := S (length found)) (cursor := @None string) (l := @nil item) (rest := found)
    as (ps & Hps & Hcat & Hlen).
  - intros r [Hin _]%matching_in_scope. by eapply ids_nonempty.
  - intros r [Hin Hs]%matching_in_scope. destruct (owner_of ops r s Hin Hs) as [Hok _].
    pose proof (validate_owner _ Hok) as Hv. rewrite (Hown r Hin Hs) in Hv. by rewrite Hv.
  - done.
  - apply forallb_filter_id. by apply forallb_forall.
  - lia.
  - exists found, ps. split_and!; try done; [apply sort_by_sorted|]. intros r. unfold found. rewrite matching_perm.
    rewrite (list_elem_of_In (List.filter _ _)), filter_In, <- list_elem_of_In, !andb_true_iff. unfold in_scope. rewrite String.eqb_eq.
    destruct (ttl_seconds svc) as [ttl|]; cbn [fmap option_fmap option_map]; split.
    + intros (Hin & [Hs Ht] & Hq'). split_and!; try done. by intros ? [= <-].
    + intros (Hin & Hs & Ht & Hq'). auto.
    + intros (Hin & [Hs _] & Hq'). by split_and!.
    + intros (Hin & Hs & _ & Hq'). by split_and!.
Qed.

(** Resuming gives the latest checkpoint.  After a checkpoint was acknowledged, and as long as
    every other checkpoint of the scope in the store is older, whatever else is stored, [resume]
    returns its hint and its references, in order, until it expires. *)
Theorem resume_latest ops svc now uuid s session window producer text refs receipt ops' svc' now'
    (E : (checkpoint svc now uuid s session window producer text refs (run ops empty_database)).1 = Ok receipt)
    (Hr : _allowed svc' s false = Ok ()) (Hx : expired svc' now' now = false) :
  let db := run ops' (checkpoint svc now uuid s session window producer text refs (run ops empty_database)).2 in
  (∀ c, c ∈ checkpoints db → checkpoint_scope c = scope_hash s → checkpoint_id c ≠ r_checkpoint_id receipt →
     flt (c_created_at c) now = true) →
  resume svc' now' s db = Ok {| b_hint := text; b_checkpoint_id := Some (r_checkpoint_id receipt); b_item_refs := map PStr refs |}.
Proof.
  cbv zeta. intros Hlast. pose proof (perform_sound _ (Checkpoint svc now uuid s session window producer text refs) (reached_sound ops)) as [Hs1 _].
  cbn [perform] in Hs1. destruct (run_sound ops' _ Hs1) as [Hs2 [_ [l El]]]. set (db := run ops' _) in *.
  set (c := stored_checkpoint uuid now s session window producer text refs).
  assert (r_checkpoint_id receipt = checkpoint_id c ∧ c ∈ checkpoints db) as [Eid Hc].
  { rewrite El. destruct (checkpoint_spec svc now uuid s session window producer text refs (run ops empty_database)) as [h c' _ _ _ _ _|e]; [|done].
    injection E as <-. split; [done|]. apply elem_of_app. left. apply elem_of_app. right. by left. }
  rewrite Eid in *. assert (latest_checkpoint s db = Ok (Some c)) as Hlc.
  { unfold latest_checkpoint. rewrite scope_digest_Ok. cbn [mbind result_bind]. f_equal. apply latest_spec.
    - apply list_elem_of_In, filter_In. split; [by apply list_elem_of_In|apply String.eqb_refl].
    - intros d [Hd%list_elem_of_In Hds%String.eqb_eq]%list_elem_of_In%filter_In.
      destruct (String.string_dec (checkpoint_id d) (checkpoint_id c)) as [Ed|Hn]; [left|right; by apply Hlast].
      by apply (NoDup_map_inj checkpoint_id (checkpoints db)); [apply Hs2|..]. }
  unfold resume. rewrite Hr, Hlc. cbn [mbind result_bind]. change (c_created_at c) with now. rewrite Hx. cbn [raise_if mbind result_bind].
  change (item_refs c) with (json_print true (str_list refs)).
  assert (json_loads (json_print true (str_list refs)) = Ok (str_list refs)) as ->.
  { rewrite <- (jnorm_of_str_list refs) at 2. rewrite <- (str_app_nil_r (json_print true (str_list refs))).
    apply (json_loads_dumps true true); [apply str_list_wf|apply str_list_dumps|done|done]. }
  cbn [mbind result_bind]. change (py_tuple (str_list refs)) with (Ok (map PStr refs)). cbn [mbind result_bind]. rewrite scope_digest_Ok.
  cbn [mbind result_bind]. change (hint c) with (utf8 text). rewrite (proj2 (decode_Ok _ text) eq_refl). cbn [mbind result_bind].
  rewrite digest_of_plain by apply checkpoint_document_plain. cbn [mbind result_bind checkpoint_digest]. unfold checkpoint_hash.
  by rewrite String.eqb_refl.
Qed.

Definition stored_in (sd : string) (db : database) : Z := Z.of_nat (length (List.filter (in_scope sd) (items db))).

(** The store keeps its bounds.  While every service that ingests has a quota of at most [m],
    no scope ever holds more than [m] items; a checkpoint has at most 4096 bytes of hint and 64
    references. *)
Theorem store_bounded m ops (Hm : (0 ≤ m)%Z)
    (Hq : Forall (λ o, match o with Ingest svc _ _ _ _ => ∃ q, max_items svc = Some q ∧ (q ≤ m)%Z | _ => True end) ops) :
  let db := run ops empty_database in
  (∀ sd, (stored_in sd db ≤ m)%Z) ∧
  Forall (λ c, (Z.of_nat (String.length (hint c)) ≤ 4096)%Z ∧
    ∃ refs, item_refs c = json_print true (str_list refs) ∧ (Z.of_nat (length refs) ≤ 64)%Z) (checkpoints db).
Proof.
  cbv zeta. induction ops as [|o ops IH] using rev_ind; [split; [done|constructor]|].
  apply Forall_app in Hq as [Hq Ho%List.Forall_inv]. specialize (IH Hq) as [Hc Hk]. rewrite run_app.
  set (db := run ops empty_database) in *. destruct o as [svc now uuid s a|svc now uuid s se w p text refs]; cbn [perform].
  - cbn in Ho. destruct Ho as (q & Hmax & Hqm). destruct (ingest_spec svc now uuid s a db) as [| text _ _ _ Hroom _ _|]; [done| |done].
    split; [|done]. intros sd. unfold stored_in, with_item. cbn [items]. rewrite List.filter_app, length_app. cbn [List.filter].
    specialize (Hroom _ Hmax). specialize (Hc sd). unfold stored_in in Hc.
    destruct (in_scope sd (stored_row uuid s a now text)) eqn:E; cbn [length]; [|lia].
    apply String.eqb_eq in E. cbn in E. subst sd. lia.
  - destruct (checkpoint_spec svc now uuid s se w p text refs db) as [h c _ _ Hn Ht _|e]; [|done].
    split; [done|]. apply Forall_app. split; [done|]. apply Forall_singleton. split; [exact Ht|]. by exists refs.
Qed.
End theorems.

(** * Witnesses *)
#[local] Existing Instance Sha256_Digest.
#[local] Existing Instance Dyadic_FloatText.
Module Witness.
Definition service : ContextContinuityService := {|
  authenticated_principal := "dev"; access_policy := AllowAllFixturePolicy; ttl_seconds := Some (float_of_int 60); max_items := Some 2%Z |}.
Definition scope : Scope := {|
  project_id := "p"; repository_id := "r"; task_id := "task-7"; campaign_id := None; attempt_id := Some "a1" |}.
Definition note (key text : string) : ingest_args := {|
  session_id := "s"; window_id := "w"; producer_id := "worker"; role := "tool"; payload := text; source_type := "log";
  idempotency_key := key; subject_revision := Some "r1"; source_ref := None; tool_namespace := None; tool_name := None;
  retention_class := "default" |}.
Definition noon : spec_float := float_of_int 1000.
Definition later : spec_float := float_of_int 1010.
Definition get {A} (d : A) (m : result A) : A := match m with Ok a => a | Err _ => d end.
Definition blank_receipt : IngestReceipt := {|
  r_item_id := EmptyString; r_content_digest := EmptyString; r_request_digest := EmptyString; r_idempotency_key := EmptyString;
  replayed := false |}.
Definition receipt : IngestReceipt := get blank_receipt (ingest service noon "01" scope (note "k1" "tests failed") (run [] empty_database)).1.
Definition two_notes : list operation :=
  [Ingest service noon "01" scope (note "k1" "tests failed"); Ingest service noon "02" scope (note "k2" "tests passed")].
Definition checkpoint_receipt : CheckpointReceipt :=
  get {| r_checkpoint_id := EmptyString; r_checkpoint_digest := EmptyString; r_hint := EmptyString; r_item_refs := [] |}
    (checkpoint service noon "03" scope "s" "w" "worker" "go on" ["ctx_01"] (run two_notes empty_database)).1.
Definition no_item : ReadItemResult := {|
  i_item_id := EmptyString; i_payload := EmptyString; i_content_digest := EmptyString; i_source_type := EmptyString;
  i_subject_revision := None; freshness := EmptyString; byte_start := 0; byte_end := 0 |}.
Definition piece : ReadItemResult :=
  get no_item (read_item service later scope "ctx_01" 6 (Some 12%Z) None (run two_notes empty_database)).
(** A read that starts past the end of the payload, with no end given, is an empty slice whose
    range ends before it starts: the bounds are checked on the end only. *)
Example read_past_the_end :
  let res := read_item service later scope "ctx_01" 40 None None (run two_notes empty_database) in
  is_ok res = true ∧ i_payload (get no_item res) = EmptyString ∧
  byte_start (get no_item res) = 40%Z ∧ byte_end (get no_item res) = 12%Z.
Proof. vm_compute. done. Qed.
End Witness.

Lemma ingest_exactly_once_witness :
  let db := run [] (ingest Witness.service Witness.noon "01" Witness.scope (Witness.note "k1" "tests failed") (run [] empty_database)).2 in
  ingest Witness.service Witness.later "09" Witness.scope (Witness.note "k1" "tests passed") db =
    (raise IdempotencyConflict "IDEMPOTENCY_CONFLICT", db) ∨
  Witness.note "k1" "tests passed" ≠ Witness.note "k1" "tests failed" ∧
    requests_collide Witness.scope (Witness.note "k1" "tests passed") (Witness.note "k1" "tests failed").
Proof.
  assert ((ingest Witness.service Witness.noon "01" Witness.scope (Witness.note "k1" "tests failed") (run [] empty_database)).1
    = Ok Witness.receipt) as E by (vm_compute; reflexivity).
  exact (ingest_exactly_once [] Witness.service Witness.noon "01" Witness.scope (Witness.note "k1" "tests failed") Witness.receipt []
    Witness.service Witness.later "09" (Witness.note "k1" "tests passed") "tests passed" E eq_refl eq_refl eq_refl).
Defined.
Lemma item_reads_back_witness :
  i_payload (Witness.get Witness.no_item (read_item Witness.service Witness.later Witness.scope (r_item_id Witness.receipt) 0 None (Some "r2")
    (run [] (ingest Witness.service Witness.noon "01" Witness.scope (Witness.note "k1" "tests failed") (run [] empty_database)).2))) = "tests failed".
Proof.
  assert ((ingest Witness.service Witness.noon "01" Witness.scope (Witness.note "k1" "tests failed") (run [] empty_database)).1
    = Ok Witness.receipt) as E by (vm_compute; reflexivity).
  assert (replayed Witness.receipt = false) as Hn by (vm_compute; reflexivity).
  assert (expired Witness.service Witness.later Witness.noon = false) as Hx by (vm_compute; reflexivity).
  assert ((Z.of_nat (String.length (payload (Witness.note "k1" "tests failed"))) ≤ 65536)%Z) as Hl by (vm_compute; discriminate).
  rewrite (item_reads_back [] Witness.service Witness.noon "01" Witness.scope (Witness.note "k1" "tests failed") Witness.receipt []
    Witness.service Witness.later (Some "r2") E Hn eq_refl Hx Hl). reflexivity.
Defined.
Lemma read_isolated_witness : ∃ svc0 now0 uuid s0 a,
  Ingest svc0 now0 uuid s0 a ∈ Witness.two_notes ∧ i_payload Witness.piece = slice (byte_start Witness.piece) (byte_end Witness.piece) (payload a).
Proof.
  assert (read_item Witness.service Witness.later Witness.scope "ctx_01" 6 (Some 12%Z) None (run Witness.two_notes empty_database)
    = Ok Witness.piece) as E by (vm_compute; reflexivity).
  destruct (read_isolated Witness.two_notes Witness.service Witness.later Witness.scope "ctx_01" 6 (Some 12%Z) None Witness.piece E)
    as (svc0 & now0 & uuid & s0 & a & text & Hop & _ & _ & _ & _ & _ & _ & Hp & _).
  exists svc0, now0, uuid, s0, a. split; [exact Hop|exact Hp].
Defined.
Lemma pages_complete_witness :
  (∃ found ps, pages (S (length found)) Witness.service Witness.later Witness.scope "tests" 1 None (run Witness.two_notes empty_database) = Ok ps ∧
     concat ps = map hit_of found) ∨
  ∃ r, r ∈ items (run Witness.two_notes empty_database) ∧ scopes_collide (owner r) Witness.scope.
Proof.
  assert ((1 ≤ 1 ≤ 20)%Z) as Hl by lia.
  destruct (pages_complete Witness.two_notes Witness.service Witness.later Witness.scope "tests" 1 eq_refl ltac:(discriminate) Hl)
    as [(found & ps & Hp & Hc & _)|Hc]; [left; exists found, ps; split; [exact Hp|exact Hc]|right; exact Hc].
Defined.
Lemma resume_latest_witness :
  let db := run [] (checkpoint Witness.service Witness.noon "03" Witness.scope "s" "w" "worker" "go on" ["ctx_01"]
    (run Witness.two_notes empty_database)).2 in
  resume Witness.service Witness.later Witness.scope db =
    Ok {| b_hint := "go on"; b_checkpoint_id := Some (r_checkpoint_id Witness.checkpoint_receipt); b_item_refs := [PStr "ctx_01"] |}.
Proof.
  assert ((checkpoint Witness.service Witness.noon "03" Witness.scope "s" "w" "worker" "go on" ["ctx_01"]
    (run Witness.two_notes empty_database)).1 = Ok Witness.checkpoint_receipt) as E by (vm_compute; reflexivity).
  assert (expired Witness.service Witness.later Witness.noon = false) as Hx by (vm_compute; reflexivity).
  apply (resume_latest Witness.two_notes Witness.service Witness.noon "03" Witness.scope "s" "w" "worker" "go on" ["ctx_01"]
    Witness.checkpoint_receipt [] Witness.service Witness.later E eq_refl Hx).
  intros c Hc _ Hn. exfalso. apply Hn.
  assert (map checkpoint_id (checkpoints (run [] (checkpoint Witness.service Witness.noon "03" Witness.scope "s" "w" "worker" "go on" ["ctx_01"]
    (run Witness.two_notes empty_database)).2)) = [r_checkpoint_id Witness.checkpoint_receipt]) as Em by (vm_compute; reflexivity).
  pose proof (in_map checkpoint_id _ c (proj1 (list_elem_of_In _ _) Hc)) as Hm. rewrite Em in Hm.
  destruct Hm as [Hm|[]]. symmetry. exact Hm.
Defined.
Lemma store_bounded_witness : (stored_in (scope_hash Witness.scope) (run Witness.two_notes empty_database) ≤ 2)%Z.
Proof.
  refine (proj1 (store_bounded 2 Witness.two_notes _ _) (scope_hash Witness.scope)); [lia|].
  repeat (apply Forall_cons; split; [exists 2%Z; split; [reflexivity|lia]|]). apply Forall_nil. exact I.
Defined.
